(** * Attached rule groups (pmf_att_rlgrp.c): a shallow embedding

    The ACL attachment controller of the dataplane keeps, for every
    (interface, direction) ruleset, the rule groups attached to it and
    mirrors them into the hardware layer.  This file embeds the C code of
    [src/npf/config/pmf_att_rlgrp.c] as state-passing functions and proves
    properties of the group publication state machine, the rule reconciler,
    the counter list and the op-mode commands.

    Conventions.
    - C integers are [Z] with the wrap-around of their width written out.
    - A [TAILQ] of heap objects is a list of (address, struct) pairs in
      queue order; a pointer is an address, [NULL] is [None].
    - The file-scope variables [deferrals] and [commit_pending], the
      hardware layer and the allocator form the record [glob], which every
      mutating function threads.
    - The GPC database ([gpc_group_*], [gpc_rule_*], [gpc_cntr_*],
      [gpc_cntg_*], [gpc_rlset_*]) and the hardware layer ([pmf_hw_*]) are
      other compilation units; their definitions here are marked
      "Modelled from the spec". *)

From Stdlib Require Import ZArith List Bool String Ascii Lia DecimalString.
From Stdlib Require DecimalPos DecimalN.
Import ListNotations.
Local Open Scope Z_scope.

(* ------------------------------------------------------------------ *)
(** ** Machine integers and flag words *)

Definition UINT32_MAX : Z := 4294967295.
Definition EIO : Z := 5.

Definition u16 (z : Z) : Z := z mod 65536.
Definition u32 (z : Z) : Z := z mod 4294967296.

(** [flags & mask] used as a truth value. *)
Definition flag_test (flags mask : Z) : bool := negb (Z.land flags mask =? 0).
(** [flags |= mask]. *)
Definition flag_set (flags mask : Z) : Z := Z.lor flags mask.
(** [flags &= ~mask]. *)
Definition flag_clear (flags mask : Z) : Z := Z.land flags (Z.lnot mask).

Definition addr := nat.

(** [strcmp(a, b) == 0]. *)
Definition streq (a b : string) : bool := String.eqb a b.

(** [snprintf(buf, size, "%s", s)]: at most [size - 1] characters. *)
Definition snprintf_s (size : Z) (s : string) : string :=
  substring 0 (Z.to_nat (size - 1)) s.

(** [snprintf(buf, size, "%u", n)]. *)
Definition snprintf_u (size : Z) (n : Z) : string :=
  snprintf_s size (NilZero.string_of_uint (N.to_uint (Z.to_N n))).

(* ------------------------------------------------------------------ *)
(** ** Data model *)

Definition CNTR_NAME_LEN : Z := 8.

(** [enum pmf_eark_flags] *)
Definition PMF_EARKF_PUBLISHED : Z := 1.
Definition PMF_EARKF_LL_CREATED : Z := 2.
Definition PMF_EARKF_CNT_PACKET : Z := 4.
Definition PMF_EARKF_CNT_BYTE : Z := 8.
Definition PMF_EARKF_TYPE_NAMED : Z := 16.

(** [struct pmf_cntr]; the list linkage is the position in [earg_cntrs],
    the back pointer [eark_group] is the enclosing group. *)
Record pmf_cntr : Type := mk_pmf_cntr {
  eark_name : string;
  eark_objid : Z;
  eark_flags : Z;
  eark_refcount : Z
}.

(** [enum pmf_earg_flags] *)
Definition PMF_EARGF_RULE_ATTR : Z := 1.

(** [struct pmf_attr_ip_family] and the part of [struct pmf_rule] this
    file reads: the action summary and the address family match, a pointer
    that is [NULL] when the rule names no family. *)
Record pmf_attr_ip_family : Type := mk_ipfam { pm_v6 : bool }.

Record pmf_rule : Type := mk_pmf_rule {
  pp_summary : Z;
  pp_match_ipfam : option pmf_attr_ip_family
}.

(** The summary bits of [pmf_rule.h], whose values this file does not
    depend on. *)
Record pmf_ras : Type := mk_pmf_ras {
  PMF_RAS_DROP : Z;
  PMF_RAS_PASS : Z;
  PMF_RAS_COUNT_DEF : Z;
  PMF_RAS_COUNT_DEF_PASS : Z;
  PMF_RAS_COUNT_DEF_DROP : Z;
  PMF_RAS_COUNT_REF : Z;
  PMF_SUMMARY_COUNT_DEF_NAMED_FLAGS : Z
}.

(** Modelled from the spec: [enum gpc_cntr_type], the type of a
    Counter-Group, "NUMBERED or NAMED". *)
Inductive gpc_cntr_type : Type := GPC_CNTT_NUMBERED | GPC_CNTT_NAMED.

Definition gpc_cntr_type_eqb (a b : gpc_cntr_type) : bool :=
  match a, b with
  | GPC_CNTT_NUMBERED, GPC_CNTT_NUMBERED => true
  | GPC_CNTT_NAMED, GPC_CNTT_NAMED => true
  | _, _ => false
  end.

(** Modelled from the spec: [enum gpc_feature]; the groups of this file
    are "ACL-class", the others stand for any other feature. *)
Inductive gpc_feature : Type := GPC_FEAT_ACL | GPC_FEAT_QOS.

Definition gpc_feature_is_acl (f : gpc_feature) : bool :=
  match f with GPC_FEAT_ACL => true | GPC_FEAT_QOS => false end.

(** Modelled from the spec: the GPC counter ([struct gpc_cntr] is absent),
    "identified by a short name", "reference-counted by the rules that use
    it", with "published flag, low-level-created flag". *)
Record gpc_cntr : Type := mk_gpc_cntr {
  cntr_name : string;
  cntr_refcount : Z;
  cntr_published : bool;
  cntr_ll_created : bool
}.

(** Modelled from the spec: the Counter-Group ([struct gpc_cntg] is
    absent), which "has a type - NUMBERED or NAMED - fixed at creation" and
    "owns the set of Counters". *)
Record gpc_cntg : Type := mk_gpc_cntg {
  cntg_type : gpc_cntr_type;
  cntg_cntrs : list gpc_cntr
}.

(** Modelled from the spec: the GPC rule ([struct gpc_rule] is absent),
    "keyed by an index unique within the group", holding "the compiled
    match/action description and a weak reference to an associated
    Counter"; [gprl_owner] is the pointer read and written by
    [gpc_rule_get_owner] and [gpc_rule_hack_owner]. *)
Record gpc_rule : Type := mk_gpc_rule {
  gprl_index : Z;
  gprl_rule : option pmf_rule;
  gprl_cntr : option string;
  gprl_owner : option addr;
  gprl_published : bool
}.

(** Modelled from the spec: the GPC group ([struct gpc_group] is absent)
    with its "state flags: published, attached, deferred,
    has-address-family, address-family value" ([gprg_family] is [None]
    without a family, [Some true] for IPv6), its derived summary, its
    optional Counter-Group and its ordered rules. *)
Record gpc_group : Type := mk_gpc_group {
  gprg_name : string;
  gprg_feature : gpc_feature;
  gprg_summary : Z;
  gprg_published : bool;
  gprg_attached : bool;
  gprg_deferred : bool;
  gprg_family : option bool;
  gprg_cntg : option gpc_cntg;
  gprg_rules : list gpc_rule
}.

(** [struct pmf_group_ext]; [earg_gprg] is a strong reference, so the
    group is nested; [earg_base] points back to the attach point group. *)
Record pmf_group_ext : Type := mk_pmf_group_ext {
  earg_gprg : gpc_group;
  earg_cntrs : list (addr * pmf_cntr);
  earg_attr_rule : option pmf_rule;
  earg_num_rules : Z;
  earg_flags : Z
}.

(** Modelled from the spec: the ruleset ([struct gpc_rlset] is absent),
    "one per (interface, direction)", which "owns an ordered collection of
    Groups" and "tracks whether the underlying interface object exists and
    whether it is currently up"; [gprs_ifp] is the live interface pointer. *)
Record gpc_rlset : Type := mk_gpc_rlset {
  gprs_ifname : string;
  gprs_is_ingress : bool;
  gprs_ifp : option Z;
  gprs_if_created : bool;
  gprs_groups : list pmf_group_ext
}.

(** Modelled from the spec: the "one-way notification calls" into the
    hardware layer, "group create/modify/delete/attach/detach, rule
    create/delete, counter create/delete/read/clear", in the order made. *)
Inductive hw_ntfy : Type :=
| NtfyGroupCreate (grp : string)
| NtfyGroupModify (grp : string) (summary : Z)
| NtfyGroupDelete (grp : string)
| NtfyGroupAttach (grp : string)
| NtfyGroupDetach (grp : string)
| NtfyRulesCreate (grp : string)
| NtfyRulesDelete (grp : string)
| NtfyRuleCreate (grp : string) (idx : Z)
| NtfyRuleDelete (grp : string) (idx : Z)
| NtfyCntrsCreate (grp : string)
| NtfyCntrsDelete (grp : string)
| NtfyCntrCreate (grp : string) (cntr : string)
| NtfyCntrDelete (grp : string) (cntr : string)
| HwCounterCreate (eark : addr)
| HwCounterDelete (eark : addr)
| HwCounterClear (eark : addr).

(** The file-scope state: the two static flags of the file, the
    notifications queued at the hardware layer since the last commit, the
    batches already flushed, and the allocator (the outcomes of the coming
    allocations, an exhausted list meaning success, and the next fresh
    address). *)
Record glob : Type := mk_glob {
  deferrals : bool;
  commit_pending : bool;
  hw_queue : list hw_ntfy;
  hw_flushed : list (list hw_ntfy);
  allocs : list bool;
  heap_next : addr
}.

(** Modelled from the spec: what the hardware layer answers to
    [pmf_hw_counter_create], [pmf_hw_counter_clear] and
    [pmf_hw_counter_read] on a counter of [earg_cntrs] and to the creation
    of a counter of a Counter-Group, "each assumed to succeed or fail
    independently". *)
Record pmf_hw : Type := mk_pmf_hw {
  pmf_hw_counter_create : addr -> bool;
  pmf_hw_counter_clear : addr -> bool;
  pmf_hw_counter_read : addr -> option (Z * Z);
  pmf_hw_cntr_create : string -> bool
}.

(* ------------------------------------------------------------------ *)
(** ** Field updates *)

Definition eark_with_flags (f : Z) (k : pmf_cntr) : pmf_cntr :=
  mk_pmf_cntr (eark_name k) (eark_objid k) f (eark_refcount k).
Definition eark_with_refcount (r : Z) (k : pmf_cntr) : pmf_cntr :=
  mk_pmf_cntr (eark_name k) (eark_objid k) (eark_flags k) r.
Definition eark_with_objid (o : Z) (k : pmf_cntr) : pmf_cntr :=
  mk_pmf_cntr (eark_name k) o (eark_flags k) (eark_refcount k).

Definition gprg_with_summary (v : Z) (g : gpc_group) : gpc_group :=
  mk_gpc_group (gprg_name g) (gprg_feature g) v (gprg_published g)
    (gprg_attached g) (gprg_deferred g) (gprg_family g) (gprg_cntg g)
    (gprg_rules g).
Definition gprg_with_published (v : bool) (g : gpc_group) : gpc_group :=
  mk_gpc_group (gprg_name g) (gprg_feature g) (gprg_summary g) v
    (gprg_attached g) (gprg_deferred g) (gprg_family g) (gprg_cntg g)
    (gprg_rules g).
Definition gprg_with_attached (v : bool) (g : gpc_group) : gpc_group :=
  mk_gpc_group (gprg_name g) (gprg_feature g) (gprg_summary g)
    (gprg_published g) v (gprg_deferred g) (gprg_family g) (gprg_cntg g)
    (gprg_rules g).
Definition gprg_with_deferred (v : bool) (g : gpc_group) : gpc_group :=
  mk_gpc_group (gprg_name g) (gprg_feature g) (gprg_summary g)
    (gprg_published g) (gprg_attached g) v (gprg_family g) (gprg_cntg g)
    (gprg_rules g).
Definition gprg_with_family (v : option bool) (g : gpc_group) : gpc_group :=
  mk_gpc_group (gprg_name g) (gprg_feature g) (gprg_summary g)
    (gprg_published g) (gprg_attached g) (gprg_deferred g) v (gprg_cntg g)
    (gprg_rules g).
Definition gprg_with_cntg (v : option gpc_cntg) (g : gpc_group) : gpc_group :=
  mk_gpc_group (gprg_name g) (gprg_feature g) (gprg_summary g)
    (gprg_published g) (gprg_attached g) (gprg_deferred g) (gprg_family g) v
    (gprg_rules g).
Definition gprg_with_rules (v : list gpc_rule) (g : gpc_group) : gpc_group :=
  mk_gpc_group (gprg_name g) (gprg_feature g) (gprg_summary g)
    (gprg_published g) (gprg_attached g) (gprg_deferred g) (gprg_family g)
    (gprg_cntg g) v.

Definition earg_with_gprg (v : gpc_group) (e : pmf_group_ext) : pmf_group_ext :=
  mk_pmf_group_ext v (earg_cntrs e) (earg_attr_rule e) (earg_num_rules e)
    (earg_flags e).
Definition earg_with_cntrs (v : list (addr * pmf_cntr)) (e : pmf_group_ext)
  : pmf_group_ext :=
  mk_pmf_group_ext (earg_gprg e) v (earg_attr_rule e) (earg_num_rules e)
    (earg_flags e).
Definition earg_with_attr_rule (v : option pmf_rule) (e : pmf_group_ext)
  : pmf_group_ext :=
  mk_pmf_group_ext (earg_gprg e) (earg_cntrs e) v (earg_num_rules e)
    (earg_flags e).
Definition earg_with_num_rules (v : Z) (e : pmf_group_ext) : pmf_group_ext :=
  mk_pmf_group_ext (earg_gprg e) (earg_cntrs e) (earg_attr_rule e) v
    (earg_flags e).
Definition earg_with_flags (v : Z) (e : pmf_group_ext) : pmf_group_ext :=
  mk_pmf_group_ext (earg_gprg e) (earg_cntrs e) (earg_attr_rule e)
    (earg_num_rules e) v.

Definition gprs_with_ifp (v : option Z) (s : gpc_rlset) : gpc_rlset :=
  mk_gpc_rlset (gprs_ifname s) (gprs_is_ingress s) v (gprs_if_created s)
    (gprs_groups s).
Definition gprs_with_if_created (v : bool) (s : gpc_rlset) : gpc_rlset :=
  mk_gpc_rlset (gprs_ifname s) (gprs_is_ingress s) (gprs_ifp s) v
    (gprs_groups s).
Definition gprs_with_groups (v : list pmf_group_ext) (s : gpc_rlset) : gpc_rlset :=
  mk_gpc_rlset (gprs_ifname s) (gprs_is_ingress s) (gprs_ifp s)
    (gprs_if_created s) v.

Definition glob_with_deferrals (v : bool) (g : glob) : glob :=
  mk_glob v (commit_pending g) (hw_queue g) (hw_flushed g) (allocs g)
    (heap_next g).
Definition glob_with_commit_pending (v : bool) (g : glob) : glob :=
  mk_glob (deferrals g) v (hw_queue g) (hw_flushed g) (allocs g)
    (heap_next g).

(** A notification call: appended to the queue of the hardware layer. *)
Definition hw_emit (n : hw_ntfy) (g : glob) : glob :=
  mk_glob (deferrals g) (commit_pending g) (hw_queue g ++ [n]) (hw_flushed g)
    (allocs g) (heap_next g).

(** [calloc]: the outcome comes from the allocator, a fresh address on
    success. *)
Definition calloc (g : glob) : option addr * glob :=
  match allocs g with
  | false :: rest =>
      (None, mk_glob (deferrals g) (commit_pending g) (hw_queue g)
               (hw_flushed g) rest (heap_next g))
  | true :: rest =>
      (Some (heap_next g),
       mk_glob (deferrals g) (commit_pending g) (hw_queue g) (hw_flushed g)
         rest (S (heap_next g)))
  | [] =>
      (Some (heap_next g),
       mk_glob (deferrals g) (commit_pending g) (hw_queue g) (hw_flushed g)
         [] (S (heap_next g)))
  end.

(* ------------------------------------------------------------------ *)
(** ** Accessors of the old counter interface *)

(** [gpc_cntr_old_get_objid]: the argument is the pointer, dereferenced. *)
Definition gpc_cntr_old_get_objid (ark : option pmf_cntr) : Z :=
  match ark with
  | None => 0
  | Some eark => eark_objid eark
  end.

Definition gpc_cntr_old_pkt_enabled (eark : pmf_cntr) : bool :=
  flag_test (eark_flags eark) PMF_EARKF_CNT_PACKET.

Definition gpc_cntr_old_byt_enabled (eark : pmf_cntr) : bool :=
  flag_test (eark_flags eark) PMF_EARKF_CNT_BYTE.

(* ------------------------------------------------------------------ *)
(** ** The counter list of a group *)

(** Reading and writing through a counter pointer. *)
Fixpoint cntr_deref (cntrs : list (addr * pmf_cntr)) (a : addr)
  : option pmf_cntr :=
  match cntrs with
  | [] => None
  | (b, k) :: rest => if Nat.eqb a b then Some k else cntr_deref rest a
  end.

Fixpoint cntr_store (cntrs : list (addr * pmf_cntr)) (a : addr) (v : pmf_cntr)
  : list (addr * pmf_cntr) :=
  match cntrs with
  | [] => []
  | (b, k) :: rest =>
      if Nat.eqb a b then (b, v) :: rest else (b, k) :: cntr_store rest a v
  end.

(** [TAILQ_REMOVE] *)
Fixpoint tailq_remove (cntrs : list (addr * pmf_cntr)) (a : addr)
  : list (addr * pmf_cntr) :=
  match cntrs with
  | [] => []
  | (b, k) :: rest =>
      if Nat.eqb a b then rest else (b, k) :: tailq_remove rest a
  end.

(** [pmf_arlg_find_cntr]: [TAILQ_FOREACH] with [strcmp]. *)
Fixpoint find_cntr_in (cntrs : list (addr * pmf_cntr)) (name : string)
  : option addr :=
  match cntrs with
  | [] => None
  | (a, eark) :: rest =>
      if streq name (eark_name eark) then Some a else find_cntr_in rest name
  end.

Definition pmf_arlg_find_cntr (earg : pmf_group_ext) (name : string)
  : option addr :=
  find_cntr_in (earg_cntrs earg) name.

(** [pmf_arlg_cntr_refcount_inc]: [eark->eark_refcount++] on a [uint16_t]. *)
Definition pmf_arlg_cntr_refcount_inc (eark : pmf_cntr) : pmf_cntr :=
  eark_with_refcount (u16 (eark_refcount eark + 1)) eark.

(** [pmf_arlg_cntr_refcount_dec]: [--eark->eark_refcount > 0]. *)
Definition pmf_arlg_cntr_refcount_dec (eark : pmf_cntr) : bool * pmf_cntr :=
  let eark' := eark_with_refcount (u16 (eark_refcount eark - 1)) eark in
  (0 <? eark_refcount eark', eark').

(** [pmf_arlg_alloc_cntr]: a zeroed counter named by [snprintf], inserted
    at the head of the list. *)
Definition pmf_arlg_alloc_cntr (earg : pmf_group_ext) (name : string) (g : glob)
  : option addr * pmf_group_ext * glob :=
  match calloc g with
  | (None, g1) => (None, earg, g1)
  | (Some a, g1) =>
      let eark := mk_pmf_cntr (snprintf_s CNTR_NAME_LEN name) 0 0 0 in
      (Some a, earg_with_cntrs ((a, eark) :: earg_cntrs earg) earg, g1)
  end.

(** [pmf_arlg_free_cntr] with both pointers non-null. *)
Definition pmf_arlg_free_cntr (earg : pmf_group_ext) (a : addr)
  : pmf_group_ext :=
  earg_with_cntrs (tailq_remove (earg_cntrs earg) a) earg.

(** Applies [f] to the counter at [a]. *)
Definition eark_update (earg : pmf_group_ext) (a : addr)
  (f : pmf_cntr -> pmf_cntr) : pmf_group_ext :=
  match cntr_deref (earg_cntrs earg) a with
  | None => earg
  | Some k => earg_with_cntrs (cntr_store (earg_cntrs earg) a (f k)) earg
  end.

(** [pmf_arlg_get_or_alloc_cntr] *)
Definition pmf_arlg_get_or_alloc_cntr (earg : pmf_group_ext) (name : string)
  (g : glob) : option addr * pmf_group_ext * glob :=
  match pmf_arlg_find_cntr earg name with
  | Some a => (Some a, eark_update earg a pmf_arlg_cntr_refcount_inc, g)
  | None =>
      match pmf_arlg_alloc_cntr earg name g with
      | (None, earg1, g1) => (None, earg1, g1)
      | (Some a, earg1, g1) =>
          (Some a, eark_update earg1 a pmf_arlg_cntr_refcount_inc, g1)
      end
  end.

(** [pmf_arlg_alloc_numbered_cntr]; [rule_index] is the index of the rule. *)
Definition pmf_arlg_alloc_numbered_cntr (earg : pmf_group_ext) (rule_index : Z)
  (g : glob) : option addr * pmf_group_ext * glob :=
  let eark_name := snprintf_u CNTR_NAME_LEN rule_index in
  match pmf_arlg_find_cntr earg eark_name with
  | Some _ => (None, earg, g)
  | None =>
      match pmf_arlg_alloc_cntr earg eark_name g with
      | (None, earg1, g1) => (None, earg1, g1)
      | (Some a, earg1, g1) =>
          (Some a, eark_update earg1 a pmf_arlg_cntr_refcount_inc, g1)
      end
  end.

(** [pmf_arlg_get_or_alloc_named_cntr] *)
Definition pmf_arlg_get_or_alloc_named_cntr (earg : pmf_group_ext)
  (name : string) (g : glob) : option addr * pmf_group_ext * glob :=
  match pmf_arlg_get_or_alloc_cntr earg name g with
  | (None, earg1, g1) => (None, earg1, g1)
  | (Some a, earg1, g1) =>
      (Some a,
       eark_update earg1 a (fun eark =>
         if negb (flag_test (eark_flags eark) PMF_EARKF_PUBLISHED)
         then eark_with_flags (flag_set (eark_flags eark) PMF_EARKF_TYPE_NAMED) eark
         else eark),
       g1)
  end.

Definition pmf_arlg_get_or_alloc_action_cntr_accept (earg : pmf_group_ext)
  (g : glob) : option addr * pmf_group_ext * glob :=
  pmf_arlg_get_or_alloc_named_cntr earg "accept"%string g.

Definition pmf_arlg_get_or_alloc_action_cntr_drop (earg : pmf_group_ext)
  (g : glob) : option addr * pmf_group_ext * glob :=
  pmf_arlg_get_or_alloc_named_cntr earg "drop"%string g.

(* ------------------------------------------------------------------ *)
(** ** The GPC database, as far as this file calls it *)

(** Modelled from the spec: [gpc_group_is_published], the "published
    (visible to hardware)" flag. *)
Definition gpc_group_is_published (gprg : gpc_group) : bool := gprg_published gprg.

(** Modelled from the spec: [gpc_group_is_attached], the "attached (bound to
    an interface)" flag. *)
Definition gpc_group_is_attached (gprg : gpc_group) : bool := gprg_attached gprg.

(** Modelled from the spec: [gpc_group_is_deferred], the "deferred (publish
    requested but blocked)" flag. *)
Definition gpc_group_is_deferred (gprg : gpc_group) : bool := gprg_deferred gprg.

(** Modelled from the spec: [gpc_group_set_deferred], marking the group "for
    deferred republish". *)
Definition gpc_group_set_deferred (gprg : gpc_group) : gpc_group :=
  gprg_with_deferred true gprg.

(** Modelled from the spec: [gpc_group_clear_deferred], clearing "the
    deferred mark". *)
Definition gpc_group_clear_deferred (gprg : gpc_group) : gpc_group :=
  gprg_with_deferred false gprg.

(** Modelled from the spec: [gpc_group_has_family], the "has-address-family"
    flag. *)
Definition gpc_group_has_family (gprg : gpc_group) : bool :=
  match gprg_family gprg with Some _ => true | None => false end.

(** Modelled from the spec: [gpc_group_is_v6], the "address-family value".
    *)
Definition gpc_group_is_v6 (gprg : gpc_group) : bool :=
  match gprg_family gprg with Some v6 => v6 | None => false end.

(** Modelled from the spec: [gpc_group_set_v4], setting the "group's
    family/AF" to IPv4. *)
Definition gpc_group_set_v4 (gprg : gpc_group) : gpc_group :=
  gprg_with_family (Some false) gprg.

(** Modelled from the spec: [gpc_group_set_v6], setting the "group's
    family/AF" to IPv6. *)
Definition gpc_group_set_v6 (gprg : gpc_group) : gpc_group :=
  gprg_with_family (Some true) gprg.

(** Modelled from the spec: [gpc_group_clear_family], clearing "the recorded
    address family". *)
Definition gpc_group_clear_family (gprg : gpc_group) : gpc_group :=
  gprg_with_family None gprg.

(** Modelled from the spec: [gpc_group_get_cntg], the group's "optionally
    one Counter-Group". *)
Definition gpc_group_get_cntg (gprg : gpc_group) : option gpc_cntg := gprg_cntg gprg.

(** Modelled from the spec: [gpc_group_set_cntg], replacing the group's
    Counter-Group. *)
Definition gpc_group_set_cntg (gprg : gpc_group) (cntg : option gpc_cntg)
  : gpc_group := gprg_with_cntg cntg gprg.

(** Modelled from the spec: [gpc_group_get_summary], the group's "bitfield
    summary". *)
Definition gpc_group_get_summary (gprg : gpc_group) : Z := gprg_summary gprg.

(** Modelled from the spec: [gpc_group_get_name], the name of the rule
    group. *)
Definition gpc_group_get_name (gprg : gpc_group) : string := gprg_name gprg.

(** Modelled from the spec: [gpc_group_get_feature], the feature the group
    belongs to, ACL for the groups of this file. *)
Definition gpc_group_get_feature (gprg : gpc_group) : gpc_feature := gprg_feature gprg.

(** Modelled from the spec: [gpc_rlset_get_ifp], "the live interface handle"
    of the ruleset. *)
Definition gpc_rlset_get_ifp (gprs : gpc_rlset) : option Z := gprs_ifp gprs.

(** Modelled from the spec: [gpc_rlset_is_if_created], whether "the
    underlying interface object exists". *)
Definition gpc_rlset_is_if_created (gprs : gpc_rlset) : bool := gprs_if_created gprs.

(** Modelled from the spec: [gpc_rlset_set_if_created], marking the ruleset
    "interface created". *)
Definition gpc_rlset_set_if_created (gprs : gpc_rlset) : gpc_rlset :=
  gprs_with_if_created true gprs.

(** Modelled from the spec: [gpc_rlset_clear_ifp], unbinding "the interface
    reference". *)
Definition gpc_rlset_clear_ifp (gprs : gpc_rlset) : gpc_rlset :=
  gprs_with_ifp None gprs.

(** Modelled from the spec: [gpc_rlset_is_ingress], the direction of the
    ruleset. *)
Definition gpc_rlset_is_ingress (gprs : gpc_rlset) : bool := gprs_is_ingress gprs.

(** Modelled from the spec: [gpc_rlset_get_ifname], the interface name of
    the ruleset. *)
Definition gpc_rlset_get_ifname (gprs : gpc_rlset) : string := gprs_ifname gprs.

(** *** Rules of a group; a rule pointer is the rule's index *)

Fixpoint rule_lookup (rules : list gpc_rule) (idx : Z) : option gpc_rule :=
  match rules with
  | [] => None
  | r :: rest => if gprl_index r =? idx then Some r else rule_lookup rest idx
  end.

Fixpoint rule_update (rules : list gpc_rule) (idx : Z)
  (f : gpc_rule -> gpc_rule) : list gpc_rule :=
  match rules with
  | [] => []
  | r :: rest =>
      if gprl_index r =? idx then f r :: rest
      else r :: rule_update rest idx f
  end.

Fixpoint rule_remove (rules : list gpc_rule) (idx : Z) : list gpc_rule :=
  match rules with
  | [] => []
  | r :: rest =>
      if gprl_index r =? idx then rest else r :: rule_remove rest idx
  end.

(** Modelled from the spec: [gpc_rule_find], lookup by the "index unique
    within the group"; the result is the rule pointer. *)
Definition gpc_rule_find (gprg : gpc_group) (rl_idx : Z) : option Z :=
  match rule_lookup (gprg_rules gprg) rl_idx with
  | Some _ => Some rl_idx
  | None => None
  end.

(** Modelled from the spec: [gpc_rule_create], which allocates the Rule at
    the end of the group's ordered collection and can fail on "resource
    exhaustion". *)
Definition gpc_rule_create (gprg : gpc_group) (rl_idx : Z) (g : glob)
  : option Z * gpc_group * glob :=
  match calloc g with
  | (None, g1) => (None, gprg, g1)
  | (Some _, g1) =>
      (Some rl_idx,
       gprg_with_rules
         (gprg_rules gprg ++ [mk_gpc_rule rl_idx None None None false]) gprg,
       g1)
  end.

(** Modelled from the spec: [gpc_rule_delete], "deletes the Rule object". *)
Definition gpc_rule_delete (gprg : gpc_group) (gprl : Z) : gpc_group :=
  gprg_with_rules (rule_remove (gprg_rules gprg) gprl) gprg.

(** Modelled from the spec: [gpc_rule_last], the last rule of the ordered
    collection. *)
Definition gpc_rule_last (gprg : gpc_group) : option Z :=
  match rev (gprg_rules gprg) with
  | [] => None
  | r :: _ => Some (gprl_index r)
  end.

(** Modelled from the spec: [gpc_rule_get_cntr], the rule's "weak reference
    to an associated Counter". *)
Definition gpc_rule_get_cntr (gprg : gpc_group) (gprl : Z) : option string :=
  match rule_lookup (gprg_rules gprg) gprl with
  | Some r => gprl_cntr r
  | None => None
  end.

(** Modelled from the spec: [gpc_rule_set_cntr], attaching "the counter
    reference" to the rule. *)
Definition gpc_rule_set_cntr (gprg : gpc_group) (gprl : Z)
  (cntr : option string) : gpc_group :=
  gprg_with_rules
    (rule_update (gprg_rules gprg) gprl (fun r =>
       mk_gpc_rule (gprl_index r) (gprl_rule r) cntr (gprl_owner r)
         (gprl_published r)))
    gprg.

(** Modelled from the spec: [gpc_rule_get_owner], the owner pointer of the
    rule, used by the old counter interface. *)
Definition gpc_rule_get_owner (gprg : gpc_group) (gprl : Z) : option addr :=
  match rule_lookup (gprg_rules gprg) gprl with
  | Some r => gprl_owner r
  | None => None
  end.

(** Modelled from the spec: [gpc_rule_hack_owner], writing the owner pointer
    of the rule. *)
Definition gpc_rule_hack_owner (gprg : gpc_group) (gprl : Z)
  (owner : option addr) : gpc_group :=
  gprg_with_rules
    (rule_update (gprg_rules gprg) gprl (fun r =>
       mk_gpc_rule (gprl_index r) (gprl_rule r) (gprl_cntr r) owner
         (gprl_published r)))
    gprg.

(** Modelled from the spec: [gpc_rule_get_rule], the rule's "compiled
    match/action description". *)
Definition gpc_rule_get_rule (gprg : gpc_group) (gprl : Z) : option pmf_rule :=
  match rule_lookup (gprg_rules gprg) gprl with
  | Some r => gprl_rule r
  | None => None
  end.

Definition gprl_set_published (v : bool) (r : gpc_rule) : gpc_rule :=
  mk_gpc_rule (gprl_index r) (gprl_rule r) (gprl_cntr r) (gprl_owner r) v.

(** Modelled from the spec: [gpc_group_recalc_summary], the "bitfield
    summary (derived, not authoritative) recomputed from all rules' own
    summaries", the attribute rule's included. *)
Definition gpc_group_recalc_summary (gprg : gpc_group)
  (attr_rule : option pmf_rule) : Z :=
  fold_right
    (fun r acc =>
       match gprl_rule r with
       | Some rule => Z.lor (pp_summary rule) acc
       | None => acc
       end)
    (match attr_rule with Some rule => pp_summary rule | None => 0 end)
    (gprg_rules gprg).

(** *** Hardware notifications of the group

    Each call is queued at the hardware layer; its effect on the flags is
    modelled from the spec. *)

(** Modelled from the spec: [gpc_group_hw_ntfy_create], "notify hardware
    create-group".  Publication is blocked while the group has no address
    family ("may re-defer if still blocked (e.g., address family still
    missing)") and while "its backing interface does not yet exist at the
    hardware layer"; the callers say the same: "could be blocked by lack
    of address family", and the attach events "may arrive before the
    interface exists, so we will have to listen for interface creation
    events in order to eventually notify to the platform". *)
Definition gpc_group_hw_ntfy_create (gprs : gpc_rlset) (gprg : gpc_group)
  (attr_rule : option pmf_rule) (g : glob) : gpc_group * glob :=
  let g1 := hw_emit (NtfyGroupCreate (gprg_name gprg)) g in
  if gprs_if_created gprs && gpc_group_has_family gprg
     && negb (gprg_published gprg)
  then (gprg_with_published true
          (gprg_with_summary (gpc_group_recalc_summary gprg attr_rule) gprg),
        g1)
  else (gprg, g1).

(** Modelled from the spec: [gpc_group_hw_ntfy_delete], "delete group
    object"; the group is no longer visible to hardware. *)
Definition gpc_group_hw_ntfy_delete (gprg : gpc_group) (g : glob)
  : gpc_group * glob :=
  let g1 := hw_emit (NtfyGroupDelete (gprg_name gprg)) g in
  if gprg_published gprg
  then (gprg_with_published false (gprg_with_summary 0 gprg), g1)
  else (gprg, g1).

(** Modelled from the spec: [gpc_group_hw_ntfy_attach], "notify attach";
    "a group may be attached to an interface independent of being
    published (attachment toggles with interface up/down)" and "the
    notification must always be able to assume an interface reference is
    present". *)
Definition gpc_group_hw_ntfy_attach (gprs : gpc_rlset) (gprg : gpc_group)
  (g : glob) : gpc_group * glob :=
  let g1 := hw_emit (NtfyGroupAttach (gprg_name gprg)) g in
  match gprs_ifp gprs with
  | Some _ => (gprg_with_attached true gprg, g1)
  | None => (gprg, g1)
  end.

(** Modelled from the spec: [gpc_group_hw_ntfy_detach], "notify hardware
    detach". *)
Definition gpc_group_hw_ntfy_detach (gprg : gpc_group) (g : glob)
  : gpc_group * glob :=
  (gprg_with_attached false gprg,
   hw_emit (NtfyGroupDetach (gprg_name gprg)) g).

(** Modelled from the spec: [gpc_group_hw_ntfy_modify], the "update
    notification" carrying the recomputed summary. *)
Definition gpc_group_hw_ntfy_modify (gprg : gpc_group) (summary : Z) (g : glob)
  : gpc_group * glob :=
  (gprg_with_summary summary gprg,
   hw_emit (NtfyGroupModify (gprg_name gprg) summary) g).

(** Modelled from the spec: [gpc_group_hw_ntfy_rules_create], "create all
    rules" of a group visible to hardware. *)
Definition gpc_group_hw_ntfy_rules_create (gprg : gpc_group) (g : glob)
  : gpc_group * glob :=
  let g1 := hw_emit (NtfyRulesCreate (gprg_name gprg)) g in
  if gprg_published gprg
  then (gprg_with_rules (map (gprl_set_published true) (gprg_rules gprg)) gprg,
        g1)
  else (gprg, g1).

(** Modelled from the spec: [gpc_group_hw_ntfy_rules_delete], "notify
    hardware bulk rule-delete". *)
Definition gpc_group_hw_ntfy_rules_delete (gprg : gpc_group) (g : glob)
  : gpc_group * glob :=
  (gprg_with_rules (map (gprl_set_published false) (gprg_rules gprg)) gprg,
   hw_emit (NtfyRulesDelete (gprg_name gprg)) g).

(** Modelled from the spec: [gpc_rule_hw_ntfy_delete], "notifies hardware
    deletion" of one rule. *)
Definition gpc_rule_hw_ntfy_delete (gprg : gpc_group) (gprl : Z) (g : glob)
  : gpc_group * glob :=
  (gprg_with_rules
     (rule_update (gprg_rules gprg) gprl (gprl_set_published false)) gprg,
   hw_emit (NtfyRuleDelete (gprg_name gprg) gprl) g).

(** Modelled from the spec: [gpc_rule_change_rule], by which "the
    underlying rule is swapped (old deleted + new created if already
    published, else just stored)"; a group visible to hardware gets the
    rule entry and the rule's summary bits. *)
Definition gpc_rule_change_rule (gprg : gpc_group) (gprl : Z)
  (new_rule : pmf_rule) (g : glob) : gpc_group * glob :=
  let was_published :=
    match rule_lookup (gprg_rules gprg) gprl with
    | Some r => gprl_published r
    | None => false
    end in
  let store r :=
    mk_gpc_rule (gprl_index r) (Some new_rule) (gprl_cntr r) (gprl_owner r)
      (gprg_published gprg) in
  let gprg1 := gprg_with_rules (rule_update (gprg_rules gprg) gprl store) gprg in
  if gprg_published gprg
  then
    let g1 :=
      if was_published
      then hw_emit (NtfyRuleDelete (gprg_name gprg) gprl) g else g in
    (gprg_with_summary (Z.lor (gprg_summary gprg1) (pp_summary new_rule)) gprg1,
     hw_emit (NtfyRuleCreate (gprg_name gprg) gprl) g1)
  else (gprg1, g).

(** *** Counters of the Counter-Group; a counter pointer is its name and a
    Counter-Group pointer is the group's current Counter-Group *)

Fixpoint gcntr_lookup (cs : list gpc_cntr) (name : string) : option gpc_cntr :=
  match cs with
  | [] => None
  | c :: rest =>
      if streq name (cntr_name c) then Some c else gcntr_lookup rest name
  end.

Fixpoint gcntr_update (cs : list gpc_cntr) (name : string)
  (f : gpc_cntr -> gpc_cntr) : list gpc_cntr :=
  match cs with
  | [] => []
  | c :: rest =>
      if streq name (cntr_name c) then f c :: rest
      else c :: gcntr_update rest name f
  end.

Fixpoint gcntr_remove (cs : list gpc_cntr) (name : string) : list gpc_cntr :=
  match cs with
  | [] => []
  | c :: rest =>
      if streq name (cntr_name c) then rest else c :: gcntr_remove rest name
  end.

Definition gcntr_with_refcount (r : Z) (c : gpc_cntr) : gpc_cntr :=
  mk_gpc_cntr (cntr_name c) r (cntr_published c) (cntr_ll_created c).

Definition gprg_with_cntrs (cs : list gpc_cntr) (gprg : gpc_group) : gpc_group :=
  match gprg_cntg gprg with
  | Some cntg => gprg_with_cntg (Some (mk_gpc_cntg (cntg_type cntg) cs)) gprg
  | None => gprg
  end.

Definition gprg_cntrs (gprg : gpc_group) : list gpc_cntr :=
  match gprg_cntg gprg with
  | Some cntg => cntg_cntrs cntg
  | None => []
  end.

(** Modelled from the spec: [gpc_cntg_type], the type of the Counter-Group,
    "NUMBERED or NAMED". *)
Definition gpc_cntg_type (cntg : gpc_cntg) : gpc_cntr_type := cntg_type cntg.

(** Modelled from the spec: [gpc_cntg_create], which creates the
    Counter-Group "of the requested type" and fails on "resource
    exhaustion". *)
Definition gpc_cntg_create (type : gpc_cntr_type) (g : glob)
  : option gpc_cntg * glob :=
  match calloc g with
  | (None, g1) => (None, g1)
  | (Some _, g1) => (Some (mk_gpc_cntg type []), g1)
  end.

(** Modelled from the spec: [gpc_cntg_release], dropping the caller's
    reference to the Counter-Group; the group's own pointer is cleared by
    the [gpc_group_set_cntg] that follows each call. *)
Definition gpc_cntg_release (gprg : gpc_group) : gpc_group := gprg.

(** Modelled from the spec: [gpc_cntr_find_and_retain], "find(name)" by
    "linear scan by name within the owning group's counter list" with the
    reference count incremented "on the hit path". *)
Definition gpc_cntr_find_and_retain (gprg : gpc_group) (name : string)
  : option string * gpc_group :=
  match gcntr_lookup (gprg_cntrs gprg) name with
  | Some c =>
      (Some name,
       gprg_with_cntrs
         (gcntr_update (gprg_cntrs gprg) name
            (gcntr_with_refcount (cntr_refcount c + 1)))
         gprg)
  | None => (None, gprg)
  end.

(** Modelled from the spec: [gpc_cntr_create_named], "get_or_alloc(name)":
    "find-or-create; increments reference count on every call, including
    on the hit path.  Fails (returns null) only on allocation failure". *)
Definition gpc_cntr_create_named (gprg : gpc_group) (name : string) (g : glob)
  : option string * gpc_group * glob :=
  match gcntr_lookup (gprg_cntrs gprg) name with
  | Some c =>
      (Some name,
       gprg_with_cntrs
         (gcntr_update (gprg_cntrs gprg) name
            (gcntr_with_refcount (cntr_refcount c + 1)))
         gprg,
       g)
  | None =>
      match calloc g with
      | (None, g1) => (None, gprg, g1)
      | (Some _, g1) =>
          (Some name,
           gprg_with_cntrs (mk_gpc_cntr name 1 false false :: gprg_cntrs gprg)
             gprg,
           g1)
      end
  end.

(** Modelled from the spec: [gpc_cntr_create_numbered],
    "alloc_numbered(rule)": "creates a counter named after the rule's
    numeric index; fails if one with that name already exists or on
    allocation failure.  Sets reference count to 1". *)
Definition gpc_cntr_create_numbered (gprg : gpc_group) (rl_number : Z)
  (g : glob) : option string * gpc_group * glob :=
  let name := NilZero.string_of_uint (N.to_uint (Z.to_N rl_number)) in
  match gcntr_lookup (gprg_cntrs gprg) name with
  | Some _ => (None, gprg, g)
  | None =>
      match calloc g with
      | (None, g1) => (None, gprg, g1)
      | (Some _, g1) =>
          (Some name,
           gprg_with_cntrs (mk_gpc_cntr name 1 false false :: gprg_cntrs gprg)
             gprg,
           g1)
      end
  end.

(** Modelled from the spec: [gpc_cntr_release], "release(counter)":
    "decrements reference count; if it reaches zero, the counter is
    unlinked from its group and freed (after being removed from hardware
    if previously created).  Returns whether it is still referenced (true)
    or was freed (false)". *)
Definition gpc_cntr_release (gprg : gpc_group) (cntr : string) (g : glob)
  : bool * gpc_group * glob :=
  match gcntr_lookup (gprg_cntrs gprg) cntr with
  | None => (false, gprg, g)
  | Some c =>
      let r := cntr_refcount c - 1 in
      if 0 <? r
      then (true,
            gprg_with_cntrs
              (gcntr_update (gprg_cntrs gprg) cntr (gcntr_with_refcount r))
              gprg,
            g)
      else (false,
            gprg_with_cntrs (gcntr_remove (gprg_cntrs gprg) cntr) gprg,
            if cntr_ll_created c
            then hw_emit (NtfyCntrDelete (gprg_name gprg) cntr) g else g)
  end.

(** [if (cntr) gpc_cntr_release(cntr)] *)
Definition gpc_cntr_release_opt (gprg : gpc_group) (cntr : option string)
  (g : glob) : gpc_group * glob :=
  match cntr with
  | Some c => let '(_, gprg1, g1) := gpc_cntr_release gprg c g in (gprg1, g1)
  | None => (gprg, g)
  end.

(** [GPC_CNTR_FOREACH(cntr, cntg) gpc_cntr_release(cntr)] over the counters
    present when the loop starts. *)
Fixpoint gpc_cntr_foreach_release (names : list string) (gprg : gpc_group)
  (g : glob) : gpc_group * glob :=
  match names with
  | [] => (gprg, g)
  | n :: rest =>
      let '(_, gprg1, g1) := gpc_cntr_release gprg n g in
      gpc_cntr_foreach_release rest gprg1 g1
  end.

(** Modelled from the spec: [gpc_cntr_last], the last Counter of the
    Counter-Group. *)
Definition gpc_cntr_last (gprg : gpc_group) : option string :=
  match rev (gprg_cntrs gprg) with
  | [] => None
  | c :: _ => Some (cntr_name c)
  end.

(** [while (!!(cntr = gpc_cntr_last(cntg))) gpc_cntr_release(cntr)] *)
Fixpoint gpc_cntr_release_while_last (fuel : nat) (gprg : gpc_group) (g : glob)
  : gpc_group * glob :=
  match fuel with
  | O => (gprg, g)
  | S fuel' =>
      match gpc_cntr_last gprg with
      | None => (gprg, g)
      | Some cntr =>
          let '(_, gprg1, g1) := gpc_cntr_release gprg cntr g in
          gpc_cntr_release_while_last fuel' gprg1 g1
      end
  end.

(** The releases the loop above needs: one per reference. *)
Definition gpc_cntr_release_budget (gprg : gpc_group) : nat :=
  fold_right
    (fun c acc => (Z.to_nat (Z.max 1 (cntr_refcount c)) + acc)%nat)
    O (gprg_cntrs gprg).

(** Modelled from the spec: [gpc_cntg_hw_ntfy_cntrs_delete], "delete all
    counters" from hardware. *)
Definition gpc_cntg_hw_ntfy_cntrs_delete (gprg : gpc_group) (g : glob)
  : gpc_group * glob :=
  (gprg_with_cntrs
     (map (fun c => mk_gpc_cntr (cntr_name c) (cntr_refcount c) false false)
        (gprg_cntrs gprg))
     gprg,
   hw_emit (NtfyCntrsDelete (gprg_name gprg)) g).

Section Reconciler.

(** The summary bits and the answers of the hardware layer are fixed
    throughout. *)
Variable ras : pmf_ras.
Variable hw : pmf_hw.

(** Modelled from the spec: creation of one counter in hardware, "gated by
    the publication state (counters are not pushed to hardware until their
    group is published)"; "a failed counter creation is treated as not
    low-level-created (flag withheld)". *)
Definition gcntr_hw_create (c : gpc_cntr) : gpc_cntr :=
  if cntr_published c then c
  else mk_gpc_cntr (cntr_name c) (cntr_refcount c) true
         (pmf_hw_cntr_create hw (cntr_name c)).

(** Modelled from the spec: [gpc_cntr_hw_ntfy_create] for one counter
    pointer, which may be [NULL]. *)
Definition gpc_cntr_hw_ntfy_create (gprg : gpc_group) (cntr : option string)
  (g : glob) : gpc_group * glob :=
  match cntr with
  | None => (gprg, g)
  | Some name =>
      let g1 := hw_emit (NtfyCntrCreate (gprg_name gprg) name) g in
      if gprg_published gprg
      then (gprg_with_cntrs
              (gcntr_update (gprg_cntrs gprg) name gcntr_hw_create) gprg,
            g1)
      else (gprg, g1)
  end.

(** Modelled from the spec: [gpc_cntg_hw_ntfy_cntrs_create], "create all
    counters". *)
Definition gpc_cntg_hw_ntfy_cntrs_create (gprg : gpc_group) (g : glob)
  : gpc_group * glob :=
  let g1 := hw_emit (NtfyCntrsCreate (gprg_name gprg)) g in
  if gprg_published gprg
  then (gprg_with_cntrs (map gcntr_hw_create (gprg_cntrs gprg)) gprg, g1)
  else (gprg, g1).

(* ------------------------------------------------------------------ *)
(** ** Counter type of a group, read from its summary *)

Definition pmf_arlg_cntr_type_named (earg : pmf_group_ext) : bool :=
  let summary := gpc_group_get_summary (earg_gprg earg) in
  if flag_test summary (PMF_RAS_COUNT_DEF ras)
  then flag_test summary (PMF_SUMMARY_COUNT_DEF_NAMED_FLAGS ras)
  else false.

Definition pmf_arlg_cntr_type_numbered (earg : pmf_group_ext) : bool :=
  let summary := gpc_group_get_summary (earg_gprg earg) in
  if flag_test summary (PMF_RAS_COUNT_DEF ras)
  then negb (pmf_arlg_cntr_type_named earg)
  else false.

Definition pmf_arlg_cntr_type_named_accept (earg : pmf_group_ext) : bool :=
  let summary := gpc_group_get_summary (earg_gprg earg) in
  if flag_test summary (PMF_RAS_COUNT_DEF ras)
  then flag_test summary (PMF_RAS_COUNT_DEF_PASS ras)
  else false.

Definition pmf_arlg_cntr_type_named_drop (earg : pmf_group_ext) : bool :=
  let summary := gpc_group_get_summary (earg_gprg earg) in
  if flag_test summary (PMF_RAS_COUNT_DEF ras)
  then flag_test summary (PMF_RAS_COUNT_DEF_DROP ras)
  else false.

(* ------------------------------------------------------------------ *)
(** ** Hardware notification of the counters in [earg_cntrs] *)

(** The tail of [pmf_arlg_hw_ntfy_cntr_add] once the counter is chosen. *)
Definition cntr_add_publish (earg : pmf_group_ext) (a : addr) (g : glob)
  : pmf_group_ext * glob :=
  let earg1 :=
    eark_update earg a (fun eark =>
      if negb (flag_test (eark_flags eark) PMF_EARKF_PUBLISHED)
      then eark_with_flags
             (flag_set (flag_set (eark_flags eark) PMF_EARKF_CNT_PACKET)
                PMF_EARKF_PUBLISHED)
             (eark_with_objid 0 eark)
      else eark) in
  match cntr_deref (earg_cntrs earg1) a with
  | None => (earg1, g)
  | Some eark =>
      if negb (flag_test (eark_flags eark) PMF_EARKF_LL_CREATED)
      then
        let g1 := hw_emit (HwCounterCreate a) g in
        if pmf_hw_counter_create hw a
        then (eark_update earg1 a (fun k =>
                eark_with_flags (flag_set (eark_flags k) PMF_EARKF_LL_CREATED) k),
              g1)
        else (earg1, g1)
      else (earg1, g)
  end.

Definition earg_hack_owner (earg : pmf_group_ext) (gprl : Z)
  (owner : option addr) : pmf_group_ext :=
  earg_with_gprg (gpc_rule_hack_owner (earg_gprg earg) gprl owner) earg.

(** [pmf_arlg_hw_ntfy_cntr_add] *)
Definition pmf_arlg_hw_ntfy_cntr_add (earg : pmf_group_ext) (gprl : Z)
  (g : glob) : pmf_group_ext * glob :=
  if negb (gpc_group_is_published (earg_gprg earg)) then (earg, g)
  else
    match gpc_rule_get_rule (earg_gprg earg) gprl with
    | None => (earg, g)
    | Some rule =>
        if negb (flag_test (pp_summary rule) (PMF_RAS_COUNT_REF ras))
        then (earg, g)
        else if pmf_arlg_cntr_type_numbered earg then
          match pmf_arlg_alloc_numbered_cntr earg gprl g with
          | (None, earg1, g1) => (earg1, g1)
          | (Some a, earg1, g1) =>
              cntr_add_publish (earg_hack_owner earg1 gprl (Some a)) a g1
          end
        else if pmf_arlg_cntr_type_named earg then
          let '(eark1, earg1, g1) :=
            if pmf_arlg_cntr_type_named_accept earg
               && flag_test (pp_summary rule) (PMF_RAS_PASS ras)
            then pmf_arlg_get_or_alloc_action_cntr_accept earg g
            else (None, earg, g) in
          let '(eark2, earg2, g2) :=
            if pmf_arlg_cntr_type_named_drop earg
               && flag_test (pp_summary rule) (PMF_RAS_DROP ras)
            then pmf_arlg_get_or_alloc_action_cntr_drop earg1 g1
            else (eark1, earg1, g1) in
          match eark2 with
          | None => (earg2, g2)
          | Some a =>
              cntr_add_publish (earg_hack_owner earg2 gprl (Some a)) a g2
          end
        else (earg, g)
    end.

(** [pmf_arlg_hw_ntfy_cntr_del] *)
Definition pmf_arlg_hw_ntfy_cntr_del (earg : pmf_group_ext) (gprl : Z)
  (g : glob) : pmf_group_ext * glob :=
  if negb (gpc_group_is_published (earg_gprg earg)) then (earg, g)
  else
    match gpc_rule_get_owner (earg_gprg earg) gprl with
    | None => (earg, g)
    | Some a =>
        let earg1 := earg_hack_owner earg gprl None in
        match cntr_deref (earg_cntrs earg1) a with
        | None => (earg1, g)
        | Some eark =>
            let '(still, eark') := pmf_arlg_cntr_refcount_dec eark in
            let earg2 :=
              earg_with_cntrs (cntr_store (earg_cntrs earg1) a eark') earg1 in
            if still then (earg2, g)
            else
              let g1 :=
                if flag_test (eark_flags eark') PMF_EARKF_LL_CREATED
                then hw_emit (HwCounterDelete a) g else g in
              (pmf_arlg_free_cntr earg2 a, g1)
        end
    end.

(** Successive calls of [pmf_arlg_hw_ntfy_cntr_del], one per rule. *)
Fixpoint pmf_arlg_hw_ntfy_cntr_del_each (gprls : list Z)
  (earg : pmf_group_ext) (g : glob) : pmf_group_ext * glob :=
  match gprls with
  | [] => (earg, g)
  | gprl :: rest =>
      let '(earg1, g1) := pmf_arlg_hw_ntfy_cntr_del earg gprl g in
      pmf_arlg_hw_ntfy_cntr_del_each rest earg1 g1
  end.

(* ------------------------------------------------------------------ *)
(** ** Counters of the rules *)

(** [pmf_arlg_rule_needs_cntr] *)
Definition pmf_arlg_rule_needs_cntr (cntg : gpc_cntg) (rule : pmf_rule) : bool :=
  match gpc_cntg_type cntg with
  | GPC_CNTT_NUMBERED => true
  | GPC_CNTT_NAMED => flag_test (pp_summary rule) (PMF_RAS_COUNT_REF ras)
  end.

(** [pmf_arlg_rule_get_cntr]; the Counter-Group is the group's. *)
Definition pmf_arlg_rule_get_cntr (gprg : gpc_group) (cntg : gpc_cntg)
  (rule : pmf_rule) (rl_number : Z) (g : glob)
  : option string * gpc_group * glob :=
  match gpc_cntg_type cntg with
  | GPC_CNTT_NUMBERED => gpc_cntr_create_numbered gprg rl_number g
  | GPC_CNTT_NAMED =>
      if flag_test (pp_summary rule) (PMF_RAS_PASS ras)
      then let '(c, gprg1) := gpc_cntr_find_and_retain gprg "accept"%string in
           (c, gprg1, g)
      else if flag_test (pp_summary rule) (PMF_RAS_DROP ras)
      then let '(c, gprg1) := gpc_cntr_find_and_retain gprg "drop"%string in
           (c, gprg1, g)
      else (None, gprg, g)
  end.

(** [pmf_arlg_rule_create_cntg_rules] *)
Definition pmf_arlg_rule_create_cntg_rules (gprg : gpc_group)
  (attr_rule : pmf_rule) (g : glob) : gpc_group * glob :=
  let need_accept := flag_test (pp_summary attr_rule) (PMF_RAS_COUNT_DEF_PASS ras) in
  let need_drop := flag_test (pp_summary attr_rule) (PMF_RAS_COUNT_DEF_DROP ras) in
  let '(cntr_a, gprg1) := gpc_cntr_find_and_retain gprg "accept"%string in
  let got_accept := match cntr_a with Some _ => true | None => false end in
  let '(gprg2, g2) := gpc_cntr_release_opt gprg1 cntr_a g in
  let '(cntr_d, gprg3) := gpc_cntr_find_and_retain gprg2 "drop"%string in
  let got_drop := match cntr_d with Some _ => true | None => false end in
  let '(gprg4, g4) := gpc_cntr_release_opt gprg3 cntr_d g2 in
  let '(ok, gprg5, g5) :=
    if need_accept && negb got_accept then
      match gpc_cntr_create_named gprg4 "accept"%string g4 with
      | (None, p, g') => (false, p, g')
      | (Some c, p, g') =>
          let '(p', g'') := gpc_cntr_hw_ntfy_create p (Some c) g' in
          (true, p', g'')
      end
    else (true, gprg4, g4) in
  if negb ok then (gprg5, g5)
  else if need_drop && negb got_drop then
    match gpc_cntr_create_named gprg5 "drop"%string g5 with
    | (None, p, g') => (p, g')
    | (Some c, p, g') => gpc_cntr_hw_ntfy_create p (Some c) g'
    end
  else (gprg5, g5).

(** The counter type an attribute rule asks for. *)
Definition attr_cntr_type (attr_rule : pmf_rule) : gpc_cntr_type :=
  if flag_test (pp_summary attr_rule) (PMF_SUMMARY_COUNT_DEF_NAMED_FLAGS ras)
  then GPC_CNTT_NAMED else GPC_CNTT_NUMBERED.

(** [pmf_arlg_rule_create_cntg] *)
Definition pmf_arlg_rule_create_cntg (gprg : gpc_group) (attr_rule : pmf_rule)
  (g : glob) : gpc_group * glob :=
  if negb (flag_test (pp_summary attr_rule) (PMF_RAS_COUNT_DEF ras))
  then (gprg, g)
  else
    let type := attr_cntr_type attr_rule in
    match gpc_cntg_create type g with
    | (None, g1) => (gprg, g1)
    | (Some cntg, g1) =>
        let gprg1 := gpc_group_set_cntg gprg (Some cntg) in
        match type with
        | GPC_CNTT_NAMED => pmf_arlg_rule_create_cntg_rules gprg1 attr_rule g1
        | GPC_CNTT_NUMBERED => (gprg1, g1)
        end
    end.

(** [pmf_arlg_rule_delete_cntg] *)
Definition pmf_arlg_rule_delete_cntg (gprg : gpc_group) (cntg : gpc_cntg)
  (g : glob) : gpc_group * glob :=
  let '(gprg1, g1) :=
    match gpc_cntg_type cntg with
    | GPC_CNTT_NAMED =>
        gpc_cntr_foreach_release (map cntr_name (gprg_cntrs gprg)) gprg g
    | GPC_CNTT_NUMBERED => (gprg, g)
    end in
  (gpc_cntg_release gprg1, g1).

(* ------------------------------------------------------------------ *)
(** ** The group publication state machine *)

(** The four notifications that take a published group out of hardware,
    written out twice in [pmf_arlg_rl_attr_check]; [cntg] is the
    Counter-Group pointer read on entry. *)
Definition hw_ntfy_group_teardown (gprg : gpc_group) (g : glob)
  : gpc_group * glob :=
  let cntg := gpc_group_get_cntg gprg in
  let '(gprg1, g1) := gpc_group_hw_ntfy_detach gprg g in
  let '(gprg2, g2) := gpc_group_hw_ntfy_rules_delete gprg1 g1 in
  let '(gprg3, g3) :=
    match cntg with
    | Some _ => gpc_cntg_hw_ntfy_cntrs_delete gprg2 g2
    | None => (gprg2, g2)
    end in
  gpc_group_hw_ntfy_delete gprg3 g3.

(** From the label [unpublish_group] to its [return]. *)
Definition unpublish_group (earg : pmf_group_ext) (g : glob)
  : pmf_group_ext * glob :=
  let gprg := earg_gprg earg in
  let '(gprg1, g1) :=
    if gpc_group_is_published gprg then
      let '(gprg', g') := hw_ntfy_group_teardown gprg g in
      (gpc_group_set_deferred gprg', glob_with_deferrals true g')
    else (gprg, g) in
  (earg_with_gprg (gpc_group_clear_family gprg1)
     (earg_with_flags (flag_clear (earg_flags earg) PMF_EARGF_RULE_ATTR) earg),
   g1).

(** From the label [publish_group] to its [return]. *)
Definition publish_group (gprs : gpc_rlset) (earg : pmf_group_ext)
  (attr_rule : pmf_rule) (ipfam : pmf_attr_ip_family) (g : glob)
  : pmf_group_ext * glob :=
  let gprg := earg_gprg earg in
  let cntg := gpc_group_get_cntg gprg in
  let is_v6 := pm_v6 ipfam in
  let gprg0 := if is_v6 then gpc_group_set_v6 gprg else gpc_group_set_v4 gprg in
  let '(gprg1, g1) := gpc_group_hw_ntfy_create gprs gprg0 (Some attr_rule) g in
  let '(gprg2, g2) :=
    match cntg with
    | Some _ => gpc_cntg_hw_ntfy_cntrs_create gprg1 g1
    | None => (gprg1, g1)
    end in
  let '(gprg3, g3) := gpc_group_hw_ntfy_rules_create gprg2 g2 in
  let '(gprg4, g4) := gpc_group_hw_ntfy_attach gprs gprg3 g3 in
  (earg_with_gprg gprg4 earg, g4).

(** [pmf_arlg_rl_attr_check]; [gprs] is the ruleset of the group. *)
Definition pmf_arlg_rl_attr_check (gprs : gpc_rlset) (earg : pmf_group_ext)
  (attr_rule : option pmf_rule) (g : glob) : pmf_group_ext * glob :=
  let gprg := earg_gprg earg in
  match attr_rule with
  | None =>
      (* The group attribute rule has been removed *)
      if negb (flag_test (earg_flags earg) PMF_EARGF_RULE_ATTR) then (earg, g)
      else unpublish_group earg g
  | Some rule =>
      if negb (flag_test (earg_flags earg) PMF_EARGF_RULE_ATTR) then
        (* Have just acquired group attribute rule *)
        let earg1 :=
          earg_with_flags (flag_set (earg_flags earg) PMF_EARGF_RULE_ATTR) earg in
        match pp_match_ipfam rule with
        | None => (earg1, g)
        | Some ipfam => publish_group gprs earg1 rule ipfam g
        end
      else
        (* The group attribute rule has changed *)
        match pp_match_ipfam rule with
        | None =>
            if gpc_group_has_family gprg then unpublish_group earg g
            else (earg, g)
        | Some ipfam =>
            if negb (gpc_group_has_family gprg)
            then publish_group gprs earg rule ipfam g
            else if Bool.eqb (gpc_group_is_v6 gprg) (pm_v6 ipfam) then (earg, g)
            else
              (* The AF is different, so delete and re-add everything *)
              let '(gprg1, g1) :=
                if gpc_group_is_published gprg
                then hw_ntfy_group_teardown gprg g
                else (gprg, g) in
              let earg1 :=
                earg_with_gprg (gpc_group_clear_family gprg1)
                  (earg_with_flags
                     (flag_clear (earg_flags earg) PMF_EARGF_RULE_ATTR) earg) in
              publish_group gprs earg1 rule ipfam g1
        end
  end.

(** [pmf_arlg_rule_change_cntg] *)
Definition pmf_arlg_rule_change_cntg (gprs : gpc_rlset) (earg : pmf_group_ext)
  (attr_rule : pmf_rule) (g : glob) : pmf_group_ext * glob :=
  let gprg := earg_gprg earg in
  match gpc_group_get_cntg gprg with
  | None =>
      let '(gprg1, g1) := pmf_arlg_rule_create_cntg gprg attr_rule g in
      pmf_arlg_rl_attr_check gprs (earg_with_gprg gprg1 earg) (Some attr_rule) g1
  | Some cntg =>
      if negb (flag_test (pp_summary attr_rule) (PMF_RAS_COUNT_DEF ras)) then
        let '(gprg1, g1) := pmf_arlg_rule_delete_cntg gprg cntg g in
        (earg_with_gprg (gpc_group_set_cntg gprg1 None) earg, g1)
      else
        (* Check if the counter type has changed *)
        let type := attr_cntr_type attr_rule in
        if negb (gpc_cntr_type_eqb type (gpc_cntg_type cntg)) then
          let '(earg1, g1) := pmf_arlg_rl_attr_check gprs earg None g in
          let '(gprg2, g2) :=
            pmf_arlg_rule_delete_cntg (earg_gprg earg1) cntg g1 in
          let gprg3 := gpc_group_set_cntg gprg2 None in
          let '(gprg4, g4) := pmf_arlg_rule_create_cntg gprg3 attr_rule g2 in
          pmf_arlg_rl_attr_check gprs (earg_with_gprg gprg4 earg1)
            (Some attr_rule) g4
        else
          match type with
          | GPC_CNTT_NUMBERED => (earg, g)
          | GPC_CNTT_NAMED =>
              (* We could have changed the specific named counters *)
              let need_accept :=
                flag_test (pp_summary attr_rule) (PMF_RAS_COUNT_DEF_PASS ras) in
              let need_drop :=
                flag_test (pp_summary attr_rule) (PMF_RAS_COUNT_DEF_DROP ras) in
              let '(cntr_accept, gprg1) :=
                gpc_cntr_find_and_retain gprg "accept"%string in
              let got_accept :=
                match cntr_accept with Some _ => true | None => false end in
              let '(cntr_drop, gprg2) :=
                gpc_cntr_find_and_retain gprg1 "drop"%string in
              let got_drop :=
                match cntr_drop with Some _ => true | None => false end in
              if Bool.eqb got_accept need_accept && Bool.eqb got_drop need_drop
              then
                let '(gprg3, g3) := gpc_cntr_release_opt gprg2 cntr_accept g in
                let '(gprg4, g4) := gpc_cntr_release_opt gprg3 cntr_drop g3 in
                (earg_with_gprg gprg4 earg, g4)
              else
                (* Force all rules to be unpublished *)
                let '(earg1, g1) :=
                  pmf_arlg_rl_attr_check gprs (earg_with_gprg gprg2 earg) None g in
                (* Create any missing counters *)
                let '(gprg3, g3) :=
                  if (need_accept && negb got_accept)
                     || (need_drop && negb got_drop)
                  then pmf_arlg_rule_create_cntg_rules (earg_gprg earg1)
                         attr_rule g1
                  else (earg_gprg earg1, g1) in
                (* Release unneeded counters *)
                let '(gprg4, g4) :=
                  if got_accept && negb need_accept
                  then gpc_cntr_release_opt gprg3 cntr_accept g3
                  else (gprg3, g3) in
                let '(gprg5, g5) :=
                  if got_drop && negb need_drop
                  then gpc_cntr_release_opt gprg4 cntr_drop g4
                  else (gprg4, g4) in
                (* Force all to be republished *)
                let '(earg6, g6) :=
                  pmf_arlg_rl_attr_check gprs (earg_with_gprg gprg5 earg1)
                    (Some attr_rule) g5 in
                (* Release references from lookup *)
                let '(gprg7, g7) :=
                  gpc_cntr_release_opt (earg_gprg earg6) cntr_accept g6 in
                let '(gprg8, g8) := gpc_cntr_release_opt gprg7 cntr_drop g7 in
                (earg_with_gprg gprg8 earg6, g8)
          end
  end.

(* ------------------------------------------------------------------ *)
(** ** The rule reconciler *)

(** [pmf_arlg_rl_del] *)
Definition pmf_arlg_rl_del (gprs : gpc_rlset) (earg : pmf_group_ext)
  (rl_idx : Z) (g : glob) : bool * pmf_group_ext * glob :=
  let gprg := earg_gprg earg in
  if rl_idx =? UINT32_MAX then
    (* This rule is for group attributes *)
    match earg_attr_rule earg with
    | None => (false, earg, g)
    | Some attr_rule =>
        let '(earg1, g1) := pmf_arlg_rl_attr_check gprs earg None g in
        let earg2 := earg_with_attr_rule None earg1 in
        match gpc_group_get_cntg (earg_gprg earg2) with
        | Some cntg =>
            let '(gprg3, g3) :=
              pmf_arlg_rule_delete_cntg (earg_gprg earg2) cntg g1 in
            (true, earg_with_gprg (gpc_group_set_cntg gprg3 None) earg2, g3)
        | None => (true, earg2, g1)
        end
    end
  else
    match gpc_rule_find gprg rl_idx with
    | None => (false, earg, g)
    | Some gprl =>
        let old_summary := gpc_group_get_summary gprg in
        let earg1 := earg_with_num_rules (u32 (earg_num_rules earg - 1)) earg in
        let '(gprg1, g1) := gpc_rule_hw_ntfy_delete gprg gprl g in
        let cntr := gpc_rule_get_cntr gprg1 gprl in
        let gprg2 := gpc_rule_delete gprg1 gprl in
        let '(gprg3, g3) := gpc_cntr_release_opt gprg2 cntr g1 in
        (* If any were published, recalculate and notify *)
        let '(gprg4, g4) :=
          if negb (old_summary =? 0) then
            let attr_rule := earg_attr_rule earg1 in
            let summary := gpc_group_recalc_summary gprg3 attr_rule in
            gpc_group_hw_ntfy_modify gprg3 summary g3
          else (gprg3, g3) in
        (true, earg_with_gprg gprg4 earg1, g4)
    end.

(** The block [if (cntg) { ... }] of [pmf_arlg_rl_chg], "adjust a counter
    if necessary"; the first result is [rel_cntr]. *)
Definition rl_chg_adjust_cntr (gprg : gpc_group) (cntg : gpc_cntg) (gprl : Z)
  (new_rule : pmf_rule) (rl_idx : Z) (g : glob)
  : option string * gpc_group * glob :=
  let cntr := gpc_rule_get_cntr gprg gprl in
  let need_counter := pmf_arlg_rule_needs_cntr cntg new_rule in
  if negb need_counter then
    (* This rule should release its counter (if any) *)
    (cntr, gprg, g)
  else
    match cntr with
    | None =>
        (* Need a counter, but don't have one - acquire one *)
        let '(cntr', p1, g1) :=
          pmf_arlg_rule_get_cntr gprg cntg new_rule rl_idx g in
        let p2 := gpc_rule_set_cntr p1 gprl cntr' in
        let '(p3, g3) := gpc_cntr_hw_ntfy_create p2 cntr' g1 in
        (None, p3, g3)
    | Some c =>
        (* Counter needed, and/or rule match have changed *)
        match gpc_cntg_type cntg with
        | GPC_CNTT_NAMED =>
            let '(new_cntr, p1, g1) :=
              pmf_arlg_rule_get_cntr gprg cntg new_rule 0 g in
            if match new_cntr with Some n => streq n c | None => false end
            then
              let '(p2, g2) := gpc_cntr_release_opt p1 new_cntr g1 in
              (None, p2, g2)
            else
              let p2 := gpc_rule_set_cntr p1 gprl new_cntr in
              let '(p3, g3) := gpc_cntr_hw_ntfy_create p2 new_cntr g1 in
              (cntr, p3, g3)
        | GPC_CNTT_NUMBERED => (None, gprg, g)
        end
    end.

(** [pmf_arlg_rl_chg] *)
Definition pmf_arlg_rl_chg (gprs : gpc_rlset) (earg : pmf_group_ext)
  (new_rule : pmf_rule) (rl_idx : Z) (g : glob)
  : bool * pmf_group_ext * glob :=
  let gprg := earg_gprg earg in
  if rl_idx =? UINT32_MAX then
    match earg_attr_rule earg with
    | None => (false, earg, g)
    | Some old_attr_rule =>
        let '(earg1, g1) := pmf_arlg_rule_change_cntg gprs earg new_rule g in
        (true, earg_with_attr_rule (Some new_rule) earg1, g1)
    end
  else
    match gpc_rule_find gprg rl_idx with
    | None => (false, earg, g)
    | Some gprl =>
        (* Adjust a counter if necessary *)
        let '(rel_cntr, gprg1, g1) :=
          match gpc_group_get_cntg gprg with
          | None => (None, gprg, g)
          | Some cntg => rl_chg_adjust_cntr gprg cntg gprl new_rule rl_idx g
          end in
        (* If any were published, update and notify *)
        let old_summary := gpc_group_get_summary gprg1 in
        let '(gprg2, g2) := gpc_rule_change_rule gprg1 gprl new_rule g1 in
        let '(gprg3, g3) :=
          if negb (old_summary =? 0) then
            let attr_rule := earg_attr_rule earg in
            let summary := gpc_group_recalc_summary gprg2 attr_rule in
            gpc_group_hw_ntfy_modify gprg2 summary g2
          else (gprg2, g2) in
        (* Release a counter, possibly freeing it *)
        let '(gprg4, g4) := gpc_cntr_release_opt gprg3 rel_cntr g3 in
        (true, earg_with_gprg gprg4 earg, g4)
    end.

(** [pmf_arlg_rl_add] *)
Definition pmf_arlg_rl_add (gprs : gpc_rlset) (earg : pmf_group_ext)
  (rule : pmf_rule) (rl_idx : Z) (g : glob) : bool * pmf_group_ext * glob :=
  let gprg := earg_gprg earg in
  if rl_idx =? UINT32_MAX then
    (* This rule is for group attributes *)
    match earg_attr_rule earg with
    | Some _ => (false, earg, g)
    | None =>
        let '(gprg1, g1) := pmf_arlg_rule_create_cntg gprg rule g in
        let '(earg2, g2) :=
          pmf_arlg_rl_attr_check gprs (earg_with_gprg gprg1 earg) (Some rule) g1 in
        (true, earg_with_attr_rule (Some rule) earg2, g2)
    end
  else
    let earg1 := earg_with_num_rules (u32 (earg_num_rules earg + 1)) earg in
    (* Find a counter if necessary *)
    let '(cntr, gprg1, g1) :=
      match gpc_group_get_cntg gprg with
      | Some cntg =>
          if pmf_arlg_rule_needs_cntr cntg rule
          then pmf_arlg_rule_get_cntr gprg cntg rule rl_idx g
          else (None, gprg, g)
      | None => (None, gprg, g)
      end in
    (* Create the GPC rule, or fail and clean up *)
    match gpc_rule_create gprg1 rl_idx g1 with
    | (None, gprg2, g2) =>
        let '(gprg3, g3) := gpc_cntr_release_opt gprg2 cntr g2 in
        (false, earg_with_gprg gprg3 earg1, g3)
    | (Some gprl, gprg2, g2) =>
        let gprg3 := gpc_rule_set_cntr gprg2 gprl cntr in
        let '(gprg4, g4) := gpc_cntr_hw_ntfy_create gprg3 cntr g2 in
        let '(gprg5, g5) := gpc_rule_change_rule gprg4 gprl rule g4 in
        (true, earg_with_gprg gprg5 earg1, g5)
    end.

(* ------------------------------------------------------------------ *)
(** ** Events of the configuration and attach point subsystems *)

(** Modelled from the spec: the enumerations of the configuration and
    attach point subsystems, with the values this file tests and one
    value for all the others: the rule class ("ACL-class rulesets/groups"),
    the attach type ("the interface attachment type"), the ruleset type
    ("ACL-in / ACL-out among others"), and the events ("attach-point
    up/down, ruleset add/remove, group add/remove"; rule "add/change/delete
    events"). *)
Inductive npf_rule_class : Type := NPF_RULE_CLASS_ACL | NPF_RULE_CLASS_OTHER.
Inductive npf_attach_type : Type :=
  NPF_ATTACH_TYPE_INTERFACE | NPF_ATTACH_TYPE_OTHER.
Inductive npf_ruleset_type : Type := NPF_RS_ACL_IN | NPF_RS_ACL_OUT | NPF_RS_OTHER.
Inductive npf_attpt_ev_type : Type :=
| NPF_ATTPT_EV_UP | NPF_ATTPT_EV_DOWN
| NPF_ATTPT_EV_RLSET_ADD | NPF_ATTPT_EV_RLSET_DEL
| NPF_ATTPT_EV_GRP_ADD | NPF_ATTPT_EV_GRP_DEL.
Inductive npf_cfg_rule_group_event_type : Type :=
| NPF_EVENT_GROUP_RULE_ADD | NPF_EVENT_GROUP_RULE_CHANGE
| NPF_EVENT_GROUP_RULE_DELETE | NPF_EVENT_GROUP_OTHER.

(** [struct npf_cfg_rule_walk_state], as far as read *)
Record npf_cfg_rule_walk_state : Type := mk_walk_state {
  ws_index : Z;
  ws_parsed : pmf_rule
}.

(** [struct npf_cfg_rule_group_event], as far as read *)
Record npf_cfg_rule_group_event : Type := mk_group_event {
  ev_group_class : npf_rule_class;
  ev_event_type : npf_cfg_rule_group_event_type;
  ev_index : Z;
  ev_parsed : pmf_rule
}.

(** [pmf_arlg_group_build] *)
Definition pmf_arlg_group_build (gprs : gpc_rlset) (earg : pmf_group_ext)
  (grp : npf_cfg_rule_walk_state) (g : glob) : bool * pmf_group_ext * glob :=
  pmf_arlg_rl_add gprs earg (ws_parsed grp) (ws_index grp) g.

(** [pmf_arlg_group_modify] *)
Definition pmf_arlg_group_modify (gprs : gpc_rlset) (earg : pmf_group_ext)
  (ev : npf_cfg_rule_group_event) (g : glob) : pmf_group_ext * glob :=
  match ev_group_class ev with
  | NPF_RULE_CLASS_OTHER => (earg, g)
  | NPF_RULE_CLASS_ACL =>
      match ev_event_type ev with
      | NPF_EVENT_GROUP_RULE_ADD =>
          let '(_, earg1, g1) :=
            pmf_arlg_rl_add gprs earg (ev_parsed ev) (ev_index ev) g in
          (earg1, glob_with_commit_pending true g1)
      | NPF_EVENT_GROUP_RULE_CHANGE =>
          let '(_, earg1, g1) :=
            pmf_arlg_rl_chg gprs earg (ev_parsed ev) (ev_index ev) g in
          (earg1, glob_with_commit_pending true g1)
      | NPF_EVENT_GROUP_RULE_DELETE =>
          let '(_, earg1, g1) := pmf_arlg_rl_del gprs earg (ev_index ev) g in
          (earg1, glob_with_commit_pending true g1)
      | NPF_EVENT_GROUP_OTHER => (earg, g)
      end
  end.

(** Modelled from the spec: [npf_cfg_rule_group_walk], which "replays all
    currently configured rules for a group, calling back with (ctx,
    {index, parsed_rule}) for each". *)
Fixpoint npf_cfg_rule_group_walk (gprs : gpc_rlset)
  (cfg : list npf_cfg_rule_walk_state) (earg : pmf_group_ext) (g : glob)
  : pmf_group_ext * glob :=
  match cfg with
  | [] => (earg, g)
  | grp :: rest =>
      let '(_, earg1, g1) := pmf_arlg_group_build gprs earg grp g in
      npf_cfg_rule_group_walk gprs rest earg1 g1
  end.

(** Modelled from the spec: [gpc_group_create], which makes the group's
    "backing object (owned by the ruleset)" with every flag clear and can
    fail on "resource exhaustion". *)
Definition gpc_group_create (feat : gpc_feature) (rg_name : string) (g : glob)
  : option gpc_group * glob :=
  match calloc g with
  | (None, g1) => (None, g1)
  | (Some _, g1) =>
      (Some (mk_gpc_group rg_name feat 0 false false false None None []), g1)
  end.

(** [while (!!(cursor = gpc_rule_last(gprg)))]: every pass deletes one
    rule, so the number of rules bounds the loop. *)
Fixpoint grp_del_rules (fuel : nat) (earg : pmf_group_ext) (g : glob)
  : pmf_group_ext * glob :=
  match fuel with
  | O => (earg, g)
  | S fuel' =>
      let gprg := earg_gprg earg in
      match gpc_rule_last gprg with
      | None => (earg, g)
      | Some cursor =>
          let earg1 :=
            earg_with_num_rules (u32 (earg_num_rules earg - 1)) earg in
          let cntr := gpc_rule_get_cntr gprg cursor in
          let gprg1 := gpc_rule_delete gprg cursor in
          let '(gprg2, g2) := gpc_cntr_release_opt gprg1 cntr g in
          grp_del_rules fuel' (earg_with_gprg gprg2 earg1) g2
      end
  end.

(** The groups of a ruleset hold the extension looked up by
    [npf_attpt_group_get_extend]; the attach point group is found by its
    name. *)
Fixpoint group_find (groups : list pmf_group_ext) (rg_name : string)
  : option pmf_group_ext :=
  match groups with
  | [] => None
  | e :: rest =>
      if streq rg_name (gprg_name (earg_gprg e)) then Some e
      else group_find rest rg_name
  end.

Fixpoint group_remove (groups : list pmf_group_ext) (rg_name : string)
  : list pmf_group_ext :=
  match groups with
  | [] => []
  | e :: rest =>
      if streq rg_name (gprg_name (earg_gprg e)) then rest
      else e :: group_remove rest rg_name
  end.

(** The branch [!enabled && earg] of [pmf_arlg_attpt_grp_ev_handler]: the
    group is detached from the interface and destroyed. *)
Definition grp_ev_detach (earg : pmf_group_ext) (g : glob)
  : pmf_group_ext * glob :=
  let gprg := earg_gprg earg in
  (* Notify clients *)
  let '(gprg1, g1) := gpc_group_hw_ntfy_detach gprg g in
  (* Notify clients *)
  let '(gprg2, g2) := gpc_group_hw_ntfy_rules_delete gprg1 g1 in
  let cntg := gpc_group_get_cntg gprg2 in
  let '(gprg3, g3) :=
    match cntg with
    | Some _ => gpc_cntg_hw_ntfy_cntrs_delete gprg2 g2
    | None => (gprg2, g2)
    end in
  (* Deallocate all of the rules *)
  let '(earg4, g4) :=
    grp_del_rules (List.length (gprg_rules gprg3)) (earg_with_gprg gprg3 earg) g3 in
  (* Deallocate remaining counters *)
  let '(gprg5, g5) :=
    match cntg with
    | Some c =>
        let '(p, g') :=
          match gpc_cntg_type c with
          | GPC_CNTT_NAMED =>
              gpc_cntr_release_while_last
                (gpc_cntr_release_budget (earg_gprg earg4)) (earg_gprg earg4) g4
          | GPC_CNTT_NUMBERED => (earg_gprg earg4, g4)
          end in
        (gpc_group_set_cntg (gpc_cntg_release p) None, g')
    | None => (earg_gprg earg4, g4)
    end in
  (* Sanity before freeing *)
  let earg6 := earg_with_attr_rule None (earg_with_num_rules 0 earg4) in
  (* Notify clients *)
  let '(gprg7, g7) := gpc_group_hw_ntfy_delete gprg5 g5 in
  (earg_with_gprg gprg7 earg6, g7).

(** [pmf_arlg_attpt_grp_ev_handler].  [gprs] is the extension of the
    ruleset of the attach point group, [set_extend_ok] and [reg_rc] are
    the results of [npf_attpt_group_set_extend] and
    [npf_cfg_rule_group_reg_user], [cfg] is the configured content of the
    rule group. *)
Definition pmf_arlg_attpt_grp_ev_handler (event : npf_attpt_ev_type)
  (apk_type : npf_attach_type) (rgk_class : npf_rule_class)
  (rg_name : string) (rls_type : npf_ruleset_type)
  (set_extend_ok : bool) (reg_rc : Z) (cfg : list npf_cfg_rule_walk_state)
  (gprs : gpc_rlset) (g : glob) : gpc_rlset * glob :=
  let enabled :=
    match event with NPF_ATTPT_EV_GRP_ADD => true | _ => false end in
  match apk_type, rgk_class, rls_type with
  | NPF_ATTACH_TYPE_INTERFACE, NPF_RULE_CLASS_ACL, (NPF_RS_ACL_IN | NPF_RS_ACL_OUT) =>
      if enabled then
        (* Attached a group to an interface, so built it, maybe publish *)
        match calloc g with
        | (None, g1) => (gprs, g1)
        | (Some _, g1) =>
            match gpc_group_create GPC_FEAT_ACL rg_name g1 with
            | (None, g2) => (gprs, g2)
            | (Some gprg, g2) =>
                let earg :=
                  mk_pmf_group_ext (gpc_group_set_deferred gprg) [] None 0 0 in
                if negb set_extend_ok then (gprs, g2)
                else if negb (reg_rc =? 0) then (gprs, g2)
                else
                  (* Build rules, look for the group attribute rule *)
                  let '(earg1, g3) :=
                    npf_cfg_rule_group_walk gprs cfg earg g2 in
                  let g4 := glob_with_deferrals true g3 in
                  (gprs_with_groups (gprs_groups gprs ++ [earg1]) gprs,
                   glob_with_commit_pending true g4)
            end
        end
      else
        (* Detached a group from an interface, so maybe unpublish, destroy *)
        match group_find (gprs_groups gprs) rg_name with
        | Some earg =>
            let '(_, g1) := grp_ev_detach earg g in
            (gprs_with_groups (group_remove (gprs_groups gprs) rg_name) gprs,
             glob_with_commit_pending true g1)
        | None => (gprs, glob_with_commit_pending true g)
        end
  | _, _, _ => (gprs, g)
  end.

(** Walks of the groups of a ruleset, threading the file-scope state. *)
Fixpoint groups_foreach (f : pmf_group_ext -> glob -> pmf_group_ext * glob)
  (groups : list pmf_group_ext) (g : glob) : list pmf_group_ext * glob :=
  match groups with
  | [] => ([], g)
  | e :: rest =>
      let '(e1, g1) := f e g in
      let '(rest1, g2) := groups_foreach f rest g1 in
      (e1 :: rest1, g2)
  end.

(** [pmf_arlg_attpt_grp_updn_handler]; a group of another feature has no
    extension of this file. *)
Definition pmf_arlg_attpt_grp_updn_handler (gprs : gpc_rlset) (is_up : bool)
  (earg : pmf_group_ext) (g : glob) : pmf_group_ext * glob :=
  if negb (gpc_feature_is_acl (gprg_feature (earg_gprg earg))) then (earg, g)
  else if is_up then
    let '(gprg1, g1) := gpc_group_hw_ntfy_attach gprs (earg_gprg earg) g in
    (earg_with_gprg gprg1 earg, g1)
  else
    let '(gprg1, g1) := gpc_group_hw_ntfy_detach (earg_gprg earg) g in
    (earg_with_gprg gprg1 earg, g1).

(** Modelled from the spec: [gpc_rlset_set_ifp], which binds "the ruleset
    to the live interface object"; [ifp] is the interface found for the
    ruleset, and without one the call fails and changes nothing. *)
Definition gpc_rlset_set_ifp (ifp : option Z) (gprs : gpc_rlset)
  : bool * gpc_rlset :=
  match ifp with
  | Some _ => (true, gprs_with_ifp ifp gprs)
  | None => (false, gprs)
  end.

(** [pmf_arlg_attpt_rls_updn]; [ifp] is the interface that
    [gpc_rlset_set_ifp] finds for the ruleset, if any. *)
Definition pmf_arlg_attpt_rls_updn (is_up : bool) (ifp : option Z)
  (gprs : gpc_rlset) (g : glob) : gpc_rlset * glob :=
  let '(bound, gprs1) :=
    if is_up then gpc_rlset_set_ifp ifp gprs else (true, gprs) in
  if is_up && negb bound then (gprs1, g)
  else
    let '(groups, g1) :=
      groups_foreach (pmf_arlg_attpt_grp_updn_handler gprs1 is_up)
        (gprs_groups gprs1) g in
    let gprs2 := gprs_with_groups groups gprs1 in
    (if negb is_up then gpc_rlset_clear_ifp gprs2 else gprs2, g1).

(** [pmf_arlg_attpt_rls_if_created] *)
Definition pmf_arlg_attpt_rls_if_created (gprs : gpc_rlset) (g : glob)
  : gpc_rlset * glob :=
  if gpc_rlset_is_if_created gprs then (gprs, g)
  else
    (* Mark as created *)
    let gprs1 := gpc_rlset_set_if_created gprs in
    match gpc_rlset_get_ifp gprs1 with
    | None => (gprs1, g)
    | Some _ =>
        (* Claim it came up *)
        let '(groups, g1) :=
          groups_foreach (pmf_arlg_attpt_grp_updn_handler gprs1 true)
            (gprs_groups gprs1) g in
        (gprs_with_groups groups gprs1, g1)
    end.

(** Modelled from the spec: [pmf_hw_commit], the "bulk commit call" that
    flushes "all queued hardware notifications as one unit"; with nothing
    queued nothing is sent. *)
Definition pmf_hw_commit (g : glob) : glob :=
  match hw_queue g with
  | [] => g
  | q => mk_glob (deferrals g) (commit_pending g) [] (hw_flushed g ++ [q])
           (allocs g) (heap_next g)
  end.

(** The rulesets of the GPC database, in the order of
    [GPC_RLSET_FOREACH]. *)
Definition gpc_db : Type := list gpc_rlset.

Fixpoint rlsets_foreach (f : gpc_rlset -> glob -> gpc_rlset * glob)
  (db : gpc_db) (g : glob) : gpc_db * glob :=
  match db with
  | [] => ([], g)
  | s :: rest =>
      let '(s1, g1) := f s g in
      let '(rest1, g2) := rlsets_foreach f rest g1 in
      (s1 :: rest1, g2)
  end.

(** The ruleset extension of an attach point ruleset, by interface name
    and direction: applies [f] to the first such ruleset. *)
Fixpoint rlset_apply (if_name : string) (dir_in : bool)
  (f : gpc_rlset -> glob -> gpc_rlset * glob) (db : gpc_db) (g : glob)
  : gpc_db * glob :=
  match db with
  | [] => ([], g)
  | s :: rest =>
      if streq if_name (gprs_ifname s) && Bool.eqb dir_in (gprs_is_ingress s)
      then let '(s1, g1) := f s g in (s1 :: rest, g1)
      else let '(rest1, g1) := rlset_apply if_name dir_in f rest g in
           (s :: rest1, g1)
  end.

Fixpoint rlset_remove (if_name : string) (dir_in : bool) (db : gpc_db)
  : gpc_db :=
  match db with
  | [] => []
  | s :: rest =>
      if streq if_name (gprs_ifname s) && Bool.eqb dir_in (gprs_is_ingress s)
      then rest
      else s :: rlset_remove if_name dir_in rest
  end.

(** [pmf_arlg_attpt_rls_ev_handler]; [gpc_rlset_create] allocates the
    ruleset. *)
Definition pmf_arlg_attpt_rls_ev_handler (event : npf_attpt_ev_type)
  (apk_type : npf_attach_type) (if_name : string)
  (rls_type : npf_ruleset_type) (set_extend_ok : bool)
  (db : gpc_db) (g : glob) : gpc_db * glob :=
  let enabled :=
    match event with NPF_ATTPT_EV_RLSET_ADD => true | _ => false end in
  match apk_type, rls_type with
  | NPF_ATTACH_TYPE_INTERFACE, (NPF_RS_ACL_IN | NPF_RS_ACL_OUT) =>
      let dir_in :=
        match rls_type with NPF_RS_ACL_IN => true | _ => false end in
      if negb enabled then (rlset_remove if_name dir_in db, g)
      else
        match calloc g with
        | (None, g1) => (db, g1)
        | (Some _, g1) =>
            if negb set_extend_ok then (db, g1)
            else (db ++ [mk_gpc_rlset if_name dir_in None false []], g1)
        end
  | _, _ => (db, g)
  end.

(** [pmf_arlg_attpt_ap_ev_handler]; [has_in] and [has_out] tell whether
    [npf_attpt_rlset_find] finds the rulesets of the attach point, [ifp]
    is the interface of the attach point. *)
Definition pmf_arlg_attpt_ap_ev_handler (event : npf_attpt_ev_type)
  (if_name : string) (has_in has_out : bool) (ifp : option Z)
  (db : gpc_db) (g : glob) : gpc_db * glob :=
  let is_up := match event with NPF_ATTPT_EV_UP => true | _ => false end in
  let '(db1, g1) :=
    if has_in
    then rlset_apply if_name true (pmf_arlg_attpt_rls_updn is_up ifp) db g
    else (db, g) in
  let '(db2, g2) :=
    if has_out
    then rlset_apply if_name false (pmf_arlg_attpt_rls_updn is_up ifp) db1 g1
    else (db1, g1) in
  let any_sets := has_in || has_out in
  (* If this occurs outside of config, force a commit *)
  (db2, if any_sets && negb (commit_pending g2) then pmf_hw_commit g2 else g2).

(** [pmf_arlg_if_feat_mode_change]; [l3_fal_enabled] tells whether the
    event is [IF_FEAT_MODE_EVENT_L3_FAL_ENABLED], [has_ap] whether the
    interface has an attach point. *)
Definition pmf_arlg_if_feat_mode_change (if_name : string)
  (l3_fal_enabled has_ap has_in has_out : bool)
  (db : gpc_db) (g : glob) : gpc_db * glob :=
  if negb l3_fal_enabled then (db, g)
  else if negb has_ap then (db, g)
  else
    let '(db1, g1) :=
      if has_in
      then rlset_apply if_name true pmf_arlg_attpt_rls_if_created db g
      else (db, g) in
    let '(db2, g2) :=
      if has_out
      then rlset_apply if_name false pmf_arlg_attpt_rls_if_created db1 g1
      else (db1, g1) in
    let any_sets := has_in || has_out in
    (db2, if any_sets && negb (commit_pending g2) then pmf_hw_commit g2 else g2).

(* ------------------------------------------------------------------ *)
(** ** The commit coordinator *)

(** The body of the loops of [pmf_arlg_commit_deferrals] for one group. *)
Definition commit_deferral_group (gprs : gpc_rlset) (earg : pmf_group_ext)
  (g : glob) : pmf_group_ext * glob :=
  let gprg := earg_gprg earg in
  if negb (gpc_feature_is_acl (gpc_group_get_feature gprg)) then (earg, g)
  else if negb (gpc_group_is_deferred gprg) then (earg, g)
  else
    (* Process a deferred group notification *)
    let gprg0 := gpc_group_clear_deferred gprg in
    (* Could be blocked by lack of address family *)
    let attr_rule := earg_attr_rule earg in
    let '(gprg1, g1) := gpc_group_hw_ntfy_create gprs gprg0 attr_rule g in
    (* Notify about all counters *)
    let '(gprg2, g2) :=
      match gpc_group_get_cntg gprg1 with
      | Some _ => gpc_cntg_hw_ntfy_cntrs_create gprg1 g1
      | None => (gprg1, g1)
      end in
    (* Notify about all rules *)
    let '(gprg3, g3) := gpc_group_hw_ntfy_rules_create gprg2 g2 in
    (* If the interface exists, we will attach *)
    let '(gprg4, g4) := gpc_group_hw_ntfy_attach gprs gprg3 g3 in
    (earg_with_gprg gprg4 earg, g4).

(** [pmf_arlg_commit_deferrals] *)
Definition pmf_arlg_commit_deferrals (db : gpc_db) (g : glob) : gpc_db * glob :=
  rlsets_foreach
    (fun gprs g0 =>
       let '(groups, g1) :=
         groups_foreach (commit_deferral_group gprs) (gprs_groups gprs) g0 in
       (gprs_with_groups groups gprs, g1))
    db g.

(** [pmf_arlg_commit] *)
Definition pmf_arlg_commit (db : gpc_db) (g : glob) : gpc_db * glob :=
  let '(db1, g1) :=
    if deferrals g then pmf_arlg_commit_deferrals db g else (db, g) in
  let g2 := pmf_hw_commit g1 in
  (db1, glob_with_commit_pending false (glob_with_deferrals false g2)).

(* ------------------------------------------------------------------ *)
(** ** Op-mode commands *)

Definition ENOMEM : Z := 12.

(** Modelled from the spec: the JSON writer of the "JSON-producing show
    counters query", as the calls made on it, in order. *)
Inductive jsonw_call : Type :=
| jsonw_pretty (on : bool)
| jsonw_name (name : string)
| jsonw_start_array
| jsonw_end_array
| jsonw_start_object
| jsonw_end_object
| jsonw_string_field (name val : string)
| jsonw_bool_field (name : string) (val : bool)
| jsonw_uint_field (name : string) (val : Z).

(** "Enforce filter heirarchy": [if (!ifname) dir = 0; if (!dir) rgname =
    NULL]. *)
Definition filter_dir (ifname : option string) (dir : Z) : Z :=
  match ifname with None => 0 | Some _ => dir end.
Definition filter_rgname (dir : Z) (rgname : option string) : option string :=
  if dir =? 0 then None else rgname.

(** The tests at the head of the ruleset loop of both commands; [true]
    when none of them takes [continue]. *)
Definition rlset_selected (ifname : option string) (dir : Z) (gprs : gpc_rlset)
  : bool :=
  match gpc_rlset_get_ifp gprs with
  | None => false                       (* Skip rulesets w/o an interface *)
  | Some _ =>
      if match ifname with
         | Some n => negb (streq n (gpc_rlset_get_ifname gprs))
         | None => false
         end then false
      else if (dir <? 0) && negb (gpc_rlset_is_ingress gprs) then false
      else if (0 <? dir) && gpc_rlset_is_ingress gprs then false
      else true
  end.

(** The tests at the head of the group loop of both commands. *)
Definition group_selected (rgname : option string) (earg : pmf_group_ext)
  : bool :=
  let gprg := earg_gprg earg in
  if negb (gpc_feature_is_acl (gpc_group_get_feature gprg)) then false
  else if match rgname with
          | Some n => negb (streq n (gpc_group_get_name gprg))
          | None => false
          end then false
  else true.

(** [pmf_arlg_show_cntr_ruleset] *)
Definition pmf_arlg_show_cntr_ruleset (gprs : gpc_rlset) : list jsonw_call :=
  let rs_in := gpc_rlset_is_ingress gprs in
  [jsonw_string_field "interface" (gpc_rlset_get_ifname gprs);
   jsonw_string_field "direction" (if rs_in then "in" else "out")].

(** [pmf_arlg_show_hw_cntr] *)
Definition pmf_arlg_show_hw_cntr (a : addr) (eark : pmf_cntr)
  : list jsonw_call :=
  let ct_flags := eark_flags eark in
  if negb (flag_test ct_flags PMF_EARKF_LL_CREATED) then []
  else
    let ct_cnt_packet := flag_test ct_flags PMF_EARKF_CNT_PACKET in
    let ct_cnt_byte := flag_test ct_flags PMF_EARKF_CNT_BYTE in
    match pmf_hw_counter_read hw a with
    | None => []
    | Some (val_pkt, val_byt) =>
        [jsonw_name "hw"; jsonw_start_object]
        ++ (if ct_cnt_packet then [jsonw_uint_field "pkts" val_pkt] else [])
        ++ (if ct_cnt_byte then [jsonw_uint_field "bytes" val_byt] else [])
        ++ [jsonw_end_object]
    end.

(** [pmf_arlg_show_cntr] *)
Definition pmf_arlg_show_cntr (ak : addr * pmf_cntr) : list jsonw_call :=
  let '(a, eark) := ak in
  let ct_flags := eark_flags eark in
  if negb (flag_test ct_flags PMF_EARKF_PUBLISHED) then []
  else
    let ct_cnt_packet := flag_test ct_flags PMF_EARKF_CNT_PACKET in
    let ct_cnt_byte := flag_test ct_flags PMF_EARKF_CNT_BYTE in
    [jsonw_start_object;
     jsonw_string_field "name" (eark_name eark);
     jsonw_bool_field "cnt-pkts" ct_cnt_packet;
     jsonw_bool_field "cnt-bytes" ct_cnt_byte]
    ++ pmf_arlg_show_hw_cntr a eark
    ++ [jsonw_end_object].

(** The group loop of [pmf_arlg_cmd_show_counters]. *)
Fixpoint show_groups (rgname : option string) (groups : list pmf_group_ext)
  : list jsonw_call :=
  match groups with
  | [] => []
  | earg :: rest =>
      (if group_selected rgname earg then
         [jsonw_start_object;
          jsonw_string_field "name" (gpc_group_get_name (earg_gprg earg));
          jsonw_name "counters"; jsonw_start_array]
         ++ flat_map pmf_arlg_show_cntr (earg_cntrs earg)
         ++ [jsonw_end_array; jsonw_end_object]
       else [])
      ++ show_groups rgname rest
  end.

(** The ruleset loop of [pmf_arlg_cmd_show_counters]. *)
Fixpoint show_rlsets (ifname : option string) (dir : Z)
  (rgname : option string) (db : gpc_db) : list jsonw_call :=
  match db with
  | [] => []
  | gprs :: rest =>
      (if rlset_selected ifname dir gprs then
         [jsonw_start_object]
         ++ pmf_arlg_show_cntr_ruleset gprs
         ++ [jsonw_name "groups"; jsonw_start_array]
         ++ show_groups rgname (gprs_groups gprs)
         ++ [jsonw_end_array; jsonw_end_object]
       else [])
      ++ show_rlsets ifname dir rgname rest
  end.

(** [pmf_arlg_cmd_show_counters]; [json_ok] tells whether [jsonw_new]
    gives a writer. *)
Definition pmf_arlg_cmd_show_counters (json_ok : bool)
  (ifname : option string) (dir : Z) (rgname : option string) (db : gpc_db)
  : Z * list jsonw_call :=
  if negb json_ok then (- ENOMEM, [])
  else
    let dir := filter_dir ifname dir in
    let rgname := filter_rgname dir rgname in
    (0,
     [jsonw_pretty true; jsonw_name "rulesets"; jsonw_start_array]
     ++ show_rlsets ifname dir rgname db
     ++ [jsonw_end_array]).

(** The counter loop of [pmf_arlg_cmd_clear_counters]; [pmf_hw_counter_clear]
    is a call to the hardware layer. *)
Fixpoint clear_cntrs (cntrs : list (addr * pmf_cntr)) (rc : Z) (g : glob)
  : Z * glob :=
  match cntrs with
  | [] => (rc, g)
  | (a, eark) :: rest =>
      let ct_flags := eark_flags eark in
      if negb (flag_test ct_flags PMF_EARKF_PUBLISHED)
      then clear_cntrs rest rc g
      else
        let g1 := hw_emit (HwCounterClear a) g in
        if negb (pmf_hw_counter_clear hw a)
        then clear_cntrs rest (- EIO) g1
        else clear_cntrs rest rc g1
  end.

(** The group loop of [pmf_arlg_cmd_clear_counters]. *)
Fixpoint clear_groups (rgname : option string) (groups : list pmf_group_ext)
  (rc : Z) (g : glob) : Z * glob :=
  match groups with
  | [] => (rc, g)
  | earg :: rest =>
      if group_selected rgname earg then
        let '(rc1, g1) := clear_cntrs (earg_cntrs earg) rc g in
        clear_groups rgname rest rc1 g1
      else clear_groups rgname rest rc g
  end.

(** The ruleset loop of [pmf_arlg_cmd_clear_counters]. *)
Fixpoint clear_rlsets (ifname : option string) (dir : Z)
  (rgname : option string) (db : gpc_db) (rc : Z) (g : glob) : Z * glob :=
  match db with
  | [] => (rc, g)
  | gprs :: rest =>
      if rlset_selected ifname dir gprs then
        let '(rc1, g1) := clear_groups rgname (gprs_groups gprs) rc g in
        clear_rlsets ifname dir rgname rest rc1 g1
      else clear_rlsets ifname dir rgname rest rc g
  end.

(** [pmf_arlg_cmd_clear_counters] *)
Definition pmf_arlg_cmd_clear_counters (ifname : option string) (dir : Z)
  (rgname : option string) (db : gpc_db) (g : glob) : Z * glob :=
  let rc := 0 in (* Success *)
  let dir := filter_dir ifname dir in
  let rgname := filter_rgname dir rgname in
  clear_rlsets ifname dir rgname db rc g.

(** *** The clear-counters operation in the words of its description

    "applies the same filter hierarchy and requests a hardware-level reset
    of every published counter matched, returning success unless any
    individual hardware clear fails (in which case an I/O error is
    reported, but all matched counters are still attempted)". *)

(** "a direction filter requires an interface filter; a group-name filter
    requires a direction filter". *)
Definition effective_dir (ifname : option string) (dir : Z) : Z :=
  match ifname with Some _ => dir | None => 0 end.
Definition effective_rgname (ifname : option string) (dir : Z)
  (rgname : option string) : option string :=
  match ifname with
  | Some _ => if dir =? 0 then None else rgname
  | None => None
  end.

Definition rlset_matches (ifname : option string) (dir : Z) (gprs : gpc_rlset)
  : bool :=
  match ifname with
  | Some n => String.eqb n (gprs_ifname gprs)
  | None => true
  end
  && (if dir <? 0 then gprs_is_ingress gprs
      else if 0 <? dir then negb (gprs_is_ingress gprs) else true).

Definition group_matches (rgname : option string) (earg : pmf_group_ext)
  : bool :=
  match rgname with
  | Some n => String.eqb n (gprg_name (earg_gprg earg))
  | None => true
  end.

Definition is_bound (gprs : gpc_rlset) : bool :=
  match gprs_ifp gprs with Some _ => true | None => false end.
Definition is_acl_group (earg : pmf_group_ext) : bool :=
  gpc_feature_is_acl (gprg_feature (earg_gprg earg)).
Definition is_published_cntr (ak : addr * pmf_cntr) : bool :=
  Z.testbit (eark_flags (snd ak)) 0.

(** The published counters matched by the filters, in database order:
    those of the ACL groups of the rulesets bound to an interface. *)
Definition matched_counters (ifname : option string) (dir : Z)
  (rgname : option string) (db : gpc_db) : list addr :=
  let d := effective_dir ifname dir in
  let r := effective_rgname ifname dir rgname in
  flat_map
    (fun gprs =>
       flat_map
         (fun earg => map fst (filter is_published_cntr (earg_cntrs earg)))
         (filter (fun earg => is_acl_group earg && group_matches r earg)
            (gprs_groups gprs)))
    (filter (fun gprs => is_bound gprs && rlset_matches ifname d gprs) db).

(** The hardware calls for the counters [attempted], in order, and the
    return code after them when it was [rc] before. *)
Definition emit_clears (attempted : list addr) (g : glob) : glob :=
  fold_left (fun g0 a => hw_emit (HwCounterClear a) g0) attempted g.

Definition clear_rc (rc : Z) (attempted : list addr) : Z :=
  if forallb (pmf_hw_counter_clear hw) attempted then rc else - EIO.

Definition clear_result (attempted : list addr) : Z :=
  if forallb (pmf_hw_counter_clear hw) attempted then 0 else - EIO.

(* ------------------------------------------------------------------ *)
(** ** Event dispatch

    The control plane runs one handler to completion before the next.  An
    event names the attach point by its interface, the ruleset by its
    direction and the group by its name, as the subsystems that deliver it
    do. *)

Fixpoint group_apply (rg_name : string)
  (f : pmf_group_ext -> glob -> pmf_group_ext * glob)
  (groups : list pmf_group_ext) (g : glob) : list pmf_group_ext * glob :=
  match groups with
  | [] => ([], g)
  | e :: rest =>
      if streq rg_name (gprg_name (earg_gprg e))
      then let '(e1, g1) := f e g in (e1 :: rest, g1)
      else let '(rest1, g1) := group_apply rg_name f rest g in (e :: rest1, g1)
  end.

Inductive dp_event : Type :=
| EvAttptGrp (event : npf_attpt_ev_type) (apk_type : npf_attach_type)
    (if_name : string) (rgk_class : npf_rule_class) (rg_name : string)
    (rls_type : npf_ruleset_type) (set_extend_ok : bool) (reg_rc : Z)
    (cfg : list npf_cfg_rule_walk_state)
| EvAttptRls (event : npf_attpt_ev_type) (apk_type : npf_attach_type)
    (if_name : string) (rls_type : npf_ruleset_type) (set_extend_ok : bool)
| EvAttptAp (event : npf_attpt_ev_type) (if_name : string)
    (has_in has_out : bool) (ifp : option Z)
| EvIfFeatMode (if_name : string) (l3_fal_enabled has_ap has_in has_out : bool)
| EvGroupModify (if_name : string) (dir_in : bool) (rg_name : string)
    (ev : npf_cfg_rule_group_event)
| EvCommit.

Definition dp_step (e : dp_event) (st : gpc_db * glob) : gpc_db * glob :=
  let '(db, g) := st in
  match e with
  | EvAttptGrp event apk_type if_name rgk_class rg_name rls_type ok rc cfg =>
      let dir_in := match rls_type with NPF_RS_ACL_IN => true | _ => false end in
      rlset_apply if_name dir_in
        (pmf_arlg_attpt_grp_ev_handler event apk_type rgk_class rg_name
           rls_type ok rc cfg)
        db g
  | EvAttptRls event apk_type if_name rls_type ok =>
      pmf_arlg_attpt_rls_ev_handler event apk_type if_name rls_type ok db g
  | EvAttptAp event if_name has_in has_out ifp =>
      pmf_arlg_attpt_ap_ev_handler event if_name has_in has_out ifp db g
  | EvIfFeatMode if_name l3 has_ap has_in has_out =>
      pmf_arlg_if_feat_mode_change if_name l3 has_ap has_in has_out db g
  | EvGroupModify if_name dir_in rg_name ev =>
      rlset_apply if_name dir_in
        (fun gprs g0 =>
           let '(groups, g1) :=
             group_apply rg_name
               (fun earg g' => pmf_arlg_group_modify gprs earg ev g')
               (gprs_groups gprs) g0 in
           (gprs_with_groups groups gprs, g1))
        db g
  | EvCommit => pmf_arlg_commit db g
  end.

Definition dp_run (evs : list dp_event) (st : gpc_db * glob) : gpc_db * glob :=
  fold_left (fun st e => dp_step e st) evs st.

End Reconciler.

(** The state at start-up: no ruleset, both flags clear, nothing queued;
    [oom] gives the outcomes of the allocations to come. *)
Definition glob_init (oom : list bool) : glob :=
  mk_glob false false [] [] oom O.

Definition dp_init (oom : list bool) : gpc_db * glob := ([], glob_init oom).

(** A sequence of rule operations on one group, as delivered to
    [pmf_arlg_group_modify]. *)
Inductive rule_op : Type :=
| OpAdd (rule : pmf_rule) (rl_idx : Z)
| OpChange (rule : pmf_rule) (rl_idx : Z)
| OpDelete (rl_idx : Z).

Definition rule_op_event (op : rule_op) : npf_cfg_rule_group_event :=
  match op with
  | OpAdd rule idx =>
      mk_group_event NPF_RULE_CLASS_ACL NPF_EVENT_GROUP_RULE_ADD idx rule
  | OpChange rule idx =>
      mk_group_event NPF_RULE_CLASS_ACL NPF_EVENT_GROUP_RULE_CHANGE idx rule
  | OpDelete idx =>
      mk_group_event NPF_RULE_CLASS_ACL NPF_EVENT_GROUP_RULE_DELETE idx
        (mk_pmf_rule 0 None)
  end.

Definition rule_ops_run (ras : pmf_ras) (hw : pmf_hw) (gprs : gpc_rlset)
  (ops : list rule_op) (st : pmf_group_ext * glob) : pmf_group_ext * glob :=
  fold_left
    (fun st op =>
       pmf_arlg_group_modify ras hw gprs (fst st) (rule_op_event op) (snd st))
    ops st.

(* ------------------------------------------------------------------ *)
(** ** The order of the notifications, in the words of its description

    Teardown: "detach -> delete rules -> delete counters -> delete group";
    publication: "group before counters before rules before attach".  The
    counters are notified when the group has a Counter-Group. *)

Definition teardown_ntfys (gprg : gpc_group) : list hw_ntfy :=
  [NtfyGroupDetach (gprg_name gprg); NtfyRulesDelete (gprg_name gprg)]
  ++ match gprg_cntg gprg with
     | Some _ => [NtfyCntrsDelete (gprg_name gprg)]
     | None => []
     end
  ++ [NtfyGroupDelete (gprg_name gprg)].

Definition publish_ntfys (gprg : gpc_group) : list hw_ntfy :=
  [NtfyGroupCreate (gprg_name gprg)]
  ++ match gprg_cntg gprg with
     | Some _ => [NtfyCntrsCreate (gprg_name gprg)]
     | None => []
     end
  ++ [NtfyRulesCreate (gprg_name gprg); NtfyGroupAttach (gprg_name gprg)].

(** A deletion of rules or of counters. *)
Definition is_rule_or_cntr_delete (n : hw_ntfy) : bool :=
  match n with
  | NtfyRulesDelete _ | NtfyRuleDelete _ _ | NtfyCntrsDelete _
  | NtfyCntrDelete _ _ | HwCounterDelete _ => true
  | _ => false
  end.

(** "detach is never preceded by any rule or counter deletion" *)
Fixpoint no_delete_before_detach (t : list hw_ntfy) : bool :=
  match t with
  | [] => true
  | NtfyGroupDetach _ :: _ => true
  | n :: rest => negb (is_rule_or_cntr_delete n) && no_delete_before_detach rest
  end.

(** "group-delete is never issued before all rule and counter deletions" *)
Fixpoint no_delete_after_group_delete (t : list hw_ntfy) : bool :=
  match t with
  | [] => true
  | NtfyGroupDelete _ :: rest =>
      forallb (fun n => negb (is_rule_or_cntr_delete n)) rest
      && no_delete_after_group_delete rest
  | _ :: rest => no_delete_after_group_delete rest
  end.

Definition teardown_in_order (t : list hw_ntfy) : bool :=
  no_delete_before_detach t && no_delete_after_group_delete t.

(** No counter of the Counter-Group is in hardware. *)
Definition cntrs_quiet (gprg : gpc_group) : Prop :=
  Forall (fun c => cntr_ll_created c = false) (gprg_cntrs gprg).

(** A published group has an address family on record and belongs to a
    ruleset whose interface has been created. *)
Definition pub_ok (gprs : gpc_rlset) (gprg : gpc_group) : Prop :=
  gprg_published gprg = true ->
  gprs_if_created gprs = true /\ gpc_group_has_family gprg = true.

Definition rule_indices (gprg : gpc_group) : list Z :=
  map gprl_index (gprg_rules gprg).

(** What every step of the reconciler other than the creation and the
    deletion of a rule keeps of a group. *)
Definition gprg_keeps (gprs : gpc_rlset) (p q : gpc_group) : Prop :=
  (pub_ok gprs p -> pub_ok gprs q)
  /\ gprg_name q = gprg_name p
  /\ gprg_feature q = gprg_feature p
  /\ rule_indices q = rule_indices p.

Definition earg_keeps (gprs : gpc_rlset) (e e' : pmf_group_ext) : Prop :=
  gprg_keeps gprs (earg_gprg e) (earg_gprg e')
  /\ earg_num_rules e' = earg_num_rules e.

(** What the creation and the deletion of a rule keep as well. *)
Definition gprg_keeps_pub (gprs : gpc_rlset) (p q : gpc_group) : Prop :=
  (pub_ok gprs p -> pub_ok gprs q)
  /\ gprg_name q = gprg_name p
  /\ gprg_feature q = gprg_feature p.

(** The group extension as [pmf_arlg_attpt_grp_ev_handler] makes it before
    it walks the configured rules. *)
Definition earg_created (rg_name : string) : pmf_group_ext :=
  mk_pmf_group_ext
    (gpc_group_set_deferred
       (mk_gpc_group rg_name GPC_FEAT_ACL 0 false false false None None []))
    [] None 0 0.

(** *** The rule count, in the words of its description

    "the number of non-attribute-rule Add calls minus Delete calls". *)

Definition op_adds (op : rule_op) : Z :=
  match op with
  | OpAdd _ idx => if idx =? UINT32_MAX then 0 else 1
  | _ => 0
  end.

Definition op_deletes (op : rule_op) : Z :=
  match op with
  | OpDelete idx => if idx =? UINT32_MAX then 0 else 1
  | _ => 0
  end.

Fixpoint count_adds (ops : list rule_op) : Z :=
  match ops with
  | [] => 0
  | op :: rest => op_adds op + count_adds rest
  end.

Fixpoint count_deletes (ops : list rule_op) : Z :=
  match ops with
  | [] => 0
  | op :: rest => op_deletes op + count_deletes rest
  end.

(** The Delete calls at non-attribute indices that find their rule, that
    is, for which [pmf_arlg_rl_del] returns [true]. *)
Definition op_deletes_done (ras : pmf_ras) (hw : pmf_hw) (gprs : gpc_rlset)
  (op : rule_op) (st : pmf_group_ext * glob) : Z :=
  match op with
  | OpDelete idx =>
      if idx =? UINT32_MAX then 0
      else if fst (fst (pmf_arlg_rl_del hw gprs (fst st) idx (snd st)))
      then 1 else 0
  | _ => 0
  end.

Fixpoint count_deletes_done (ras : pmf_ras) (hw : pmf_hw) (gprs : gpc_rlset)
  (ops : list rule_op) (st : pmf_group_ext * glob) : Z :=
  match ops with
  | [] => 0
  | op :: rest =>
      op_deletes_done ras hw gprs op st
      + count_deletes_done ras hw gprs rest
          (pmf_arlg_group_modify ras hw gprs (fst st) (rule_op_event op) (snd st))
  end.

(** Every group of the ruleset, and of the database, satisfies [pub_ok]. *)
Definition rlset_ok (gprs : gpc_rlset) : Prop :=
  Forall (fun earg => pub_ok gprs (earg_gprg earg)) (gprs_groups gprs).

Definition db_ok (db : gpc_db) : Prop := Forall rlset_ok db.

(** *** Publication, in the words of its description

    "A group becomes published == true if and only if it currently has a
    non-null attribute rule with a non-null address family". *)
Definition published_iff_attr_family (earg : pmf_group_ext) : Prop :=
  gprg_published (earg_gprg earg) = true
  <-> exists rule ipfam,
        earg_attr_rule earg = Some rule /\ pp_match_ipfam rule = Some ipfam.

(* ------------------------------------------------------------------ *)
(** ** Notions used to state further properties *)

(** *** The counter list of a group *)

(** The counter list as the heap holds it: the counters have distinct
    addresses, all below the next address the allocator gives out, and
    distinct names. *)
Definition cntrs_wf (earg : pmf_group_ext) (g : glob) : Prop :=
  NoDup (map fst (earg_cntrs earg))
  /\ NoDup (map (fun ak => eark_name (snd ak)) (earg_cntrs earg))
  /\ Forall (fun ak => (fst ak < heap_next g)%nat) (earg_cntrs earg).

(** The number of users of the counter that [pmf_arlg_find_cntr] finds
    under [name]; 0 when there is none. *)
Definition cntr_refs (earg : pmf_group_ext) (name : string) : Z :=
  match pmf_arlg_find_cntr earg name with
  | Some a =>
      match cntr_deref (earg_cntrs earg) a with
      | Some eark => eark_refcount eark
      | None => 0
      end
  | None => 0
  end.

(** The number of characters that ["%u"] prints for [n]. *)
Definition uint_width (n : Z) : nat :=
  String.length (NilZero.string_of_uint (N.to_uint (Z.to_N n))).

(** The flags of a counter as the functions of this file leave them:
    bytes are not counted, a published counter counts packets, and only a
    published counter is created at the low level. *)
Definition eark_flags_ok (eark : pmf_cntr) : Prop :=
  gpc_cntr_old_byt_enabled eark = false
  /\ (flag_test (eark_flags eark) PMF_EARKF_PUBLISHED = true ->
      gpc_cntr_old_pkt_enabled eark = true)
  /\ (flag_test (eark_flags eark) PMF_EARKF_LL_CREATED = true ->
      flag_test (eark_flags eark) PMF_EARKF_PUBLISHED = true).

Definition cntrs_flags_ok (earg : pmf_group_ext) : Prop :=
  Forall (fun ak => eark_flags_ok (snd ak)) (earg_cntrs earg).

(** *** Rules and commits *)

(** Whether the group holds what [rl_idx] names: the attribute rule for
    [UINT32_MAX], else the rule of that index. *)
Definition rl_present (earg : pmf_group_ext) (rl_idx : Z) : bool :=
  if rl_idx =? UINT32_MAX
  then match earg_attr_rule earg with Some _ => true | None => false end
  else match gpc_rule_find (earg_gprg earg) rl_idx with
       | Some _ => true
       | None => false
       end.

(** The notifications of the deferred ACL groups of the database, in the
    order of the two loops of [pmf_arlg_commit_deferrals]. *)
Definition deferred_ntfys (db : gpc_db) : list hw_ntfy :=
  flat_map
    (fun gprs =>
       flat_map
         (fun earg =>
            if is_acl_group earg && gpc_group_is_deferred (earg_gprg earg)
            then publish_ntfys (earg_gprg earg) else [])
         (gprs_groups gprs))
    db.

(** *** Handlers *)

(** The names of the ACL groups of a ruleset, in order. *)
Definition acl_group_names (gprs : gpc_rlset) : list string :=
  map (fun earg => gprg_name (earg_gprg earg))
    (filter is_acl_group (gprs_groups gprs)).

(** A handler that leaves the two flags of the file and the batches
    already flushed as they are, and one that moreover only adds to the
    queue of the hardware layer. *)
Definition glob_flags_kept (g g' : glob) : Prop :=
  deferrals g' = deferrals g
  /\ commit_pending g' = commit_pending g
  /\ hw_flushed g' = hw_flushed g.

Definition glob_queues_only (g g' : glob) : Prop :=
  glob_flags_kept g g' /\ exists l, hw_queue g' = hw_queue g ++ l.

(** The attribute rule and the number of rules of the configured content
    of a rule group: the first entry at [UINT32_MAX], and the entries at
    the other indices. *)
Definition cfg_attr_rule (cfg : list npf_cfg_rule_walk_state) : option pmf_rule :=
  match find (fun grp => ws_index grp =? UINT32_MAX) cfg with
  | Some grp => Some (ws_parsed grp)
  | None => None
  end.

Definition cfg_num_rules (cfg : list npf_cfg_rule_walk_state) : Z :=
  Z.of_nat
    (List.length (filter (fun grp => negb (ws_index grp =? UINT32_MAX)) cfg)).

(** *** The JSON document of the show command

    The calls on the writer form a document when names and fields occur
    in objects only, a name is followed by the object or array it names,
    the elements of an array are unnamed, and every object and array is
    closed where it was opened; [jsonw_new] opens the outermost object and
    [jsonw_destroy] closes it. *)
Inductive json_ctx : Type := JsonObj | JsonArr.

(** The open objects and arrays, innermost first, and whether a name
    awaits its value. *)
Definition json_state : Type := (list json_ctx * bool)%type.

Definition json_step (c : jsonw_call) (st : json_state) : option json_state :=
  let '(stack, named) := st in
  match c, stack, named with
  | jsonw_pretty _, _, _ => Some st
  | jsonw_name _, JsonObj :: _, false => Some (stack, true)
  | jsonw_start_object, JsonObj :: _, true => Some (JsonObj :: stack, false)
  | jsonw_start_object, JsonArr :: _, false => Some (JsonObj :: stack, false)
  | jsonw_start_array, JsonObj :: _, true => Some (JsonArr :: stack, false)
  | jsonw_start_array, JsonArr :: _, false => Some (JsonArr :: stack, false)
  | jsonw_end_object, JsonObj :: (_ :: _) as rest, false => Some (rest, false)
  | jsonw_end_array, JsonArr :: rest, false => Some (rest, false)
  | jsonw_string_field _ _, JsonObj :: _, false => Some st
  | jsonw_bool_field _ _, JsonObj :: _, false => Some st
  | jsonw_uint_field _ _, JsonObj :: _, false => Some st
  | _, _, _ => None
  end.

Fixpoint json_run (cs : list jsonw_call) (st : json_state) : option json_state :=
  match cs with
  | [] => Some st
  | c :: rest =>
      match json_step c st with
      | Some st' => json_run rest st'
      | None => None
      end
  end.

Definition json_well_formed (cs : list jsonw_call) : bool :=
  match json_run cs ([JsonObj], false) with
  | Some ([JsonObj], false) => true
  | _ => false
  end.

(** The part of the database that the filters of the op-mode commands
    select: the rulesets that pass the tests of the ruleset loop, with the
    groups that pass the tests of the group loop. *)
Definition db_select (ifname : option string) (dir : Z)
  (rgname : option string) (db : gpc_db) : gpc_db :=
  let d := filter_dir ifname dir in
  let r := filter_rgname d rgname in
  map (fun gprs =>
         gprs_with_groups (filter (group_selected r) (gprs_groups gprs)) gprs)
    (filter (rlset_selected ifname d) db).

(* ------------------------------------------------------------------ *)
(** ** Example values *)

Definition ras_bits : pmf_ras :=
  mk_pmf_ras 1 2 4 8 16 32 24.

Definition hw_all_ok : pmf_hw :=
  mk_pmf_hw (fun _ => true) (fun _ => true) (fun _ => Some (0, 0))
    (fun _ => true).

(** The hardware refuses to clear the counter at address 1. *)
Definition hw_clear_fails_1 : pmf_hw :=
  mk_pmf_hw (fun _ => true) (fun a => negb (Nat.eqb a 1))
    (fun _ => Some (0, 0)) (fun _ => true).

Definition attr_v4 : pmf_rule := mk_pmf_rule 0 (Some (mk_ipfam false)).
Definition attr_v6 : pmf_rule := mk_pmf_rule 0 (Some (mk_ipfam true)).
Definition attr_nofam : pmf_rule := mk_pmf_rule 0 None.
Definition attr_v4_numbered : pmf_rule := mk_pmf_rule 4 (Some (mk_ipfam false)).
Definition attr_nofam_numbered : pmf_rule := mk_pmf_rule 4 None.
Definition rule_pass : pmf_rule := mk_pmf_rule 2 None.

(** The ingress ruleset of an interface that does not exist yet, and the
    same once the interface is created and up. *)
Definition rlset_eth0 : gpc_rlset := mk_gpc_rlset "eth0" true None false [].
Definition rlset_eth0_up : gpc_rlset :=
  mk_gpc_rlset "eth0" true (Some 7) true [].

Definition ev_rls_add : dp_event :=
  EvAttptRls NPF_ATTPT_EV_RLSET_ADD NPF_ATTACH_TYPE_INTERFACE "eth0"
    NPF_RS_ACL_IN true.
Definition ev_ap_up : dp_event :=
  EvAttptAp NPF_ATTPT_EV_UP "eth0" true false (Some 7).
Definition ev_if_created : dp_event := EvIfFeatMode "eth0" true true true false.
Definition ev_grp_add (cfg : list npf_cfg_rule_walk_state) : dp_event :=
  EvAttptGrp NPF_ATTPT_EV_GRP_ADD NPF_ATTACH_TYPE_INTERFACE "eth0"
    NPF_RULE_CLASS_ACL "g1" NPF_RS_ACL_IN true 0 cfg.
Definition ev_rule (op : rule_op) : dp_event :=
  EvGroupModify "eth0" true "g1" (rule_op_event op).

(** The group "g1" with an IPv4 attribute rule is attached to the ingress
    ruleset of "eth0" before the interface exists. *)
Definition evs_deferred : list dp_event :=
  [ev_rls_add; ev_grp_add [mk_walk_state UINT32_MAX attr_v4]].

(** The same on an interface that is created and up, with one rule, and
    committed: the group is published under IPv4. *)
Definition evs_published : list dp_event :=
  [ev_rls_add; ev_ap_up; ev_if_created;
   ev_grp_add [mk_walk_state UINT32_MAX attr_v4; mk_walk_state 1 rule_pass];
   EvCommit].

(** The same with numbered counters asked for by the attribute rule. *)
Definition evs_published_numbered : list dp_event :=
  [ev_rls_add; ev_ap_up; ev_if_created;
   ev_grp_add
     [mk_walk_state UINT32_MAX attr_v4_numbered; mk_walk_state 1 rule_pass];
   EvCommit].

(** What is looked at in a group: the attribute-rule flag, the published
    and deferred flags, the family and the attribute rule. *)
Definition group_view (earg : pmf_group_ext)
  : bool * bool * bool * option bool * option pmf_rule :=
  (flag_test (earg_flags earg) PMF_EARGF_RULE_ATTR,
   gprg_published (earg_gprg earg), gprg_deferred (earg_gprg earg),
   gprg_family (earg_gprg earg), earg_attr_rule earg).

Definition db_view (db : gpc_db)
  : list (list (bool * bool * bool * option bool * option pmf_rule)) :=
  map (fun gprs => map group_view (gprs_groups gprs)) db.

(** A published IPv4 group holding the attribute-rule flag, without and
    with a Counter-Group. *)
Definition earg_pub_v4 : pmf_group_ext :=
  mk_pmf_group_ext
    (mk_gpc_group "g1" GPC_FEAT_ACL 2 true true false (Some false) None
       [mk_gpc_rule 1 (Some rule_pass) None None true])
    [] (Some attr_v4) 1 1.

Definition earg_pub_v4_cntg : pmf_group_ext :=
  mk_pmf_group_ext
    (mk_gpc_group "g1" GPC_FEAT_ACL 6 true true false (Some false)
       (Some (mk_gpc_cntg GPC_CNTT_NUMBERED [mk_gpc_cntr "1" 1 true true]))
       [mk_gpc_rule 1 (Some rule_pass) (Some "1"%string) None true])
    [] (Some attr_v4_numbered) 1 1.

(** A counter of [earg_cntrs] at address 5, low-level created and
    published, referenced by the rules 10 and 11 of a published group. *)
Definition eark_accept : pmf_cntr := mk_pmf_cntr "accept" 0 3 2.

Definition earg_two_refs : pmf_group_ext :=
  mk_pmf_group_ext
    (mk_gpc_group "g1" GPC_FEAT_ACL 0 true true false (Some false) None
       [mk_gpc_rule 10 None None (Some 5%nat) true;
        mk_gpc_rule 11 None None (Some 5%nat) true])
    [(5%nat, eark_accept)] (Some attr_v4) 2 1.

(** Published counters at the addresses 1 and 2 of a group of a ruleset
    bound to its interface, and of one that is not. *)
Definition earg_two_cntrs : pmf_group_ext :=
  mk_pmf_group_ext
    (mk_gpc_group "g1" GPC_FEAT_ACL 0 true true false (Some false) None [])
    [(1%nat, mk_pmf_cntr "accept" 0 7 1); (2%nat, mk_pmf_cntr "drop" 0 7 1)]
    (Some attr_v4) 0 1.

Definition rlset_bound : gpc_rlset :=
  mk_gpc_rlset "eth0" true (Some 7) true [earg_two_cntrs].
Definition rlset_unbound : gpc_rlset :=
  mk_gpc_rlset "eth0" true None false [earg_two_cntrs].

Definition rlset_with_cntg : gpc_rlset :=
  mk_gpc_rlset "eth0" true (Some 7) true [earg_pub_v4_cntg].

(** The database once "g1" is published, its ruleset and its group. *)
Definition db_published : gpc_db :=
  fst (dp_run ras_bits hw_all_ok evs_published (dp_init [])).
Definition rlset_published : gpc_rlset := hd rlset_eth0 db_published.
Definition earg_published : pmf_group_ext :=
  hd earg_pub_v4 (gprs_groups rlset_published).

(** A commit is pending, nothing is deferred, nothing is queued. *)
Definition glob_idle : glob := mk_glob false true [] [] [] 9%nat.

(** Two rules are added, one is deleted, a rule that does not exist is
    deleted. *)
Definition ops_two_adds : list rule_op :=
  [OpAdd rule_pass 1; OpAdd rule_pass 2; OpDelete 1; OpDelete 7].

(** A rule that passes and refers to a counter, and an IPv6 attribute
    rule that asks for numbered counters. *)
Definition rule_pass_counted : pmf_rule := mk_pmf_rule 34 None.
Definition attr_v6_numbered : pmf_rule := mk_pmf_rule 4 (Some (mk_ipfam true)).

(** A published group whose summary asks for numbered counters and whose
    rule 1 refers to a counter and has none yet. *)
Definition earg_numbered : pmf_group_ext :=
  mk_pmf_group_ext
    (mk_gpc_group "g1" GPC_FEAT_ACL 4 true true false (Some false) None
       [mk_gpc_rule 1 (Some rule_pass_counted) None None true])
    [] (Some attr_v4_numbered) 1 1.

(** A published group with per-action counters and an "accept" counter at
    address 5, published and created at the low level, with one user. *)
Definition eark_accept_full : pmf_cntr := mk_pmf_cntr "accept" 0 7 1.

Definition earg_named : pmf_group_ext :=
  mk_pmf_group_ext
    (mk_gpc_group "g1" GPC_FEAT_ACL 12 true true false (Some false) None
       [mk_gpc_rule 1 (Some rule_pass_counted) None None true])
    [(5%nat, eark_accept_full)] (Some (mk_pmf_rule 12 (Some (mk_ipfam false))))
    1 1.

(** The group "g1" as it is after its IPv4 attribute rule was added
    before the interface of its ruleset existed: it has the family on
    record and the mark set at its creation, and it is not published. *)
Definition earg_blocked_v4 : pmf_group_ext :=
  fst (pmf_arlg_rl_attr_check hw_all_ok rlset_eth0 (earg_created "g1")
         (Some attr_v4) (glob_init [])).

(* ================================================================== *)
(** * Properties *)

(* ------------------------------------------------------------------ *)
(** ** Flag words *)

Lemma land_lor_same (f m : Z) : Z.land (Z.lor f m) m = m.
Proof.
  apply Z.bits_inj'; intros n _.
  rewrite Z.land_spec, Z.lor_spec.
  destruct (Z.testbit f n), (Z.testbit m n); reflexivity.
Qed.

Lemma land_lnot_same (f m : Z) : Z.land (Z.land f (Z.lnot m)) m = 0.
Proof.
  apply Z.bits_inj'; intros n Hn.
  rewrite !Z.land_spec, Z.lnot_spec, Z.bits_0 by assumption.
  destruct (Z.testbit f n), (Z.testbit m n); reflexivity.
Qed.

Lemma flag_test_set (f m : Z) : m <> 0 -> flag_test (flag_set f m) m = true.
Proof.
  intros Hm. unfold flag_test, flag_set. rewrite land_lor_same.
  apply negb_true_iff, Z.eqb_neq, Hm.
Qed.

Lemma flag_test_clear (f m : Z) : flag_test (flag_clear f m) m = false.
Proof.
  unfold flag_test, flag_clear. rewrite land_lnot_same. reflexivity.
Qed.

Lemma flag_test_bit0 (f : Z) : flag_test f 1 = Z.testbit f 0.
Proof.
  unfold flag_test. change 1 with (Z.ones 1).
  rewrite Z.land_ones by lia. rewrite Z.bit0_odd.
  change (2 ^ 1) with 2. rewrite Zmod_odd.
  destruct (Z.odd f); reflexivity.
Qed.

(* ------------------------------------------------------------------ *)
(** ** The counter list *)

Lemma eark_with_refcount_id (k : pmf_cntr) :
  eark_with_refcount (eark_refcount k) k = k.
Proof. destruct k; reflexivity. Qed.

Lemma cntr_store_fst (l : list (addr * pmf_cntr)) (a : addr) (v : pmf_cntr) :
  map fst (cntr_store l a v) = map fst l.
Proof.
  induction l as [|[b k] l IH]; simpl; [reflexivity|].
  destruct (Nat.eqb a b); simpl; [reflexivity|]. now rewrite IH.
Qed.

Lemma cntr_deref_store (l : list (addr * pmf_cntr)) (a : addr) (k v : pmf_cntr) :
  cntr_deref l a = Some k -> cntr_deref (cntr_store l a v) a = Some v.
Proof.
  induction l as [|[b k'] l IH]; simpl; [discriminate|].
  destruct (Nat.eqb a b) eqn:E; simpl; rewrite E; auto.
Qed.

Lemma find_cntr_store (l : list (addr * pmf_cntr)) (a : addr)
  (k v : pmf_cntr) (name : string) :
  cntr_deref l a = Some k -> eark_name v = eark_name k ->
  find_cntr_in (cntr_store l a v) name = find_cntr_in l name.
Proof.
  intros Hd Hn. induction l as [|[b k'] l IH]; simpl in *; [reflexivity|].
  destruct (Nat.eqb a b) eqn:E; simpl.
  - injection Hd as ->. rewrite Hn.
    apply Nat.eqb_eq in E. subst b. reflexivity.
  - rewrite IH by assumption. reflexivity.
Qed.

Lemma find_cntr_in_fst (l : list (addr * pmf_cntr)) (name : string) (a : addr) :
  find_cntr_in l name = Some a -> In a (map fst l).
Proof.
  induction l as [|[b k] l IH]; simpl; [discriminate|].
  destruct (streq name (eark_name k)).
  - intros [= ->]. now left.
  - intros H. right. auto.
Qed.

Lemma cntr_deref_not_in (l : list (addr * pmf_cntr)) (a : addr) :
  ~ In a (map fst l) -> cntr_deref l a = None.
Proof.
  induction l as [|[b k] l IH]; simpl; [reflexivity|].
  intros H. destruct (Nat.eqb a b) eqn:E.
  - apply Nat.eqb_eq in E. subst. exfalso. apply H. now left.
  - apply IH. intros Hin. apply H. now right.
Qed.

Lemma tailq_remove_subset (l : list (addr * pmf_cntr)) (a b : addr) :
  In b (map fst (tailq_remove l a)) -> In b (map fst l).
Proof.
  induction l as [|[c k] l IH]; simpl; [tauto|].
  destruct (Nat.eqb a c); simpl; [now right|].
  intros [H|H]; [now left|right; auto].
Qed.

Lemma tailq_remove_gone (l : list (addr * pmf_cntr)) (a : addr) :
  NoDup (map fst l) -> ~ In a (map fst (tailq_remove l a)).
Proof.
  induction l as [|[b k] l IH]; simpl; [tauto|].
  intros Hnd. inversion Hnd as [|x xs Hni Hnd']; subst.
  destruct (Nat.eqb a b) eqn:E; simpl.
  - apply Nat.eqb_eq in E. now subst.
  - apply Nat.eqb_neq in E. intros [H|H]; [congruence|]. now apply IH.
Qed.

(* ------------------------------------------------------------------ *)
(** ** Rules *)

Lemma rule_lookup_update_ne (rules : list gpc_rule) (i j : Z)
  (f : gpc_rule -> gpc_rule) :
  (forall r, gprl_index (f r) = gprl_index r) -> i <> j ->
  rule_lookup (rule_update rules i f) j = rule_lookup rules j.
Proof.
  intros Hf Hij. induction rules as [|r rules IH]; simpl; [reflexivity|].
  destruct (gprl_index r =? i) eqn:E; simpl.
  - rewrite Hf. apply Z.eqb_eq in E.
    destruct (gprl_index r =? j) eqn:E'; [|reflexivity].
    apply Z.eqb_eq in E'. congruence.
  - destruct (gprl_index r =? j); [reflexivity|apply IH].
Qed.

Lemma gpc_rule_get_owner_hack_ne (gprg : gpc_group) (i j : Z) (o : option addr) :
  i <> j ->
  gpc_rule_get_owner (gpc_rule_hack_owner gprg i o) j = gpc_rule_get_owner gprg j.
Proof.
  intros Hij. unfold gpc_rule_get_owner, gpc_rule_hack_owner. simpl.
  rewrite rule_lookup_update_ne; auto.
Qed.

(* ------------------------------------------------------------------ *)
(** ** Release of a counter of [earg_cntrs] *)

Lemma refcount_dec_returns (eark : pmf_cntr) (m : Z) :
  1 <= m <= 65535 ->
  pmf_arlg_cntr_refcount_dec (eark_with_refcount m eark)
  = (1 <? m, eark_with_refcount (m - 1) eark).
Proof.
  intros Hm. unfold pmf_arlg_cntr_refcount_dec, u16. simpl.
  rewrite Z.mod_small by lia.
  f_equal. destruct (0 <? m - 1) eqn:E, (1 <? m) eqn:E'; try reflexivity;
    apply Z.ltb_lt in E || apply Z.ltb_ge in E;
    apply Z.ltb_lt in E' || apply Z.ltb_ge in E'; lia.
Qed.

Lemma cntr_del_still_referenced (earg : pmf_group_ext) (gprl : Z) (g : glob)
  (a : addr) (eark : pmf_cntr) :
  gpc_group_is_published (earg_gprg earg) = true ->
  gpc_rule_get_owner (earg_gprg earg) gprl = Some a ->
  cntr_deref (earg_cntrs earg) a = Some eark ->
  2 <= eark_refcount eark <= 65535 ->
  pmf_arlg_hw_ntfy_cntr_del earg gprl g
  = (earg_with_cntrs
       (cntr_store (earg_cntrs earg) a
          (eark_with_refcount (eark_refcount eark - 1) eark))
       (earg_hack_owner earg gprl None),
     g).
Proof.
  intros Hpub Hown Hd Hr. unfold pmf_arlg_hw_ntfy_cntr_del.
  rewrite Hpub, Hown. simpl negb. cbv iota.
  change (earg_cntrs (earg_hack_owner earg gprl None)) with (earg_cntrs earg).
  rewrite Hd.
  rewrite <- (eark_with_refcount_id eark) at 1.
  rewrite refcount_dec_returns by lia.
  replace (1 <? eark_refcount eark) with true
    by (symmetry; apply Z.ltb_lt; lia).
  reflexivity.
Qed.

Lemma cntr_del_freed (earg : pmf_group_ext) (gprl : Z) (g : glob)
  (a : addr) (eark : pmf_cntr) :
  gpc_group_is_published (earg_gprg earg) = true ->
  gpc_rule_get_owner (earg_gprg earg) gprl = Some a ->
  cntr_deref (earg_cntrs earg) a = Some eark ->
  eark_refcount eark = 1 ->
  pmf_arlg_hw_ntfy_cntr_del earg gprl g
  = (pmf_arlg_free_cntr
       (earg_with_cntrs
          (cntr_store (earg_cntrs earg) a (eark_with_refcount 0 eark))
          (earg_hack_owner earg gprl None)) a,
     if flag_test (eark_flags eark) PMF_EARKF_LL_CREATED
     then hw_emit (HwCounterDelete a) g else g).
Proof.
  intros Hpub Hown Hd Hr. unfold pmf_arlg_hw_ntfy_cntr_del.
  rewrite Hpub, Hown. simpl negb. cbv iota.
  change (earg_cntrs (earg_hack_owner earg gprl None)) with (earg_cntrs earg).
  rewrite Hd.
  rewrite <- (eark_with_refcount_id eark) at 1.
  rewrite refcount_dec_returns by lia.
  rewrite Hr. reflexivity.
Qed.

Lemma cntr_del_each_spec (gprls : list Z) :
  forall (earg : pmf_group_ext) (g : glob) (a : addr) (eark : pmf_cntr),
  gpc_group_is_published (earg_gprg earg) = true ->
  NoDup (map fst (earg_cntrs earg)) ->
  cntr_deref (earg_cntrs earg) a = Some eark ->
  pmf_arlg_find_cntr earg (eark_name eark) = Some a ->
  NoDup gprls ->
  (forall r, In r gprls -> gpc_rule_get_owner (earg_gprg earg) r = Some a) ->
  1 <= eark_refcount eark <= 65535 ->
  Z.of_nat (List.length gprls) <= eark_refcount eark ->
  let n := eark_refcount eark in
  let k := Z.of_nat (List.length gprls) in
  let earg' := fst (pmf_arlg_hw_ntfy_cntr_del_each gprls earg g) in
  let g' := snd (pmf_arlg_hw_ntfy_cntr_del_each gprls earg g) in
  (k < n ->
     cntr_deref (earg_cntrs earg') a = Some (eark_with_refcount (n - k) eark)
     /\ pmf_arlg_find_cntr earg' (eark_name eark) = Some a
     /\ hw_queue g' = hw_queue g)
  /\ (k = n ->
     cntr_deref (earg_cntrs earg') a = None
     /\ ~ In a (map fst (earg_cntrs earg'))
     /\ pmf_arlg_find_cntr earg' (eark_name eark) <> Some a
     /\ hw_queue g' = hw_queue g
          ++ (if flag_test (eark_flags eark) PMF_EARKF_LL_CREATED
              then [HwCounterDelete a] else [])).
Proof.
  induction gprls as [|r rest IH]; intros earg g a eark Hpub Hnd Hd Hf Hrs Hown Hn Hk.
  - simpl. split.
    + intros _. rewrite Z.sub_0_r, eark_with_refcount_id. auto.
    + simpl in *. lia.
  - cbn zeta. simpl pmf_arlg_hw_ntfy_cntr_del_each.
    assert (Hr : gpc_rule_get_owner (earg_gprg earg) r = Some a)
      by (apply Hown; now left).
    inversion Hrs as [|x xs Hnotin Hrs']; subst.
    destruct (Z.eq_dec (eark_refcount eark) 1) as [H1|H1].
    + (* the last reference *)
      assert (rest = []) as ->.
      { destruct rest; [reflexivity|]. simpl List.length in Hk. lia. }
      rewrite (cntr_del_freed earg r g a eark) by assumption.
      simpl pmf_arlg_hw_ntfy_cntr_del_each. simpl fst. simpl snd.
      simpl List.length. split; [lia|]. intros _.
      assert (Hgone : ~ In a (map fst (earg_cntrs
                (pmf_arlg_free_cntr
                   (earg_with_cntrs
                      (cntr_store (earg_cntrs earg) a (eark_with_refcount 0 eark))
                      (earg_hack_owner earg r None)) a)))).
      { simpl. apply tailq_remove_gone. now rewrite cntr_store_fst. }
      repeat split.
      * now apply cntr_deref_not_in.
      * assumption.
      * intros Hfind. apply Hgone.
        unfold pmf_arlg_find_cntr in Hfind.
        eapply find_cntr_in_fst; eassumption.
      * destruct (flag_test (eark_flags eark) PMF_EARKF_LL_CREATED);
          simpl; [reflexivity|now rewrite app_nil_r].
    + rewrite (cntr_del_still_referenced earg r g a eark) by (auto; lia).
      set (eark1 := eark_with_refcount (eark_refcount eark - 1) eark).
      set (earg1 := earg_with_cntrs (cntr_store (earg_cntrs earg) a eark1)
                      (earg_hack_owner earg r None)).
      specialize (IH earg1 g a eark1).
      assert (Hlen : Z.of_nat (List.length (r :: rest))
                     = Z.of_nat (List.length rest) + 1)
        by (simpl List.length; lia).
      rewrite Hlen in *.
      destruct IH as [IHlt IHeq].
      * exact Hpub.
      * subst earg1. simpl. now rewrite cntr_store_fst.
      * subst earg1. simpl. eapply cntr_deref_store; eassumption.
      * subst earg1 eark1. unfold pmf_arlg_find_cntr. simpl.
        erewrite find_cntr_store; [exact Hf|eassumption|reflexivity].
      * assumption.
      * intros r' Hin. subst earg1. simpl.
        rewrite gpc_rule_get_owner_hack_ne; [apply Hown; now right|].
        intros ->. contradiction.
      * subst eark1. simpl. lia.
      * subst eark1. simpl. lia.
      * subst eark1. simpl eark_refcount in *. simpl eark_name in *.
        simpl eark_flags in *. split.
        -- intros Hlt. destruct IHlt as (Hd' & Hf' & Hq); [lia|].
           repeat split; try assumption.
           rewrite Hd'. f_equal. unfold eark_with_refcount. simpl.
           f_equal. lia.
        -- intros Heq. apply IHeq. lia.
Qed.

(** C6.  A counter of [earg_cntrs] with reference count [n >= 1], owned by
    the rules [gprls] of a published group: the [j]-th call of
    [pmf_arlg_cntr_refcount_dec] answers "still referenced" exactly when
    [j < n]; after fewer than [n] calls of [pmf_arlg_hw_ntfy_cntr_del] the
    counter is still in the list with the count decremented once per call
    and is found by its name, and nothing was sent to hardware; after the
    [n]-th call it has been deleted from hardware if it was low-level
    created, unlinked from the list and freed, and the lookup by name no
    longer returns it. *)
Theorem cntr_release_refcounted (gprls : list Z) (earg : pmf_group_ext)
  (g : glob) (a : addr) (eark : pmf_cntr) :
  gpc_group_is_published (earg_gprg earg) = true ->
  NoDup (map fst (earg_cntrs earg)) ->
  cntr_deref (earg_cntrs earg) a = Some eark ->
  pmf_arlg_find_cntr earg (eark_name eark) = Some a ->
  NoDup gprls ->
  (forall r, In r gprls -> gpc_rule_get_owner (earg_gprg earg) r = Some a) ->
  1 <= eark_refcount eark <= 65535 ->
  Z.of_nat (List.length gprls) <= eark_refcount eark ->
  let n := eark_refcount eark in
  let k := Z.of_nat (List.length gprls) in
  let earg' := fst (pmf_arlg_hw_ntfy_cntr_del_each gprls earg g) in
  let g' := snd (pmf_arlg_hw_ntfy_cntr_del_each gprls earg g) in
  (forall j, 1 <= j <= n ->
     fst (pmf_arlg_cntr_refcount_dec (eark_with_refcount (n - j + 1) eark))
     = (j <? n))
  /\ (k < n ->
     cntr_deref (earg_cntrs earg') a = Some (eark_with_refcount (n - k) eark)
     /\ pmf_arlg_find_cntr earg' (eark_name eark) = Some a
     /\ hw_queue g' = hw_queue g)
  /\ (k = n ->
     cntr_deref (earg_cntrs earg') a = None
     /\ ~ In a (map fst (earg_cntrs earg'))
     /\ pmf_arlg_find_cntr earg' (eark_name eark) <> Some a
     /\ hw_queue g' = hw_queue g
          ++ (if flag_test (eark_flags eark) PMF_EARKF_LL_CREATED
              then [HwCounterDelete a] else [])).
Proof.
  intros Hpub Hnd Hd Hf Hrs Hown Hn Hk n k earg' g'. split.
  - intros j Hj. rewrite refcount_dec_returns by (subst n; lia). simpl.
    destruct (1 <? n - j + 1) eqn:E, (j <? n) eqn:E'; try reflexivity;
      apply Z.ltb_lt in E || apply Z.ltb_ge in E;
      apply Z.ltb_lt in E' || apply Z.ltb_ge in E'; lia.
  - now apply cntr_del_each_spec.
Qed.

(** C10.  [gpc_cntr_old_get_objid] answers 0 for a null counter pointer
    and the stored hardware object id for any other. *)
Theorem gpc_cntr_old_get_objid_total :
  gpc_cntr_old_get_objid None = 0
  /\ forall eark : pmf_cntr,
       gpc_cntr_old_get_objid (Some eark) = eark_objid eark.
Proof. split; [reflexivity|intros eark; reflexivity]. Qed.

(* ------------------------------------------------------------------ *)
(** ** Clear counters and show counters *)

Section OpMode.

Variable hw : pmf_hw.

Lemma emit_clears_app (l1 l2 : list addr) (g : glob) :
  emit_clears (l1 ++ l2) g = emit_clears l2 (emit_clears l1 g).
Proof. apply fold_left_app. Qed.

Lemma clear_rc_app (rc : Z) (l1 l2 : list addr) :
  clear_rc hw rc (l1 ++ l2) = clear_rc hw (clear_rc hw rc l1) l2.
Proof.
  unfold clear_rc. rewrite forallb_app.
  destruct (forallb _ l1), (forallb _ l2); reflexivity.
Qed.

Lemma hw_queue_emit_clears (l : list addr) (g : glob) :
  hw_queue (emit_clears l g) = hw_queue g ++ map HwCounterClear l.
Proof.
  revert g. induction l as [|a l IH]; intros g; simpl.
  - now rewrite app_nil_r.
  - unfold emit_clears in IH. rewrite IH. simpl. now rewrite <- app_assoc.
Qed.

Lemma published_flag_bit (a : addr) (k : pmf_cntr) :
  flag_test (eark_flags k) PMF_EARKF_PUBLISHED = is_published_cntr (a, k).
Proof. unfold is_published_cntr. simpl. apply flag_test_bit0. Qed.

Lemma clear_cntrs_spec (cntrs : list (addr * pmf_cntr)) (rc : Z) (g : glob) :
  clear_cntrs hw cntrs rc g
  = (clear_rc hw rc (map fst (filter is_published_cntr cntrs)),
     emit_clears (map fst (filter is_published_cntr cntrs)) g).
Proof.
  revert rc g. induction cntrs as [|[a k] l IH]; intros rc g; simpl.
  - reflexivity.
  - rewrite (published_flag_bit a k).
    destruct (is_published_cntr (a, k)); simpl.
    + destruct (pmf_hw_counter_clear hw a) eqn:E; simpl; rewrite IH;
        unfold clear_rc, emit_clears; simpl; rewrite E; simpl;
        [reflexivity|now destruct (forallb _ _)].
    + apply IH.
Qed.

Lemma group_selected_matches (rgname : option string) (earg : pmf_group_ext) :
  group_selected rgname earg = is_acl_group earg && group_matches rgname earg.
Proof.
  unfold group_selected, is_acl_group, group_matches, gpc_group_get_feature,
    gpc_group_get_name, streq.
  destruct (gpc_feature_is_acl _); simpl; [|reflexivity].
  destruct rgname as [n|]; [|reflexivity].
  now destruct (String.eqb n _).
Qed.

Lemma rlset_selected_matches (ifname : option string) (dir : Z)
  (gprs : gpc_rlset) :
  rlset_selected ifname dir gprs = is_bound gprs && rlset_matches ifname dir gprs.
Proof.
  unfold rlset_selected, is_bound, rlset_matches, gpc_rlset_get_ifp,
    gpc_rlset_get_ifname, gpc_rlset_is_ingress, streq.
  destruct (gprs_ifp gprs); simpl; [|reflexivity].
  destruct ifname as [n|]; simpl.
  - destruct (String.eqb n _); simpl; [|reflexivity].
    destruct (dir <? 0) eqn:E1, (0 <? dir) eqn:E2, (gprs_is_ingress gprs);
      simpl; try reflexivity; apply Z.ltb_lt in E1, E2; lia.
  - destruct (dir <? 0) eqn:E1, (0 <? dir) eqn:E2, (gprs_is_ingress gprs);
      simpl; try reflexivity; apply Z.ltb_lt in E1, E2; lia.
Qed.

Lemma clear_groups_spec (rgname : option string) (groups : list pmf_group_ext)
  (rc : Z) (g : glob) :
  let l :=
    flat_map (fun earg => map fst (filter is_published_cntr (earg_cntrs earg)))
      (filter (fun earg => is_acl_group earg && group_matches rgname earg)
         groups) in
  clear_groups hw rgname groups rc g = (clear_rc hw rc l, emit_clears l g).
Proof.
  revert rc g. induction groups as [|e rest IH]; intros rc g; simpl.
  - reflexivity.
  - rewrite group_selected_matches.
    destruct (is_acl_group e && group_matches rgname e); simpl.
    + rewrite clear_cntrs_spec. simpl in IH. rewrite IH.
      now rewrite clear_rc_app, emit_clears_app.
    + apply IH.
Qed.

Lemma clear_rlsets_spec (ifname : option string) (dir : Z)
  (rgname : option string) (db : gpc_db) (rc : Z) (g : glob) :
  let l :=
    flat_map
      (fun gprs =>
         flat_map
           (fun earg => map fst (filter is_published_cntr (earg_cntrs earg)))
           (filter (fun earg => is_acl_group earg && group_matches rgname earg)
              (gprs_groups gprs)))
      (filter (fun gprs => is_bound gprs && rlset_matches ifname dir gprs) db) in
  clear_rlsets hw ifname dir rgname db rc g = (clear_rc hw rc l, emit_clears l g).
Proof.
  revert rc g. induction db as [|s rest IH]; intros rc g; simpl.
  - reflexivity.
  - rewrite rlset_selected_matches.
    destruct (is_bound s && rlset_matches ifname dir s); simpl.
    + rewrite clear_groups_spec. simpl in IH. rewrite IH.
      now rewrite clear_rc_app, emit_clears_app.
    + apply IH.
Qed.

Lemma filter_hierarchy (ifname : option string) (dir : Z)
  (rgname : option string) :
  filter_dir ifname dir = effective_dir ifname dir
  /\ filter_rgname (filter_dir ifname dir) rgname
     = effective_rgname ifname dir rgname.
Proof.
  unfold filter_dir, filter_rgname, effective_dir, effective_rgname.
  destruct ifname; simpl; auto.
Qed.

(** C8.  [pmf_arlg_cmd_clear_counters] enforces the filter hierarchy (the
    direction is dropped without an interface name, the group name
    without a direction), asks the hardware to clear exactly the
    published counters matched by the filters (those of the ACL groups of
    the rulesets bound to an interface), every one of them in database
    order whatever the earlier answers, and returns 0 when every clear
    succeeds and [-EIO] as soon as one fails. *)
Theorem clear_counters_aggregates_errors (ifname : option string) (dir : Z)
  (rgname : option string) (db : gpc_db) (g : glob) :
  let attempted := matched_counters ifname dir rgname db in
  pmf_arlg_cmd_clear_counters hw ifname dir rgname db g
  = (clear_result hw attempted, emit_clears attempted g)
  /\ hw_queue (snd (pmf_arlg_cmd_clear_counters hw ifname dir rgname db g))
     = hw_queue g ++ map HwCounterClear attempted
  /\ (forallb (pmf_hw_counter_clear hw) attempted = true ->
      fst (pmf_arlg_cmd_clear_counters hw ifname dir rgname db g) = 0)
  /\ (forallb (pmf_hw_counter_clear hw) attempted = false ->
      fst (pmf_arlg_cmd_clear_counters hw ifname dir rgname db g) = - EIO)
  /\ pmf_arlg_cmd_clear_counters hw None dir rgname db g
     = pmf_arlg_cmd_clear_counters hw None 0 None db g
  /\ pmf_arlg_cmd_clear_counters hw ifname 0 rgname db g
     = pmf_arlg_cmd_clear_counters hw ifname 0 None db g.
Proof.
  intros attempted.
  assert (H : pmf_arlg_cmd_clear_counters hw ifname dir rgname db g
              = (clear_result hw attempted, emit_clears attempted g)).
  { unfold pmf_arlg_cmd_clear_counters.
    destruct (filter_hierarchy ifname dir rgname) as [-> ->].
    rewrite clear_rlsets_spec. reflexivity. }
  rewrite H. simpl fst. simpl snd.
  split; [reflexivity|].
  split; [apply hw_queue_emit_clears|].
  split; [intros E; unfold clear_result; now rewrite E|].
  split; [intros E; unfold clear_result; now rewrite E|].
  split.
  - unfold pmf_arlg_cmd_clear_counters, filter_rgname. simpl. reflexivity.
  - unfold pmf_arlg_cmd_clear_counters, filter_rgname, filter_dir.
    destruct ifname; reflexivity.
Qed.

Lemma show_rlsets_app (ifname : option string) (dir : Z)
  (rgname : option string) (db1 db2 : gpc_db) :
  show_rlsets hw ifname dir rgname (db1 ++ db2)
  = show_rlsets hw ifname dir rgname db1 ++ show_rlsets hw ifname dir rgname db2.
Proof.
  induction db1 as [|s rest IH]; simpl; [reflexivity|].
  rewrite IH. now rewrite app_assoc.
Qed.

Lemma clear_rlsets_app (ifname : option string) (dir : Z)
  (rgname : option string) (db1 db2 : gpc_db) (rc : Z) (g : glob) :
  clear_rlsets hw ifname dir rgname (db1 ++ db2) rc g
  = clear_rlsets hw ifname dir rgname db2
      (fst (clear_rlsets hw ifname dir rgname db1 rc g))
      (snd (clear_rlsets hw ifname dir rgname db1 rc g)).
Proof.
  revert rc g. induction db1 as [|s rest IH]; intros rc g; simpl.
  - reflexivity.
  - destruct (rlset_selected ifname dir s).
    + destruct (clear_groups hw rgname (gprs_groups s) rc g) as [rc1 g1].
      apply IH.
    + apply IH.
Qed.

Lemma rlset_unbound_not_selected (ifname : option string) (dir : Z)
  (gprs : gpc_rlset) :
  gpc_rlset_get_ifp gprs = None -> rlset_selected ifname dir gprs = false.
Proof. intros H. unfold rlset_selected. now rewrite H. Qed.

(** C9.  A ruleset whose interface pointer is absent is skipped by both
    commands: with the ruleset anywhere in the database, show-counters
    writes the JSON it writes without it and clear-counters returns the
    same code and makes the same hardware calls as without it, whatever
    the filters. *)
Theorem unbound_ruleset_skipped (json_ok : bool) (ifname : option string)
  (dir : Z) (rgname : option string) (db1 db2 : gpc_db) (gprs : gpc_rlset)
  (g : glob) :
  gpc_rlset_get_ifp gprs = None ->
  pmf_arlg_cmd_show_counters hw json_ok ifname dir rgname (db1 ++ gprs :: db2)
  = pmf_arlg_cmd_show_counters hw json_ok ifname dir rgname (db1 ++ db2)
  /\ pmf_arlg_cmd_clear_counters hw ifname dir rgname (db1 ++ gprs :: db2) g
     = pmf_arlg_cmd_clear_counters hw ifname dir rgname (db1 ++ db2) g.
Proof.
  intros Hifp. split.
  - unfold pmf_arlg_cmd_show_counters. destruct json_ok; simpl; [|reflexivity].
    rewrite !show_rlsets_app. simpl.
    rewrite rlset_unbound_not_selected by assumption. reflexivity.
  - unfold pmf_arlg_cmd_clear_counters.
    rewrite !clear_rlsets_app. simpl.
    rewrite rlset_unbound_not_selected by assumption. reflexivity.
Qed.

End OpMode.

(* ------------------------------------------------------------------ *)
(** ** Commit *)

(** C7.  With no deferral pending and nothing queued at the hardware
    layer, [pmf_arlg_commit] leaves the rulesets as they are, queues and
    flushes nothing, and leaves both flags clear; nothing else of the
    state changes. *)
Theorem commit_idle_noop (hw : pmf_hw) (db : gpc_db) (g : glob) :
  deferrals g = false -> hw_queue g = [] ->
  pmf_arlg_commit hw db g
  = (db, mk_glob false false [] (hw_flushed g) (allocs g) (heap_next g))
  /\ hw_flushed (snd (pmf_arlg_commit hw db g)) = hw_flushed g
  /\ hw_queue (snd (pmf_arlg_commit hw db g)) = [].
Proof.
  intros Hd Hq. destruct g as [d c q f al hn]. simpl in Hd, Hq. subst d q.
  unfold pmf_arlg_commit, pmf_hw_commit. simpl. auto.
Qed.

(* ------------------------------------------------------------------ *)
(** ** Teardown order *)

Lemma hw_queue_emit (n : hw_ntfy) (g : glob) :
  hw_queue (hw_emit n g) = hw_queue g ++ [n].
Proof. reflexivity. Qed.

Lemma gprg_cntrs_with_cntrs (cs : list gpc_cntr) (gprg : gpc_group) :
  gprg_cntrs (gprg_with_cntrs cs gprg)
  = match gprg_cntg gprg with Some _ => cs | None => [] end.
Proof.
  unfold gprg_cntrs, gprg_with_cntrs.
  destruct (gprg_cntg gprg) eqn:E; simpl; [reflexivity|now rewrite E].
Qed.

Lemma gprg_rules_with_cntrs (cs : list gpc_cntr) (gprg : gpc_group) :
  gprg_rules (gprg_with_cntrs cs gprg) = gprg_rules gprg.
Proof. unfold gprg_with_cntrs. now destruct (gprg_cntg gprg). Qed.

Lemma gprg_name_with_cntrs (cs : list gpc_cntr) (gprg : gpc_group) :
  gprg_name (gprg_with_cntrs cs gprg) = gprg_name gprg.
Proof. unfold gprg_with_cntrs. now destruct (gprg_cntg gprg). Qed.

Lemma cntrs_quiet_with_cntrs (cs : list gpc_cntr) (gprg : gpc_group) :
  Forall (fun c => cntr_ll_created c = false) cs ->
  cntrs_quiet (gprg_with_cntrs cs gprg).
Proof.
  intros H. unfold cntrs_quiet. rewrite gprg_cntrs_with_cntrs.
  destruct (gprg_cntg gprg); [assumption|constructor].
Qed.

Lemma gcntr_lookup_forall (P : gpc_cntr -> Prop) (cs : list gpc_cntr)
  (name : string) (c : gpc_cntr) :
  Forall P cs -> gcntr_lookup cs name = Some c -> P c.
Proof.
  induction 1 as [|x l Hx Hl IH]; simpl; [discriminate|].
  destruct (streq name (cntr_name x)); [intros [= <-]; assumption|exact IH].
Qed.

Lemma gcntr_update_forall (P : gpc_cntr -> Prop) (cs : list gpc_cntr)
  (name : string) (f : gpc_cntr -> gpc_cntr) :
  (forall c, P c -> P (f c)) -> Forall P cs -> Forall P (gcntr_update cs name f).
Proof.
  intros Hf. induction 1 as [|x l Hx Hl IH]; simpl; [constructor|].
  destruct (streq name (cntr_name x)); constructor; auto.
Qed.

Lemma gcntr_remove_forall (P : gpc_cntr -> Prop) (cs : list gpc_cntr)
  (name : string) :
  Forall P cs -> Forall P (gcntr_remove cs name).
Proof.
  induction 1 as [|x l Hx Hl IH]; simpl; [constructor|].
  destruct (streq name (cntr_name x)); [assumption|constructor; auto].
Qed.

Lemma gpc_cntr_release_quiet (gprg : gpc_group) (cntr : string) (g : glob) :
  cntrs_quiet gprg ->
  snd (gpc_cntr_release gprg cntr g) = g
  /\ cntrs_quiet (snd (fst (gpc_cntr_release gprg cntr g)))
  /\ gprg_rules (snd (fst (gpc_cntr_release gprg cntr g))) = gprg_rules gprg
  /\ gprg_name (snd (fst (gpc_cntr_release gprg cntr g))) = gprg_name gprg.
Proof.
  intros Hq. unfold gpc_cntr_release.
  destruct (gcntr_lookup (gprg_cntrs gprg) cntr) as [c|] eqn:E; simpl; [|auto].
  destruct (0 <? cntr_refcount c - 1); simpl.
  - repeat split.
    + apply cntrs_quiet_with_cntrs. apply gcntr_update_forall; [|exact Hq].
      intros c0 H0. exact H0.
    + apply gprg_rules_with_cntrs.
    + apply gprg_name_with_cntrs.
  - pose proof (gcntr_lookup_forall _ _ _ _ Hq E) as Hll. simpl in Hll.
    rewrite Hll. repeat split.
    + apply cntrs_quiet_with_cntrs. now apply gcntr_remove_forall.
    + apply gprg_rules_with_cntrs.
    + apply gprg_name_with_cntrs.
Qed.

Lemma gpc_cntr_release_opt_quiet (gprg : gpc_group) (cntr : option string)
  (g : glob) :
  cntrs_quiet gprg ->
  snd (gpc_cntr_release_opt gprg cntr g) = g
  /\ cntrs_quiet (fst (gpc_cntr_release_opt gprg cntr g))
  /\ gprg_rules (fst (gpc_cntr_release_opt gprg cntr g)) = gprg_rules gprg
  /\ gprg_name (fst (gpc_cntr_release_opt gprg cntr g)) = gprg_name gprg.
Proof.
  intros Hq. unfold gpc_cntr_release_opt. destruct cntr as [c|]; [|auto].
  pose proof (gpc_cntr_release_quiet gprg c g Hq) as H.
  destruct (gpc_cntr_release gprg c g) as [[b p] g']. exact H.
Qed.

Lemma grp_del_rules_quiet (fuel : nat) :
  forall (earg : pmf_group_ext) (g : glob),
  cntrs_quiet (earg_gprg earg) ->
  snd (grp_del_rules fuel earg g) = g
  /\ cntrs_quiet (earg_gprg (fst (grp_del_rules fuel earg g)))
  /\ gprg_name (earg_gprg (fst (grp_del_rules fuel earg g)))
     = gprg_name (earg_gprg earg).
Proof.
  induction fuel as [|fuel IH]; intros earg g Hq; simpl; [auto|].
  destruct (gpc_rule_last (earg_gprg earg)) as [cursor|]; [|auto].
  set (gprg1 := gpc_rule_delete (earg_gprg earg) cursor).
  assert (Hq1 : cntrs_quiet gprg1) by exact Hq.
  pose proof (gpc_cntr_release_opt_quiet gprg1
                (gpc_rule_get_cntr (earg_gprg earg) cursor) g Hq1)
    as (Hg & Hq2 & _ & Hn).
  destruct (gpc_cntr_release_opt gprg1 _ g) as [gprg2 g2].
  simpl in Hg, Hq2, Hn. subst g2.
  specialize (IH (earg_with_gprg gprg2
                    (earg_with_num_rules (u32 (earg_num_rules earg - 1)) earg))
                g Hq2).
  destruct IH as (IHg & IHq & IHn). repeat split; try assumption.
  rewrite IHn. simpl. exact Hn.
Qed.

Lemma release_while_last_quiet (fuel : nat) :
  forall (gprg : gpc_group) (g : glob),
  cntrs_quiet gprg ->
  snd (gpc_cntr_release_while_last fuel gprg g) = g
  /\ gprg_name (fst (gpc_cntr_release_while_last fuel gprg g)) = gprg_name gprg.
Proof.
  induction fuel as [|fuel IH]; intros gprg g Hq; simpl; [auto|].
  destruct (gpc_cntr_last gprg) as [c|]; [|auto].
  pose proof (gpc_cntr_release_quiet gprg c g Hq) as (Hg & Hq1 & _ & Hn).
  destruct (gpc_cntr_release gprg c g) as [[b p] g1].
  simpl in Hg, Hq1, Hn. subst g1.
  destruct (IH p g Hq1) as (IHg & IHn). split; congruence.
Qed.

Lemma grp_ev_detach_ntfys (earg : pmf_group_ext) (g : glob) :
  hw_queue (snd (grp_ev_detach earg g))
  = hw_queue g ++ teardown_ntfys (earg_gprg earg).
Proof.
  unfold grp_ev_detach, teardown_ntfys.
  unfold gpc_group_hw_ntfy_detach, gpc_group_hw_ntfy_rules_delete.
  cbv zeta.
  set (gprg2 := gprg_with_rules _ (gprg_with_attached false (earg_gprg earg))).
  set (g2 := hw_emit (NtfyRulesDelete _) _).
  assert (Hcntg : gpc_group_get_cntg gprg2 = gprg_cntg (earg_gprg earg))
    by reflexivity.
  rewrite Hcntg.
  assert (Hq2 : hw_queue g2
                = hw_queue g ++ [NtfyGroupDetach (gprg_name (earg_gprg earg));
                                 NtfyRulesDelete (gprg_name (earg_gprg earg))]).
  { subst g2. rewrite !hw_queue_emit. simpl. now rewrite <- app_assoc. }
  destruct (gprg_cntg (earg_gprg earg)) as [c|] eqn:Ec.
  - (* the group has a Counter-Group *)
    unfold gpc_cntg_hw_ntfy_cntrs_delete.
    set (gprg3 := gprg_with_cntrs _ gprg2).
    set (g3 := hw_emit (NtfyCntrsDelete _) g2).
    assert (Hq : cntrs_quiet gprg3).
    { subst gprg3. apply cntrs_quiet_with_cntrs.
      apply Forall_forall. intros x Hx. apply in_map_iff in Hx.
      destruct Hx as (y & <- & _). reflexivity. }
    assert (Hn3 : gprg_name gprg3 = gprg_name (earg_gprg earg)).
    { subst gprg3. now rewrite gprg_name_with_cntrs. }
    pose proof (grp_del_rules_quiet (List.length (gprg_rules gprg3))
                  (earg_with_gprg gprg3 earg) g3 Hq) as (Hg4 & Hq4 & Hn4).
    destruct (grp_del_rules _ (earg_with_gprg gprg3 earg) g3) as [earg4 g4].
    simpl in Hg4, Hq4, Hn4. subst g4.
    assert (Hloop :
      snd (match gpc_cntg_type c with
           | GPC_CNTT_NAMED =>
               gpc_cntr_release_while_last
                 (gpc_cntr_release_budget (earg_gprg earg4)) (earg_gprg earg4) g3
           | GPC_CNTT_NUMBERED => (earg_gprg earg4, g3)
           end) = g3
      /\ gprg_name (fst (match gpc_cntg_type c with
           | GPC_CNTT_NAMED =>
               gpc_cntr_release_while_last
                 (gpc_cntr_release_budget (earg_gprg earg4)) (earg_gprg earg4) g3
           | GPC_CNTT_NUMBERED => (earg_gprg earg4, g3)
           end)) = gprg_name (earg_gprg earg4)).
    { destruct (gpc_cntg_type c); [auto|].
      now apply release_while_last_quiet. }
    destruct (match gpc_cntg_type c with
              | GPC_CNTT_NAMED => _
              | GPC_CNTT_NUMBERED => _
              end) as [p5 g5].
    simpl in Hloop. destruct Hloop as [-> Hn5].
    unfold gpc_group_hw_ntfy_delete, gpc_cntg_release, gpc_group_set_cntg.
    simpl gprg_name. simpl gprg_published.
    destruct (gprg_published p5); simpl snd;
      rewrite hw_queue_emit; subst g3; rewrite hw_queue_emit, Hq2;
      rewrite Hn5, Hn4, Hn3; simpl; rewrite <- !app_assoc; reflexivity.
  - (* no Counter-Group, so no counter *)
    assert (Hq : cntrs_quiet gprg2).
    { unfold cntrs_quiet, gprg_cntrs. subst gprg2. simpl. rewrite Ec.
      constructor. }
    pose proof (grp_del_rules_quiet (List.length (gprg_rules gprg2))
                  (earg_with_gprg gprg2 earg) g2 Hq) as (Hg4 & Hq4 & Hn4).
    destruct (grp_del_rules _ (earg_with_gprg gprg2 earg) g2) as [earg4 g4].
    simpl in Hg4, Hq4, Hn4. subst g4.
    unfold gpc_group_hw_ntfy_delete.
    destruct (gprg_published (earg_gprg earg4)); simpl snd;
      rewrite hw_queue_emit, Hq2, Hn4; simpl; rewrite <- !app_assoc;
      reflexivity.
Qed.

Lemma app_cons_assoc {A : Type} (l : list A) (x : A) (l' : list A) :
  (l ++ [x]) ++ l' = l ++ x :: l'.
Proof. now rewrite <- app_assoc. Qed.

Ltac queue_norm :=
  repeat (rewrite hw_queue_emit || rewrite app_cons_assoc
          || rewrite app_nil_r); simpl.

Lemma attr_check_removed_ntfys (gprs : gpc_rlset) (earg : pmf_group_ext)
  (hw : pmf_hw) (g : glob) :
  gpc_group_is_published (earg_gprg earg) = true ->
  flag_test (earg_flags earg) PMF_EARGF_RULE_ATTR = true ->
  hw_queue (snd (pmf_arlg_rl_attr_check hw gprs earg None g))
  = hw_queue g ++ teardown_ntfys (earg_gprg earg).
Proof.
  intros Hpub Hflag. unfold pmf_arlg_rl_attr_check, unpublish_group.
  rewrite Hflag, Hpub. simpl negb. cbv iota.
  unfold hw_ntfy_group_teardown, teardown_ntfys, gpc_group_get_cntg.
  destruct earg as [[n f s pb at_ df fam [c|] rl] cs ar nr fl];
    simpl in *; subst; simpl; queue_norm; reflexivity.
Qed.

Lemma attr_check_family_removed_ntfys (gprs : gpc_rlset)
  (earg : pmf_group_ext) (hw : pmf_hw) (rule : pmf_rule) (g : glob) :
  gpc_group_is_published (earg_gprg earg) = true ->
  flag_test (earg_flags earg) PMF_EARGF_RULE_ATTR = true ->
  pp_match_ipfam rule = None ->
  gpc_group_has_family (earg_gprg earg) = true ->
  hw_queue (snd (pmf_arlg_rl_attr_check hw gprs earg (Some rule) g))
  = hw_queue g ++ teardown_ntfys (earg_gprg earg).
Proof.
  intros Hpub Hflag Hfam Hhas. unfold pmf_arlg_rl_attr_check, unpublish_group.
  rewrite Hflag, Hfam, Hhas, Hpub. simpl negb. cbv iota.
  unfold hw_ntfy_group_teardown, teardown_ntfys, gpc_group_get_cntg.
  destruct earg as [[n f s pb at_ df fam [c|] rl] cs ar nr fl];
    simpl in *; subst; simpl; queue_norm; reflexivity.
Qed.

Lemma attr_check_family_changed_ntfys (gprs : gpc_rlset)
  (earg : pmf_group_ext) (hw : pmf_hw) (rule : pmf_rule)
  (ipfam : pmf_attr_ip_family) (g : glob) :
  gpc_group_is_published (earg_gprg earg) = true ->
  flag_test (earg_flags earg) PMF_EARGF_RULE_ATTR = true ->
  pp_match_ipfam rule = Some ipfam ->
  gpc_group_has_family (earg_gprg earg) = true ->
  gpc_group_is_v6 (earg_gprg earg) <> pm_v6 ipfam ->
  hw_queue (snd (pmf_arlg_rl_attr_check hw gprs earg (Some rule) g))
  = hw_queue g ++ teardown_ntfys (earg_gprg earg)
      ++ publish_ntfys (earg_gprg earg).
Proof.
  intros Hpub Hflag Hfam Hhas Hv6. unfold pmf_arlg_rl_attr_check.
  rewrite Hflag, Hfam, Hhas, Hpub. simpl negb. cbv iota.
  replace (Bool.eqb (gpc_group_is_v6 (earg_gprg earg)) (pm_v6 ipfam)) with false
    by (symmetry; apply not_true_is_false; intros H; apply Hv6;
        now apply eqb_prop).
  unfold publish_group, hw_ntfy_group_teardown, teardown_ntfys, publish_ntfys,
    gpc_group_get_cntg, gpc_group_hw_ntfy_create, gpc_cntg_hw_ntfy_cntrs_create,
    gpc_group_hw_ntfy_rules_create, gpc_group_hw_ntfy_attach.
  destruct earg as [[n f s pb at_ df fam [c|] rl] cs ar nr fl];
    destruct gprs as [ifn ing [ifp|] [|] grps];
    destruct ipfam as [[|]];
    simpl in *; subst; simpl; queue_norm; reflexivity.
Qed.

Lemma teardown_ntfys_in_order (gprg : gpc_group) :
  teardown_in_order (teardown_ntfys gprg) = true
  /\ teardown_in_order (teardown_ntfys gprg ++ publish_ntfys gprg) = true.
Proof.
  unfold teardown_ntfys, publish_ntfys.
  destruct (gprg_cntg gprg); split; reflexivity.
Qed.

(** C2.  The group-detach event and every transition of
    [pmf_arlg_rl_attr_check] that takes a published group out of hardware
    (the attribute rule removed, its address family removed, its address
    family changed) queue exactly: group detach, rules delete, counters
    delete (when the group has a Counter-Group), group delete, in this
    order; on a change of family the notifications of the republication
    follow.  So no rule or counter deletion precedes the detach and none
    follows the group delete. *)
Theorem teardown_notification_order (hw : pmf_hw) :
  (forall (rls_type : npf_ruleset_type) (rg_name : string)
          (set_extend_ok : bool) (reg_rc : Z)
          (cfg : list npf_cfg_rule_walk_state) (gprs : gpc_rlset)
          (earg : pmf_group_ext) (ras : pmf_ras) (g : glob),
      rls_type <> NPF_RS_OTHER ->
      group_find (gprs_groups gprs) rg_name = Some earg ->
      hw_queue (snd (pmf_arlg_attpt_grp_ev_handler ras hw NPF_ATTPT_EV_GRP_DEL
                       NPF_ATTACH_TYPE_INTERFACE NPF_RULE_CLASS_ACL rg_name
                       rls_type set_extend_ok reg_rc cfg gprs g))
      = hw_queue g ++ teardown_ntfys (earg_gprg earg))
  /\ (forall (gprs : gpc_rlset) (earg : pmf_group_ext) (g : glob),
      gpc_group_is_published (earg_gprg earg) = true ->
      flag_test (earg_flags earg) PMF_EARGF_RULE_ATTR = true ->
      hw_queue (snd (pmf_arlg_rl_attr_check hw gprs earg None g))
      = hw_queue g ++ teardown_ntfys (earg_gprg earg))
  /\ (forall (gprs : gpc_rlset) (earg : pmf_group_ext) (rule : pmf_rule)
             (g : glob),
      gpc_group_is_published (earg_gprg earg) = true ->
      flag_test (earg_flags earg) PMF_EARGF_RULE_ATTR = true ->
      pp_match_ipfam rule = None ->
      gpc_group_has_family (earg_gprg earg) = true ->
      hw_queue (snd (pmf_arlg_rl_attr_check hw gprs earg (Some rule) g))
      = hw_queue g ++ teardown_ntfys (earg_gprg earg))
  /\ (forall (gprs : gpc_rlset) (earg : pmf_group_ext) (rule : pmf_rule)
             (ipfam : pmf_attr_ip_family) (g : glob),
      gpc_group_is_published (earg_gprg earg) = true ->
      flag_test (earg_flags earg) PMF_EARGF_RULE_ATTR = true ->
      pp_match_ipfam rule = Some ipfam ->
      gpc_group_has_family (earg_gprg earg) = true ->
      gpc_group_is_v6 (earg_gprg earg) <> pm_v6 ipfam ->
      hw_queue (snd (pmf_arlg_rl_attr_check hw gprs earg (Some rule) g))
      = hw_queue g ++ teardown_ntfys (earg_gprg earg)
          ++ publish_ntfys (earg_gprg earg))
  /\ (forall gprg : gpc_group,
      teardown_in_order (teardown_ntfys gprg) = true
      /\ teardown_in_order (teardown_ntfys gprg ++ publish_ntfys gprg) = true).
Proof.
  split; [|split; [|split; [|split]]].
  - intros rls_type rg_name ok rc cfg gprs earg ras g Hrls Hfind.
    unfold pmf_arlg_attpt_grp_ev_handler. rewrite Hfind.
    pose proof (grp_ev_detach_ntfys earg g) as H.
    destruct (grp_ev_detach earg g) as [e' g'].
    destruct rls_type; [exact H|exact H|contradiction].
  - intros. now apply attr_check_removed_ntfys.
  - intros. now apply attr_check_family_removed_ntfys.
  - intros gprs earg rule ipfam g H1 H2 H3 H4 H5.
    now apply (attr_check_family_changed_ntfys gprs earg hw rule ipfam g).
  - apply teardown_ntfys_in_order.
Qed.

(* ------------------------------------------------------------------ *)
(** ** What the steps of the reconciler keep *)

Lemma gprg_keeps_refl (gprs : gpc_rlset) (p : gpc_group) : gprg_keeps gprs p p.
Proof. unfold gprg_keeps. auto. Qed.

Lemma gprg_keeps_trans (gprs : gpc_rlset) (p q r : gpc_group) :
  gprg_keeps gprs p q -> gprg_keeps gprs q r -> gprg_keeps gprs p r.
Proof.
  unfold gprg_keeps. intros (A1 & A2 & A3 & A4) (B1 & B2 & B3 & B4).
  split; [auto|]. split; [congruence|]. split; congruence.
Qed.

(** A step that leaves the name, the feature, the publication flag, the
    family and the indices of the rules alone. *)
Lemma gprg_keeps_fields (gprs : gpc_rlset) (p q : gpc_group) :
  gprg_name q = gprg_name p -> gprg_feature q = gprg_feature p ->
  gprg_published q = gprg_published p -> gprg_family q = gprg_family p ->
  rule_indices q = rule_indices p ->
  gprg_keeps gprs p q.
Proof.
  intros H1 H2 H3 H4 H5. unfold gprg_keeps, pub_ok, gpc_group_has_family.
  rewrite H1, H2, H3, H4, H5. auto.
Qed.

Lemma earg_keeps_refl (gprs : gpc_rlset) (e : pmf_group_ext) :
  earg_keeps gprs e e.
Proof. split; [apply gprg_keeps_refl|reflexivity]. Qed.

Lemma earg_keeps_trans (gprs : gpc_rlset) (e1 e2 e3 : pmf_group_ext) :
  earg_keeps gprs e1 e2 -> earg_keeps gprs e2 e3 -> earg_keeps gprs e1 e3.
Proof.
  intros [A1 A2] [B1 B2]. split; [eapply gprg_keeps_trans; eauto|congruence].
Qed.

Lemma earg_keeps_gprg (gprs : gpc_rlset) (e : pmf_group_ext) (q : gpc_group) :
  gprg_keeps gprs (earg_gprg e) q -> earg_keeps gprs e (earg_with_gprg q e).
Proof. intros H. split; [exact H|reflexivity]. Qed.

Lemma gprg_keeps_with_cntrs (gprs : gpc_rlset) (cs : list gpc_cntr)
  (p : gpc_group) : gprg_keeps gprs p (gprg_with_cntrs cs p).
Proof.
  unfold gprg_with_cntrs. destruct (gprg_cntg p);
    [apply gprg_keeps_fields; reflexivity|apply gprg_keeps_refl].
Qed.

Lemma gprg_keeps_set_cntg (gprs : gpc_rlset) (p : gpc_group)
  (c : option gpc_cntg) : gprg_keeps gprs p (gpc_group_set_cntg p c).
Proof. apply gprg_keeps_fields; reflexivity. Qed.

Lemma rule_update_indices (rules : list gpc_rule) (idx : Z)
  (f : gpc_rule -> gpc_rule) :
  (forall r, gprl_index (f r) = gprl_index r) ->
  map gprl_index (rule_update rules idx f) = map gprl_index rules.
Proof.
  intros Hf. induction rules as [|r rules IH]; simpl; [reflexivity|].
  destruct (gprl_index r =? idx); simpl; [now rewrite Hf|now rewrite IH].
Qed.

Lemma map_set_published_indices (b : bool) (rules : list gpc_rule) :
  map gprl_index (map (gprl_set_published b) rules) = map gprl_index rules.
Proof. rewrite map_map. reflexivity. Qed.

Lemma find_and_retain_keeps (gprs : gpc_rlset) (p : gpc_group) (name : string) :
  gprg_keeps gprs p (snd (gpc_cntr_find_and_retain p name)).
Proof.
  unfold gpc_cntr_find_and_retain.
  destruct (gcntr_lookup (gprg_cntrs p) name); simpl;
    [apply gprg_keeps_with_cntrs|apply gprg_keeps_refl].
Qed.

Lemma create_named_keeps (gprs : gpc_rlset) (p : gpc_group) (name : string)
  (g : glob) : gprg_keeps gprs p (snd (fst (gpc_cntr_create_named p name g))).
Proof.
  unfold gpc_cntr_create_named.
  destruct (gcntr_lookup (gprg_cntrs p) name); simpl;
    [apply gprg_keeps_with_cntrs|].
  destruct (calloc g) as [[a|] g1]; simpl;
    [apply gprg_keeps_with_cntrs|apply gprg_keeps_refl].
Qed.

Lemma create_numbered_keeps (gprs : gpc_rlset) (p : gpc_group) (n : Z)
  (g : glob) : gprg_keeps gprs p (snd (fst (gpc_cntr_create_numbered p n g))).
Proof.
  unfold gpc_cntr_create_numbered.
  destruct (gcntr_lookup (gprg_cntrs p) _); simpl; [apply gprg_keeps_refl|].
  destruct (calloc g) as [[a|] g1]; simpl;
    [apply gprg_keeps_with_cntrs|apply gprg_keeps_refl].
Qed.

Lemma release_keeps (gprs : gpc_rlset) (p : gpc_group) (cntr : string)
  (g : glob) : gprg_keeps gprs p (snd (fst (gpc_cntr_release p cntr g))).
Proof.
  unfold gpc_cntr_release.
  destruct (gcntr_lookup (gprg_cntrs p) cntr) as [c|]; simpl;
    [|apply gprg_keeps_refl].
  destruct (0 <? cntr_refcount c - 1); simpl; apply gprg_keeps_with_cntrs.
Qed.

Lemma release_opt_keeps (gprs : gpc_rlset) (p : gpc_group)
  (cntr : option string) (g : glob) :
  gprg_keeps gprs p (fst (gpc_cntr_release_opt p cntr g)).
Proof.
  unfold gpc_cntr_release_opt. destruct cntr as [c|]; [|apply gprg_keeps_refl].
  pose proof (release_keeps gprs p c g) as H.
  destruct (gpc_cntr_release p c g) as [[b q] g1]. exact H.
Qed.

Lemma foreach_release_keeps (gprs : gpc_rlset) (names : list string) :
  forall (p : gpc_group) (g : glob),
  gprg_keeps gprs p (fst (gpc_cntr_foreach_release names p g)).
Proof.
  induction names as [|n rest IH]; intros p g; simpl; [apply gprg_keeps_refl|].
  pose proof (release_keeps gprs p n g) as H.
  destruct (gpc_cntr_release p n g) as [[b q] g1]. simpl in H.
  eapply gprg_keeps_trans; [exact H|apply IH].
Qed.

Lemma release_while_last_keeps (gprs : gpc_rlset) (fuel : nat) :
  forall (p : gpc_group) (g : glob),
  gprg_keeps gprs p (fst (gpc_cntr_release_while_last fuel p g)).
Proof.
  induction fuel as [|fuel IH]; intros p g; simpl; [apply gprg_keeps_refl|].
  destruct (gpc_cntr_last p) as [c|]; [|apply gprg_keeps_refl].
  pose proof (release_keeps gprs p c g) as H.
  destruct (gpc_cntr_release p c g) as [[b q] g1]. simpl in H.
  eapply gprg_keeps_trans; [exact H|apply IH].
Qed.

Ltac keeps_chain :=
  repeat first
    [ assumption
    | apply gprg_keeps_refl
    | eapply gprg_keeps_trans; [eassumption|] ].

Section Keeps.

Variable ras : pmf_ras.
Variable hw : pmf_hw.
Variable gprs : gpc_rlset.

Lemma cntr_hw_ntfy_create_keeps (p : gpc_group) (cntr : option string)
  (g : glob) : gprg_keeps gprs p (fst (gpc_cntr_hw_ntfy_create hw p cntr g)).
Proof.
  unfold gpc_cntr_hw_ntfy_create. destruct cntr; [|apply gprg_keeps_refl].
  destruct (gprg_published p); simpl;
    [apply gprg_keeps_with_cntrs|apply gprg_keeps_refl].
Qed.

Lemma cntrs_create_keeps (p : gpc_group) (g : glob) :
  gprg_keeps gprs p (fst (gpc_cntg_hw_ntfy_cntrs_create hw p g)).
Proof.
  unfold gpc_cntg_hw_ntfy_cntrs_create.
  destruct (gprg_published p); simpl;
    [apply gprg_keeps_with_cntrs|apply gprg_keeps_refl].
Qed.

Lemma cntrs_delete_keeps (p : gpc_group) (g : glob) :
  gprg_keeps gprs p (fst (gpc_cntg_hw_ntfy_cntrs_delete p g)).
Proof. simpl. apply gprg_keeps_with_cntrs. Qed.

Lemma set_cntr_keeps (p : gpc_group) (gprl : Z) (c : option string) :
  gprg_keeps gprs p (gpc_rule_set_cntr p gprl c).
Proof.
  apply gprg_keeps_fields; try reflexivity.
  unfold rule_indices. simpl. now apply rule_update_indices.
Qed.

Lemma change_rule_keeps (p : gpc_group) (gprl : Z) (rule : pmf_rule)
  (g : glob) : gprg_keeps gprs p (fst (gpc_rule_change_rule p gprl rule g)).
Proof.
  unfold gpc_rule_change_rule.
  destruct (gprg_published p) eqn:E; simpl;
    (apply gprg_keeps_fields; try reflexivity; try (simpl; now rewrite E);
     unfold rule_indices; simpl; now apply rule_update_indices).
Qed.

Lemma rule_ntfy_delete_keeps (p : gpc_group) (gprl : Z) (g : glob) :
  gprg_keeps gprs p (fst (gpc_rule_hw_ntfy_delete p gprl g)).
Proof.
  simpl. apply gprg_keeps_fields; try reflexivity.
  unfold rule_indices. simpl. now apply rule_update_indices.
Qed.

Lemma rules_create_keeps (p : gpc_group) (g : glob) :
  gprg_keeps gprs p (fst (gpc_group_hw_ntfy_rules_create p g)).
Proof.
  unfold gpc_group_hw_ntfy_rules_create.
  destruct (gprg_published p) eqn:E; simpl; [|apply gprg_keeps_refl].
  apply gprg_keeps_fields; try reflexivity; try (simpl; now rewrite E).
  unfold rule_indices. simpl. apply map_set_published_indices.
Qed.

Lemma rules_delete_keeps (p : gpc_group) (g : glob) :
  gprg_keeps gprs p (fst (gpc_group_hw_ntfy_rules_delete p g)).
Proof.
  simpl. apply gprg_keeps_fields; try reflexivity.
  unfold rule_indices. simpl. apply map_set_published_indices.
Qed.

Lemma ntfy_modify_keeps (p : gpc_group) (summary : Z) (g : glob) :
  gprg_keeps gprs p (fst (gpc_group_hw_ntfy_modify p summary g)).
Proof. simpl. apply gprg_keeps_fields; reflexivity. Qed.

Lemma ntfy_attach_keeps (gprs' : gpc_rlset) (p : gpc_group) (g : glob) :
  gprg_keeps gprs p (fst (gpc_group_hw_ntfy_attach gprs' p g)).
Proof.
  unfold gpc_group_hw_ntfy_attach. destruct (gprs_ifp gprs'); simpl;
    [apply gprg_keeps_fields; reflexivity|apply gprg_keeps_refl].
Qed.

Lemma ntfy_detach_keeps (p : gpc_group) (g : glob) :
  gprg_keeps gprs p (fst (gpc_group_hw_ntfy_detach p g)).
Proof. simpl. apply gprg_keeps_fields; reflexivity. Qed.

Lemma set_deferred_keeps (p : gpc_group) :
  gprg_keeps gprs p (gpc_group_set_deferred p).
Proof. apply gprg_keeps_fields; reflexivity. Qed.

Lemma clear_deferred_keeps (p : gpc_group) :
  gprg_keeps gprs p (gpc_group_clear_deferred p).
Proof. apply gprg_keeps_fields; reflexivity. Qed.

(** Publication goes through only with a family and a created interface. *)
Lemma ntfy_create_keeps (p : gpc_group) (attr_rule : option pmf_rule)
  (g : glob) :
  gprg_keeps gprs p (fst (gpc_group_hw_ntfy_create gprs p attr_rule g)).
Proof.
  unfold gpc_group_hw_ntfy_create.
  destruct (gprs_if_created gprs) eqn:Ec; simpl; [|apply gprg_keeps_refl].
  destruct (gpc_group_has_family p) eqn:Ef; simpl; [|apply gprg_keeps_refl].
  destruct (gprg_published p) eqn:Ep; simpl; [apply gprg_keeps_refl|].
  unfold gprg_keeps, pub_ok. simpl. repeat split; auto.
Qed.

Lemma ntfy_delete_keeps (p : gpc_group) (g : glob) :
  gprg_keeps gprs p (fst (gpc_group_hw_ntfy_delete p g)).
Proof.
  unfold gpc_group_hw_ntfy_delete.
  destruct (gprg_published p) eqn:Ep; simpl; [|apply gprg_keeps_refl].
  unfold gprg_keeps, pub_ok. simpl. repeat split; auto; discriminate.
Qed.

Lemma rule_get_cntr_keeps (p : gpc_group) (cntg : gpc_cntg) (rule : pmf_rule)
  (n : Z) (g : glob) :
  gprg_keeps gprs p (snd (fst (pmf_arlg_rule_get_cntr ras p cntg rule n g))).
Proof.
  unfold pmf_arlg_rule_get_cntr. destruct (gpc_cntg_type cntg).
  - apply create_numbered_keeps.
  - destruct (flag_test (pp_summary rule) (PMF_RAS_PASS ras)).
    + pose proof (find_and_retain_keeps gprs p "accept") as K.
      destruct (gpc_cntr_find_and_retain p "accept") as [c q]. exact K.
    + destruct (flag_test (pp_summary rule) (PMF_RAS_DROP ras)).
      * pose proof (find_and_retain_keeps gprs p "drop") as K.
        destruct (gpc_cntr_find_and_retain p "drop") as [c q]. exact K.
      * apply gprg_keeps_refl.
Qed.

Lemma create_cntg_rules_keeps (p : gpc_group) (attr_rule : pmf_rule)
  (g : glob) :
  gprg_keeps gprs p (fst (pmf_arlg_rule_create_cntg_rules ras hw p attr_rule g)).
Proof.
  unfold pmf_arlg_rule_create_cntg_rules.
  pose proof (find_and_retain_keeps gprs p "accept") as K1.
  destruct (gpc_cntr_find_and_retain p "accept") as [ca p1]. simpl in K1.
  pose proof (release_opt_keeps gprs p1 ca g) as K2.
  destruct (gpc_cntr_release_opt p1 ca g) as [p2 g2]. simpl in K2.
  pose proof (find_and_retain_keeps gprs p2 "drop") as K3.
  destruct (gpc_cntr_find_and_retain p2 "drop") as [cd p3]. simpl in K3.
  pose proof (release_opt_keeps gprs p3 cd g2) as K4.
  destruct (gpc_cntr_release_opt p3 cd g2) as [p4 g4]. simpl in K4.
  assert (K04 : gprg_keeps gprs p p4) by keeps_chain.
  clear K1 K2 K3 K4.
  match goal with
  | |- context [match (if ?c then ?a else ?b) with pair _ _ => _ end] =>
      assert (K5 : gprg_keeps gprs p4 (snd (fst (if c then a else b))));
        [|destruct (if c then a else b) as [[ok p5] g5]; simpl in K5]
  end.
  { destruct (_ && _); [|apply gprg_keeps_refl].
    pose proof (create_named_keeps gprs p4 "accept" g4) as K.
    destruct (gpc_cntr_create_named p4 "accept" g4) as [[[c|] q] g']; simpl in K;
      [|exact K].
    pose proof (cntr_hw_ntfy_create_keeps q (Some c) g') as K'.
    destruct (gpc_cntr_hw_ntfy_create hw q (Some c) g') as [q' g''].
    simpl in *. keeps_chain. }
  destruct ok; simpl; [|keeps_chain].
  destruct (_ && _); [|keeps_chain].
  pose proof (create_named_keeps gprs p5 "drop" g5) as K.
  destruct (gpc_cntr_create_named p5 "drop" g5) as [[[c|] q] g']; simpl in K;
    [|keeps_chain].
  pose proof (cntr_hw_ntfy_create_keeps q (Some c) g') as K'.
  keeps_chain.
Qed.

Lemma create_cntg_keeps (p : gpc_group) (attr_rule : pmf_rule) (g : glob) :
  gprg_keeps gprs p (fst (pmf_arlg_rule_create_cntg ras hw p attr_rule g)).
Proof.
  unfold pmf_arlg_rule_create_cntg.
  destruct (negb _); [apply gprg_keeps_refl|].
  destruct (gpc_cntg_create _ g) as [[cntg|] g1]; [|apply gprg_keeps_refl].
  pose proof (gprg_keeps_set_cntg gprs p (Some cntg)) as K1.
  destruct (attr_cntr_type ras attr_rule); [exact K1|].
  pose proof (create_cntg_rules_keeps (gpc_group_set_cntg p (Some cntg))
                attr_rule g1) as K2.
  keeps_chain.
Qed.

Lemma delete_cntg_keeps (p : gpc_group) (cntg : gpc_cntg) (g : glob) :
  gprg_keeps gprs p (fst (pmf_arlg_rule_delete_cntg p cntg g)).
Proof.
  unfold pmf_arlg_rule_delete_cntg, gpc_cntg_release.
  destruct (gpc_cntg_type cntg); simpl; [apply gprg_keeps_refl|].
  pose proof (foreach_release_keeps gprs (map cntr_name (gprg_cntrs p)) p g) as K.
  destruct (gpc_cntr_foreach_release _ p g) as [q g1]. exact K.
Qed.

Lemma teardown_keeps (p : gpc_group) (g : glob) :
  gprg_keeps gprs p (fst (hw_ntfy_group_teardown p g))
  /\ gprg_published (fst (hw_ntfy_group_teardown p g)) = false.
Proof.
  unfold hw_ntfy_group_teardown.
  pose proof (ntfy_detach_keeps p g) as K1.
  destruct (gpc_group_hw_ntfy_detach p g) as [p1 g1]. simpl in K1.
  pose proof (rules_delete_keeps p1 g1) as K2.
  destruct (gpc_group_hw_ntfy_rules_delete p1 g1) as [p2 g2]. simpl in K2.
  assert (K3 : gprg_keeps gprs p2
                 (fst (match gpc_group_get_cntg p with
                       | Some _ => gpc_cntg_hw_ntfy_cntrs_delete p2 g2
                       | None => (p2, g2)
                       end))).
  { destruct (gpc_group_get_cntg p);
      [apply cntrs_delete_keeps|apply gprg_keeps_refl]. }
  destruct (match gpc_group_get_cntg p with
            | Some _ => _ | None => _ end) as [p3 g3]. simpl in K3.
  pose proof (ntfy_delete_keeps p3 g3) as K4.
  split; [keeps_chain|].
  unfold gpc_group_hw_ntfy_delete. destruct (gprg_published p3) eqn:E; simpl;
    [reflexivity|exact E].
Qed.

Lemma clear_family_unpublished_keeps (p : gpc_group) :
  gprg_published p = false -> gprg_keeps gprs p (gpc_group_clear_family p).
Proof.
  intros Hp. unfold gprg_keeps, pub_ok. simpl. rewrite Hp.
  repeat split; auto; discriminate.
Qed.

Lemma set_family_unpublished_keeps (p : gpc_group) (v6 : bool) :
  gprg_published p = false ->
  gprg_keeps gprs p (if v6 then gpc_group_set_v6 p else gpc_group_set_v4 p).
Proof.
  intros Hp. unfold gprg_keeps, pub_ok.
  destruct v6; simpl; rewrite Hp; repeat split; auto; discriminate.
Qed.

(** Recording a family for a group that has one keeps the invariant even
    while the group is published. *)
Lemma set_family_keeps (p : gpc_group) (v6 : bool) :
  gprg_keeps gprs p (if v6 then gpc_group_set_v6 p else gpc_group_set_v4 p).
Proof.
  unfold gprg_keeps, pub_ok.
  destruct v6; simpl; (split; [intros H Hp; destruct (H Hp); auto|auto]).
Qed.

Lemma earg_keeps_flags (e : pmf_group_ext) (f : Z) :
  earg_keeps gprs e (earg_with_flags f e).
Proof. split; [apply gprg_keeps_refl|reflexivity]. Qed.

Lemma unpublish_group_keeps (earg : pmf_group_ext) (g : glob) :
  earg_keeps gprs earg (fst (unpublish_group earg g)).
Proof.
  unfold unpublish_group.
  destruct (gpc_group_is_published (earg_gprg earg)) eqn:Ep.
  - destruct (teardown_keeps (earg_gprg earg) g) as [K Hp].
    destruct (hw_ntfy_group_teardown (earg_gprg earg) g) as [p1 g1].
    simpl in *. split; [|reflexivity]. simpl.
    pose proof (set_deferred_keeps p1) as K1.
    pose proof (clear_family_unpublished_keeps (gpc_group_set_deferred p1) Hp)
      as K2.
    keeps_chain.
  - simpl. split; [|reflexivity]. simpl.
    now apply clear_family_unpublished_keeps.
Qed.

Lemma publish_group_keeps (earg : pmf_group_ext) (attr_rule : pmf_rule)
  (ipfam : pmf_attr_ip_family) (g : glob) :
  earg_keeps gprs earg (fst (publish_group hw gprs earg attr_rule ipfam g)).
Proof.
  unfold publish_group.
  pose proof (set_family_keeps (earg_gprg earg) (pm_v6 ipfam)) as K0.
  set (p0 := if pm_v6 ipfam then gpc_group_set_v6 (earg_gprg earg)
             else gpc_group_set_v4 (earg_gprg earg)) in *.
  pose proof (ntfy_create_keeps p0 (Some attr_rule) g) as K1.
  destruct (gpc_group_hw_ntfy_create gprs p0 (Some attr_rule) g) as [p1 g1].
  simpl in K1.
  assert (K2 : gprg_keeps gprs p1
                 (fst (match gpc_group_get_cntg (earg_gprg earg) with
                       | Some _ => gpc_cntg_hw_ntfy_cntrs_create hw p1 g1
                       | None => (p1, g1)
                       end))).
  { destruct (gpc_group_get_cntg _);
      [apply cntrs_create_keeps|apply gprg_keeps_refl]. }
  destruct (match gpc_group_get_cntg (earg_gprg earg) with
            | Some _ => _ | None => _ end) as [p2 g2]. simpl in K2.
  pose proof (rules_create_keeps p2 g2) as K3.
  destruct (gpc_group_hw_ntfy_rules_create p2 g2) as [p3 g3]. simpl in K3.
  pose proof (ntfy_attach_keeps gprs p3 g3) as K4.
  destruct (gpc_group_hw_ntfy_attach gprs p3 g3) as [p4 g4]. simpl in K4.
  simpl. split; [|reflexivity]. simpl. keeps_chain.
Qed.

Lemma attr_check_keeps (earg : pmf_group_ext) (attr_rule : option pmf_rule)
  (g : glob) :
  earg_keeps gprs earg (fst (pmf_arlg_rl_attr_check hw gprs earg attr_rule g)).
Proof.
  unfold pmf_arlg_rl_attr_check.
  destruct attr_rule as [rule|].
  - destruct (negb (flag_test (earg_flags earg) PMF_EARGF_RULE_ATTR)).
    + destruct (pp_match_ipfam rule) as [ipfam|];
        [|simpl; apply earg_keeps_flags].
      eapply earg_keeps_trans; [|apply publish_group_keeps].
      apply earg_keeps_flags.
    + destruct (pp_match_ipfam rule) as [ipfam|].
      * destruct (negb (gpc_group_has_family (earg_gprg earg)));
          [apply publish_group_keeps|].
        destruct (Bool.eqb _ _); [apply earg_keeps_refl|].
        assert (K : gprg_keeps gprs (earg_gprg earg)
                      (fst (if gpc_group_is_published (earg_gprg earg)
                            then hw_ntfy_group_teardown (earg_gprg earg) g
                            else (earg_gprg earg, g)))
                    /\ gprg_published
                         (fst (if gpc_group_is_published (earg_gprg earg)
                               then hw_ntfy_group_teardown (earg_gprg earg) g
                               else (earg_gprg earg, g))) = false).
        { destruct (gpc_group_is_published (earg_gprg earg)) eqn:Ep;
            [apply teardown_keeps|].
          split; [apply gprg_keeps_refl|exact Ep]. }
        destruct (if gpc_group_is_published (earg_gprg earg)
                  then _ else _) as [p1 g1].
        simpl in K. destruct K as [K Hp].
        eapply earg_keeps_trans; [|apply publish_group_keeps].
        split; [|reflexivity]. simpl.
        pose proof (clear_family_unpublished_keeps p1 Hp). keeps_chain.
      * destruct (gpc_group_has_family (earg_gprg earg));
          [apply unpublish_group_keeps|apply earg_keeps_refl].
  - destruct (negb _); [apply earg_keeps_refl|apply unpublish_group_keeps].
Qed.

Lemma change_cntg_keeps (earg : pmf_group_ext) (attr_rule : pmf_rule)
  (g : glob) :
  earg_keeps gprs earg
    (fst (pmf_arlg_rule_change_cntg ras hw gprs earg attr_rule g)).
Proof.
  unfold pmf_arlg_rule_change_cntg.
  destruct (gpc_group_get_cntg (earg_gprg earg)) as [cntg|].
  2:{ pose proof (create_cntg_keeps (earg_gprg earg) attr_rule g) as K.
      destruct (pmf_arlg_rule_create_cntg ras hw (earg_gprg earg) attr_rule g)
        as [p1 g1]. simpl in K.
      eapply earg_keeps_trans; [apply earg_keeps_gprg; exact K|].
      apply attr_check_keeps. }
  destruct (negb (flag_test (pp_summary attr_rule) (PMF_RAS_COUNT_DEF ras))).
  { pose proof (delete_cntg_keeps (earg_gprg earg) cntg g) as K.
    destruct (pmf_arlg_rule_delete_cntg (earg_gprg earg) cntg g) as [p1 g1].
    simpl in K. simpl. apply earg_keeps_gprg.
    pose proof (gprg_keeps_set_cntg gprs p1 None). keeps_chain. }
  destruct (negb (gpc_cntr_type_eqb _ _)).
  { pose proof (attr_check_keeps earg None g) as K1.
    destruct (pmf_arlg_rl_attr_check hw gprs earg None g) as [e1 g1].
    simpl in K1.
    pose proof (delete_cntg_keeps (earg_gprg e1) cntg g1) as K2.
    destruct (pmf_arlg_rule_delete_cntg (earg_gprg e1) cntg g1) as [p2 g2].
    simpl in K2.
    pose proof (gprg_keeps_set_cntg gprs p2 None) as K3.
    pose proof (create_cntg_keeps (gpc_group_set_cntg p2 None) attr_rule g2)
      as K4.
    destruct (pmf_arlg_rule_create_cntg ras hw (gpc_group_set_cntg p2 None)
                attr_rule g2) as [p4 g4]. simpl in K4.
    eapply earg_keeps_trans; [exact K1|].
    eapply earg_keeps_trans; [|apply attr_check_keeps].
    apply earg_keeps_gprg. keeps_chain. }
  destruct (attr_cntr_type ras attr_rule); [apply earg_keeps_refl|].
  pose proof (find_and_retain_keeps gprs (earg_gprg earg) "accept") as K1.
  destruct (gpc_cntr_find_and_retain (earg_gprg earg) "accept") as [ca p1].
  simpl in K1.
  pose proof (find_and_retain_keeps gprs p1 "drop") as K2.
  destruct (gpc_cntr_find_and_retain p1 "drop") as [cd p2]. simpl in K2.
  destruct (Bool.eqb _ _ && Bool.eqb _ _).
  { pose proof (release_opt_keeps gprs p2 ca g) as K3.
    destruct (gpc_cntr_release_opt p2 ca g) as [p3 g3]. simpl in K3.
    pose proof (release_opt_keeps gprs p3 cd g3) as K4.
    destruct (gpc_cntr_release_opt p3 cd g3) as [p4 g4]. simpl in K4.
    simpl. apply earg_keeps_gprg. keeps_chain. }
  assert (K02 : earg_keeps gprs earg (earg_with_gprg p2 earg))
    by (apply earg_keeps_gprg; keeps_chain).
  pose proof (attr_check_keeps (earg_with_gprg p2 earg) None g) as K3.
  destruct (pmf_arlg_rl_attr_check hw gprs (earg_with_gprg p2 earg) None g)
    as [e1 g1]. simpl in K3.
  assert (K03 : earg_keeps gprs earg e1)
    by (eapply earg_keeps_trans; eauto).
  clear K1 K2 K02 K3.
  match goal with
  | |- context [match (if ?c then ?a else ?b) with pair _ _ => _ end] =>
      assert (K4 : gprg_keeps gprs (earg_gprg e1) (fst (if c then a else b)));
        [destruct c; [apply create_cntg_rules_keeps|apply gprg_keeps_refl]
        |destruct (if c then a else b) as [p3 g3]; simpl in K4]
  end.
  match goal with
  | |- context [match (if ?c then ?a else ?b) with pair _ _ => _ end] =>
      assert (K5 : gprg_keeps gprs p3 (fst (if c then a else b)));
        [destruct c; [apply release_opt_keeps|apply gprg_keeps_refl]
        |destruct (if c then a else b) as [p4 g4]; simpl in K5]
  end.
  match goal with
  | |- context [match (if ?c then ?a else ?b) with pair _ _ => _ end] =>
      assert (K6 : gprg_keeps gprs p4 (fst (if c then a else b)));
        [destruct c; [apply release_opt_keeps|apply gprg_keeps_refl]
        |destruct (if c then a else b) as [p5 g5]; simpl in K6]
  end.
  pose proof (attr_check_keeps (earg_with_gprg p5 e1) (Some attr_rule) g5)
    as K7.
  destruct (pmf_arlg_rl_attr_check hw gprs (earg_with_gprg p5 e1)
              (Some attr_rule) g5) as [e6 g6]. simpl in K7.
  pose proof (release_opt_keeps gprs (earg_gprg e6) ca g6) as K8.
  destruct (gpc_cntr_release_opt (earg_gprg e6) ca g6) as [p7 g7].
  simpl in K8.
  pose proof (release_opt_keeps gprs p7 cd g7) as K9.
  destruct (gpc_cntr_release_opt p7 cd g7) as [p8 g8]. simpl in K9.
  simpl.
  eapply earg_keeps_trans; [exact K03|].
  eapply earg_keeps_trans;
    [apply (earg_keeps_gprg gprs e1 p5); keeps_chain|].
  eapply earg_keeps_trans; [exact K7|].
  apply earg_keeps_gprg. keeps_chain.
Qed.

Lemma gprg_keeps_is_pub (p q : gpc_group) :
  gprg_keeps gprs p q -> gprg_keeps_pub gprs p q.
Proof. intros (A & B & C & _). split; [exact A|split; [exact B|exact C]]. Qed.

Lemma gprg_keeps_pub_trans (p q r : gpc_group) :
  gprg_keeps_pub gprs p q -> gprg_keeps_pub gprs q r -> gprg_keeps_pub gprs p r.
Proof.
  intros (A1 & A2 & A3) (B1 & B2 & B3).
  split; [auto|]. split; congruence.
Qed.

Lemma gprg_keeps_pub_rules (p : gpc_group) (rules : list gpc_rule) :
  gprg_keeps_pub gprs p (gprg_with_rules rules p).
Proof. unfold gprg_keeps_pub, pub_ok. simpl. auto. Qed.

Lemma rule_lookup_in (rules : list gpc_rule) (idx : Z) :
  rule_lookup rules idx <> None <-> In idx (map gprl_index rules).
Proof.
  induction rules as [|r rules IH]; simpl; [tauto|].
  destruct (gprl_index r =? idx) eqn:E.
  - apply Z.eqb_eq in E. split; [now left|discriminate].
  - apply Z.eqb_neq in E. rewrite IH. split; [now right|].
    intros [H|H]; [contradiction|assumption].
Qed.

Lemma rule_remove_length (rules : list gpc_rule) (idx : Z) :
  In idx (map gprl_index rules) ->
  S (List.length (rule_remove rules idx)) = List.length rules.
Proof.
  induction rules as [|r rules IH]; simpl; [tauto|].
  destruct (gprl_index r =? idx) eqn:E; [reflexivity|].
  apply Z.eqb_neq in E. intros [H|H]; [contradiction|].
  simpl. now rewrite IH.
Qed.

Lemma rule_indices_length (p : gpc_group) :
  List.length (rule_indices p) = List.length (gprg_rules p).
Proof. unfold rule_indices. apply length_map. Qed.

Lemma rl_chg_adjust_cntr_keeps (p : gpc_group) (cntg : gpc_cntg) (gprl : Z)
  (new_rule : pmf_rule) (rl_idx : Z) (g : glob) :
  gprg_keeps gprs p
    (snd (fst (rl_chg_adjust_cntr ras hw p cntg gprl new_rule rl_idx g))).
Proof.
  unfold rl_chg_adjust_cntr.
  destruct (negb _); [apply gprg_keeps_refl|].
  destruct (gpc_rule_get_cntr p gprl) as [c|].
  - destruct (gpc_cntg_type cntg); [apply gprg_keeps_refl|].
    pose proof (rule_get_cntr_keeps p cntg new_rule 0 g) as K1.
    destruct (pmf_arlg_rule_get_cntr ras p cntg new_rule 0 g)
      as [[new_cntr p1] g1]. simpl in K1.
    destruct (match new_cntr with Some n => streq n c | None => false end).
    + pose proof (release_opt_keeps gprs p1 new_cntr g1) as K2.
      destruct (gpc_cntr_release_opt p1 new_cntr g1) as [p2 g2].
      simpl in *. keeps_chain.
    + pose proof (set_cntr_keeps p1 gprl new_cntr) as K2.
      pose proof (cntr_hw_ntfy_create_keeps
                    (gpc_rule_set_cntr p1 gprl new_cntr) new_cntr g1) as K3.
      destruct (gpc_cntr_hw_ntfy_create hw _ new_cntr g1) as [p3 g3].
      simpl in *. keeps_chain.
  - pose proof (rule_get_cntr_keeps p cntg new_rule rl_idx g) as K1.
    destruct (pmf_arlg_rule_get_cntr ras p cntg new_rule rl_idx g)
      as [[cntr' p1] g1]. simpl in K1.
    pose proof (set_cntr_keeps p1 gprl cntr') as K2.
    pose proof (cntr_hw_ntfy_create_keeps
                  (gpc_rule_set_cntr p1 gprl cntr') cntr' g1) as K3.
    destruct (gpc_cntr_hw_ntfy_create hw _ cntr' g1) as [p3 g3].
    simpl in *. keeps_chain.
Qed.

Lemma rl_chg_keeps (earg : pmf_group_ext) (new_rule : pmf_rule) (rl_idx : Z)
  (g : glob) :
  earg_keeps gprs earg
    (snd (fst (pmf_arlg_rl_chg ras hw gprs earg new_rule rl_idx g))).
Proof.
  unfold pmf_arlg_rl_chg. destruct (rl_idx =? UINT32_MAX).
  - destruct (earg_attr_rule earg); [|apply earg_keeps_refl].
    pose proof (change_cntg_keeps earg new_rule g) as K.
    destruct (pmf_arlg_rule_change_cntg ras hw gprs earg new_rule g) as [e1 g1].
    simpl in *. destruct K as [K1 K2]. split; assumption.
  - destruct (gpc_rule_find (earg_gprg earg) rl_idx) as [gprl|];
      [|apply earg_keeps_refl].
    assert (K1 : gprg_keeps gprs (earg_gprg earg)
              (snd (fst (match gpc_group_get_cntg (earg_gprg earg) with
                         | None => (None, earg_gprg earg, g)
                         | Some cntg =>
                             rl_chg_adjust_cntr ras hw (earg_gprg earg) cntg
                               gprl new_rule rl_idx g
                         end)))).
    { destruct (gpc_group_get_cntg (earg_gprg earg));
        [apply rl_chg_adjust_cntr_keeps|apply gprg_keeps_refl]. }
    destruct (match gpc_group_get_cntg (earg_gprg earg) with
              | None => _ | Some cntg => _ end) as [[rel p1] g1].
    simpl in K1.
    pose proof (change_rule_keeps p1 gprl new_rule g1) as K2.
    destruct (gpc_rule_change_rule p1 gprl new_rule g1) as [p2 g2].
    simpl in K2.
    match goal with
    | |- context [match (if ?c then ?a else ?b) with pair _ _ => _ end] =>
        assert (K3 : gprg_keeps gprs p2 (fst (if c then a else b)));
          [destruct c; [apply ntfy_modify_keeps|apply gprg_keeps_refl]
          |destruct (if c then a else b) as [p3 g3]; simpl in K3]
    end.
    pose proof (release_opt_keeps gprs p3 rel g3) as K4.
    destruct (gpc_cntr_release_opt p3 rel g3) as [p4 g4]. simpl in K4.
    simpl. apply earg_keeps_gprg. keeps_chain.
Qed.

Lemma rl_add_attr_keeps (earg : pmf_group_ext) (rule : pmf_rule) (g : glob) :
  earg_keeps gprs earg
    (snd (fst (pmf_arlg_rl_add ras hw gprs earg rule UINT32_MAX g))).
Proof.
  unfold pmf_arlg_rl_add. simpl (UINT32_MAX =? UINT32_MAX). cbv iota.
  destruct (earg_attr_rule earg); [apply earg_keeps_refl|].
  pose proof (create_cntg_keeps (earg_gprg earg) rule g) as K1.
  destruct (pmf_arlg_rule_create_cntg ras hw (earg_gprg earg) rule g)
    as [p1 g1]. simpl in K1.
  pose proof (attr_check_keeps (earg_with_gprg p1 earg) (Some rule) g1) as K2.
  destruct (pmf_arlg_rl_attr_check hw gprs (earg_with_gprg p1 earg)
              (Some rule) g1) as [e2 g2]. simpl in K2. simpl.
  destruct K2 as [K2 K2']. split; [simpl; keeps_chain|exact K2'].
Qed.

Lemma rl_add_rule_counts (earg : pmf_group_ext) (rule : pmf_rule) (rl_idx : Z)
  (g : glob) :
  rl_idx <> UINT32_MAX ->
  let e' := snd (fst (pmf_arlg_rl_add ras hw gprs earg rule rl_idx g)) in
  gprg_keeps_pub gprs (earg_gprg earg) (earg_gprg e')
  /\ earg_num_rules e' = u32 (earg_num_rules earg + 1)
  /\ (List.length (rule_indices (earg_gprg e'))
      <= S (List.length (rule_indices (earg_gprg earg))))%nat.
Proof.
  intros Hidx. unfold pmf_arlg_rl_add.
  replace (rl_idx =? UINT32_MAX) with false
    by (symmetry; now apply Z.eqb_neq).
  assert (K1 : gprg_keeps gprs (earg_gprg earg)
            (snd (fst (match gpc_group_get_cntg (earg_gprg earg) with
                       | Some cntg =>
                           if pmf_arlg_rule_needs_cntr ras cntg rule
                           then pmf_arlg_rule_get_cntr ras (earg_gprg earg)
                                  cntg rule rl_idx g
                           else (None, earg_gprg earg, g)
                       | None => (None, earg_gprg earg, g)
                       end)))).
  { destruct (gpc_group_get_cntg (earg_gprg earg)) as [cntg|];
      [|apply gprg_keeps_refl].
    destruct (pmf_arlg_rule_needs_cntr ras cntg rule);
      [apply rule_get_cntr_keeps|apply gprg_keeps_refl]. }
  destruct (match gpc_group_get_cntg (earg_gprg earg) with
            | Some cntg => _ | None => _ end) as [[cntr p1] g1].
  simpl in K1.
  unfold gpc_rule_create. destruct (calloc g1) as [[a|] g2].
  - set (p2 := gprg_with_rules _ p1).
    pose proof (set_cntr_keeps p2 rl_idx cntr) as K3.
    pose proof (cntr_hw_ntfy_create_keeps (gpc_rule_set_cntr p2 rl_idx cntr)
                  cntr g2) as K4.
    destruct (gpc_cntr_hw_ntfy_create hw _ cntr g2) as [p4 g4]. simpl in K4.
    pose proof (change_rule_keeps p4 rl_idx rule g4) as K5.
    destruct (gpc_rule_change_rule p4 rl_idx rule g4) as [p5 g5]. simpl in K5.
    cbn zeta. simpl snd. simpl fst.
    assert (K25 : gprg_keeps gprs p2 p5) by keeps_chain.
    split; [|split].
    + simpl. eapply gprg_keeps_pub_trans;
        [apply gprg_keeps_is_pub; exact K1|].
      eapply gprg_keeps_pub_trans; [|apply gprg_keeps_is_pub; exact K25].
      apply gprg_keeps_pub_rules.
    + reflexivity.
    + simpl. destruct K25 as (_ & _ & _ & ->). destruct K1 as (_ & _ & _ & <-).
      unfold rule_indices, p2. simpl. rewrite map_app, length_app. simpl. lia.
  - pose proof (release_opt_keeps gprs p1 cntr g2) as K3.
    destruct (gpc_cntr_release_opt p1 cntr g2) as [p3 g3]. simpl in K3.
    cbn zeta. simpl snd. simpl fst.
    assert (K : gprg_keeps gprs (earg_gprg earg) p3) by keeps_chain.
    split; [|split].
    + simpl. now apply gprg_keeps_is_pub.
    + reflexivity.
    + simpl. destruct K as (_ & _ & _ & ->). lia.
Qed.

Lemma rl_del_attr_keeps (earg : pmf_group_ext) (g : glob) :
  earg_keeps gprs earg (snd (fst (pmf_arlg_rl_del hw gprs earg UINT32_MAX g))).
Proof.
  unfold pmf_arlg_rl_del. simpl (UINT32_MAX =? UINT32_MAX). cbv iota.
  destruct (earg_attr_rule earg); [|apply earg_keeps_refl].
  pose proof (attr_check_keeps earg None g) as K1.
  destruct (pmf_arlg_rl_attr_check hw gprs earg None g) as [e1 g1].
  simpl in K1.
  change (gpc_group_get_cntg (earg_gprg (earg_with_attr_rule None e1)))
    with (gpc_group_get_cntg (earg_gprg e1)).
  destruct (gpc_group_get_cntg (earg_gprg e1)) as [cntg|].
  - change (earg_gprg (earg_with_attr_rule None e1)) with (earg_gprg e1).
    pose proof (delete_cntg_keeps (earg_gprg e1) cntg g1) as K2.
    destruct (pmf_arlg_rule_delete_cntg (earg_gprg e1) cntg g1) as [p3 g3].
    simpl in K2. simpl.
    pose proof (gprg_keeps_set_cntg gprs p3 None) as K3.
    destruct K1 as [K1 K1']. split; [simpl; keeps_chain|exact K1'].
  - simpl. destruct K1 as [K1 K1']. split; assumption.
Qed.

Lemma rl_del_rule_counts (earg : pmf_group_ext) (rl_idx : Z) (g : glob) :
  rl_idx <> UINT32_MAX ->
  let r := pmf_arlg_rl_del hw gprs earg rl_idx g in
  if fst (fst r)
  then gprg_keeps_pub gprs (earg_gprg earg) (earg_gprg (snd (fst r)))
       /\ earg_num_rules (snd (fst r)) = u32 (earg_num_rules earg - 1)
       /\ S (List.length (rule_indices (earg_gprg (snd (fst r)))))
          = List.length (rule_indices (earg_gprg earg))
  else snd (fst r) = earg.
Proof.
  intros Hidx. unfold pmf_arlg_rl_del.
  replace (rl_idx =? UINT32_MAX) with false
    by (symmetry; now apply Z.eqb_neq).
  unfold gpc_rule_find.
  destruct (rule_lookup (gprg_rules (earg_gprg earg)) rl_idx) as [r0|] eqn:El;
    [|reflexivity].
  assert (Hin : In rl_idx (rule_indices (earg_gprg earg))).
  { apply rule_lookup_in. now rewrite El. }
  pose proof (rule_ntfy_delete_keeps (earg_gprg earg) rl_idx g) as K1.
  destruct (gpc_rule_hw_ntfy_delete (earg_gprg earg) rl_idx g) as [p1 g1].
  simpl in K1.
  set (p2 := gpc_rule_delete p1 rl_idx).
  pose proof (release_opt_keeps gprs p2 (gpc_rule_get_cntr p1 rl_idx) g1) as K3.
  destruct (gpc_cntr_release_opt p2 (gpc_rule_get_cntr p1 rl_idx) g1)
    as [p3 g3]. simpl in K3.
  match goal with
  | |- context [match (if ?c then ?a else ?b) with pair _ _ => _ end] =>
      assert (K4 : gprg_keeps gprs p3 (fst (if c then a else b)));
        [destruct c; [apply ntfy_modify_keeps|apply gprg_keeps_refl]
        |destruct (if c then a else b) as [p4 g4]; simpl in K4]
  end.
  cbn zeta. simpl fst. simpl snd. cbv iota.
  assert (K24 : gprg_keeps gprs p2 p4) by keeps_chain.
  split; [|split].
  - simpl. eapply gprg_keeps_pub_trans; [apply gprg_keeps_is_pub; exact K1|].
    eapply gprg_keeps_pub_trans; [|apply gprg_keeps_is_pub; exact K24].
    apply gprg_keeps_pub_rules.
  - reflexivity.
  - simpl. destruct K24 as (_ & _ & _ & ->). destruct K1 as (_ & _ & _ & K1).
    rewrite <- K1 in Hin |- *. rewrite !rule_indices_length.
    unfold p2. simpl. apply rule_remove_length. exact Hin.
Qed.

End Keeps.

(* ------------------------------------------------------------------ *)
(** ** The rule count *)

Section RuleCount.

Variable ras : pmf_ras.
Variable hw : pmf_hw.
Variable gprs : gpc_rlset.

Lemma u32_add_l (c k : Z) : u32 (u32 c + k) = u32 (c + k).
Proof. unfold u32. apply Zplus_mod_idemp_l. Qed.

Lemma u32_sub_l (c k : Z) : u32 (u32 c - k) = u32 (c - k).
Proof. unfold u32. apply Zminus_mod_idemp_l. Qed.

Lemma u32_nonneg (c : Z) : 0 <= u32 c.
Proof. unfold u32. apply Z.mod_pos_bound. lia. Qed.

Lemma group_modify_counts (op : rule_op) (earg : pmf_group_ext) (g : glob)
  (c : Z) :
  earg_num_rules earg = u32 c ->
  let e' := fst (pmf_arlg_group_modify ras hw gprs earg (rule_op_event op) g) in
  let a := op_adds op in
  let d := op_deletes_done ras hw gprs op (earg, g) in
  earg_num_rules e' = u32 (c + a - d)
  /\ Z.of_nat (List.length (rule_indices (earg_gprg e'))) + d
     <= Z.of_nat (List.length (rule_indices (earg_gprg earg))) + a
  /\ 0 <= d /\ 0 <= a.
Proof.
  intros Hc. destruct op as [rule idx|rule idx|idx];
    unfold pmf_arlg_group_modify, rule_op_event, op_adds, op_deletes_done;
    simpl ev_group_class; simpl ev_event_type; simpl ev_index;
    simpl ev_parsed; cbv iota zeta.
  - (* Add *)
    destruct (Z.eq_dec idx UINT32_MAX) as [->|Hne].
    + pose proof (rl_add_attr_keeps ras hw gprs earg rule g) as [K1 K2].
      destruct (pmf_arlg_rl_add ras hw gprs earg rule UINT32_MAX g)
        as [[ok e1] g1]. simpl in *.
      destruct K1 as (_ & _ & _ & ->). rewrite K2, Hc.
      replace (c + 0 - 0) with c by lia. repeat split; lia.
    + pose proof (rl_add_rule_counts ras hw gprs earg rule idx g Hne)
        as (_ & K2 & K3).
      destruct (pmf_arlg_rl_add ras hw gprs earg rule idx g) as [[ok e1] g1].
      simpl in *.
      replace (idx =? UINT32_MAX) with false
        by (symmetry; now apply Z.eqb_neq).
      rewrite K2, Hc, u32_add_l.
      replace (c + 1 - 0) with (c + 1) by lia. repeat split; lia.
  - (* Change *)
    pose proof (rl_chg_keeps ras hw gprs earg rule idx g) as [K1 K2].
    destruct (pmf_arlg_rl_chg ras hw gprs earg rule idx g) as [[ok e1] g1].
    simpl in *. destruct K1 as (_ & _ & _ & ->). rewrite K2, Hc.
    replace (c + 0 - 0) with c by lia. repeat split; lia.
  - (* Delete *)
    simpl fst. simpl snd.
    destruct (Z.eq_dec idx UINT32_MAX) as [->|Hne].
    + pose proof (rl_del_attr_keeps hw gprs earg g) as [K1 K2].
      destruct (pmf_arlg_rl_del hw gprs earg UINT32_MAX g) as [[ok e1] g1].
      simpl in *. destruct K1 as (_ & _ & _ & ->). rewrite K2, Hc.
      replace (c + 0 - 0) with c by lia. repeat split; lia.
    + pose proof (rl_del_rule_counts hw gprs earg idx g Hne) as K.
      replace (idx =? UINT32_MAX) with false
        by (symmetry; now apply Z.eqb_neq).
      destruct (pmf_arlg_rl_del hw gprs earg idx g) as [[ok e1] g1].
      simpl in *. destruct ok.
      * destruct K as (_ & K2 & K3). rewrite K2, Hc, u32_sub_l.
        replace (c + 0 - 1) with (c - 1) by lia. repeat split; lia.
      * subst e1. rewrite Hc. replace (c + 0 - 0) with c by lia.
        repeat split; lia.
Qed.

Lemma rule_ops_run_counts (ops : list rule_op) :
  forall (earg : pmf_group_ext) (g : glob) (c : Z),
  earg_num_rules earg = u32 c ->
  Z.of_nat (List.length (rule_indices (earg_gprg earg))) <= c ->
  let e' := fst (rule_ops_run ras hw gprs ops (earg, g)) in
  let a := count_adds ops in
  let d := count_deletes_done ras hw gprs ops (earg, g) in
  earg_num_rules e' = u32 (c + a - d)
  /\ Z.of_nat (List.length (rule_indices (earg_gprg e'))) <= c + a - d
  /\ 0 <= d /\ 0 <= a.
Proof.
  induction ops as [|op rest IH]; intros earg g c Hc Hlen.
  - simpl. replace (c + 0 - 0) with c by lia. repeat split; lia || exact Hc.
  - pose proof (group_modify_counts op earg g c Hc) as (S1 & S2 & S3 & S4).
    cbn zeta. simpl rule_ops_run. simpl count_adds.
    simpl count_deletes_done. simpl fst in *. simpl snd in *.
    destruct (pmf_arlg_group_modify ras hw gprs earg (rule_op_event op) g)
      as [e1 g1] eqn:E1.
    simpl fst in S1, S2.
    specialize (IH e1 g1
                  (c + op_adds op - op_deletes_done ras hw gprs op (earg, g))
                  S1).
    destruct IH as (I1 & I2 & I3 & I4); [lia|].
    rewrite I1. split; [f_equal; lia|]. split; [lia|]. split; lia.
Qed.

(** C5, amended.  Starting from the group as the attach event creates it,
    after every sequence of Add, Change and Delete operations
    [earg_num_rules] is, modulo 2^32, the number of Add calls at
    non-attribute indices minus the number of Delete calls at
    non-attribute indices that found their rule ([pmf_arlg_rl_del]
    returned true); that difference is never negative, and the count is
    the difference itself while it is below 2^32. *)
Theorem rule_count_adds_minus_deletes_done (rg_name : string) (g : glob)
  (ops : list rule_op) :
  let st0 := (earg_created rg_name, g) in
  let earg := fst (rule_ops_run ras hw gprs ops st0) in
  let a := count_adds ops in
  let d := count_deletes_done ras hw gprs ops st0 in
  earg_num_rules earg = u32 (a - d)
  /\ 0 <= d <= a
  /\ 0 <= earg_num_rules earg
  /\ (a - d < 4294967296 -> earg_num_rules earg = a - d).
Proof.
  intros st0 earg a d.
  pose proof (rule_ops_run_counts ops (earg_created rg_name) g 0)
    as (H1 & H2 & H3 & H4); [reflexivity|simpl; lia|].
  fold st0 in H1, H2, H3. fold earg in H1, H2. fold a in H1, H2, H4.
  fold d in H1, H2, H3. simpl in H1, H2.
  split; [exact H1|]. split; [lia|]. split; [rewrite H1; apply u32_nonneg|].
  intros Hlt. rewrite H1. unfold u32. apply Z.mod_small. lia.
Qed.

End RuleCount.

(** C5 as stated fails: a Delete at an index that holds no rule counts
    in "Add calls minus Delete calls" and changes nothing in the code. *)
Lemma rule_count_counterexample :
  earg_num_rules
    (fst (rule_ops_run ras_bits hw_all_ok rlset_eth0 [OpDelete 5]
            (earg_created "g1", glob_init [])))
  <> count_adds [OpDelete 5] - count_deletes [OpDelete 5].
Proof. vm_compute. discriminate. Qed.

(* ------------------------------------------------------------------ *)
(** ** Publication needs a family and a created interface *)

Section Published.

Variable ras : pmf_ras.
Variable hw : pmf_hw.

Lemma pub_ok_if_created (gprs gprs' : gpc_rlset) (p : gpc_group) :
  (gprs_if_created gprs = true -> gprs_if_created gprs' = true) ->
  pub_ok gprs p -> pub_ok gprs' p.
Proof. unfold pub_ok. intros H1 H2 Hp. destruct (H2 Hp). auto. Qed.

Lemma rl_add_keeps_pub (gprs : gpc_rlset) (earg : pmf_group_ext)
  (rule : pmf_rule) (rl_idx : Z) (g : glob) :
  gprg_keeps_pub gprs (earg_gprg earg)
    (earg_gprg (snd (fst (pmf_arlg_rl_add ras hw gprs earg rule rl_idx g)))).
Proof.
  destruct (Z.eq_dec rl_idx UINT32_MAX) as [->|Hne].
  - apply gprg_keeps_is_pub. apply rl_add_attr_keeps.
  - apply rl_add_rule_counts. exact Hne.
Qed.

Lemma rl_del_keeps_pub (gprs : gpc_rlset) (earg : pmf_group_ext) (rl_idx : Z)
  (g : glob) :
  gprg_keeps_pub gprs (earg_gprg earg)
    (earg_gprg (snd (fst (pmf_arlg_rl_del hw gprs earg rl_idx g)))).
Proof.
  destruct (Z.eq_dec rl_idx UINT32_MAX) as [->|Hne].
  - apply gprg_keeps_is_pub. apply rl_del_attr_keeps.
  - pose proof (rl_del_rule_counts hw gprs earg rl_idx g Hne) as K.
    cbv zeta in K.
    destruct (fst (fst (pmf_arlg_rl_del hw gprs earg rl_idx g))).
    + apply K.
    + rewrite K. apply gprg_keeps_is_pub, gprg_keeps_refl.
Qed.

Lemma group_modify_pub_ok (gprs : gpc_rlset) (earg : pmf_group_ext)
  (ev : npf_cfg_rule_group_event) (g : glob) :
  pub_ok gprs (earg_gprg earg) ->
  pub_ok gprs (earg_gprg (fst (pmf_arlg_group_modify ras hw gprs earg ev g))).
Proof.
  unfold pmf_arlg_group_modify.
  destruct (ev_group_class ev); [|auto].
  destruct (ev_event_type ev); [| | |auto].
  - pose proof (rl_add_keeps_pub gprs earg (ev_parsed ev) (ev_index ev) g) as K.
    destruct (pmf_arlg_rl_add ras hw gprs earg _ _ g) as [[ok e1] g1].
    apply K.
  - pose proof (rl_chg_keeps ras hw gprs earg (ev_parsed ev) (ev_index ev) g)
      as [K _].
    destruct (pmf_arlg_rl_chg ras hw gprs earg _ _ g) as [[ok e1] g1].
    apply K.
  - pose proof (rl_del_keeps_pub gprs earg (ev_index ev) g) as K.
    destruct (pmf_arlg_rl_del hw gprs earg _ g) as [[ok e1] g1].
    apply K.
Qed.

Lemma group_walk_pub_ok (gprs : gpc_rlset)
  (cfg : list npf_cfg_rule_walk_state) :
  forall (earg : pmf_group_ext) (g : glob),
  pub_ok gprs (earg_gprg earg) ->
  pub_ok gprs (earg_gprg (fst (npf_cfg_rule_group_walk ras hw gprs cfg earg g))).
Proof.
  induction cfg as [|grp rest IH]; intros earg g H; simpl; [exact H|].
  unfold pmf_arlg_group_build.
  pose proof (rl_add_keeps_pub gprs earg (ws_parsed grp) (ws_index grp) g) as K.
  destruct (pmf_arlg_rl_add ras hw gprs earg _ _ g) as [[ok e1] g1].
  apply IH. apply K. exact H.
Qed.

Lemma commit_deferral_group_pub_ok (gprs : gpc_rlset) (earg : pmf_group_ext)
  (g : glob) :
  pub_ok gprs (earg_gprg earg) ->
  pub_ok gprs (earg_gprg (fst (commit_deferral_group hw gprs earg g))).
Proof.
  unfold commit_deferral_group.
  destruct (negb (gpc_feature_is_acl _)); [auto|].
  destruct (negb (gpc_group_is_deferred _)); [auto|].
  pose proof (clear_deferred_keeps gprs (earg_gprg earg)) as K0.
  pose proof (ntfy_create_keeps gprs (gpc_group_clear_deferred (earg_gprg earg))
                (earg_attr_rule earg) g) as K1.
  destruct (gpc_group_hw_ntfy_create gprs _ (earg_attr_rule earg) g)
    as [p1 g1]. simpl in K1.
  assert (K2 : gprg_keeps gprs p1
                 (fst (match gpc_group_get_cntg p1 with
                       | Some _ => gpc_cntg_hw_ntfy_cntrs_create hw p1 g1
                       | None => (p1, g1)
                       end))).
  { destruct (gpc_group_get_cntg p1);
      [apply cntrs_create_keeps|apply gprg_keeps_refl]. }
  destruct (match gpc_group_get_cntg p1 with
            | Some _ => _ | None => _ end) as [p2 g2]. simpl in K2.
  pose proof (rules_create_keeps gprs p2 g2) as K3.
  destruct (gpc_group_hw_ntfy_rules_create p2 g2) as [p3 g3]. simpl in K3.
  pose proof (ntfy_attach_keeps gprs gprs p3 g3) as K4.
  destruct (gpc_group_hw_ntfy_attach gprs p3 g3) as [p4 g4]. simpl in K4.
  simpl. intros H.
  assert (K : gprg_keeps gprs (earg_gprg earg) p4) by keeps_chain.
  apply K. exact H.
Qed.

Lemma grp_updn_pub_ok (gprs gprs' : gpc_rlset) (is_up : bool)
  (earg : pmf_group_ext) (g : glob) :
  pub_ok gprs (earg_gprg earg) ->
  pub_ok gprs
    (earg_gprg (fst (pmf_arlg_attpt_grp_updn_handler gprs' is_up earg g))).
Proof.
  unfold pmf_arlg_attpt_grp_updn_handler.
  destruct (negb (gpc_feature_is_acl _)); [auto|]. destruct is_up.
  - pose proof (ntfy_attach_keeps gprs gprs' (earg_gprg earg) g) as K.
    destruct (gpc_group_hw_ntfy_attach gprs' (earg_gprg earg) g) as [p1 g1].
    apply K.
  - pose proof (ntfy_detach_keeps gprs (earg_gprg earg) g) as K.
    destruct (gpc_group_hw_ntfy_detach (earg_gprg earg) g) as [p1 g1].
    apply K.
Qed.

Lemma groups_foreach_forall (P : pmf_group_ext -> Prop)
  (f : pmf_group_ext -> glob -> pmf_group_ext * glob) :
  (forall e g, P e -> P (fst (f e g))) ->
  forall (groups : list pmf_group_ext) (g : glob),
  Forall P groups -> Forall P (fst (groups_foreach f groups g)).
Proof.
  intros Hf. induction groups as [|e rest IH]; intros g H; simpl;
    [constructor|].
  inversion H as [|x xs Hx Hxs]; subst.
  pose proof (Hf e g Hx) as H1. destruct (f e g) as [e1 g1].
  pose proof (IH g1 Hxs) as H2. destruct (groups_foreach f rest g1) as [r1 g2].
  constructor; assumption.
Qed.

Lemma group_apply_forall (P : pmf_group_ext -> Prop) (rg_name : string)
  (f : pmf_group_ext -> glob -> pmf_group_ext * glob) :
  (forall e g, P e -> P (fst (f e g))) ->
  forall (groups : list pmf_group_ext) (g : glob),
  Forall P groups -> Forall P (fst (group_apply rg_name f groups g)).
Proof.
  intros Hf. induction groups as [|e rest IH]; intros g H; simpl;
    [constructor|].
  inversion H as [|x xs Hx Hxs]; subst.
  destruct (streq rg_name (gprg_name (earg_gprg e))).
  - pose proof (Hf e g Hx) as H1. destruct (f e g) as [e1 g1].
    constructor; assumption.
  - pose proof (IH g Hxs) as H2.
    destruct (group_apply rg_name f rest g) as [r1 g1].
    constructor; assumption.
Qed.

Lemma group_remove_forall (P : pmf_group_ext -> Prop) (rg_name : string)
  (groups : list pmf_group_ext) :
  Forall P groups -> Forall P (group_remove groups rg_name).
Proof.
  induction 1 as [|e rest He Hr IH]; simpl; [constructor|].
  destruct (streq rg_name _); [assumption|constructor; assumption].
Qed.

Lemma rlset_apply_ok (if_name : string) (dir_in : bool)
  (f : gpc_rlset -> glob -> gpc_rlset * glob) :
  (forall s g, rlset_ok s -> rlset_ok (fst (f s g))) ->
  forall (db : gpc_db) (g : glob),
  db_ok db -> db_ok (fst (rlset_apply if_name dir_in f db g)).
Proof.
  intros Hf. induction db as [|s rest IH]; intros g H; simpl; [constructor|].
  inversion H as [|x xs Hx Hxs]; subst.
  destruct (streq if_name (gprs_ifname s) && Bool.eqb dir_in (gprs_is_ingress s)).
  - pose proof (Hf s g Hx) as H1. destruct (f s g) as [s1 g1].
    constructor; assumption.
  - pose proof (IH g Hxs) as H2.
    destruct (rlset_apply if_name dir_in f rest g) as [r1 g1].
    constructor; assumption.
Qed.

Lemma rlsets_foreach_ok (f : gpc_rlset -> glob -> gpc_rlset * glob) :
  (forall s g, rlset_ok s -> rlset_ok (fst (f s g))) ->
  forall (db : gpc_db) (g : glob),
  db_ok db -> db_ok (fst (rlsets_foreach f db g)).
Proof.
  intros Hf. induction db as [|s rest IH]; intros g H; simpl; [constructor|].
  inversion H as [|x xs Hx Hxs]; subst.
  pose proof (Hf s g Hx) as H1. destruct (f s g) as [s1 g1].
  pose proof (IH g1 Hxs) as H2. destruct (rlsets_foreach f rest g1) as [r1 g2].
  constructor; assumption.
Qed.

Lemma rlset_remove_ok (if_name : string) (dir_in : bool) (db : gpc_db) :
  db_ok db -> db_ok (rlset_remove if_name dir_in db).
Proof.
  induction 1 as [|s rest Hs Hr IH]; simpl; [constructor|].
  destruct (_ && _); [assumption|constructor; assumption].
Qed.

Lemma grp_ev_handler_ok (event : npf_attpt_ev_type)
  (apk_type : npf_attach_type) (rgk_class : npf_rule_class)
  (rg_name : string) (rls_type : npf_ruleset_type) (set_extend_ok : bool)
  (reg_rc : Z) (cfg : list npf_cfg_rule_walk_state) (gprs : gpc_rlset)
  (g : glob) :
  rlset_ok gprs ->
  rlset_ok (fst (pmf_arlg_attpt_grp_ev_handler ras hw event apk_type rgk_class
                   rg_name rls_type set_extend_ok reg_rc cfg gprs g)).
Proof.
  intros Hok.
  assert (Hbody : rlset_ok (fst (
    if match event with NPF_ATTPT_EV_GRP_ADD => true | _ => false end
    then
      match calloc g with
      | (None, g1) => (gprs, g1)
      | (Some _, g1) =>
          match gpc_group_create GPC_FEAT_ACL rg_name g1 with
          | (None, g2) => (gprs, g2)
          | (Some gprg, g2) =>
              let earg :=
                mk_pmf_group_ext (gpc_group_set_deferred gprg) [] None 0 0 in
              if negb set_extend_ok then (gprs, g2)
              else if negb (reg_rc =? 0) then (gprs, g2)
              else
                let '(earg1, g3) :=
                  npf_cfg_rule_group_walk ras hw gprs cfg earg g2 in
                let g4 := glob_with_deferrals true g3 in
                (gprs_with_groups (gprs_groups gprs ++ [earg1]) gprs,
                 glob_with_commit_pending true g4)
          end
      end
    else
      match group_find (gprs_groups gprs) rg_name with
      | Some earg =>
          let '(_, g1) := grp_ev_detach earg g in
          (gprs_with_groups (group_remove (gprs_groups gprs) rg_name) gprs,
           glob_with_commit_pending true g1)
      | None => (gprs, glob_with_commit_pending true g)
      end))).
  { destruct (match event with NPF_ATTPT_EV_GRP_ADD => true | _ => false end).
    - destruct (calloc g) as [[a|] g1]; [|exact Hok].
      unfold gpc_group_create.
      destruct (calloc g1) as [[a'|] g2]; [|exact Hok].
      destruct (negb set_extend_ok); [exact Hok|].
      destruct (negb (reg_rc =? 0)); [exact Hok|].
      cbv zeta.
      match goal with
      | |- context [npf_cfg_rule_group_walk ras hw gprs cfg ?e g2] =>
          pose proof (group_walk_pub_ok gprs cfg e g2) as Hw
      end.
      destruct (npf_cfg_rule_group_walk ras hw gprs cfg _ g2) as [earg1 g3].
      simpl in Hw. unfold rlset_ok. simpl.
      apply Forall_app. split; [exact Hok|].
      constructor; [|constructor]. apply Hw.
      unfold pub_ok. simpl. discriminate.
    - destruct (group_find (gprs_groups gprs) rg_name) as [earg|];
        [|exact Hok].
      destruct (grp_ev_detach earg g) as [e' g1].
      unfold rlset_ok. simpl. apply group_remove_forall. exact Hok. }
  unfold pmf_arlg_attpt_grp_ev_handler.
  destruct apk_type; [|exact Hok].
  destruct rgk_class; [|exact Hok].
  destruct rls_type; [exact Hbody|exact Hbody|exact Hok].
Qed.

Lemma rls_updn_ok (is_up : bool) (ifp : option Z) (gprs : gpc_rlset)
  (g : glob) :
  rlset_ok gprs -> rlset_ok (fst (pmf_arlg_attpt_rls_updn is_up ifp gprs g)).
Proof.
  intros Hok. unfold pmf_arlg_attpt_rls_updn.
  assert (H1 : gprs_groups
                 (snd (if is_up then gpc_rlset_set_ifp ifp gprs
                       else (true, gprs))) = gprs_groups gprs
               /\ gprs_if_created
                    (snd (if is_up then gpc_rlset_set_ifp ifp gprs
                          else (true, gprs))) = gprs_if_created gprs).
  { unfold gpc_rlset_set_ifp. destruct is_up, ifp; auto. }
  destruct (if is_up then gpc_rlset_set_ifp ifp gprs else (true, gprs))
    as [bound gprs1].
  simpl in H1. destruct H1 as [Hg1 Hc1].
  assert (Hok1 : Forall (fun earg => pub_ok gprs (earg_gprg earg))
                   (gprs_groups gprs1))
    by (rewrite Hg1; exact Hok).
  assert (Hc : forall s : gpc_rlset,
             gprs_if_created s = gprs_if_created gprs ->
             forall gs, Forall (fun earg => pub_ok gprs (earg_gprg earg)) gs ->
             Forall (fun earg => pub_ok s (earg_gprg earg)) gs).
  { intros s Hs gs. apply Forall_impl. intros e.
    apply pub_ok_if_created. now rewrite Hs. }
  destruct (is_up && _).
  - simpl. unfold rlset_ok. apply Hc; assumption.
  - pose proof (groups_foreach_forall
                  (fun earg => pub_ok gprs (earg_gprg earg))
                  (pmf_arlg_attpt_grp_updn_handler gprs1 is_up)
                  (fun e g0 => grp_updn_pub_ok gprs gprs1 is_up e g0)
                  (gprs_groups gprs1) g Hok1) as H.
    destruct (groups_foreach _ (gprs_groups gprs1) g) as [groups g1].
    simpl in H. simpl. unfold rlset_ok.
    destruct (negb is_up); simpl; apply Hc; simpl; assumption.
Qed.

Lemma rls_if_created_ok (gprs : gpc_rlset) (g : glob) :
  rlset_ok gprs -> rlset_ok (fst (pmf_arlg_attpt_rls_if_created gprs g)).
Proof.
  intros Hok. unfold pmf_arlg_attpt_rls_if_created.
  destruct (gpc_rlset_is_if_created gprs); [exact Hok|].
  set (gprs1 := gpc_rlset_set_if_created gprs).
  assert (Hok1 : Forall (fun earg => pub_ok gprs1 (earg_gprg earg))
                   (gprs_groups gprs1)).
  { subst gprs1. simpl. revert Hok. apply Forall_impl. intros e.
    apply pub_ok_if_created. reflexivity. }
  destruct (gpc_rlset_get_ifp gprs1); [|exact Hok1].
  pose proof (groups_foreach_forall
                (fun earg => pub_ok gprs1 (earg_gprg earg))
                (pmf_arlg_attpt_grp_updn_handler gprs1 true)
                (fun e g0 => grp_updn_pub_ok gprs1 gprs1 true e g0)
                (gprs_groups gprs1) g Hok1) as H.
  destruct (groups_foreach _ (gprs_groups gprs1) g) as [groups g1].
  exact H.
Qed.

Lemma dp_step_ok (e : dp_event) (st : gpc_db * glob) :
  db_ok (fst st) -> db_ok (fst (dp_step ras hw e st)).
Proof.
  destruct st as [db g]. simpl fst. intros Hok. destruct e; simpl.
  - apply rlset_apply_ok; [|exact Hok]. intros s g0. apply grp_ev_handler_ok.
  - unfold pmf_arlg_attpt_rls_ev_handler.
    destruct apk_type; [|exact Hok].
    assert (Hbody : forall dir_in : bool, db_ok (fst (
      if negb match event with NPF_ATTPT_EV_RLSET_ADD => true | _ => false end
      then (rlset_remove if_name dir_in db, g)
      else
        match calloc g with
        | (None, g1) => (db, g1)
        | (Some _, g1) =>
            if negb set_extend_ok then (db, g1)
            else (db ++ [mk_gpc_rlset if_name dir_in None false []], g1)
        end))).
    { intros dir_in. destruct (negb _); [now apply rlset_remove_ok|].
      destruct (calloc g) as [[a|] g1]; [|exact Hok].
      destruct (negb set_extend_ok); [exact Hok|].
      simpl. apply Forall_app. split; [exact Hok|].
      constructor; [|constructor]. constructor. }
    destruct rls_type; [apply Hbody|apply Hbody|exact Hok].
  - unfold pmf_arlg_attpt_ap_ev_handler.
    set (is_up := match event with NPF_ATTPT_EV_UP => true | _ => false end).
    assert (H1 : db_ok (fst (if has_in
                             then rlset_apply if_name true
                                    (pmf_arlg_attpt_rls_updn is_up ifp) db g
                             else (db, g)))).
    { destruct has_in; [|exact Hok].
      apply rlset_apply_ok; [|exact Hok]. intros s g0. apply rls_updn_ok. }
    destruct (if has_in then _ else _) as [db1 g1]. simpl in H1.
    assert (H2 : db_ok (fst (if has_out
                             then rlset_apply if_name false
                                    (pmf_arlg_attpt_rls_updn is_up ifp) db1 g1
                             else (db1, g1)))).
    { destruct has_out; [|exact H1].
      apply rlset_apply_ok; [|exact H1]. intros s g0. apply rls_updn_ok. }
    destruct (if has_out then _ else _) as [db2 g2]. exact H2.
  - unfold pmf_arlg_if_feat_mode_change.
    destruct (negb l3_fal_enabled); [exact Hok|].
    destruct (negb has_ap); [exact Hok|].
    assert (H1 : db_ok (fst (if has_in
                             then rlset_apply if_name true
                                    pmf_arlg_attpt_rls_if_created db g
                             else (db, g)))).
    { destruct has_in; [|exact Hok].
      apply rlset_apply_ok; [|exact Hok]. intros s g0. apply rls_if_created_ok. }
    destruct (if has_in then _ else _) as [db1 g1]. simpl in H1.
    assert (H2 : db_ok (fst (if has_out
                             then rlset_apply if_name false
                                    pmf_arlg_attpt_rls_if_created db1 g1
                             else (db1, g1)))).
    { destruct has_out; [|exact H1].
      apply rlset_apply_ok; [|exact H1]. intros s g0. apply rls_if_created_ok. }
    destruct (if has_out then _ else _) as [db2 g2]. exact H2.
  - apply rlset_apply_ok; [|exact Hok]. intros s g0 Hs.
    pose proof (group_apply_forall
                  (fun earg => pub_ok s (earg_gprg earg)) rg_name
                  (fun earg g' => pmf_arlg_group_modify ras hw s earg ev g')
                  (fun e g' => group_modify_pub_ok s e ev g')
                  (gprs_groups s) g0 Hs) as H.
    destruct (group_apply rg_name _ (gprs_groups s) g0) as [groups g1].
    exact H.
  - unfold pmf_arlg_commit.
    assert (H1 : db_ok (fst (if deferrals g
                             then pmf_arlg_commit_deferrals hw db g
                             else (db, g)))).
    { destruct (deferrals g); [|exact Hok].
      unfold pmf_arlg_commit_deferrals.
      apply rlsets_foreach_ok; [|exact Hok]. intros s g0 Hs.
      pose proof (groups_foreach_forall
                    (fun earg => pub_ok s (earg_gprg earg))
                    (commit_deferral_group hw s)
                    (fun e g' => commit_deferral_group_pub_ok s e g')
                    (gprs_groups s) g0 Hs) as H.
      destruct (groups_foreach _ (gprs_groups s) g0) as [groups g1].
      exact H. }
    destruct (if deferrals g then _ else _) as [db1 g1]. exact H1.
Qed.

Lemma dp_run_ok (evs : list dp_event) :
  forall st : gpc_db * glob,
  db_ok (fst st) -> db_ok (fst (dp_run ras hw evs st)).
Proof.
  induction evs as [|e rest IH]; intros st H; simpl; [exact H|].
  apply IH. now apply dp_step_ok.
Qed.

End Published.

Section Publication.

Variable ras : pmf_ras.
Variable hw : pmf_hw.

Lemma unpublish_group_result (earg : pmf_group_ext) (g : glob) :
  gprg_published (earg_gprg (fst (unpublish_group earg g))) = false
  /\ gpc_group_has_family (earg_gprg (fst (unpublish_group earg g))) = false
  /\ flag_test (earg_flags (fst (unpublish_group earg g))) PMF_EARGF_RULE_ATTR
     = false.
Proof.
  unfold unpublish_group.
  destruct (gpc_group_is_published (earg_gprg earg)) eqn:Ep.
  - destruct (teardown_keeps rlset_eth0 (earg_gprg earg) g) as [_ Hp].
    destruct (hw_ntfy_group_teardown (earg_gprg earg) g) as [p1 g1].
    simpl in *. repeat split; [exact Hp|apply flag_test_clear].
  - simpl. repeat split; [exact Ep|apply flag_test_clear].
Qed.

Lemma attr_check_family_changed_result (gprs : gpc_rlset)
  (earg : pmf_group_ext) (rule : pmf_rule) (ipfam : pmf_attr_ip_family)
  (g : glob) :
  flag_test (earg_flags earg) PMF_EARGF_RULE_ATTR = true ->
  pp_match_ipfam rule = Some ipfam ->
  gpc_group_has_family (earg_gprg earg) = true ->
  gpc_group_is_v6 (earg_gprg earg) <> pm_v6 ipfam ->
  hw_queue (snd (pmf_arlg_rl_attr_check hw gprs earg (Some rule) g))
  = hw_queue g
      ++ (if gprg_published (earg_gprg earg)
          then teardown_ntfys (earg_gprg earg) else [])
      ++ publish_ntfys (earg_gprg earg)
  /\ gprg_family
       (earg_gprg (fst (pmf_arlg_rl_attr_check hw gprs earg (Some rule) g)))
     = Some (pm_v6 ipfam).
Proof.
  intros Hflag Hfam Hhas Hv6. unfold pmf_arlg_rl_attr_check.
  rewrite Hflag, Hfam, Hhas. simpl negb. cbv iota.
  replace (Bool.eqb (gpc_group_is_v6 (earg_gprg earg)) (pm_v6 ipfam)) with false
    by (symmetry; apply not_true_is_false; intros H; apply Hv6;
        now apply eqb_prop).
  unfold publish_group, hw_ntfy_group_teardown, teardown_ntfys, publish_ntfys,
    gpc_group_get_cntg, gpc_group_hw_ntfy_create, gpc_cntg_hw_ntfy_cntrs_create,
    gpc_group_hw_ntfy_rules_create, gpc_group_hw_ntfy_attach,
    gpc_group_is_published.
  destruct earg as [[n f s [|] at_ df fam [c|] rl] cs ar nr fl];
    destruct gprs as [ifn ing [ifp|] [|] grps];
    destruct ipfam as [[|]];
    simpl in *; subst; simpl; queue_norm; split; reflexivity.
Qed.

Lemma attr_check_family_acquired_result (gprs : gpc_rlset)
  (earg : pmf_group_ext) (rule : pmf_rule) (ipfam : pmf_attr_ip_family)
  (g : glob) :
  pp_match_ipfam rule = Some ipfam ->
  flag_test (earg_flags earg) PMF_EARGF_RULE_ATTR = false
  \/ gpc_group_has_family (earg_gprg earg) = false ->
  let earg' := fst (pmf_arlg_rl_attr_check hw gprs earg (Some rule) g) in
  gprg_family (earg_gprg earg') = Some (pm_v6 ipfam)
  /\ gprg_published (earg_gprg earg')
     = gprg_published (earg_gprg earg) || gprs_if_created gprs.
Proof.
  intros Hfam Hnew earg'. subst earg'. unfold pmf_arlg_rl_attr_check.
  rewrite Hfam.
  assert (Hpub : forall e : pmf_group_ext,
             gprg_family (earg_gprg (fst (publish_group hw gprs e rule ipfam g)))
             = Some (pm_v6 ipfam)
             /\ gprg_published
                  (earg_gprg (fst (publish_group hw gprs e rule ipfam g)))
                = gprg_published (earg_gprg e) || gprs_if_created gprs).
  { intros e.
    unfold publish_group, gpc_group_get_cntg, gpc_group_hw_ntfy_create,
      gpc_cntg_hw_ntfy_cntrs_create, gpc_group_hw_ntfy_rules_create,
      gpc_group_hw_ntfy_attach, gpc_group_has_family, gpc_group_set_v6,
      gpc_group_set_v4.
    destruct e as [[n f s [|] at_ df fam [c|] rl] cs ar nr fl];
      destruct gprs as [ifn ing [ifp|] [|] grps];
      destruct ipfam as [[|]]; simpl; split; reflexivity. }
  destruct (flag_test (earg_flags earg) PMF_EARGF_RULE_ATTR) eqn:Hflag;
    simpl negb; cbv iota.
  - destruct Hnew as [Hnew|Hnew]; [discriminate Hnew|].
    rewrite Hnew. simpl negb. cbv iota. apply Hpub.
  - apply (Hpub (earg_with_flags
                   (flag_set (earg_flags earg) PMF_EARGF_RULE_ATTR) earg)).
Qed.

Lemma attr_check_family_changed_published (gprs : gpc_rlset)
  (earg : pmf_group_ext) (rule : pmf_rule) (ipfam : pmf_attr_ip_family)
  (g : glob) :
  flag_test (earg_flags earg) PMF_EARGF_RULE_ATTR = true ->
  pp_match_ipfam rule = Some ipfam ->
  gpc_group_has_family (earg_gprg earg) = true ->
  gpc_group_is_v6 (earg_gprg earg) <> pm_v6 ipfam ->
  gprg_published
    (earg_gprg (fst (pmf_arlg_rl_attr_check hw gprs earg (Some rule) g)))
  = gprs_if_created gprs.
Proof.
  intros Hflag Hfam Hhas Hv6. unfold pmf_arlg_rl_attr_check.
  rewrite Hflag, Hfam, Hhas. simpl negb. cbv iota.
  replace (Bool.eqb (gpc_group_is_v6 (earg_gprg earg)) (pm_v6 ipfam)) with false
    by (symmetry; apply not_true_is_false; intros H; apply Hv6;
        now apply eqb_prop).
  unfold publish_group, hw_ntfy_group_teardown, gpc_group_get_cntg,
    gpc_group_hw_ntfy_create, gpc_cntg_hw_ntfy_cntrs_create,
    gpc_group_hw_ntfy_rules_create, gpc_group_hw_ntfy_attach,
    gpc_group_is_published.
  destruct earg as [[n f s [|] at_ df fam [c|] rl] cs ar nr fl];
    destruct gprs as [ifn ing [ifp|] [|] grps];
    destruct ipfam as [[|]];
    simpl in *; subst; simpl; reflexivity.
Qed.

Lemma commit_deferral_group_result (gprs : gpc_rlset) (earg : pmf_group_ext)
  (g : glob) :
  is_acl_group earg = true ->
  gpc_group_is_deferred (earg_gprg earg) = true ->
  let earg' := fst (commit_deferral_group hw gprs earg g) in
  gprg_deferred (earg_gprg earg') = false
  /\ gprg_published (earg_gprg earg')
     = gprg_published (earg_gprg earg)
       || gprs_if_created gprs && gpc_group_has_family (earg_gprg earg).
Proof.
  unfold is_acl_group, commit_deferral_group, gpc_group_get_feature,
    gpc_group_is_deferred.
  intros Hacl Hdef. rewrite Hacl, Hdef. simpl negb. cbv iota.
  unfold gpc_group_clear_deferred, gpc_group_get_cntg,
    gpc_group_hw_ntfy_create, gpc_cntg_hw_ntfy_cntrs_create,
    gpc_group_hw_ntfy_rules_create, gpc_group_hw_ntfy_attach,
    gpc_group_has_family.
  destruct earg as [[n f s [|] at_ df [fam|] [c|] rl] cs ar nr fl];
    destruct gprs as [ifn ing [ifp|] [|] grps];
    simpl; split; reflexivity.
Qed.

(** C1, amended.  After every sequence of events, a published group has an
    address family on record and belongs to a ruleset whose interface has
    been created.  In the other direction, publication happens at the two
    places that notify the creation of the group, on these conditions:
    when [pmf_arlg_rl_attr_check] is called with an attribute rule that
    specifies an address family, on a group that does not hold the
    attribute-rule flag or has no family on record, it records the family
    and the group is published afterwards exactly if it was published
    before or the interface of its ruleset has been created; the loop of
    [pmf_arlg_commit_deferrals], on an ACL group marked deferred, clears
    the mark and the group is published afterwards exactly if it was
    published before or it has a family on record and the interface of
    its ruleset has been created.  Whenever [pmf_arlg_rl_attr_check] is
    called for a removed attribute rule on a group holding the
    attribute-rule flag, or for an attribute rule without a family on
    such a group with a family on record, it leaves the group unpublished
    with no family on record; on a change of family of such a group it
    queues the teardown of a published group before the notifications
    under the new family, which it records, and the group is published
    afterwards exactly if the interface of its ruleset has been
    created. *)
Theorem published_follows_family_and_interface :
  (forall (oom : list bool) (evs : list dp_event) (gprs : gpc_rlset)
          (earg : pmf_group_ext),
      In gprs (fst (dp_run ras hw evs (dp_init oom))) ->
      In earg (gprs_groups gprs) ->
      gprg_published (earg_gprg earg) = true ->
      gprs_if_created gprs = true
      /\ gpc_group_has_family (earg_gprg earg) = true)
  /\ (forall (gprs : gpc_rlset) (earg : pmf_group_ext) (rule : pmf_rule)
             (ipfam : pmf_attr_ip_family) (g : glob),
      pp_match_ipfam rule = Some ipfam ->
      flag_test (earg_flags earg) PMF_EARGF_RULE_ATTR = false
      \/ gpc_group_has_family (earg_gprg earg) = false ->
      let earg' := fst (pmf_arlg_rl_attr_check hw gprs earg (Some rule) g) in
      gprg_family (earg_gprg earg') = Some (pm_v6 ipfam)
      /\ gprg_published (earg_gprg earg')
         = gprg_published (earg_gprg earg) || gprs_if_created gprs)
  /\ (forall (gprs : gpc_rlset) (earg : pmf_group_ext) (g : glob),
      is_acl_group earg = true ->
      gpc_group_is_deferred (earg_gprg earg) = true ->
      let earg' := fst (commit_deferral_group hw gprs earg g) in
      gprg_deferred (earg_gprg earg') = false
      /\ gprg_published (earg_gprg earg')
         = gprg_published (earg_gprg earg)
           || gprs_if_created gprs && gpc_group_has_family (earg_gprg earg))
  /\ (forall (gprs : gpc_rlset) (earg : pmf_group_ext) (g : glob),
      flag_test (earg_flags earg) PMF_EARGF_RULE_ATTR = true ->
      let earg' := fst (pmf_arlg_rl_attr_check hw gprs earg None g) in
      gprg_published (earg_gprg earg') = false
      /\ gpc_group_has_family (earg_gprg earg') = false)
  /\ (forall (gprs : gpc_rlset) (earg : pmf_group_ext) (rule : pmf_rule)
             (g : glob),
      flag_test (earg_flags earg) PMF_EARGF_RULE_ATTR = true ->
      pp_match_ipfam rule = None ->
      gpc_group_has_family (earg_gprg earg) = true ->
      let earg' := fst (pmf_arlg_rl_attr_check hw gprs earg (Some rule) g) in
      gprg_published (earg_gprg earg') = false
      /\ gpc_group_has_family (earg_gprg earg') = false)
  /\ (forall (gprs : gpc_rlset) (earg : pmf_group_ext) (rule : pmf_rule)
             (ipfam : pmf_attr_ip_family) (g : glob),
      flag_test (earg_flags earg) PMF_EARGF_RULE_ATTR = true ->
      pp_match_ipfam rule = Some ipfam ->
      gpc_group_has_family (earg_gprg earg) = true ->
      gpc_group_is_v6 (earg_gprg earg) <> pm_v6 ipfam ->
      let r := pmf_arlg_rl_attr_check hw gprs earg (Some rule) g in
      hw_queue (snd r)
      = hw_queue g
          ++ (if gprg_published (earg_gprg earg)
              then teardown_ntfys (earg_gprg earg) else [])
          ++ publish_ntfys (earg_gprg earg)
      /\ gprg_family (earg_gprg (fst r)) = Some (pm_v6 ipfam)
      /\ gprg_published (earg_gprg (fst r)) = gprs_if_created gprs).
Proof.
  split; [|split; [|split; [|split; [|split]]]].
  - intros oom evs gprs earg Hs He Hp.
    pose proof (dp_run_ok ras hw evs (dp_init oom)) as Hok.
    assert (H0 : db_ok (fst (dp_init oom))) by constructor.
    specialize (Hok H0). unfold db_ok in Hok.
    rewrite Forall_forall in Hok. specialize (Hok gprs Hs).
    unfold rlset_ok in Hok. rewrite Forall_forall in Hok.
    exact (Hok earg He Hp).
  - intros gprs earg rule ipfam g Hfam Hnew.
    exact (attr_check_family_acquired_result gprs earg rule ipfam g Hfam Hnew).
  - intros gprs earg g Hacl Hdef.
    exact (commit_deferral_group_result gprs earg g Hacl Hdef).
  - intros gprs earg g Hflag. unfold pmf_arlg_rl_attr_check.
    rewrite Hflag. simpl negb. cbv iota zeta.
    destruct (unpublish_group_result earg g) as (H1 & H2 & _). auto.
  - intros gprs earg rule g Hflag Hfam Hhas. unfold pmf_arlg_rl_attr_check.
    rewrite Hflag, Hfam, Hhas. simpl negb. cbv iota zeta.
    destruct (unpublish_group_result earg g) as (H1 & H2 & _). auto.
  - intros gprs earg rule ipfam g H1 H2 H3 H4 r. subst r.
    destruct (attr_check_family_changed_result gprs earg rule ipfam g
                H1 H2 H3 H4) as (Hq & Hf).
    split; [exact Hq|split; [exact Hf|]].
    exact (attr_check_family_changed_published gprs earg rule ipfam g
             H1 H2 H3 H4).
Qed.

End Publication.

(** C1 as stated fails: attached before its interface exists, the group
    holds an attribute rule with an address family and is not published. *)
Lemma published_iff_counterexample :
  ~ (forall (gprs : gpc_rlset) (earg : pmf_group_ext),
       In gprs (fst (dp_run ras_bits hw_all_ok evs_deferred (dp_init []))) ->
       In earg (gprs_groups gprs) ->
       published_iff_attr_family earg).
Proof.
  intros H.
  set (db := fst (dp_run ras_bits hw_all_ok evs_deferred (dp_init []))) in H.
  vm_compute in db.
  match eval unfold db in db with
  | [?s] =>
      match eval vm_compute in (gprs_groups s) with
      | [?e] =>
          specialize (H s e (or_introl eq_refl) (or_introl eq_refl));
          destruct H as [_ H];
          assert (Hp : gprg_published (earg_gprg e) = true)
            by (apply H; exists attr_v4, (mk_ipfam false); split; reflexivity);
          vm_compute in Hp; discriminate Hp
      end
  end.
Qed.

(** C4 at its failing input: a published IPv4 group holding the
    attribute-rule flag gets an IPv6 attribute rule.  The reconciler
    takes it out of hardware and publishes it again under IPv6, and it
    leaves the attribute-rule flag clear although the group holds an
    attribute rule. *)
Lemma family_change_clears_attr_flag :
  db_view (fst (dp_run ras_bits hw_all_ok evs_published (dp_init [])))
  = [[(true, true, false, Some false, Some attr_v4)]]
  /\ db_view (fst (dp_run ras_bits hw_all_ok
                     (evs_published ++ [ev_rule (OpChange attr_v6 UINT32_MAX)])
                     (dp_init [])))
     = [[(false, true, false, Some true, Some attr_v6)]]
  /\ flag_test
       (earg_flags
          (fst (pmf_arlg_rl_attr_check hw_all_ok rlset_eth0_up earg_pub_v4
                  (Some attr_v6) (glob_init []))))
       PMF_EARGF_RULE_ATTR = false.
Proof. vm_compute. auto. Qed.

(** C3 at its failing input: after the change of family above, the
    attribute rule is deleted.  [pmf_arlg_rl_del] queues no notification
    and the group stays published, without the deferred mark and with its
    family on record. *)
Lemma attr_delete_after_family_change_stays_published :
  let st1 :=
    dp_run ras_bits hw_all_ok
      (evs_published ++ [ev_rule (OpChange attr_v6 UINT32_MAX)]) (dp_init []) in
  let st2 := dp_step ras_bits hw_all_ok (ev_rule (OpDelete UINT32_MAX)) st1 in
  db_view (fst st2) = [[(false, true, false, Some true, None)]]
  /\ hw_queue (snd st2) = hw_queue (snd st1)
  /\ deferrals (snd st2) = false.
Proof. vm_compute. auto. Qed.

(* ------------------------------------------------------------------ *)
(** ** The attribute-rule flag across a change of family *)

(** On a change of family of a group holding the attribute-rule flag,
    [pmf_arlg_rl_attr_check] sets no deferred mark, publishes the group
    again when the interface of the ruleset has been created, and leaves
    the attribute-rule flag clear. *)
Lemma attr_check_family_changed_flag (hw : pmf_hw) (gprs : gpc_rlset)
  (earg : pmf_group_ext) (rule : pmf_rule) (ipfam : pmf_attr_ip_family)
  (g : glob) :
  flag_test (earg_flags earg) PMF_EARGF_RULE_ATTR = true ->
  pp_match_ipfam rule = Some ipfam ->
  gpc_group_has_family (earg_gprg earg) = true ->
  gpc_group_is_v6 (earg_gprg earg) <> pm_v6 ipfam ->
  let r := pmf_arlg_rl_attr_check hw gprs earg (Some rule) g in
  flag_test (earg_flags (fst r)) PMF_EARGF_RULE_ATTR = false
  /\ gprg_published (earg_gprg (fst r)) = gprs_if_created gprs
  /\ gprg_deferred (earg_gprg (fst r)) = gprg_deferred (earg_gprg earg)
  /\ deferrals (snd r) = deferrals g.
Proof.
  intros Hflag Hfam Hhas Hv6. unfold pmf_arlg_rl_attr_check.
  rewrite Hflag, Hfam, Hhas. simpl negb. cbv iota zeta.
  replace (Bool.eqb (gpc_group_is_v6 (earg_gprg earg)) (pm_v6 ipfam)) with false
    by (symmetry; apply not_true_is_false; intros H; apply Hv6;
        now apply eqb_prop).
  unfold publish_group, hw_ntfy_group_teardown,
    gpc_group_get_cntg, gpc_group_hw_ntfy_create, gpc_cntg_hw_ntfy_cntrs_create,
    gpc_group_hw_ntfy_rules_create, gpc_group_hw_ntfy_attach,
    gpc_group_is_published.
  destruct earg as [[n f s [|] at_ df fam [c|] rl] cs ar nr fl];
    destruct gprs as [ifn ing [ifp|] [|] grps];
    destruct ipfam as [[|]];
    simpl in *; subst; simpl;
    (split; [apply flag_test_clear|auto]).
Qed.

(** With numbered counters before and after, a change of the attribute
    rule does not reach [pmf_arlg_rl_attr_check]:
    [pmf_arlg_rule_change_cntg] returns at "same type of counters, nothing
    to do for numbered".  The group stays published under IPv4 with an
    attribute rule that names no family. *)
Lemma change_under_numbered_counters_keeps_family :
  db_view (fst (dp_run ras_bits hw_all_ok evs_published_numbered (dp_init [])))
  = [[(true, true, false, Some false, Some attr_v4_numbered)]]
  /\ db_view (fst (dp_run ras_bits hw_all_ok
                     (evs_published_numbered
                      ++ [ev_rule (OpChange attr_nofam_numbered UINT32_MAX)])
                     (dp_init [])))
     = [[(true, true, false, Some false, Some attr_nofam_numbered)]].
Proof. vm_compute. auto. Qed.

Lemma foreach_release_quiet (names : list string) :
  forall (p : gpc_group) (g : glob),
  cntrs_quiet p -> snd (gpc_cntr_foreach_release names p g) = g.
Proof.
  induction names as [|n rest IH]; intros p g Hq; simpl; [reflexivity|].
  pose proof (gpc_cntr_release_quiet p n g Hq) as (Hg & Hq1 & _).
  destruct (gpc_cntr_release p n g) as [[b p1] g1]. simpl in Hg, Hq1.
  subst g1. now apply IH.
Qed.

Lemma unpublish_published_group (earg : pmf_group_ext) (g : glob) :
  gpc_group_is_published (earg_gprg earg) = true ->
  hw_queue (snd (unpublish_group earg g))
  = hw_queue g ++ teardown_ntfys (earg_gprg earg)
  /\ deferrals (snd (unpublish_group earg g)) = true
  /\ gprg_deferred (earg_gprg (fst (unpublish_group earg g))) = true
  /\ cntrs_quiet (earg_gprg (fst (unpublish_group earg g)))
  /\ earg_attr_rule (fst (unpublish_group earg g)) = earg_attr_rule earg.
Proof.
  intros Hpub. unfold unpublish_group. rewrite Hpub.
  unfold hw_ntfy_group_teardown, teardown_ntfys, gpc_group_get_cntg,
    cntrs_quiet, gprg_cntrs.
  destruct earg as [[n f s pb at_ df fam [c|] rl] cs ar nr fl];
    simpl in *; subst; simpl; queue_norm;
    (split; [reflexivity|]); (split; [reflexivity|]);
    (split; [reflexivity|]); (split; [|reflexivity]).
  - apply Forall_forall. intros x Hx. apply in_map_iff in Hx.
    destruct Hx as (y & <- & _). reflexivity.
  - constructor.
Qed.

Lemma release_only_cntg (p : gpc_group) (c : string) (g : glob) :
  gprg_with_cntg None (snd (fst (gpc_cntr_release p c g)))
  = gprg_with_cntg None p.
Proof.
  unfold gpc_cntr_release, gprg_with_cntrs.
  destruct (gcntr_lookup _ c) as [c0|]; simpl; [|reflexivity].
  destruct (0 <? _); simpl; destruct (gprg_cntg p); reflexivity.
Qed.

Lemma foreach_release_only_cntg (names : list string) :
  forall (p : gpc_group) (g : glob),
  gprg_with_cntg None (fst (gpc_cntr_foreach_release names p g))
  = gprg_with_cntg None p.
Proof.
  induction names as [|n rest IH]; intros p g; simpl; [reflexivity|].
  pose proof (release_only_cntg p n g) as H.
  destruct (gpc_cntr_release p n g) as [[b p1] g1]. simpl in H.
  now rewrite IH.
Qed.

Lemma delete_cntg_quiet (p : gpc_group) (cntg : gpc_cntg) (g : glob) :
  cntrs_quiet p ->
  snd (pmf_arlg_rule_delete_cntg p cntg g) = g
  /\ gprg_with_cntg None (fst (pmf_arlg_rule_delete_cntg p cntg g))
     = gprg_with_cntg None p.
Proof.
  intros Hq. unfold pmf_arlg_rule_delete_cntg, gpc_cntg_release.
  destruct (gpc_cntg_type cntg); simpl; [auto|].
  pose proof (foreach_release_quiet (map cntr_name (gprg_cntrs p)) p g Hq) as H1.
  pose proof (foreach_release_only_cntg (map cntr_name (gprg_cntrs p)) p g)
    as H2.
  destruct (gpc_cntr_foreach_release _ p g) as [p1 g1]. auto.
Qed.

(** X13.  Deleting the attribute rule of a published group that holds the
    attribute-rule flag: the four teardown notifications are queued and
    nothing else, the group is unpublished with the deferred mark and the
    deferrals flag set, the family, the flag and the attribute rule are
    cleared, and the Counter-Group is gone. *)
Lemma rl_del_attr_of_flagged_group (hw : pmf_hw) (gprs : gpc_rlset)
  (earg : pmf_group_ext) (rule : pmf_rule) (g : glob) :
  gpc_group_is_published (earg_gprg earg) = true ->
  flag_test (earg_flags earg) PMF_EARGF_RULE_ATTR = true ->
  earg_attr_rule earg = Some rule ->
  let r := pmf_arlg_rl_del hw gprs earg UINT32_MAX g in
  fst (fst r) = true
  /\ hw_queue (snd r) = hw_queue g ++ teardown_ntfys (earg_gprg earg)
  /\ deferrals (snd r) = true
  /\ gprg_published (earg_gprg (snd (fst r))) = false
  /\ gprg_deferred (earg_gprg (snd (fst r))) = true
  /\ gpc_group_has_family (earg_gprg (snd (fst r))) = false
  /\ flag_test (earg_flags (snd (fst r))) PMF_EARGF_RULE_ATTR = false
  /\ earg_attr_rule (snd (fst r)) = None
  /\ gprg_cntg (earg_gprg (snd (fst r))) = None.
Proof.
  intros Hpub Hflag Hattr. unfold pmf_arlg_rl_del.
  simpl (UINT32_MAX =? UINT32_MAX). cbv iota zeta. rewrite Hattr.
  unfold pmf_arlg_rl_attr_check. rewrite Hflag. simpl negb. cbv iota.
  destruct (unpublish_published_group earg g Hpub) as (Q & D & Df & Hq & _).
  destruct (unpublish_group_result earg g) as (P & F & Fl).
  destruct (unpublish_group earg g) as [e1 g1]. simpl in Q, D, Df, Hq, P, F, Fl.
  change (gpc_group_get_cntg (earg_gprg (earg_with_attr_rule None e1)))
    with (gprg_cntg (earg_gprg e1)).
  destruct (gprg_cntg (earg_gprg e1)) as [cntg|] eqn:Ec.
  - change (earg_gprg (earg_with_attr_rule None e1)) with (earg_gprg e1).
    destruct (delete_cntg_quiet (earg_gprg e1) cntg g1 Hq) as [Hg Hp].
    destruct (pmf_arlg_rule_delete_cntg (earg_gprg e1) cntg g1) as [p3 g3].
    simpl in Hg, Hp. subst g3.
    pose proof (f_equal gprg_published Hp) as E1.
    pose proof (f_equal gprg_deferred Hp) as E2.
    pose proof (f_equal gprg_family Hp) as E3.
    simpl in E1, E2, E3. unfold gpc_group_has_family in *. simpl.
    rewrite E1, E2, E3. repeat split; assumption.
  - simpl. repeat split; assumption.
Qed.

(* ------------------------------------------------------------------ *)
(** ** The counter list: lookup, names and invariants *)

Lemma substring_all (s : string) :
  forall n : nat, (String.length s <= n)%nat -> substring 0 n s = s.
Proof.
  induction s as [|c s IH]; intros n H.
  - destruct n; reflexivity.
  - destruct n as [|n]; simpl in *; [lia|].
    f_equal. apply IH. lia.
Qed.

Lemma substring_length_le (s : string) :
  forall n : nat, (String.length (substring 0 n s) <= n)%nat.
Proof.
  induction s as [|c s IH]; intros n.
  - destruct n; simpl; lia.
  - destruct n as [|n]; simpl; [lia|]. specialize (IH n). lia.
Qed.

Lemma snprintf_s_short (name : string) :
  (String.length name < 8)%nat -> snprintf_s CNTR_NAME_LEN name = name.
Proof.
  intros H. unfold snprintf_s, CNTR_NAME_LEN. simpl.
  apply substring_all. change (Pos.to_nat 7) with 7%nat. lia.
Qed.

Lemma snprintf_s_idem (s : string) :
  snprintf_s CNTR_NAME_LEN (snprintf_s CNTR_NAME_LEN s) = snprintf_s CNTR_NAME_LEN s.
Proof.
  unfold snprintf_s. apply substring_all. apply substring_length_le.
Qed.

Lemma find_cntr_in_none (l : list (addr * pmf_cntr)) (name : string) :
  find_cntr_in l name = None
  <-> ~ In name (map (fun ak => eark_name (snd ak)) l).
Proof.
  induction l as [|[b k] l IH]; simpl.
  - split; auto.
  - unfold streq. destruct (String.eqb_spec name (eark_name k)) as [E|E].
    + split; [discriminate|]. intros H. exfalso. apply H. left. now symmetry.
    + rewrite IH. split.
      * intros H [H1|H1]; [now apply E|now apply H].
      * intros H H1. apply H. now right.
Qed.

Lemma find_cntr_in_deref (l : list (addr * pmf_cntr)) (name : string) (a : addr) :
  NoDup (map fst l) -> find_cntr_in l name = Some a ->
  exists k, cntr_deref l a = Some k /\ eark_name k = name.
Proof.
  induction l as [|[b k] l IH]; simpl; intros Hn H; [discriminate|].
  inversion Hn as [|? ? Hb Hn']; subst.
  unfold streq in H. destruct (String.eqb_spec name (eark_name k)) as [E|E].
  - injection H as <-. rewrite Nat.eqb_refl. eauto.
  - destruct (Nat.eqb_spec a b) as [->|Hab].
    + exfalso. apply Hb. eapply find_cntr_in_fst; eauto.
    + now apply IH.
Qed.

Lemma cntr_deref_store_ne (l : list (addr * pmf_cntr)) (a b : addr) (v : pmf_cntr) :
  a <> b -> cntr_deref (cntr_store l a v) b = cntr_deref l b.
Proof.
  intros Hab. induction l as [|[c k] l IH]; simpl; [reflexivity|].
  destruct (Nat.eqb_spec a c) as [->|Hac]; simpl.
  - destruct (Nat.eqb_spec b c); [congruence|reflexivity].
  - now rewrite IH.
Qed.

Lemma cntr_store_names (l : list (addr * pmf_cntr)) (a : addr) (k v : pmf_cntr) :
  cntr_deref l a = Some k -> eark_name v = eark_name k ->
  map (fun ak => eark_name (snd ak)) (cntr_store l a v)
  = map (fun ak => eark_name (snd ak)) l.
Proof.
  induction l as [|[c k'] l IH]; simpl; intros H E; [reflexivity|].
  destruct (Nat.eqb_spec a c) as [->|Hac]; simpl.
  - injection H as ->. now rewrite E.
  - f_equal. now apply IH.
Qed.

Lemma cntr_store_forall (P : addr * pmf_cntr -> Prop) (l : list (addr * pmf_cntr))
  (a : addr) (v : pmf_cntr) :
  (forall b k, P (b, k) -> P (b, v)) -> Forall P l -> Forall P (cntr_store l a v).
Proof.
  intros Hp. induction l as [|[c k] l IH]; simpl; intros H; [constructor|].
  inversion H; subst. destruct (Nat.eqb a c); constructor; eauto.
Qed.

Lemma calloc_some (g g1 : glob) (a : addr) :
  calloc g = (Some a, g1) ->
  a = heap_next g /\ heap_next g1 = S (heap_next g)
  /\ hw_queue g1 = hw_queue g /\ deferrals g1 = deferrals g
  /\ commit_pending g1 = commit_pending g /\ hw_flushed g1 = hw_flushed g.
Proof.
  unfold calloc. destruct (allocs g) as [|[|] rest]; intros H;
    inversion H; subst; simpl; auto 10.
Qed.

Lemma calloc_none (g g1 : glob) :
  calloc g = (None, g1) ->
  heap_next g1 = heap_next g
  /\ hw_queue g1 = hw_queue g /\ deferrals g1 = deferrals g
  /\ commit_pending g1 = commit_pending g /\ hw_flushed g1 = hw_flushed g.
Proof.
  unfold calloc. destruct (allocs g) as [|[|] rest]; intros H;
    inversion H; subst; simpl; auto 10.
Qed.

(** X1.  [pmf_arlg_get_or_alloc_cntr] on a well-formed counter list and a
    name shorter than the name buffer: when it returns a counter, that
    counter is the one found under the name afterwards and its number of
    users has gone up by one, from 0 for a new counter, modulo 2^16, and
    the counters of every other name are found as before with the same
    number of users; when it returns [NULL] no counter had the name and
    the list is as it was. *)
Theorem get_or_alloc_cntr_retains (earg : pmf_group_ext) (name : string)
  (g : glob) :
  (String.length name < 8)%nat ->
  cntrs_wf earg g ->
  let r := pmf_arlg_get_or_alloc_cntr earg name g in
  match fst (fst r) with
  | Some a =>
      pmf_arlg_find_cntr (snd (fst r)) name = Some a
      /\ cntr_refs (snd (fst r)) name = u16 (cntr_refs earg name + 1)
      /\ (forall other, other <> name ->
            pmf_arlg_find_cntr (snd (fst r)) other = pmf_arlg_find_cntr earg other
            /\ cntr_refs (snd (fst r)) other = cntr_refs earg other)
  | None =>
      snd (fst r) = earg /\ pmf_arlg_find_cntr earg name = None
  end.
Proof.
  intros Hlen (Hnd & Hnames & Hlt) r. subst r.
  unfold pmf_arlg_get_or_alloc_cntr.
  destruct (pmf_arlg_find_cntr earg name) as [a|] eqn:Hf.
  - (* the counter exists *)
    simpl. unfold pmf_arlg_find_cntr in Hf.
    destruct (find_cntr_in_deref _ _ _ Hnd Hf) as (k & Hk & Hkn).
    unfold eark_update. rewrite Hk.
    assert (Hname : eark_name (pmf_arlg_cntr_refcount_inc k) = eark_name k)
      by reflexivity.
    split; [|split].
    + unfold pmf_arlg_find_cntr. simpl.
      rewrite (find_cntr_store _ _ _ _ _ Hk Hname). exact Hf.
    + unfold cntr_refs, pmf_arlg_find_cntr. simpl.
      rewrite (find_cntr_store _ _ _ _ _ Hk Hname), Hf.
      rewrite (cntr_deref_store _ _ _ _ Hk), Hk. reflexivity.
    + intros other Ho.
      assert (Hfo : find_cntr_in (cntr_store (earg_cntrs earg) a
                                    (pmf_arlg_cntr_refcount_inc k)) other
                    = find_cntr_in (earg_cntrs earg) other)
        by (apply (find_cntr_store _ _ _ _ _ Hk Hname)).
      split; [exact Hfo|].
      unfold cntr_refs, pmf_arlg_find_cntr. simpl. rewrite Hfo.
      destruct (find_cntr_in (earg_cntrs earg) other) as [b|] eqn:Hb;
        [|reflexivity].
      destruct (find_cntr_in_deref _ _ _ Hnd Hb) as (k' & Hk' & Hkn').
      assert (a <> b) by (intros ->; congruence).
      now rewrite cntr_deref_store_ne.
  - (* a new counter *)
    unfold pmf_arlg_alloc_cntr.
    destruct (calloc g) as [[a|] g1] eqn:Hc; simpl.
    + destruct (calloc_some _ _ _ Hc) as (-> & _).
      unfold eark_update. simpl. rewrite Nat.eqb_refl. simpl.
      rewrite (snprintf_s_short _ Hlen).
      split; [|split].
      * unfold pmf_arlg_find_cntr. simpl. unfold streq.
        now rewrite String.eqb_refl.
      * unfold cntr_refs, pmf_arlg_find_cntr. simpl. unfold streq.
        rewrite String.eqb_refl. simpl. rewrite Nat.eqb_refl. simpl.
        unfold pmf_arlg_find_cntr in Hf. rewrite Hf. reflexivity.
      * intros other Ho.
        assert (Hfo : String.eqb other name = false)
          by (now apply String.eqb_neq).
        unfold cntr_refs, pmf_arlg_find_cntr. simpl. unfold streq.
        rewrite Hfo. split; [reflexivity|].
        destruct (find_cntr_in (earg_cntrs earg) other) as [b|] eqn:Hb;
          [|reflexivity].
        apply find_cntr_in_fst in Hb.
        apply in_map_iff in Hb. destruct Hb as ([b' k'] & Hb1 & Hb2).
        simpl in Hb1; subst b'.
        rewrite Forall_forall in Hlt. specialize (Hlt _ Hb2). simpl in Hlt.
        destruct (Nat.eqb_spec b (heap_next g)); [lia|reflexivity].
    + split; reflexivity.
Qed.

Lemma N_to_uint_nonnil (n : N) : N.to_uint n <> Decimal.Nil.
Proof.
  destruct n as [|p]; simpl; [discriminate|].
  apply DecimalPos.Unsigned.to_uint_nonnil.
Qed.

Lemma snprintf_u_inj (i j : Z) :
  0 <= i -> 0 <= j -> (uint_width i < 8)%nat -> (uint_width j < 8)%nat ->
  snprintf_u CNTR_NAME_LEN i = snprintf_u CNTR_NAME_LEN j -> i = j.
Proof.
  unfold snprintf_u, uint_width. intros Hi Hj Wi Wj H.
  rewrite !snprintf_s_short in H by assumption.
  assert (E : Some (N.to_uint (Z.to_N i)) = Some (N.to_uint (Z.to_N j))).
  { rewrite <- (NilZero.usu _ (N_to_uint_nonnil (Z.to_N i))).
    rewrite <- (NilZero.usu _ (N_to_uint_nonnil (Z.to_N j))).
    now rewrite H. }
  injection E as E. apply DecimalN.Unsigned.to_uint_inj in E.
  apply (f_equal Z.of_N) in E. rewrite !Z2N.id in E by assumption. exact E.
Qed.

Lemma snprintf_u_idem (i : Z) :
  snprintf_s CNTR_NAME_LEN (snprintf_u CNTR_NAME_LEN i) = snprintf_u CNTR_NAME_LEN i.
Proof. unfold snprintf_u. apply snprintf_s_idem. Qed.

Lemma alloc_numbered_some (earg earg1 : pmf_group_ext) (i : Z) (g g1 : glob)
  (a : addr) :
  pmf_arlg_alloc_numbered_cntr earg i g = (Some a, earg1, g1) ->
  pmf_arlg_find_cntr earg (snprintf_u CNTR_NAME_LEN i) = None
  /\ calloc g = (Some a, g1)
  /\ earg1 = earg_with_cntrs
               ((a, mk_pmf_cntr (snprintf_u CNTR_NAME_LEN i) 0 0 1)
                  :: earg_cntrs earg) earg.
Proof.
  unfold pmf_arlg_alloc_numbered_cntr, pmf_arlg_alloc_cntr.
  destruct (pmf_arlg_find_cntr earg (snprintf_u CNTR_NAME_LEN i)); [discriminate|].
  destruct (calloc g) as [[b|] g'] eqn:Hc; [|discriminate].
  unfold eark_update. simpl. rewrite Nat.eqb_refl. simpl.
  rewrite snprintf_u_idem.
  intros H. injection H as <- <- <-. auto.
Qed.

(** X2.  After [pmf_arlg_alloc_numbered_cntr] has made the counter of the
    rule index [i], the counter has one user, and a further call for any
    index that prints the same name in the name buffer, the index [i]
    itself included, returns [NULL] and changes nothing; two different
    indices that print in fewer than eight characters never share a
    name. *)
Theorem numbered_cntr_names_collide (earg earg1 : pmf_group_ext) (i : Z)
  (g g1 : glob) (a : addr) :
  pmf_arlg_alloc_numbered_cntr earg i g = (Some a, earg1, g1) ->
  cntr_refs earg1 (snprintf_u CNTR_NAME_LEN i) = 1
  /\ (forall (j : Z) (g2 : glob),
        snprintf_u CNTR_NAME_LEN j = snprintf_u CNTR_NAME_LEN i ->
        pmf_arlg_alloc_numbered_cntr earg1 j g2 = (None, earg1, g2))
  /\ (forall j : Z,
        0 <= i -> 0 <= j -> (uint_width i < 8)%nat -> (uint_width j < 8)%nat ->
        j <> i ->
        snprintf_u CNTR_NAME_LEN j <> snprintf_u CNTR_NAME_LEN i).
Proof.
  intros H. destruct (alloc_numbered_some _ _ _ _ _ _ H) as (Hf & Hc & ->).
  assert (Hfind : pmf_arlg_find_cntr
                    (earg_with_cntrs
                       ((a, mk_pmf_cntr (snprintf_u CNTR_NAME_LEN i) 0 0 1)
                          :: earg_cntrs earg) earg)
                    (snprintf_u CNTR_NAME_LEN i) = Some a).
  { unfold pmf_arlg_find_cntr. simpl. unfold streq.
    now rewrite String.eqb_refl. }
  split; [|split].
  - unfold cntr_refs. rewrite Hfind. simpl. now rewrite Nat.eqb_refl.
  - intros j g2 E. unfold pmf_arlg_alloc_numbered_cntr. rewrite E.
    now rewrite Hfind.
  - intros j Hi Hj Wi Wj Hne E. apply Hne.
    now apply snprintf_u_inj.
Qed.

Lemma tailq_remove_in (l : list (addr * pmf_cntr)) (a : addr) (x : addr * pmf_cntr) :
  In x (tailq_remove l a) -> In x l.
Proof.
  induction l as [|[b k] l IH]; simpl; [auto|].
  destruct (Nat.eqb a b); simpl; intuition.
Qed.

Lemma tailq_remove_nodup {B : Type} (f : addr * pmf_cntr -> B)
  (l : list (addr * pmf_cntr)) (a : addr) :
  NoDup (map f l) -> NoDup (map f (tailq_remove l a)).
Proof.
  induction l as [|[b k] l IH]; simpl; intros H; [constructor|].
  inversion H as [|? ? Hn Hd]; subst.
  destruct (Nat.eqb a b); simpl; [exact Hd|].
  constructor; [|now apply IH].
  intros Hin. apply Hn. apply in_map_iff in Hin.
  destruct Hin as (x & Hx & Hin). apply in_map_iff. exists x.
  split; [exact Hx|]. eapply tailq_remove_in; eauto.
Qed.

Lemma tailq_remove_forall (P : addr * pmf_cntr -> Prop)
  (l : list (addr * pmf_cntr)) (a : addr) :
  Forall P l -> Forall P (tailq_remove l a).
Proof.
  rewrite !Forall_forall. intros H x Hx. apply H.
  eapply tailq_remove_in; eauto.
Qed.

Lemma cntrs_wf_update (earg : pmf_group_ext) (a : addr)
  (f : pmf_cntr -> pmf_cntr) (g : glob) :
  (forall k, eark_name (f k) = eark_name k) ->
  cntrs_wf earg g -> cntrs_wf (eark_update earg a f) g.
Proof.
  intros Hf (H1 & H2 & H3). unfold eark_update.
  destruct (cntr_deref (earg_cntrs earg) a) as [k|] eqn:Hk;
    [|now repeat split].
  unfold cntrs_wf. simpl. rewrite cntr_store_fst.
  rewrite (cntr_store_names _ _ _ _ Hk (Hf k)).
  split; [exact H1|split; [exact H2|]].
  apply cntr_store_forall; auto.
Qed.

Lemma cntrs_wf_frame (e e' : pmf_group_ext) (g g' : glob) :
  earg_cntrs e' = earg_cntrs e -> (heap_next g <= heap_next g')%nat ->
  cntrs_wf e g -> cntrs_wf e' g'.
Proof.
  intros Hc Hh (H1 & H2 & H3). unfold cntrs_wf. rewrite Hc.
  split; [exact H1|split; [exact H2|]].
  eapply Forall_impl; [|exact H3]. simpl. intros; lia.
Qed.

Lemma cntrs_wf_alloc (earg e1 : pmf_group_ext) (name : string) (g g1 : glob)
  (r : option addr) :
  pmf_arlg_find_cntr earg (snprintf_s CNTR_NAME_LEN name) = None ->
  pmf_arlg_alloc_cntr earg name g = (r, e1, g1) ->
  cntrs_wf earg g -> cntrs_wf e1 g1.
Proof.
  unfold pmf_arlg_alloc_cntr. intros Hf H Hw.
  destruct (calloc g) as [[a|] g'] eqn:Hc; injection H as <- <- <-.
  - destruct (calloc_some _ _ _ Hc) as (-> & Hn & _).
    destruct Hw as (H1 & H2 & H3). unfold cntrs_wf. simpl.
    split; [|split].
    + constructor; [|exact H1]. intros Hin. apply in_map_iff in Hin.
      destruct Hin as (x & Hx & Hin). rewrite Forall_forall in H3.
      specialize (H3 _ Hin). simpl in H3, Hx. unfold addr in *. lia.
    + constructor; [|exact H2]. now apply find_cntr_in_none.
    + constructor; [simpl; lia|].
      eapply Forall_impl; [|exact H3]. simpl. intros; lia.
  - destruct (calloc_none _ _ Hc) as (Hn & _).
    eapply cntrs_wf_frame; [reflexivity| |exact Hw]. lia.
Qed.

Lemma cntrs_wf_get_or_alloc (earg : pmf_group_ext) (name : string) (g : glob) :
  snprintf_s CNTR_NAME_LEN name = name ->
  cntrs_wf earg g ->
  cntrs_wf (snd (fst (pmf_arlg_get_or_alloc_cntr earg name g)))
    (snd (pmf_arlg_get_or_alloc_cntr earg name g)).
Proof.
  intros Hn Hw. unfold pmf_arlg_get_or_alloc_cntr.
  destruct (pmf_arlg_find_cntr earg name) as [a|] eqn:Hf; simpl.
  - now apply cntrs_wf_update.
  - destruct (pmf_arlg_alloc_cntr earg name g) as [[r e1] g1] eqn:Ha.
    assert (cntrs_wf e1 g1)
      by (eapply cntrs_wf_alloc; [|exact Ha|exact Hw]; now rewrite Hn).
    destruct r; simpl; [now apply cntrs_wf_update|assumption].
Qed.

Lemma cntrs_wf_get_or_alloc_named (earg : pmf_group_ext) (name : string)
  (g : glob) :
  snprintf_s CNTR_NAME_LEN name = name ->
  cntrs_wf earg g ->
  cntrs_wf (snd (fst (pmf_arlg_get_or_alloc_named_cntr earg name g)))
    (snd (pmf_arlg_get_or_alloc_named_cntr earg name g)).
Proof.
  intros Hn Hw. unfold pmf_arlg_get_or_alloc_named_cntr.
  pose proof (cntrs_wf_get_or_alloc earg name g Hn Hw) as H.
  destruct (pmf_arlg_get_or_alloc_cntr earg name g) as [[[a|] e1] g1];
    simpl in *; [|exact H].
  apply cntrs_wf_update; [|exact H].
  intros k. now destruct (negb _).
Qed.

Lemma cntrs_wf_alloc_numbered (earg : pmf_group_ext) (i : Z) (g : glob) :
  cntrs_wf earg g ->
  cntrs_wf (snd (fst (pmf_arlg_alloc_numbered_cntr earg i g)))
    (snd (pmf_arlg_alloc_numbered_cntr earg i g)).
Proof.
  intros Hw. unfold pmf_arlg_alloc_numbered_cntr.
  destruct (pmf_arlg_find_cntr earg (snprintf_u CNTR_NAME_LEN i)) eqn:Hf;
    simpl; [exact Hw|].
  destruct (pmf_arlg_alloc_cntr earg (snprintf_u CNTR_NAME_LEN i) g)
    as [[r e1] g1] eqn:Ha.
  assert (cntrs_wf e1 g1)
    by (eapply cntrs_wf_alloc; [|exact Ha|exact Hw];
        now rewrite snprintf_u_idem).
  destruct r; simpl; [now apply cntrs_wf_update|assumption].
Qed.

Section CounterList.

Variable ras : pmf_ras.
Variable hw : pmf_hw.

Lemma cntrs_wf_add_publish (earg : pmf_group_ext) (a : addr) (g : glob) :
  cntrs_wf earg g ->
  cntrs_wf (fst (cntr_add_publish hw earg a g)) (snd (cntr_add_publish hw earg a g)).
Proof.
  intros Hw. unfold cntr_add_publish.
  set (e1 := eark_update earg a _).
  assert (H1 : cntrs_wf e1 g).
  { apply cntrs_wf_update; [|exact Hw]. intros k. now destruct (negb _). }
  destruct (cntr_deref (earg_cntrs e1) a) as [k|]; simpl; [|exact H1].
  destruct (negb _); simpl; [|exact H1].
  destruct (pmf_hw_counter_create hw a); simpl.
  - apply cntrs_wf_update; [reflexivity|].
    eapply cntrs_wf_frame; [reflexivity| |exact H1]. simpl. lia.
  - eapply cntrs_wf_frame; [reflexivity| |exact H1]. simpl. lia.
Qed.

(** X3.  [pmf_arlg_hw_ntfy_cntr_add] and [pmf_arlg_hw_ntfy_cntr_del] keep
    the counter list well formed: no two counters share an address or a
    name. *)
Theorem cntr_list_stays_well_formed (earg : pmf_group_ext) (gprl : Z)
  (g : glob) :
  cntrs_wf earg g ->
  cntrs_wf (fst (pmf_arlg_hw_ntfy_cntr_add ras hw earg gprl g))
    (snd (pmf_arlg_hw_ntfy_cntr_add ras hw earg gprl g))
  /\ cntrs_wf (fst (pmf_arlg_hw_ntfy_cntr_del earg gprl g))
       (snd (pmf_arlg_hw_ntfy_cntr_del earg gprl g)).
Proof.
  intros Hw. split.
  - unfold pmf_arlg_hw_ntfy_cntr_add.
    destruct (negb (gpc_group_is_published (earg_gprg earg))); [exact Hw|].
    destruct (gpc_rule_get_rule (earg_gprg earg) gprl) as [rule|]; [|exact Hw].
    destruct (negb (flag_test (pp_summary rule) (PMF_RAS_COUNT_REF ras)));
      [exact Hw|].
    destruct (pmf_arlg_cntr_type_numbered ras earg).
    + pose proof (cntrs_wf_alloc_numbered earg gprl g Hw) as H.
      destruct (pmf_arlg_alloc_numbered_cntr earg gprl g) as [[[a|] e1] g1];
        simpl in H; [|exact H].
      apply cntrs_wf_add_publish.
      eapply cntrs_wf_frame; [reflexivity| |exact H]. lia.
    + destruct (pmf_arlg_cntr_type_named ras earg); [|exact Hw].
      assert (H1 : cntrs_wf
                     (snd (fst (if pmf_arlg_cntr_type_named_accept ras earg
                                   && flag_test (pp_summary rule) (PMF_RAS_PASS ras)
                                then pmf_arlg_get_or_alloc_action_cntr_accept earg g
                                else (None, earg, g))))
                     (snd (if pmf_arlg_cntr_type_named_accept ras earg
                              && flag_test (pp_summary rule) (PMF_RAS_PASS ras)
                           then pmf_arlg_get_or_alloc_action_cntr_accept earg g
                           else (None, earg, g)))).
      { destruct (_ && _); simpl; [|exact Hw].
        now apply cntrs_wf_get_or_alloc_named. }
      destruct (if pmf_arlg_cntr_type_named_accept ras earg
                   && flag_test (pp_summary rule) (PMF_RAS_PASS ras)
                then pmf_arlg_get_or_alloc_action_cntr_accept earg g
                else (None, earg, g)) as [[eark1 earg1] g1].
      simpl in H1.
      assert (H2 : cntrs_wf
                     (snd (fst (if pmf_arlg_cntr_type_named_drop ras earg
                                   && flag_test (pp_summary rule) (PMF_RAS_DROP ras)
                                then pmf_arlg_get_or_alloc_action_cntr_drop earg1 g1
                                else (eark1, earg1, g1))))
                     (snd (if pmf_arlg_cntr_type_named_drop ras earg
                              && flag_test (pp_summary rule) (PMF_RAS_DROP ras)
                           then pmf_arlg_get_or_alloc_action_cntr_drop earg1 g1
                           else (eark1, earg1, g1)))).
      { destruct (_ && _); simpl; [|exact H1].
        now apply cntrs_wf_get_or_alloc_named. }
      destruct (if pmf_arlg_cntr_type_named_drop ras earg
                   && flag_test (pp_summary rule) (PMF_RAS_DROP ras)
                then pmf_arlg_get_or_alloc_action_cntr_drop earg1 g1
                else (eark1, earg1, g1)) as [[[a|] earg2] g2];
        simpl in H2; [|exact H2].
      apply cntrs_wf_add_publish.
      eapply cntrs_wf_frame; [reflexivity| |exact H2]. lia.
  - unfold pmf_arlg_hw_ntfy_cntr_del.
    destruct (negb (gpc_group_is_published (earg_gprg earg))); [exact Hw|].
    destruct (gpc_rule_get_owner (earg_gprg earg) gprl) as [a|]; [|exact Hw].
    assert (H1 : cntrs_wf (earg_hack_owner earg gprl None) g)
      by (eapply cntrs_wf_frame; [reflexivity| |exact Hw]; lia).
    destruct (cntr_deref (earg_cntrs (earg_hack_owner earg gprl None)) a)
      as [k|] eqn:Hk; [|exact H1].
    simpl in Hk.
    destruct (pmf_arlg_cntr_refcount_dec k) as [still k'] eqn:Hd.
    assert (Hk' : eark_name k' = eark_name k).
    { unfold pmf_arlg_cntr_refcount_dec in Hd. injection Hd as _ <-.
      reflexivity. }
    assert (H2 : cntrs_wf
                   (earg_with_cntrs
                      (cntr_store (earg_cntrs (earg_hack_owner earg gprl None))
                         a k')
                      (earg_hack_owner earg gprl None)) g).
    { destruct H1 as (A & B & C). unfold cntrs_wf. simpl.
      rewrite cntr_store_fst.
      rewrite (cntr_store_names _ _ _ _ Hk Hk').
      split; [exact A|split; [exact B|]].
      apply cntr_store_forall; auto. }
    destruct still; [exact H2|].
    destruct H2 as (A & B & C). unfold cntrs_wf, pmf_arlg_free_cntr.
    match goal with |- context [if ?c then _ else _] => destruct c end;
      simpl; (split; [now apply tailq_remove_nodup|
              split; [now apply tailq_remove_nodup|
                      now apply tailq_remove_forall]]).
Qed.

End CounterList.

Lemma flag_test_pow2 (f i : Z) :
  0 <= i -> flag_test f (2 ^ i) = Z.testbit f i.
Proof.
  intros Hi. unfold flag_test.
  destruct (Z.testbit f i) eqn:E.
  - apply negb_true_iff, Z.eqb_neq. intros H.
    assert (Z.testbit (Z.land f (2 ^ i)) i = true).
    { rewrite Z.land_spec, E, Z.pow2_bits_true by assumption. reflexivity. }
    rewrite H, Z.bits_0 in H0. discriminate.
  - apply negb_false_iff, Z.eqb_eq. apply Z.bits_inj'. intros n Hn.
    rewrite Z.land_spec, Z.bits_0, Z.pow2_bits_eqb by assumption.
    destruct (Z.eqb_spec i n) as [->|]; [now rewrite E|apply andb_false_r].
Qed.

Lemma eark_flags_ok_bits (k : pmf_cntr) :
  eark_flags_ok k
  <-> Z.testbit (eark_flags k) 3 = false
      /\ (Z.testbit (eark_flags k) 0 = true -> Z.testbit (eark_flags k) 2 = true)
      /\ (Z.testbit (eark_flags k) 1 = true -> Z.testbit (eark_flags k) 0 = true).
Proof.
  unfold eark_flags_ok, gpc_cntr_old_byt_enabled, gpc_cntr_old_pkt_enabled.
  change PMF_EARKF_CNT_BYTE with (2 ^ 3).
  change PMF_EARKF_CNT_PACKET with (2 ^ 2).
  change PMF_EARKF_LL_CREATED with (2 ^ 1).
  change PMF_EARKF_PUBLISHED with (2 ^ 0).
  rewrite !flag_test_pow2 by lia. reflexivity.
Qed.

Lemma testbit_flag_set (f m i : Z) :
  Z.testbit (flag_set f m) i = Z.testbit f i || Z.testbit m i.
Proof. unfold flag_set. apply Z.lor_spec. Qed.

Lemma cntr_deref_update (earg : pmf_group_ext) (a : addr)
  (f : pmf_cntr -> pmf_cntr) :
  cntr_deref (earg_cntrs (eark_update earg a f)) a
  = option_map f (cntr_deref (earg_cntrs earg) a).
Proof.
  unfold eark_update.
  destruct (cntr_deref (earg_cntrs earg) a) as [k|] eqn:Hk; simpl.
  - now rewrite (cntr_deref_store _ _ _ _ Hk).
  - now rewrite Hk.
Qed.

Lemma cntrs_forall_update (P : pmf_cntr -> Prop) (earg : pmf_group_ext)
  (a : addr) (f : pmf_cntr -> pmf_cntr) :
  (forall k, cntr_deref (earg_cntrs earg) a = Some k -> P k -> P (f k)) ->
  Forall (fun ak => P (snd ak)) (earg_cntrs earg) ->
  Forall (fun ak => P (snd ak)) (earg_cntrs (eark_update earg a f)).
Proof.
  intros Hf H. unfold eark_update.
  destruct (cntr_deref (earg_cntrs earg) a) as [k|] eqn:Hk; [|exact H].
  simpl. assert (Pk : P k).
  { clear Hf. revert Hk. induction H as [|[b k'] l Hb Hl IH]; simpl;
      [discriminate|].
    destruct (Nat.eqb a b); [now intros [= <-]|exact IH]. }
  apply cntr_store_forall; [|exact H]. simpl. intros b k0 _. now apply Hf.
Qed.

Lemma cntr_deref_forall (P : pmf_cntr -> Prop) (l : list (addr * pmf_cntr))
  (a : addr) (k : pmf_cntr) :
  Forall (fun ak => P (snd ak)) l -> cntr_deref l a = Some k -> P k.
Proof.
  induction 1 as [|[b k'] l Hb Hl IH]; simpl; [discriminate|].
  destruct (Nat.eqb a b); [now intros [= <-]|exact IH].
Qed.

Lemma flags_ok_named (k : pmf_cntr) :
  eark_flags_ok k ->
  eark_flags_ok
    (if negb (flag_test (eark_flags k) PMF_EARKF_PUBLISHED)
     then eark_with_flags (flag_set (eark_flags k) PMF_EARKF_TYPE_NAMED) k
     else k).
Proof.
  intros H. destruct (negb _); [|exact H].
  apply eark_flags_ok_bits in H. apply eark_flags_ok_bits.
  unfold eark_with_flags. cbn [eark_flags]. rewrite !testbit_flag_set.
  change (Z.testbit PMF_EARKF_TYPE_NAMED 3) with false.
  change (Z.testbit PMF_EARKF_TYPE_NAMED 2) with false.
  change (Z.testbit PMF_EARKF_TYPE_NAMED 1) with false.
  change (Z.testbit PMF_EARKF_TYPE_NAMED 0) with false.
  rewrite !orb_false_r. exact H.
Qed.

Lemma flags_ok_publish (k : pmf_cntr) :
  eark_flags_ok k ->
  let k' :=
    if negb (flag_test (eark_flags k) PMF_EARKF_PUBLISHED)
    then eark_with_flags
           (flag_set (flag_set (eark_flags k) PMF_EARKF_CNT_PACKET)
              PMF_EARKF_PUBLISHED)
           (eark_with_objid 0 k)
    else k in
  eark_flags_ok k' /\ flag_test (eark_flags k') PMF_EARKF_PUBLISHED = true.
Proof.
  intros H. simpl.
  destruct (flag_test (eark_flags k) PMF_EARKF_PUBLISHED) eqn:E; simpl.
  - auto.
  - change PMF_EARKF_PUBLISHED with (2 ^ 0) in *.
    rewrite flag_test_pow2 in * by lia.
    apply eark_flags_ok_bits in H. rewrite eark_flags_ok_bits.
    unfold eark_with_flags, eark_with_objid. cbn [eark_flags].
    rewrite !testbit_flag_set.
    change (Z.testbit PMF_EARKF_CNT_PACKET 3) with false.
    change (Z.testbit PMF_EARKF_CNT_PACKET 2) with true.
    change (Z.testbit PMF_EARKF_CNT_PACKET 1) with false.
    change (Z.testbit PMF_EARKF_CNT_PACKET 0) with false.
    change (Z.testbit (2 ^ 0) 3) with false.
    change (Z.testbit (2 ^ 0) 2) with false.
    change (Z.testbit (2 ^ 0) 1) with false.
    change (Z.testbit (2 ^ 0) 0) with true.
    rewrite !orb_false_r, !orb_true_r.
    destruct H as (H3 & _ & H1).
    repeat split; auto.
Qed.

Lemma flags_ok_ll_created (k : pmf_cntr) :
  eark_flags_ok k -> flag_test (eark_flags k) PMF_EARKF_PUBLISHED = true ->
  eark_flags_ok (eark_with_flags (flag_set (eark_flags k) PMF_EARKF_LL_CREATED) k).
Proof.
  intros H E. change PMF_EARKF_PUBLISHED with (2 ^ 0) in E.
  rewrite flag_test_pow2 in E by lia.
  apply eark_flags_ok_bits in H. apply eark_flags_ok_bits.
  unfold eark_with_flags. cbn [eark_flags]. rewrite !testbit_flag_set.
  change (Z.testbit PMF_EARKF_LL_CREATED 3) with false.
  change (Z.testbit PMF_EARKF_LL_CREATED 2) with false.
  change (Z.testbit PMF_EARKF_LL_CREATED 1) with true.
  change (Z.testbit PMF_EARKF_LL_CREATED 0) with false.
  rewrite !orb_false_r, !orb_true_r.
  destruct H as (H3 & H0 & H1). repeat split; auto.
Qed.

Lemma flags_ok_alloc (earg e1 : pmf_group_ext) (name : string) (g g1 : glob)
  (r : option addr) :
  pmf_arlg_alloc_cntr earg name g = (r, e1, g1) ->
  cntrs_flags_ok earg -> cntrs_flags_ok e1.
Proof.
  unfold pmf_arlg_alloc_cntr. intros H Hw.
  destruct (calloc g) as [[a|] g']; injection H as <- <- <-; [|exact Hw].
  constructor; [|exact Hw]. apply eark_flags_ok_bits. simpl.
  repeat split; discriminate.
Qed.

Lemma flags_ok_get_or_alloc (earg : pmf_group_ext) (name : string) (g : glob) :
  cntrs_flags_ok earg ->
  cntrs_flags_ok (snd (fst (pmf_arlg_get_or_alloc_cntr earg name g))).
Proof.
  intros Hw. unfold pmf_arlg_get_or_alloc_cntr.
  destruct (pmf_arlg_find_cntr earg name) as [a|]; simpl.
  - apply cntrs_forall_update; [|exact Hw]. intros k _ Hk. exact Hk.
  - destruct (pmf_arlg_alloc_cntr earg name g) as [[r e1] g1] eqn:Ha.
    pose proof (flags_ok_alloc _ _ _ _ _ _ Ha Hw) as H1.
    destruct r; simpl; [|exact H1].
    apply cntrs_forall_update; [|exact H1]. intros k _ Hk. exact Hk.
Qed.

Lemma flags_ok_get_or_alloc_named (earg : pmf_group_ext) (name : string)
  (g : glob) :
  cntrs_flags_ok earg ->
  cntrs_flags_ok (snd (fst (pmf_arlg_get_or_alloc_named_cntr earg name g))).
Proof.
  intros Hw. unfold pmf_arlg_get_or_alloc_named_cntr.
  pose proof (flags_ok_get_or_alloc earg name g Hw) as H.
  destruct (pmf_arlg_get_or_alloc_cntr earg name g) as [[[a|] e1] g1];
    simpl in *; [|exact H].
  apply cntrs_forall_update; [|exact H]. intros k _. apply flags_ok_named.
Qed.

Lemma flags_ok_alloc_numbered (earg : pmf_group_ext) (i : Z) (g : glob) :
  cntrs_flags_ok earg ->
  cntrs_flags_ok (snd (fst (pmf_arlg_alloc_numbered_cntr earg i g))).
Proof.
  intros Hw. unfold pmf_arlg_alloc_numbered_cntr.
  destruct (pmf_arlg_find_cntr earg (snprintf_u CNTR_NAME_LEN i));
    simpl; [exact Hw|].
  destruct (pmf_arlg_alloc_cntr earg (snprintf_u CNTR_NAME_LEN i) g)
    as [[r e1] g1] eqn:Ha.
  pose proof (flags_ok_alloc _ _ _ _ _ _ Ha Hw) as H1.
  destruct r; simpl; [|exact H1].
  apply cntrs_forall_update; [|exact H1]. intros k _ Hk. exact Hk.
Qed.

Section CounterFlags.

Variable ras : pmf_ras.
Variable hw : pmf_hw.

Lemma flags_ok_add_publish (earg : pmf_group_ext) (a : addr) (g : glob) :
  cntrs_flags_ok earg ->
  cntrs_flags_ok (fst (cntr_add_publish hw earg a g)).
Proof.
  intros Hw. unfold cntr_add_publish.
  match goal with |- context [eark_update earg a ?f] => set (f1 := f) end.
  assert (H1 : cntrs_flags_ok (eark_update earg a f1)).
  { apply cntrs_forall_update; [|exact Hw]. intros k _ Hk.
    apply (flags_ok_publish k Hk). }
  rewrite cntr_deref_update.
  destruct (cntr_deref (earg_cntrs earg) a) as [k0|] eqn:Hk0; simpl;
    [|exact H1].
  pose proof (cntr_deref_forall _ _ _ _ Hw Hk0) as Hok0.
  destruct (flags_ok_publish k0 Hok0) as (Hok & Hpub). fold (f1 k0) in Hok, Hpub.
  destruct (negb (flag_test (eark_flags (f1 k0)) PMF_EARKF_LL_CREATED));
    simpl; [|exact H1].
  destruct (pmf_hw_counter_create hw a); simpl; [|exact H1].
  apply cntrs_forall_update; [|exact H1].
  intros k Hk _. rewrite cntr_deref_update, Hk0 in Hk. injection Hk as <-.
  now apply flags_ok_ll_created.
Qed.

(** X4.  [pmf_arlg_hw_ntfy_cntr_add] and [pmf_arlg_hw_ntfy_cntr_del] keep
    the flags of the counters consistent: no counter counts bytes, a
    published counter counts packets and only a published counter is
    created at the low level; so [pmf_arlg_show_cntr] prints every
    published counter with "cnt-pkts" true and "cnt-bytes" false. *)
Theorem cntr_flags_stay_consistent (earg : pmf_group_ext) (gprl : Z) (g : glob) :
  cntrs_flags_ok earg ->
  cntrs_flags_ok (fst (pmf_arlg_hw_ntfy_cntr_add ras hw earg gprl g))
  /\ cntrs_flags_ok (fst (pmf_arlg_hw_ntfy_cntr_del earg gprl g))
  /\ (forall (a : addr) (eark : pmf_cntr),
        In (a, eark) (earg_cntrs earg) ->
        flag_test (eark_flags eark) PMF_EARKF_PUBLISHED = true ->
        exists hw_part,
          pmf_arlg_show_cntr hw (a, eark)
          = [jsonw_start_object;
             jsonw_string_field "name" (eark_name eark);
             jsonw_bool_field "cnt-pkts" true;
             jsonw_bool_field "cnt-bytes" false]
            ++ hw_part ++ [jsonw_end_object]).
Proof.
  intros Hw. split; [|split].
  - unfold pmf_arlg_hw_ntfy_cntr_add.
    destruct (negb (gpc_group_is_published (earg_gprg earg))); [exact Hw|].
    destruct (gpc_rule_get_rule (earg_gprg earg) gprl) as [rule|]; [|exact Hw].
    destruct (negb (flag_test (pp_summary rule) (PMF_RAS_COUNT_REF ras)));
      [exact Hw|].
    destruct (pmf_arlg_cntr_type_numbered ras earg).
    + pose proof (flags_ok_alloc_numbered earg gprl g Hw) as H.
      destruct (pmf_arlg_alloc_numbered_cntr earg gprl g) as [[[a|] e1] g1];
        simpl in H; [|exact H].
      apply flags_ok_add_publish. exact H.
    + destruct (pmf_arlg_cntr_type_named ras earg); [|exact Hw].
      assert (H1 : cntrs_flags_ok
                     (snd (fst (if pmf_arlg_cntr_type_named_accept ras earg
                                   && flag_test (pp_summary rule) (PMF_RAS_PASS ras)
                                then pmf_arlg_get_or_alloc_action_cntr_accept earg g
                                else (None, earg, g))))).
      { destruct (_ && _); simpl; [|exact Hw].
        now apply flags_ok_get_or_alloc_named. }
      destruct (if pmf_arlg_cntr_type_named_accept ras earg
                   && flag_test (pp_summary rule) (PMF_RAS_PASS ras)
                then pmf_arlg_get_or_alloc_action_cntr_accept earg g
                else (None, earg, g)) as [[eark1 earg1] g1].
      simpl in H1.
      assert (H2 : cntrs_flags_ok
                     (snd (fst (if pmf_arlg_cntr_type_named_drop ras earg
                                   && flag_test (pp_summary rule) (PMF_RAS_DROP ras)
                                then pmf_arlg_get_or_alloc_action_cntr_drop earg1 g1
                                else (eark1, earg1, g1))))).
      { destruct (_ && _); simpl; [|exact H1].
        now apply flags_ok_get_or_alloc_named. }
      destruct (if pmf_arlg_cntr_type_named_drop ras earg
                   && flag_test (pp_summary rule) (PMF_RAS_DROP ras)
                then pmf_arlg_get_or_alloc_action_cntr_drop earg1 g1
                else (eark1, earg1, g1)) as [[[a|] earg2] g2];
        simpl in H2; [|exact H2].
      apply flags_ok_add_publish. exact H2.
  - unfold pmf_arlg_hw_ntfy_cntr_del.
    destruct (negb (gpc_group_is_published (earg_gprg earg))); [exact Hw|].
    destruct (gpc_rule_get_owner (earg_gprg earg) gprl) as [a|]; [|exact Hw].
    simpl.
    destruct (cntr_deref (earg_cntrs earg) a) as [k|] eqn:Hk; [|exact Hw].
    pose proof (cntr_deref_forall _ _ _ _ Hw Hk) as Hok.
    unfold pmf_arlg_cntr_refcount_dec.
    assert (H2 : Forall (fun ak => eark_flags_ok (snd ak))
                   (cntr_store (earg_cntrs earg) a
                      (eark_with_refcount (u16 (eark_refcount k - 1)) k))).
    { apply cntr_store_forall; [|exact Hw]. intros b k0 _. exact Hok. }
    destruct (0 <? _); [exact H2|].
    unfold cntrs_flags_ok, pmf_arlg_free_cntr.
    match goal with |- context [if ?c then _ else _] => destruct c end;
      simpl; now apply tailq_remove_forall.
  - intros a eark Hin Hpub.
    unfold cntrs_flags_ok in Hw. rewrite Forall_forall in Hw.
    destruct (Hw _ Hin) as (Hb & Hp & _). simpl in Hb, Hp.
    specialize (Hp Hpub).
    unfold gpc_cntr_old_byt_enabled in Hb. unfold gpc_cntr_old_pkt_enabled in Hp.
    unfold pmf_arlg_show_cntr. rewrite Hpub, Hb, Hp. simpl.
    eexists. reflexivity.
Qed.

End CounterFlags.

Lemma rule_update_update (rules : list gpc_rule) (i : Z)
  (f1 f2 : gpc_rule -> gpc_rule) :
  (forall r, gprl_index (f1 r) = gprl_index r) ->
  rule_update (rule_update rules i f1) i f2
  = rule_update rules i (fun r => f2 (f1 r)).
Proof.
  intros Hf. induction rules as [|r rules IH]; simpl; [reflexivity|].
  destruct (Z.eqb_spec (gprl_index r) i) as [E|E]; simpl.
  - rewrite Hf. destruct (Z.eqb_spec (gprl_index r) i); [reflexivity|contradiction].
  - destruct (Z.eqb_spec (gprl_index r) i); [contradiction|]. now rewrite IH.
Qed.

Lemma rule_update_id (rules : list gpc_rule) (i : Z) (f : gpc_rule -> gpc_rule) :
  (forall r, rule_lookup rules i = Some r -> f r = r) ->
  rule_update rules i f = rules.
Proof.
  induction rules as [|r rules IH]; simpl; intros Hf; [reflexivity|].
  destruct (gprl_index r =? i).
  - now rewrite Hf.
  - now rewrite IH.
Qed.

Lemma gprg_with_rules_id (p : gpc_group) : gprg_with_rules (gprg_rules p) p = p.
Proof. now destruct p. Qed.

Lemma earg_with_gprg_id (e : pmf_group_ext) : earg_with_gprg (earg_gprg e) e = e.
Proof. now destruct e. Qed.

Lemma hack_owner_round_trip (p : gpc_group) (gprl : Z) (o : option addr) :
  gpc_rule_get_owner p gprl = None ->
  gpc_rule_hack_owner (gpc_rule_hack_owner p gprl o) gprl None = p.
Proof.
  unfold gpc_rule_get_owner, gpc_rule_hack_owner. intros H. simpl.
  rewrite rule_update_update by reflexivity.
  rewrite rule_update_id; [destruct p; reflexivity|].
  intros r Hr. rewrite Hr in H. destruct r; simpl in *. now subst.
Qed.

Lemma hack_owner_get (p : gpc_group) (gprl : Z) (o : option addr) :
  rule_lookup (gprg_rules p) gprl <> None ->
  gpc_rule_get_owner (gpc_rule_hack_owner p gprl o) gprl = o.
Proof.
  unfold gpc_rule_get_owner, gpc_rule_hack_owner. simpl.
  induction (gprg_rules p) as [|r rules IH]; simpl; [congruence|].
  destruct (Z.eqb_spec (gprl_index r) gprl) as [E|E]; simpl.
  - destruct (Z.eqb_spec (gprl_index r) gprl); [reflexivity|contradiction].
  - destruct (Z.eqb_spec (gprl_index r) gprl); [contradiction|]. exact IH.
Qed.

Section CounterRoundTrip.

Variable ras : pmf_ras.
Variable hw : pmf_hw.

(** X5.  On a published group with numbered counters, for a rule that
    refers to a counter, owns none and whose name is free, with memory
    available: [pmf_arlg_hw_ntfy_cntr_add] makes the rule the owner of a
    new counter at the head of the list, published, counting packets, with
    one user, and low-level created when the hardware accepts it;
    [pmf_arlg_hw_ntfy_cntr_del] for the same rule then gives back the
    group as it was, and the hardware has seen the creation followed, if
    it succeeded, by the deletion. *)
Theorem numbered_cntr_add_del_round_trip (earg : pmf_group_ext) (gprl : Z)
  (rule : pmf_rule) (g : glob) :
  gpc_group_is_published (earg_gprg earg) = true ->
  pmf_arlg_cntr_type_numbered ras earg = true ->
  gpc_rule_get_rule (earg_gprg earg) gprl = Some rule ->
  flag_test (pp_summary rule) (PMF_RAS_COUNT_REF ras) = true ->
  gpc_rule_get_owner (earg_gprg earg) gprl = None ->
  pmf_arlg_find_cntr earg (snprintf_u CNTR_NAME_LEN gprl) = None ->
  fst (calloc g) <> None ->
  let a := heap_next g in
  let created := pmf_hw_counter_create hw a in
  let r1 := pmf_arlg_hw_ntfy_cntr_add ras hw earg gprl g in
  let r2 := pmf_arlg_hw_ntfy_cntr_del (fst r1) gprl (snd r1) in
  gpc_rule_get_owner (earg_gprg (fst r1)) gprl = Some a
  /\ earg_cntrs (fst r1)
     = (a, mk_pmf_cntr (snprintf_u CNTR_NAME_LEN gprl) 0
             (if created then 7 else 5) 1) :: earg_cntrs earg
  /\ fst r2 = earg
  /\ hw_queue (snd r2)
     = hw_queue g
         ++ HwCounterCreate a :: (if created then [HwCounterDelete a] else []).
Proof.
  intros Hpub Hnum Hrule Href Hown Hfind Halloc a created r1 r2.
  assert (Hlk : rule_lookup (gprg_rules (earg_gprg earg)) gprl <> None).
  { unfold gpc_rule_get_rule in Hrule.
    destruct (rule_lookup (gprg_rules (earg_gprg earg)) gprl); congruence. }
  destruct (calloc g) as [[a'|] g1] eqn:Hc; [|now elim Halloc].
  destruct (calloc_some _ _ _ Hc) as (-> & Hn & Hq & _).
  assert (Hadd : r1 = cntr_add_publish hw
                        (earg_hack_owner
                           (earg_with_cntrs
                              ((a, mk_pmf_cntr (snprintf_u CNTR_NAME_LEN gprl) 0 0 1)
                                 :: earg_cntrs earg) earg)
                           gprl (Some a)) a g1).
  { subst r1. unfold pmf_arlg_hw_ntfy_cntr_add.
    rewrite Hpub, Hrule, Href, Hnum. simpl.
    unfold pmf_arlg_alloc_numbered_cntr, pmf_arlg_alloc_cntr.
    rewrite Hfind, Hc. unfold eark_update. simpl. rewrite Nat.eqb_refl. simpl.
    rewrite snprintf_u_idem. reflexivity. }
  assert (H1 : r1 = (earg_hack_owner
                       (earg_with_cntrs
                          ((a, mk_pmf_cntr (snprintf_u CNTR_NAME_LEN gprl) 0
                                 (if created then 7 else 5) 1)
                             :: earg_cntrs earg) earg)
                       gprl (Some a),
                     hw_emit (HwCounterCreate a) g1)).
  { rewrite Hadd. unfold cntr_add_publish, eark_update. simpl.
    fold a. rewrite Nat.eqb_refl. simpl. rewrite Nat.eqb_refl. simpl.
    fold created. destruct created; simpl; rewrite ?Nat.eqb_refl;
      reflexivity. }
  subst r2. rewrite H1. cbn [fst snd].
  set (k := mk_pmf_cntr (snprintf_u CNTR_NAME_LEN gprl) 0
              (if created then 7 else 5) 1).
  set (e1 := earg_hack_owner
               (earg_with_cntrs ((a, k) :: earg_cntrs earg) earg) gprl (Some a)).
  assert (Hown1 : gpc_rule_get_owner (earg_gprg e1) gprl = Some a)
    by (now apply hack_owner_get).
  assert (Hk : cntr_deref (earg_cntrs e1) a = Some k)
    by (simpl; now rewrite Nat.eqb_refl).
  split; [exact Hown1|]. split; [reflexivity|].
  rewrite (cntr_del_freed e1 gprl (hw_emit (HwCounterCreate a) g1) a k
             Hpub Hown1 Hk eq_refl).
  cbn [fst snd]. split.
  - unfold pmf_arlg_free_cntr, e1, earg_hack_owner. simpl.
    rewrite !Nat.eqb_refl. simpl.
    rewrite (hack_owner_round_trip _ _ _ Hown). rewrite ?Nat.eqb_refl. now destruct earg.
  - unfold k. simpl. destruct created; simpl; rewrite Hq;
      rewrite <- ?app_assoc; reflexivity.
Qed.

End CounterRoundTrip.

Lemma eark_update_eq (earg : pmf_group_ext) (a : addr) (k : pmf_cntr)
  (f : pmf_cntr -> pmf_cntr) :
  cntr_deref (earg_cntrs earg) a = Some k ->
  eark_update earg a f
  = earg_with_cntrs (cntr_store (earg_cntrs earg) a (f k)) earg.
Proof. intros H. unfold eark_update. now rewrite H. Qed.

Lemma cntr_store_store (l : list (addr * pmf_cntr)) (a : addr) (v1 v2 : pmf_cntr) :
  cntr_store (cntr_store l a v1) a v2 = cntr_store l a v2.
Proof.
  induction l as [|[b k] l IH]; simpl; [reflexivity|].
  destruct (Nat.eqb a b) eqn:E; simpl; rewrite E; [reflexivity|].
  now rewrite IH.
Qed.

Section NamedCounter.

Variable ras : pmf_ras.
Variable hw : pmf_hw.

(** X6.  On a published group with per-action counters whose published
    "accept" counter exists, [pmf_arlg_hw_ntfy_cntr_add] for a passing
    rule that refers to a counter makes the rule an owner of that same
    counter and adds one user; no counter is added, and the hardware is
    asked to create the counter only if no earlier creation has
    succeeded. *)
Theorem named_cntr_is_shared (earg : pmf_group_ext) (gprl : Z)
  (rule : pmf_rule) (g : glob) (a : addr) (k : pmf_cntr) :
  gpc_group_is_published (earg_gprg earg) = true ->
  pmf_arlg_cntr_type_named ras earg = true ->
  gpc_rule_get_rule (earg_gprg earg) gprl = Some rule ->
  flag_test (pp_summary rule) (PMF_RAS_COUNT_REF ras) = true ->
  pmf_arlg_cntr_type_named_accept ras earg
  && flag_test (pp_summary rule) (PMF_RAS_PASS ras) = true ->
  pmf_arlg_cntr_type_named_drop ras earg
  && flag_test (pp_summary rule) (PMF_RAS_DROP ras) = false ->
  pmf_arlg_find_cntr earg "accept" = Some a ->
  cntr_deref (earg_cntrs earg) a = Some k ->
  flag_test (eark_flags k) PMF_EARKF_PUBLISHED = true ->
  let ll_created := flag_test (eark_flags k) PMF_EARKF_LL_CREATED in
  let r := pmf_arlg_hw_ntfy_cntr_add ras hw earg gprl g in
  gpc_rule_get_owner (earg_gprg (fst r)) gprl = Some a
  /\ earg_cntrs (fst r)
     = cntr_store (earg_cntrs earg) a
         (mk_pmf_cntr (eark_name k) (eark_objid k)
            (if negb ll_created && pmf_hw_counter_create hw a
             then flag_set (eark_flags k) PMF_EARKF_LL_CREATED
             else eark_flags k)
            (u16 (eark_refcount k + 1)))
  /\ hw_queue (snd r)
     = hw_queue g ++ (if ll_created then [] else [HwCounterCreate a]).
Proof.
  intros Hpub Hnamed Hrule Href Hacc Hdrop Hfind Hk Hp ll_created r.
  assert (Hlk : rule_lookup (gprg_rules (earg_gprg earg)) gprl <> None).
  { unfold gpc_rule_get_rule in Hrule.
    destruct (rule_lookup (gprg_rules (earg_gprg earg)) gprl); congruence. }
  assert (Hnum : pmf_arlg_cntr_type_numbered ras earg = false).
  { unfold pmf_arlg_cntr_type_numbered. rewrite Hnamed.
    destruct (flag_test (gpc_group_get_summary (earg_gprg earg)) (PMF_RAS_COUNT_DEF ras)); reflexivity. }
  set (k1 := pmf_arlg_cntr_refcount_inc k).
  set (e1 := earg_with_cntrs (cntr_store (earg_cntrs earg) a k1) earg).
  assert (Hget : pmf_arlg_get_or_alloc_action_cntr_accept earg g
                 = (Some a, e1, g)).
  { unfold pmf_arlg_get_or_alloc_action_cntr_accept,
      pmf_arlg_get_or_alloc_named_cntr, pmf_arlg_get_or_alloc_cntr.
    rewrite Hfind. rewrite (eark_update_eq _ _ _ _ Hk). fold k1 e1.
    assert (Hk1 : cntr_deref (earg_cntrs e1) a = Some k1)
      by (apply (cntr_deref_store _ _ _ _ Hk)).
    rewrite (eark_update_eq _ _ _ _ Hk1).
    change (eark_flags k1) with (eark_flags k). rewrite Hp. simpl.
    rewrite cntr_store_store. reflexivity. }
  assert (Hr : r = cntr_add_publish hw (earg_hack_owner e1 gprl (Some a)) a g).
  { subst r. unfold pmf_arlg_hw_ntfy_cntr_add.
    rewrite Hpub, Hrule, Href, Hnum, Hnamed, Hacc, Hdrop, Hget. reflexivity. }
  assert (Hk1 : cntr_deref (earg_cntrs (earg_hack_owner e1 gprl (Some a))) a
                = Some k1)
    by (apply (cntr_deref_store _ _ _ _ Hk)).
  rewrite Hr. unfold cntr_add_publish.
  rewrite (eark_update_eq _ _ _ _ Hk1).
  change (eark_flags k1) with (eark_flags k). rewrite Hp.
  cbn [negb earg_cntrs earg_with_cntrs earg_hack_owner earg_with_gprg].
  rewrite (cntr_deref_store _ _ _ _ Hk1).
  change (eark_flags k1) with (eark_flags k). fold ll_created.
  unfold earg_hack_owner at 1 2. cbn [earg_cntrs earg_with_cntrs earg_with_gprg e1].
  destruct ll_created; cbn [negb andb].
  - cbn [fst snd earg_gprg earg_with_cntrs earg_with_gprg earg_cntrs].
    split; [now apply hack_owner_get|].
    rewrite !cntr_store_store. split; [|now rewrite app_nil_r].
    destruct k; reflexivity.
  - destruct (pmf_hw_counter_create hw a).
    + cbn [fst snd]. unfold eark_update.
      cbn [earg_cntrs earg_with_cntrs earg_with_gprg].
      rewrite (cntr_deref_store _ _ _ _ (cntr_deref_store _ _ _ _ Hk)).
      cbn [fst snd earg_gprg earg_with_cntrs earg_with_gprg earg_cntrs].
      split; [now apply hack_owner_get|].
      rewrite !cntr_store_store. split; [destruct k; reflexivity|reflexivity].
    + cbn [fst snd earg_gprg earg_with_cntrs earg_with_gprg earg_cntrs].
      split; [now apply hack_owner_get|].
      rewrite !cntr_store_store. split; [destruct k; reflexivity|reflexivity].
Qed.

End NamedCounter.

(* ------------------------------------------------------------------ *)
(** ** Publication order, commits and the outcome of the rule operations *)

Section PublicationOrder.

Variable hw : pmf_hw.

Lemma publish_group_result (gprs : gpc_rlset) (earg : pmf_group_ext)
  (rule : pmf_rule) (ipfam : pmf_attr_ip_family) (g : glob) :
  let r := publish_group hw gprs earg rule ipfam g in
  hw_queue (snd r) = hw_queue g ++ publish_ntfys (earg_gprg earg)
  /\ earg_flags (fst r) = earg_flags earg
  /\ gprg_family (earg_gprg (fst r)) = Some (pm_v6 ipfam)
  /\ gprg_published (earg_gprg (fst r))
     = gprg_published (earg_gprg earg) || gprs_if_created gprs
  /\ deferrals (snd r) = deferrals g
  /\ commit_pending (snd r) = commit_pending g.
Proof.
  unfold publish_group, publish_ntfys, gpc_group_get_cntg,
    gpc_group_hw_ntfy_create, gpc_cntg_hw_ntfy_cntrs_create,
    gpc_group_hw_ntfy_rules_create, gpc_group_hw_ntfy_attach,
    gpc_group_has_family, gpc_group_set_v6, gpc_group_set_v4.
  destruct earg as [p cntrs attr n fl]. destruct p as [nm ft sm pb att df fm cg rs].
  destruct gprs as [ifn ing ifp crt grps]. destruct ipfam as [v6].
  destruct v6, crt, pb, cg, ifp; simpl;
    unfold gprg_with_cntrs; simpl;
    rewrite <- ?app_assoc; simpl; auto 10.
Qed.

(** X7.  When the attribute rule brings an address family to a group that
    did not hold the attribute-rule flag or had no family on record,
    [pmf_arlg_rl_attr_check] queues the creation of the group, then of its
    counters if it has a Counter-Group, then of its rules, then the
    attach, and nothing else; the flag is set, the family is recorded, the
    deferrals flag is untouched, and the group is visible to hardware
    exactly if it was before or the interface of its ruleset has been
    created. *)
Theorem publication_notification_order (gprs : gpc_rlset)
  (earg : pmf_group_ext) (rule : pmf_rule) (ipfam : pmf_attr_ip_family)
  (g : glob) :
  pp_match_ipfam rule = Some ipfam ->
  flag_test (earg_flags earg) PMF_EARGF_RULE_ATTR = false
  \/ gpc_group_has_family (earg_gprg earg) = false ->
  let r := pmf_arlg_rl_attr_check hw gprs earg (Some rule) g in
  hw_queue (snd r) = hw_queue g ++ publish_ntfys (earg_gprg earg)
  /\ flag_test (earg_flags (fst r)) PMF_EARGF_RULE_ATTR = true
  /\ gprg_family (earg_gprg (fst r)) = Some (pm_v6 ipfam)
  /\ gprg_published (earg_gprg (fst r))
     = gprg_published (earg_gprg earg) || gprs_if_created gprs
  /\ deferrals (snd r) = deferrals g.
Proof.
  intros Hfam Hcase r. subst r. unfold pmf_arlg_rl_attr_check. rewrite Hfam.
  destruct (flag_test (earg_flags earg) PMF_EARGF_RULE_ATTR) eqn:Hflag; simpl.
  - destruct Hcase as [Hc|Hc]; [discriminate|]. rewrite Hc. simpl.
    destruct (publish_group_result gprs earg rule ipfam g)
      as (Hq & Hf & Hv & Hp & Hd & _).
    rewrite Hf. auto.
  - set (earg1 := earg_with_flags (flag_set (earg_flags earg) PMF_EARGF_RULE_ATTR)
                    earg).
    destruct (publish_group_result gprs earg1 rule ipfam g)
      as (Hq & Hf & Hv & Hp & Hd & _).
    rewrite Hf. simpl. rewrite flag_test_set by discriminate.
    auto.
Qed.

Lemma commit_deferral_group_ntfys (gprs : gpc_rlset) (earg : pmf_group_ext)
  (g : glob) :
  let r := commit_deferral_group hw gprs earg g in
  hw_queue (snd r)
  = hw_queue g
      ++ (if is_acl_group earg && gpc_group_is_deferred (earg_gprg earg)
          then publish_ntfys (earg_gprg earg) else [])
  /\ deferrals (snd r) = deferrals g
  /\ commit_pending (snd r) = commit_pending g
  /\ hw_flushed (snd r) = hw_flushed g.
Proof.
  unfold commit_deferral_group, is_acl_group, publish_ntfys,
    gpc_group_get_feature, gpc_group_is_deferred, gpc_group_clear_deferred,
    gpc_group_get_cntg,
    gpc_group_hw_ntfy_create, gpc_cntg_hw_ntfy_cntrs_create,
    gpc_group_hw_ntfy_rules_create, gpc_group_hw_ntfy_attach,
    gpc_group_has_family.
  destruct earg as [p cntrs attr n fl]. destruct p as [nm ft sm pb att df fm cg rs].
  destruct gprs as [ifn ing ifp crt grps].
  destruct ft, df; simpl; rewrite ?app_nil_r; auto;
    destruct crt, fm, pb, cg, ifp; simpl;
    unfold gprg_with_cntrs; simpl;
    rewrite <- ?app_assoc; simpl; auto 10.
Qed.

Lemma commit_deferral_groups_ntfys (gprs : gpc_rlset)
  (groups : list pmf_group_ext) :
  forall g : glob,
  let r := groups_foreach (commit_deferral_group hw gprs) groups g in
  hw_queue (snd r)
  = hw_queue g
      ++ flat_map
           (fun earg =>
              if is_acl_group earg && gpc_group_is_deferred (earg_gprg earg)
              then publish_ntfys (earg_gprg earg) else [])
           groups
  /\ deferrals (snd r) = deferrals g
  /\ commit_pending (snd r) = commit_pending g
  /\ hw_flushed (snd r) = hw_flushed g.
Proof.
  induction groups as [|e rest IH]; intros g; simpl.
  - rewrite app_nil_r. auto.
  - destruct (commit_deferral_group_ntfys gprs e g) as (Hq & Hd & Hc & Hf).
    destruct (commit_deferral_group hw gprs e g) as [e1 g1]. simpl in *.
    destruct (IH g1) as (Hq' & Hd' & Hc' & Hf').
    destruct (groups_foreach (commit_deferral_group hw gprs) rest g1)
      as [rest1 g2]. simpl in *.
    rewrite Hq', Hq, Hd', Hc', Hf', <- app_assoc. auto.
Qed.

Lemma commit_deferrals_ntfys (db : gpc_db) :
  forall g : glob,
  let r := pmf_arlg_commit_deferrals hw db g in
  hw_queue (snd r) = hw_queue g ++ deferred_ntfys db
  /\ deferrals (snd r) = deferrals g
  /\ commit_pending (snd r) = commit_pending g
  /\ hw_flushed (snd r) = hw_flushed g.
Proof.
  unfold pmf_arlg_commit_deferrals, deferred_ntfys.
  induction db as [|s rest IH]; intros g; simpl.
  - rewrite app_nil_r. auto.
  - destruct (commit_deferral_groups_ntfys s (gprs_groups s) g)
      as (Hq & Hd & Hc & Hf).
    destruct (groups_foreach (commit_deferral_group hw s) (gprs_groups s) g)
      as [groups g1]. simpl in *.
    destruct (IH g1) as (Hq' & Hd' & Hc' & Hf').
    match goal with
    | |- context [rlsets_foreach ?f rest g1] =>
        destruct (rlsets_foreach f rest g1) as [rest1 g2]
    end. simpl in *.
    rewrite Hq', Hq, Hd', Hc', Hf', <- app_assoc. auto.
Qed.

(** X8.  [pmf_arlg_commit] leaves both flags of the file clear and the
    queue empty; what was queued, followed when deferrals were pending by
    the notifications of the deferred ACL groups in database order, is
    flushed as one batch, and nothing is flushed when that batch is
    empty. *)
Theorem commit_flushes_one_batch (db : gpc_db) (g : glob) :
  let batch :=
    hw_queue g ++ (if deferrals g then deferred_ntfys db else []) in
  let r := pmf_arlg_commit hw db g in
  deferrals (snd r) = false
  /\ commit_pending (snd r) = false
  /\ hw_queue (snd r) = []
  /\ hw_flushed (snd r)
     = hw_flushed g ++ (match batch with [] => [] | _ => [batch] end).
Proof.
  intros batch r. subst r batch. unfold pmf_arlg_commit.
  assert (H : let r1 := if deferrals g then pmf_arlg_commit_deferrals hw db g
                         else (db, g) in
              hw_queue (snd r1)
              = hw_queue g ++ (if deferrals g then deferred_ntfys db else [])
              /\ hw_flushed (snd r1) = hw_flushed g).
  { destruct (deferrals g); simpl.
    - destruct (commit_deferrals_ntfys db g) as (Hq & _ & _ & Hf). auto.
    - rewrite app_nil_r. auto. }
  destruct (if deferrals g then pmf_arlg_commit_deferrals hw db g else (db, g))
    as [db1 g1]. simpl in H. destruct H as (Hq & Hf).
  rewrite <- Hq. unfold pmf_hw_commit. simpl.
  destruct (hw_queue g1) eqn:E; simpl.
  - rewrite E, Hf, app_nil_r. auto.
  - rewrite Hf. auto.
Qed.

End PublicationOrder.

Lemma release_rules (p : gpc_group) (c : string) (g : glob) :
  gprg_rules (snd (fst (gpc_cntr_release p c g))) = gprg_rules p.
Proof.
  unfold gpc_cntr_release.
  destruct (gcntr_lookup (gprg_cntrs p) c); [|reflexivity].
  destruct (0 <? _); simpl; apply gprg_rules_with_cntrs.
Qed.

Lemma release_opt_rules (p : gpc_group) (c : option string) (g : glob) :
  gprg_rules (fst (gpc_cntr_release_opt p c g)) = gprg_rules p.
Proof.
  unfold gpc_cntr_release_opt. destruct c as [c|]; [|reflexivity].
  pose proof (release_rules p c g) as H.
  destruct (gpc_cntr_release p c g) as [[b p1] g1]. exact H.
Qed.

Lemma find_and_retain_rules (p : gpc_group) (name : string) :
  gprg_rules (snd (gpc_cntr_find_and_retain p name)) = gprg_rules p.
Proof.
  unfold gpc_cntr_find_and_retain.
  destruct (gcntr_lookup (gprg_cntrs p) name); [|reflexivity].
  simpl. apply gprg_rules_with_cntrs.
Qed.

Lemma create_numbered_rules (p : gpc_group) (n : Z) (g : glob) :
  gprg_rules (snd (fst (gpc_cntr_create_numbered p n g))) = gprg_rules p.
Proof.
  unfold gpc_cntr_create_numbered.
  destruct (gcntr_lookup _ _); [reflexivity|].
  destruct (calloc g) as [[a|] g1]; [|reflexivity].
  simpl. apply gprg_rules_with_cntrs.
Qed.

Section RuleOps.

Variable ras : pmf_ras.
Variable hw : pmf_hw.
Variable gprs : gpc_rlset.

Lemma rule_get_cntr_rules (p : gpc_group) (cntg : gpc_cntg) (rule : pmf_rule)
  (n : Z) (g : glob) :
  gprg_rules (snd (fst (pmf_arlg_rule_get_cntr ras p cntg rule n g)))
  = gprg_rules p.
Proof.
  unfold pmf_arlg_rule_get_cntr. destruct (gpc_cntg_type cntg).
  - apply create_numbered_rules.
  - destruct (flag_test _ _).
    + pose proof (find_and_retain_rules p "accept") as H.
      destruct (gpc_cntr_find_and_retain p "accept"). exact H.
    + destruct (flag_test _ _); [|reflexivity].
      pose proof (find_and_retain_rules p "drop") as H.
      destruct (gpc_cntr_find_and_retain p "drop"). exact H.
Qed.

Lemma cntr_hw_ntfy_create_rules (p : gpc_group) (c : option string) (g : glob) :
  gprg_rules (fst (gpc_cntr_hw_ntfy_create hw p c g)) = gprg_rules p.
Proof.
  unfold gpc_cntr_hw_ntfy_create. destruct c as [c|]; [|reflexivity].
  destruct (gprg_published p); [|reflexivity].
  simpl. apply gprg_rules_with_cntrs.
Qed.

Lemma change_rule_rules (p : gpc_group) (gprl : Z) (rule : pmf_rule) (g : glob) :
  gprg_rules (fst (gpc_rule_change_rule p gprl rule g))
  = rule_update (gprg_rules p) gprl
      (fun r => mk_gpc_rule (gprl_index r) (Some rule) (gprl_cntr r)
                  (gprl_owner r) (gprg_published p)).
Proof.
  unfold gpc_rule_change_rule. destruct (gprg_published p); reflexivity.
Qed.

Lemma rule_lookup_update (rules : list gpc_rule) (i : Z)
  (f : gpc_rule -> gpc_rule) :
  (forall r, gprl_index (f r) = gprl_index r) ->
  rule_lookup (rule_update rules i f) i = option_map f (rule_lookup rules i).
Proof.
  intros Hf. induction rules as [|r rules IH]; simpl; [reflexivity|].
  destruct (Z.eqb_spec (gprl_index r) i) as [E|E]; simpl.
  - rewrite Hf. destruct (Z.eqb_spec (gprl_index r) i); [reflexivity|contradiction].
  - destruct (Z.eqb_spec (gprl_index r) i); [contradiction|exact IH].
Qed.

Lemma rule_lookup_app_fresh (rules : list gpc_rule) (r : gpc_rule) :
  ~ In (gprl_index r) (map gprl_index rules) ->
  rule_lookup (rules ++ [r]) (gprl_index r) = Some r.
Proof.
  induction rules as [|r0 rules IH]; simpl; intros H.
  - now rewrite Z.eqb_refl.
  - destruct (Z.eqb_spec (gprl_index r0) (gprl_index r)) as [E|E].
    + exfalso. apply H. now left.
    + apply IH. intros Hin. apply H. now right.
Qed.

(** X9.  [pmf_arlg_rl_add] at a rule index counts the rule whether or not
    it can be created: [earg_num_rules] goes up by one modulo 2^32, and
    the attribute rule, the flags and the counter list stay.  When it
    returns false, for lack of memory, the rules of the group are as
    before; when it returns true the index is appended to the rules, and
    an index that was not in use now holds the rule. *)
Theorem rl_add_outcome (earg : pmf_group_ext) (rule : pmf_rule) (rl_idx : Z)
  (g : glob) :
  rl_idx <> UINT32_MAX ->
  let r := pmf_arlg_rl_add ras hw gprs earg rule rl_idx g in
  let e' := snd (fst r) in
  earg_num_rules e' = u32 (earg_num_rules earg + 1)
  /\ earg_attr_rule e' = earg_attr_rule earg
  /\ earg_flags e' = earg_flags earg
  /\ earg_cntrs e' = earg_cntrs earg
  /\ (fst (fst r) = false ->
      gprg_rules (earg_gprg e') = gprg_rules (earg_gprg earg))
  /\ (fst (fst r) = true ->
      rule_indices (earg_gprg e') = rule_indices (earg_gprg earg) ++ [rl_idx]
      /\ (~ In rl_idx (rule_indices (earg_gprg earg)) ->
          gpc_rule_get_rule (earg_gprg e') rl_idx = Some rule)).
Proof.
  intros Hidx r e'. subst e' r. unfold pmf_arlg_rl_add.
  apply Z.eqb_neq in Hidx. rewrite Hidx.
  set (step1 := match gpc_group_get_cntg (earg_gprg earg) with
                | Some cntg =>
                    if pmf_arlg_rule_needs_cntr ras cntg rule
                    then pmf_arlg_rule_get_cntr ras (earg_gprg earg) cntg rule
                           rl_idx g
                    else (None, earg_gprg earg, g)
                | None => (None, earg_gprg earg, g)
                end).
  assert (H1 : gprg_rules (snd (fst step1)) = gprg_rules (earg_gprg earg)).
  { subst step1. destruct (gpc_group_get_cntg (earg_gprg earg)); [|reflexivity].
    destruct (pmf_arlg_rule_needs_cntr ras g0 rule); [|reflexivity].
    apply rule_get_cntr_rules. }
  destruct step1 as [[cntr gprg1] g1]. simpl in H1.
  unfold gpc_rule_create.
  destruct (calloc g1) as [[a|] g2].
  - (* the rule is created *)
    set (new := mk_gpc_rule rl_idx None None None false).
    set (gprg3 := gpc_rule_set_cntr _ _ _).
    assert (H3 : gprg_rules gprg3
                 = rule_update (gprg_rules (earg_gprg earg) ++ [new]) rl_idx
                     (fun r => mk_gpc_rule (gprl_index r) (gprl_rule r) cntr
                                 (gprl_owner r) (gprl_published r))).
    { subst gprg3. unfold gpc_rule_set_cntr. simpl. now rewrite H1. }
    pose proof (cntr_hw_ntfy_create_rules gprg3 cntr g2) as H4.
    destruct (gpc_cntr_hw_ntfy_create hw gprg3 cntr g2) as [gprg4 g4].
    cbn [fst] in H4.
    pose proof (change_rule_rules gprg4 rl_idx rule g4) as H5.
    destruct (gpc_rule_change_rule gprg4 rl_idx rule g4) as [gprg5 g5].
    cbn [fst] in H5. simpl.
    repeat split; try discriminate.
    + unfold rule_indices. rewrite H5, H4, H3.
      rewrite !rule_update_indices by reflexivity.
      now rewrite map_app.
    + intros Hfresh. unfold gpc_rule_get_rule. rewrite H5, H4, H3.
      rewrite !rule_lookup_update by reflexivity.
      change rl_idx with (gprl_index new) at 1.
      rewrite rule_lookup_app_fresh by exact Hfresh. reflexivity.
  - (* no memory for the rule *)
    pose proof (release_opt_rules gprg1 cntr g2) as H3.
    destruct (gpc_cntr_release_opt gprg1 cntr g2) as [gprg3 g3].
    simpl in H3. simpl.
    repeat split; try discriminate.
    intros _. now rewrite H3.
Qed.

End RuleOps.

Section RuleChange.

Variable ras : pmf_ras.
Variable hw : pmf_hw.
Variable gprs : gpc_rlset.

Lemma modify_rules (p : gpc_group) (summary : Z) (g : glob) :
  gprg_rules (fst (gpc_group_hw_ntfy_modify p summary g)) = gprg_rules p.
Proof. reflexivity. Qed.

(** X10.  [pmf_arlg_rl_chg] returns true exactly when the group holds
    what the index names, the attribute rule for [UINT32_MAX] and else a
    rule of that index; otherwise it changes nothing at all.  It never
    changes the rule count or the indices of the rules, and after a change
    the attribute rule, respectively the rule of that index, is the new
    one. *)
Theorem rl_chg_outcome (earg : pmf_group_ext) (new_rule : pmf_rule)
  (rl_idx : Z) (g : glob) :
  let r := pmf_arlg_rl_chg ras hw gprs earg new_rule rl_idx g in
  let e' := snd (fst r) in
  fst (fst r) = rl_present earg rl_idx
  /\ (rl_present earg rl_idx = false -> e' = earg /\ snd r = g)
  /\ earg_num_rules e' = earg_num_rules earg
  /\ rule_indices (earg_gprg e') = rule_indices (earg_gprg earg)
  /\ (rl_present earg rl_idx = true ->
      if rl_idx =? UINT32_MAX
      then earg_attr_rule e' = Some new_rule
      else gpc_rule_get_rule (earg_gprg e') rl_idx = Some new_rule
           /\ earg_attr_rule e' = earg_attr_rule earg).
Proof.
  intros r e'.
  destruct (rl_chg_keeps ras hw gprs earg new_rule rl_idx g)
    as ((_ & _ & _ & Hind) & Hnum).
  fold r in Hind, Hnum. fold e' in Hind, Hnum.
  split; [|split; [|split; [exact Hnum|split; [exact Hind|]]]].
  - subst r. unfold pmf_arlg_rl_chg, rl_present.
    destruct (rl_idx =? UINT32_MAX).
    + destruct (earg_attr_rule earg); [|reflexivity].
      now destruct (pmf_arlg_rule_change_cntg ras hw gprs earg new_rule g).
    + destruct (gpc_rule_find (earg_gprg earg) rl_idx); [|reflexivity].
      repeat match goal with
             | |- context [let '(_, _) := ?t in _] => destruct t
             | |- context [match ?t with pair _ _ => _ end] => destruct t
             end.
      reflexivity.
  - subst e' r. unfold pmf_arlg_rl_chg, rl_present.
    destruct (rl_idx =? UINT32_MAX).
    + destruct (earg_attr_rule earg); [discriminate|auto].
    + destruct (gpc_rule_find (earg_gprg earg) rl_idx); [discriminate|auto].
  - subst e' r. unfold pmf_arlg_rl_chg, rl_present.
    destruct (rl_idx =? UINT32_MAX) eqn:Hidx.
    + destruct (earg_attr_rule earg); [|discriminate]. intros _.
      now destruct (pmf_arlg_rule_change_cntg ras hw gprs earg new_rule g).
    + destruct (gpc_rule_find (earg_gprg earg) rl_idx) as [gprl|] eqn:Hfind;
        [|discriminate].
      intros _.
      assert (Hgprl : gprl = rl_idx).
      { unfold gpc_rule_find in Hfind.
        destruct (rule_lookup _ _); congruence. }
      subst gprl.
      set (step1 := match gpc_group_get_cntg (earg_gprg earg) with
                    | Some cntg =>
                        rl_chg_adjust_cntr ras hw (earg_gprg earg) cntg rl_idx
                          new_rule rl_idx g
                    | None => (None, earg_gprg earg, g)
                    end).
      assert (H1 : rule_indices (snd (fst step1))
                   = rule_indices (earg_gprg earg)).
      { subst step1. destruct (gpc_group_get_cntg (earg_gprg earg));
          [|reflexivity].
        apply (rl_chg_adjust_cntr_keeps ras hw gprs). }
      destruct step1 as [[rel_cntr gprg1] g1]. cbn [fst snd] in H1.
      assert (Hlk : rule_lookup (gprg_rules gprg1) rl_idx <> None).
      { apply rule_lookup_in. fold (rule_indices gprg1). rewrite H1.
        apply rule_lookup_in. unfold gpc_rule_find in Hfind.
        destruct (rule_lookup _ _); congruence. }
      pose proof (change_rule_rules gprg1 rl_idx new_rule g1) as H2.
      destruct (gpc_rule_change_rule gprg1 rl_idx new_rule g1) as [gprg2 g2].
      cbn [fst] in H2.
      set (step3 := if negb (gpc_group_get_summary gprg1 =? 0)
                    then gpc_group_hw_ntfy_modify gprg2
                           (gpc_group_recalc_summary gprg2 (earg_attr_rule earg))
                           g2
                    else (gprg2, g2)).
      assert (H3 : gprg_rules (fst step3) = gprg_rules gprg2)
        by (subst step3; now destruct (negb _)).
      destruct step3 as [gprg3 g3]. cbn [fst] in H3.
      pose proof (release_opt_rules gprg3 rel_cntr g3) as H4.
      destruct (gpc_cntr_release_opt gprg3 rel_cntr g3) as [gprg4 g4].
      cbn [fst] in H4. cbn [fst snd earg_gprg earg_with_gprg earg_attr_rule].
      split; [|reflexivity].
      unfold gpc_rule_get_rule. rewrite H4, H3, H2.
      rewrite rule_lookup_update by reflexivity.
      destruct (rule_lookup (gprg_rules gprg1) rl_idx); [reflexivity|].
      now elim Hlk.
Qed.

End RuleChange.

Lemma rule_update_app_fresh (rules : list gpc_rule) (r : gpc_rule)
  (f : gpc_rule -> gpc_rule) :
  ~ In (gprl_index r) (map gprl_index rules) ->
  rule_update (rules ++ [r]) (gprl_index r) f = rules ++ [f r].
Proof.
  induction rules as [|r0 rules IH]; simpl; intros H.
  - now rewrite Z.eqb_refl.
  - destruct (Z.eqb_spec (gprl_index r0) (gprl_index r)) as [E|E].
    + exfalso. apply H. now left.
    + f_equal. apply IH. intros Hin. apply H. now right.
Qed.

Lemma rule_remove_app_fresh (rules : list gpc_rule) (r : gpc_rule) :
  ~ In (gprl_index r) (map gprl_index rules) ->
  rule_remove (rules ++ [r]) (gprl_index r) = rules.
Proof.
  induction rules as [|r0 rules IH]; simpl; intros H.
  - now rewrite Z.eqb_refl.
  - destruct (Z.eqb_spec (gprl_index r0) (gprl_index r)) as [E|E].
    + exfalso. apply H. now left.
    + f_equal. apply IH. intros Hin. apply H. now right.
Qed.

Lemma rule_lookup_app_at (rules : list gpc_rule) (r : gpc_rule) (i : Z) :
  gprl_index r = i -> ~ In i (map gprl_index rules) ->
  rule_lookup (rules ++ [r]) i = Some r.
Proof. intros <-. apply rule_lookup_app_fresh. Qed.

Lemma rule_update_app_at (rules : list gpc_rule) (r : gpc_rule) (i : Z)
  (f : gpc_rule -> gpc_rule) :
  gprl_index r = i -> ~ In i (map gprl_index rules) ->
  rule_update (rules ++ [r]) i f = rules ++ [f r].
Proof. intros <-. apply rule_update_app_fresh. Qed.

Lemma rule_remove_app_at (rules : list gpc_rule) (r : gpc_rule) (i : Z) :
  gprl_index r = i -> ~ In i (map gprl_index rules) ->
  rule_remove (rules ++ [r]) i = rules.
Proof. intros <-. apply rule_remove_app_fresh. Qed.

Lemma u32_add_sub (n : Z) :
  0 <= n < 4294967296 -> u32 (u32 (n + 1) - 1) = n.
Proof.
  intros H. unfold u32. rewrite Zminus_mod_idemp_l.
  replace (n + 1 - 1) with n by lia. now apply Z.mod_small.
Qed.

Lemma calloc_some_queue (g g1 : glob) (a : addr) :
  calloc g = (Some a, g1) -> hw_queue g1 = hw_queue g.
Proof.
  unfold calloc. destruct (allocs g) as [|[|] rest]; intros H;
    inversion H; reflexivity.
Qed.

Section RuleRoundTrip.

Variable ras : pmf_ras.
Variable hw : pmf_hw.
Variable gprs : gpc_rlset.

(** X12.  On a group without Counter-Group, adding a rule at an index not
    in use, with memory available, and then deleting it: both calls return
    true, the rules and the rule count are as before, and the hardware
    layer is sent the deletion of the rule, after its creation if the
    group is published, and then the recomputed summary when the summary
    was not zero; an unpublished group with summary zero is exactly as
    before. *)
Theorem rl_add_del_round_trip (earg : pmf_group_ext) (rule : pmf_rule)
  (rl_idx : Z) (g : glob) :
  rl_idx <> UINT32_MAX ->
  gprg_cntg (earg_gprg earg) = None ->
  ~ In rl_idx (rule_indices (earg_gprg earg)) ->
  0 <= earg_num_rules earg < 4294967296 ->
  fst (calloc g) <> None ->
  let gprg := earg_gprg earg in
  let r1 := pmf_arlg_rl_add ras hw gprs earg rule rl_idx g in
  let r2 := pmf_arlg_rl_del hw gprs (snd (fst r1)) rl_idx (snd r1) in
  fst (fst r1) = true
  /\ fst (fst r2) = true
  /\ gprg_rules (earg_gprg (snd (fst r2))) = gprg_rules gprg
  /\ earg_num_rules (snd (fst r2)) = earg_num_rules earg
  /\ (gprg_published gprg = false ->
      hw_queue (snd r2)
      = hw_queue g
          ++ NtfyRuleDelete (gprg_name gprg) rl_idx
             :: (if gprg_summary gprg =? 0 then []
                 else [NtfyGroupModify (gprg_name gprg)
                         (gpc_group_recalc_summary gprg (earg_attr_rule earg))]))
  /\ (gprg_published gprg = true ->
      hw_queue (snd r2)
      = hw_queue g
          ++ NtfyRuleCreate (gprg_name gprg) rl_idx
             :: NtfyRuleDelete (gprg_name gprg) rl_idx
             :: (if Z.lor (gprg_summary gprg) (pp_summary rule) =? 0 then []
                 else [NtfyGroupModify (gprg_name gprg)
                         (gpc_group_recalc_summary gprg (earg_attr_rule earg))]))
  /\ (gprg_published gprg = false -> gprg_summary gprg = 0 ->
      snd (fst r2) = earg).
Proof.
  intros Hidx Hcntg Hfresh Hnum Halloc gprg r1 r2. subst gprg.
  destruct earg as [p cntrs attr n fl].
  destruct p as [nm ft sm pb att df fm cg rs].
  simpl in Hcntg, Hfresh, Hnum. subst cg. unfold rule_indices in Hfresh.
  simpl in Hfresh.
  destruct (calloc g) as [[a|] g1] eqn:Hc; [|now elim Halloc].
  pose proof (calloc_some_queue g g1 a Hc) as Hq.
  apply Z.eqb_neq in Hidx.
  subst r2 r1.
  unfold pmf_arlg_rl_add. rewrite Hidx. simpl.
  unfold gpc_rule_create. simpl. rewrite Hc. simpl.
  unfold gpc_rule_set_cntr, gpc_rule_change_rule. simpl.
  rewrite !rule_update_app_at by (reflexivity || exact Hfresh).
  rewrite rule_lookup_app_at by (reflexivity || exact Hfresh). simpl.
  destruct pb; simpl.
  - unfold pmf_arlg_rl_del. simpl. rewrite Hidx.
    unfold gpc_rule_find. simpl.
    rewrite rule_lookup_app_at by (reflexivity || exact Hfresh). simpl.
    unfold gpc_rule_get_cntr, gpc_rule_delete. simpl.
    rewrite rule_update_app_at by (reflexivity || exact Hfresh). simpl.
    rewrite rule_lookup_app_at by (reflexivity || exact Hfresh).
    rewrite rule_remove_app_at by (reflexivity || exact Hfresh). simpl.
    rewrite (u32_add_sub _ Hnum).
    destruct (Z.lor sm (pp_summary rule) =? 0); simpl;
      rewrite Hq, <- ?app_assoc; simpl;
      repeat split; try discriminate; reflexivity.
  - unfold pmf_arlg_rl_del. simpl. rewrite Hidx.
    unfold gpc_rule_find. simpl.
    rewrite rule_lookup_app_at by (reflexivity || exact Hfresh). simpl.
    unfold gpc_rule_get_cntr, gpc_rule_delete. simpl.
    rewrite rule_update_app_at by (reflexivity || exact Hfresh). simpl.
    rewrite rule_lookup_app_at by (reflexivity || exact Hfresh).
    rewrite rule_remove_app_at by (reflexivity || exact Hfresh). simpl.
    rewrite (u32_add_sub _ Hnum).
    destruct (sm =? 0) eqn:Hsm; simpl;
      rewrite Hq, <- ?app_assoc; simpl;
      repeat split; try discriminate; try reflexivity.
    intros _ ->. discriminate Hsm.
Qed.

End RuleRoundTrip.

(* ------------------------------------------------------------------ *)
(** ** Deletion of rules and the early returns of the counter change *)

Lemma rule_remove_update (rules : list gpc_rule) (i : Z)
  (f : gpc_rule -> gpc_rule) :
  (forall r, gprl_index (f r) = gprl_index r) ->
  rule_remove (rule_update rules i f) i = rule_remove rules i.
Proof.
  intros Hf. induction rules as [|r rules IH]; simpl; [reflexivity|].
  destruct (Z.eqb_spec (gprl_index r) i) as [E|E]; simpl.
  - rewrite Hf. destruct (Z.eqb_spec (gprl_index r) i); [reflexivity|contradiction].
  - destruct (Z.eqb_spec (gprl_index r) i); [contradiction|]. now rewrite IH.
Qed.

Lemma rule_lookup_remove_ne (rules : list gpc_rule) (i j : Z) :
  j <> i -> rule_lookup (rule_remove rules i) j = rule_lookup rules j.
Proof.
  intros Hne. induction rules as [|r rules IH]; simpl; [reflexivity|].
  destruct (Z.eqb_spec (gprl_index r) i) as [E|E]; simpl.
  - destruct (Z.eqb_spec (gprl_index r) j); [congruence|reflexivity].
  - now rewrite IH.
Qed.

Lemma release_deferrals (p : gpc_group) (c : string) (g : glob) :
  deferrals (snd (gpc_cntr_release p c g)) = deferrals g.
Proof.
  unfold gpc_cntr_release.
  destruct (gcntr_lookup (gprg_cntrs p) c) as [k|]; [|reflexivity].
  destruct (0 <? _); [reflexivity|]. simpl.
  now destruct (cntr_ll_created k).
Qed.

Lemma foreach_release_deferrals (names : list string) :
  forall (p : gpc_group) (g : glob),
  deferrals (snd (gpc_cntr_foreach_release names p g)) = deferrals g.
Proof.
  induction names as [|n rest IH]; intros p g; simpl; [reflexivity|].
  pose proof (release_deferrals p n g) as H.
  destruct (gpc_cntr_release p n g) as [[b p1] g1]. simpl in H.
  now rewrite IH.
Qed.

Section RuleDelete.

Variable ras : pmf_ras.
Variable hw : pmf_hw.
Variable gprs : gpc_rlset.

(** X11.  [pmf_arlg_rl_del] returns true exactly when the group holds
    what the index names, and otherwise changes nothing at all.  Deleting
    a rule takes one from the rule count modulo 2^32, removes that rule
    and leaves the rules of the other indices and the attribute rule as
    they are; deleting the attribute rule clears it and the Counter-Group
    and leaves the rule count and the indices as they are. *)
Theorem rl_del_outcome (earg : pmf_group_ext) (rl_idx : Z) (g : glob) :
  let r := pmf_arlg_rl_del hw gprs earg rl_idx g in
  let e' := snd (fst r) in
  fst (fst r) = rl_present earg rl_idx
  /\ (rl_present earg rl_idx = false -> e' = earg /\ snd r = g)
  /\ (rl_present earg rl_idx = true -> rl_idx <> UINT32_MAX ->
      earg_num_rules e' = u32 (earg_num_rules earg - 1)
      /\ gprg_rules (earg_gprg e')
         = rule_remove (gprg_rules (earg_gprg earg)) rl_idx
      /\ (forall j, j <> rl_idx ->
            gpc_rule_get_rule (earg_gprg e') j
            = gpc_rule_get_rule (earg_gprg earg) j)
      /\ earg_attr_rule e' = earg_attr_rule earg)
  /\ (rl_present earg rl_idx = true -> rl_idx = UINT32_MAX ->
      earg_attr_rule e' = None
      /\ gprg_cntg (earg_gprg e') = None
      /\ earg_num_rules e' = earg_num_rules earg
      /\ rule_indices (earg_gprg e') = rule_indices (earg_gprg earg)).
Proof.
  intros r e'. subst e' r. unfold rl_present.
  destruct (Z.eqb_spec rl_idx UINT32_MAX) as [->|Hne].
  - (* the attribute rule *)
    destruct (rl_del_attr_keeps hw gprs earg g) as ((_ & _ & _ & Hind) & Hnum).
    unfold pmf_arlg_rl_del in *. rewrite Z.eqb_refl in *.
    destruct (earg_attr_rule earg) as [attr|].
    + destruct (pmf_arlg_rl_attr_check hw gprs earg None g) as [earg1 g1].
      cbn [earg_gprg earg_with_attr_rule] in *.
      unfold gpc_group_get_cntg in *.
      destruct (gprg_cntg (earg_gprg earg1)) as [c|] eqn:Hc.
      * destruct (pmf_arlg_rule_delete_cntg (earg_gprg earg1) c g1)
          as [gprg3 g3].
        cbn in *. repeat split; try discriminate; try assumption; congruence.
      * cbn in *. repeat split; try discriminate; try assumption; congruence.
    + repeat split; try discriminate; congruence.
  - (* a rule *)
    unfold pmf_arlg_rl_del. apply Z.eqb_neq in Hne. rewrite Hne.
    apply Z.eqb_neq in Hne.
    destruct (gpc_rule_find (earg_gprg earg) rl_idx) as [gprl|] eqn:Hfind.
    + assert (Hgprl : gprl = rl_idx).
      { unfold gpc_rule_find in Hfind.
        destruct (rule_lookup _ _); congruence. }
      subst gprl. unfold gpc_rule_hw_ntfy_delete. cbv zeta.
      set (gprg1 := gprg_with_rules _ (earg_gprg earg)).
      set (g1 := hw_emit _ g).
      set (gprg2 := gpc_rule_delete gprg1 rl_idx).
      assert (H2 : gprg_rules gprg2
                   = rule_remove (gprg_rules (earg_gprg earg)) rl_idx).
      { unfold gprg2, gpc_rule_delete, gprg1. simpl.
        now apply rule_remove_update. }
      pose proof (release_opt_rules gprg2 (gpc_rule_get_cntr gprg1 rl_idx) g1)
        as H3.
      destruct (gpc_cntr_release_opt gprg2 (gpc_rule_get_cntr gprg1 rl_idx) g1)
        as [gprg3 g3]. cbn [fst] in H3.
      set (step4 := if negb (gpc_group_get_summary (earg_gprg earg) =? 0)
                    then gpc_group_hw_ntfy_modify gprg3 _ g3
                    else (gprg3, g3)).
      assert (H4 : gprg_rules (fst step4) = gprg_rules gprg3)
        by (subst step4; now destruct (negb _)).
      destruct step4 as [gprg4 g4]. cbn [fst] in H4.
      cbn [fst snd earg_gprg earg_with_gprg earg_attr_rule earg_num_rules
           earg_with_num_rules].
      assert (Hrules : gprg_rules gprg4
                       = rule_remove (gprg_rules (earg_gprg earg)) rl_idx)
        by (now rewrite H4, H3, H2).
      repeat split; try discriminate; try assumption; try congruence.
      intros j Hj. unfold gpc_rule_get_rule. rewrite Hrules.
      now rewrite rule_lookup_remove_ne.
    + repeat split; try discriminate; congruence.
Qed.

(** X14.  [pmf_arlg_rule_change_cntg] on a group with a Counter-Group
    returns without calling [pmf_arlg_rl_attr_check] in two cases: when
    the new attribute rule asks for numbered counters and the group has
    them, nothing changes at all, whatever else the rule says; when the
    new attribute rule no longer asks for counters, only the Counter-Group
    is removed from the group, and the deferrals flag stays. *)
Theorem change_cntg_returns_early (earg : pmf_group_ext) (cntg : gpc_cntg)
  (attr_rule : pmf_rule) (g : glob) :
  gpc_group_get_cntg (earg_gprg earg) = Some cntg ->
  let r := pmf_arlg_rule_change_cntg ras hw gprs earg attr_rule g in
  (flag_test (pp_summary attr_rule) (PMF_RAS_COUNT_DEF ras) = true ->
   attr_cntr_type ras attr_rule = GPC_CNTT_NUMBERED ->
   gpc_cntg_type cntg = GPC_CNTT_NUMBERED ->
   r = (earg, g))
  /\ (flag_test (pp_summary attr_rule) (PMF_RAS_COUNT_DEF ras) = false ->
      fst r = earg_with_gprg (gprg_with_cntg None (earg_gprg earg)) earg
      /\ deferrals (snd r) = deferrals g).
Proof.
  intros Hc r. subst r. unfold pmf_arlg_rule_change_cntg. rewrite Hc.
  split.
  - intros -> -> ->. reflexivity.
  - intros ->. cbn [negb].
    unfold pmf_arlg_rule_delete_cntg, gpc_cntg_release, gpc_group_set_cntg.
    destruct (gpc_cntg_type cntg); cbn [fst snd]; [auto|].
    pose proof (foreach_release_only_cntg
                  (map cntr_name (gprg_cntrs (earg_gprg earg)))
                  (earg_gprg earg) g) as H1.
    pose proof (foreach_release_deferrals
                  (map cntr_name (gprg_cntrs (earg_gprg earg)))
                  (earg_gprg earg) g) as H2.
    destruct (gpc_cntr_foreach_release _ (earg_gprg earg) g) as [p1 g1].
    cbn [fst snd] in *. now rewrite H1, H2.
Qed.

End RuleDelete.

(* ------------------------------------------------------------------ *)
(** ** The handlers of the attach point events *)

Lemma glob_flags_kept_refl (g : glob) : glob_flags_kept g g.
Proof. unfold glob_flags_kept. auto. Qed.

Lemma glob_flags_kept_trans (g1 g2 g3 : glob) :
  glob_flags_kept g1 g2 -> glob_flags_kept g2 g3 -> glob_flags_kept g1 g3.
Proof.
  unfold glob_flags_kept. intros (A & B & C) (A' & B' & C').
  rewrite A', B', C'. auto.
Qed.

Lemma grp_updn_groups (gprs : gpc_rlset) (is_up : bool)
  (groups : list pmf_group_ext) :
  forall g : glob,
  let r := groups_foreach (pmf_arlg_attpt_grp_updn_handler gprs is_up) groups g in
  hw_queue (snd r)
  = hw_queue g
      ++ map (fun earg =>
                if is_up then NtfyGroupAttach (gprg_name (earg_gprg earg))
                else NtfyGroupDetach (gprg_name (earg_gprg earg)))
           (filter is_acl_group groups)
  /\ glob_flags_kept g (snd r)
  /\ map (fun earg => gprg_name (earg_gprg earg)) (filter is_acl_group (fst r))
     = map (fun earg => gprg_name (earg_gprg earg)) (filter is_acl_group groups)
  /\ Forall (fun earg =>
               is_acl_group earg = true ->
               gprg_attached (earg_gprg earg)
               = if is_up
                 then match gprs_ifp gprs with
                      | Some _ => true
                      | None => gprg_attached (earg_gprg earg)
                      end
                 else false)
       (fst r)
  /\ List.length (fst r) = List.length groups.
Proof.
  induction groups as [|e rest IH]; intros g; simpl.
  - rewrite app_nil_r. repeat split; auto using glob_flags_kept_refl.
  - assert (He : let r1 := pmf_arlg_attpt_grp_updn_handler gprs is_up e g in
                 hw_queue (snd r1)
                 = hw_queue g
                     ++ (if is_acl_group e
                         then [if is_up
                               then NtfyGroupAttach (gprg_name (earg_gprg e))
                               else NtfyGroupDetach (gprg_name (earg_gprg e))]
                         else [])
                 /\ glob_flags_kept g (snd r1)
                 /\ is_acl_group (fst r1) = is_acl_group e
                 /\ gprg_name (earg_gprg (fst r1)) = gprg_name (earg_gprg e)
                 /\ (is_acl_group e = true ->
                     gprg_attached (earg_gprg (fst r1))
                     = if is_up
                       then match gprs_ifp gprs with
                            | Some _ => true
                            | None => gprg_attached (earg_gprg (fst r1))
                            end
                       else false)).
    { unfold pmf_arlg_attpt_grp_updn_handler, is_acl_group,
        gpc_group_hw_ntfy_attach, gpc_group_hw_ntfy_detach, glob_flags_kept.
      destruct (gpc_feature_is_acl (gprg_feature (earg_gprg e))) eqn:E; simpl.
      - destruct is_up; [destruct (gprs_ifp gprs)|]; simpl;
          repeat split; auto.
      - rewrite app_nil_r. repeat split; auto. discriminate. }
    destruct (pmf_arlg_attpt_grp_updn_handler gprs is_up e g) as [e1 g1].
    simpl in He. destruct He as (Hq & Hk & Hacl & Hname & Hatt).
    destruct (IH g1) as (Hq' & Hk' & Hn' & Ha' & Hl').
    destruct (groups_foreach (pmf_arlg_attpt_grp_updn_handler gprs is_up) rest g1)
      as [rest1 g2]. simpl in *.
    rewrite Hq', Hq, Hacl. split; [|split; [|split; [|split]]].
    + destruct (is_acl_group e); simpl; now rewrite <- app_assoc.
    + eapply glob_flags_kept_trans; eauto.
    + destruct (is_acl_group e); simpl; now rewrite ?Hname, Hn'.
    + constructor; [|exact Ha']. rewrite Hacl. exact Hatt.
    + now rewrite Hl'.
Qed.

(** X15.  [pmf_arlg_attpt_rls_updn]: going up without an interface to bind
    does nothing; going up binds the interface and then notifies the
    attach of every ACL group in order, which leaves them attached; going
    down notifies the detach of every ACL group in order, which leaves
    them detached, and then unbinds the interface.  The names of the
    groups, the interface-created mark, the two flags of the file and the
    flushed batches are untouched. *)
Theorem rls_updn_binds_then_notifies (is_up : bool) (ifp : option Z)
  (gprs : gpc_rlset) (g : glob) :
  let r := pmf_arlg_attpt_rls_updn is_up ifp gprs g in
  (is_up = true -> ifp = None -> r = (gprs, g))
  /\ (is_up = true -> ifp <> None ->
      gprs_ifp (fst r) = ifp
      /\ hw_queue (snd r)
         = hw_queue g ++ map NtfyGroupAttach (acl_group_names gprs)
      /\ Forall (fun earg =>
                   is_acl_group earg = true ->
                   gprg_attached (earg_gprg earg) = true)
           (gprs_groups (fst r)))
  /\ (is_up = false ->
      gprs_ifp (fst r) = None
      /\ hw_queue (snd r)
         = hw_queue g ++ map NtfyGroupDetach (acl_group_names gprs)
      /\ Forall (fun earg =>
                   is_acl_group earg = true ->
                   gprg_attached (earg_gprg earg) = false)
           (gprs_groups (fst r)))
  /\ acl_group_names (fst r) = acl_group_names gprs
  /\ gprs_if_created (fst r) = gprs_if_created gprs
  /\ glob_flags_kept g (snd r).
Proof.
  intros r. subst r. unfold pmf_arlg_attpt_rls_updn, acl_group_names.
  destruct is_up.
  - destruct ifp as [i|]; simpl.
    + set (gprs1 := gprs_with_ifp (Some i) gprs).
      destruct (grp_updn_groups gprs1 true (gprs_groups gprs) g)
        as (Hq & Hk & Hn & Ha & _).
      change (gprs_groups gprs1) with (gprs_groups gprs).
      destruct (groups_foreach (pmf_arlg_attpt_grp_updn_handler gprs1 true)
                  (gprs_groups gprs) g) as [groups g1].
      simpl in *. rewrite ?map_map.
      repeat split; try discriminate; auto; try apply Hk.
    + repeat split; try discriminate; auto; try congruence.
  - simpl.
    destruct (grp_updn_groups gprs false (gprs_groups gprs) g)
      as (Hq & Hk & Hn & Ha & _).
    destruct (groups_foreach (pmf_arlg_attpt_grp_updn_handler gprs false)
                (gprs_groups gprs) g) as [groups g1].
    simpl in *. rewrite ?map_map.
    repeat split; try discriminate; auto; apply Hk.
Qed.

(** X16.  [pmf_arlg_attpt_rls_if_created] marks the ruleset
    interface-created and is idempotent: on its own result it does
    nothing.  The interface binding is kept; the attach of every ACL group
    is notified, in order, exactly when the mark was not set and the
    ruleset is bound to an interface. *)
Theorem rls_if_created_once (gprs : gpc_rlset) (g g' : glob) :
  let r := pmf_arlg_attpt_rls_if_created gprs g in
  gprs_if_created (fst r) = true
  /\ pmf_arlg_attpt_rls_if_created (fst r) g' = (fst r, g')
  /\ gprs_ifp (fst r) = gprs_ifp gprs
  /\ hw_queue (snd r)
     = hw_queue g
         ++ (if gprs_if_created gprs then []
             else match gprs_ifp gprs with
                  | Some _ => map NtfyGroupAttach (acl_group_names gprs)
                  | None => []
                  end)
  /\ glob_flags_kept g (snd r).
Proof.
  intros r.
  assert (H : gprs_if_created (fst r) = true
              /\ gprs_ifp (fst r) = gprs_ifp gprs
              /\ hw_queue (snd r)
                 = hw_queue g
                     ++ (if gprs_if_created gprs then []
                         else match gprs_ifp gprs with
                              | Some _ => map NtfyGroupAttach (acl_group_names gprs)
                              | None => []
                              end)
              /\ glob_flags_kept g (snd r)).
  { subst r. unfold pmf_arlg_attpt_rls_if_created, gpc_rlset_is_if_created,
      gpc_rlset_get_ifp, gpc_rlset_set_if_created, acl_group_names.
    destruct (gprs_if_created gprs) eqn:Hc; simpl.
    - rewrite app_nil_r. auto using glob_flags_kept_refl.
    - destruct (gprs_ifp gprs) as [i|] eqn:Hi; simpl.
      + set (gprs1 := gprs_with_if_created true gprs).
        destruct (grp_updn_groups gprs1 true (gprs_groups gprs) g)
          as (Hq & Hk & _).
        destruct (groups_foreach (pmf_arlg_attpt_grp_updn_handler gprs1 true)
                    (gprs_groups gprs) g) as [groups g1].
        simpl in *. rewrite map_map. auto.
      + rewrite app_nil_r. auto using glob_flags_kept_refl. }
  destruct H as (H1 & H2 & H3 & H4).
  repeat split; try assumption; try apply H4.
  unfold pmf_arlg_attpt_rls_if_created at 1, gpc_rlset_is_if_created.
  now rewrite H1.
Qed.

Lemma glob_queues_only_refl (g : glob) : glob_queues_only g g.
Proof.
  split; [apply glob_flags_kept_refl|]. exists []. now rewrite app_nil_r.
Qed.

Lemma glob_queues_only_trans (g1 g2 g3 : glob) :
  glob_queues_only g1 g2 -> glob_queues_only g2 g3 -> glob_queues_only g1 g3.
Proof.
  intros (K1 & l1 & Q1) (K2 & l2 & Q2). split.
  - eapply glob_flags_kept_trans; eauto.
  - exists (l1 ++ l2). now rewrite Q2, Q1, app_assoc.
Qed.

Lemma rlset_apply_queues_only (if_name : string) (dir_in : bool)
  (f : gpc_rlset -> glob -> gpc_rlset * glob) :
  (forall s g, glob_queues_only g (snd (f s g))) ->
  forall (db : gpc_db) (g : glob),
  glob_queues_only g (snd (rlset_apply if_name dir_in f db g)).
Proof.
  intros Hf. induction db as [|s rest IH]; intros g; simpl.
  - apply glob_queues_only_refl.
  - destruct (_ && _).
    + specialize (Hf s g). destruct (f s g). exact Hf.
    + specialize (IH g). destruct (rlset_apply if_name dir_in f rest g).
      exact IH.
Qed.

Lemma rls_updn_queues_only (is_up : bool) (ifp : option Z) (s : gpc_rlset)
  (g : glob) :
  glob_queues_only g (snd (pmf_arlg_attpt_rls_updn is_up ifp s g)).
Proof.
  unfold pmf_arlg_attpt_rls_updn.
  destruct is_up.
  - destruct ifp as [i|]; simpl; [|apply glob_queues_only_refl].
    set (gprs1 := gprs_with_ifp (Some i) s).
    destruct (grp_updn_groups gprs1 true (gprs_groups s) g) as (Hq & Hk & _).
    change (gprs_groups gprs1) with (gprs_groups s).
    destruct (groups_foreach (pmf_arlg_attpt_grp_updn_handler gprs1 true)
                (gprs_groups s) g) as [groups g1].
    simpl in *. split; [exact Hk|eauto].
  - simpl.
    destruct (grp_updn_groups s false (gprs_groups s) g) as (Hq & Hk & _).
    destruct (groups_foreach (pmf_arlg_attpt_grp_updn_handler s false)
                (gprs_groups s) g) as [groups g1].
    simpl in *. split; [exact Hk|eauto].
Qed.

Lemma rls_if_created_queues_only (s : gpc_rlset) (g : glob) :
  glob_queues_only g (snd (pmf_arlg_attpt_rls_if_created s g)).
Proof.
  unfold pmf_arlg_attpt_rls_if_created, gpc_rlset_is_if_created,
    gpc_rlset_get_ifp, gpc_rlset_set_if_created.
  destruct (gprs_if_created s); simpl; [apply glob_queues_only_refl|].
  destruct (gprs_ifp s) as [i|]; simpl; [|apply glob_queues_only_refl].
  set (gprs1 := gprs_with_if_created true s).
  destruct (grp_updn_groups gprs1 true (gprs_groups s) g) as (Hq & Hk & _).
  destruct (groups_foreach (pmf_arlg_attpt_grp_updn_handler gprs1 true)
              (gprs_groups s) g) as [groups g1].
  simpl in *. split; [exact Hk|eauto].
Qed.

Lemma forced_commit (any_sets : bool) (g g2 : glob) :
  glob_queues_only g g2 ->
  let g' := if any_sets && negb (commit_pending g2)
            then pmf_hw_commit g2 else g2 in
  deferrals g' = deferrals g
  /\ commit_pending g' = commit_pending g
  /\ (commit_pending g = false -> any_sets = true -> hw_queue g' = [])
  /\ (commit_pending g = true ->
      hw_flushed g' = hw_flushed g
      /\ exists l, hw_queue g' = hw_queue g ++ l).
Proof.
  intros ((Hd & Hc & Hf) & l & Hq). simpl. rewrite Hc.
  destruct (commit_pending g); simpl.
  - rewrite andb_false_r. repeat split; auto; try discriminate. eauto.
  - rewrite andb_true_r. destruct any_sets; simpl.
    + unfold pmf_hw_commit. destruct (hw_queue g2) eqn:E; simpl;
        repeat split; auto; discriminate.
    + repeat split; auto; discriminate.
Qed.

(** X17.  [pmf_arlg_attpt_ap_ev_handler], and
    [pmf_arlg_if_feat_mode_change] on the event it handles, never change
    the two flags of the file.  With no commit pending and a ruleset
    found, on an interface with an attach point for the feature event,
    they end with the queue of the hardware layer empty; with a commit
    pending they flush nothing and only add to the queue. *)
Theorem interface_events_force_commit :
  (forall (event : npf_attpt_ev_type) (if_name : string)
          (has_in has_out : bool) (ifp : option Z) (db : gpc_db) (g : glob),
      let g' := snd (pmf_arlg_attpt_ap_ev_handler event if_name has_in has_out
                       ifp db g) in
      deferrals g' = deferrals g
      /\ commit_pending g' = commit_pending g
      /\ (commit_pending g = false -> has_in || has_out = true ->
          hw_queue g' = [])
      /\ (commit_pending g = true ->
          hw_flushed g' = hw_flushed g
          /\ exists l, hw_queue g' = hw_queue g ++ l))
  /\ (forall (if_name : string) (has_ap has_in has_out : bool) (db : gpc_db)
             (g : glob),
      let g' := snd (pmf_arlg_if_feat_mode_change if_name true has_ap has_in
                       has_out db g) in
      deferrals g' = deferrals g
      /\ commit_pending g' = commit_pending g
      /\ (commit_pending g = false -> has_ap = true ->
          has_in || has_out = true -> hw_queue g' = [])
      /\ (commit_pending g = true ->
          hw_flushed g' = hw_flushed g
          /\ exists l, hw_queue g' = hw_queue g ++ l)).
Proof.
  split.
  - intros event if_name has_in has_out ifp db g.
    unfold pmf_arlg_attpt_ap_ev_handler.
    set (is_up := match event with NPF_ATTPT_EV_UP => true | _ => false end).
    assert (H1 : glob_queues_only g
                   (snd (if has_in
                         then rlset_apply if_name true
                                (pmf_arlg_attpt_rls_updn is_up ifp) db g
                         else (db, g)))).
    { destruct has_in; [|apply glob_queues_only_refl].
      apply rlset_apply_queues_only. apply rls_updn_queues_only. }
    destruct (if has_in
              then rlset_apply if_name true (pmf_arlg_attpt_rls_updn is_up ifp) db g
              else (db, g)) as [db1 g1].
    cbn [snd] in H1.
    assert (H2 : glob_queues_only g1
                   (snd (if has_out
                         then rlset_apply if_name false
                                (pmf_arlg_attpt_rls_updn is_up ifp) db1 g1
                         else (db1, g1)))).
    { destruct has_out; [|apply glob_queues_only_refl].
      apply rlset_apply_queues_only. apply rls_updn_queues_only. }
    destruct (if has_out
              then rlset_apply if_name false (pmf_arlg_attpt_rls_updn is_up ifp)
                     db1 g1
              else (db1, g1)) as [db2 g2].
    cbn [snd] in H2. cbn [snd].
    apply (forced_commit (has_in || has_out) g g2).
    eapply glob_queues_only_trans; eauto.
  - intros if_name has_ap has_in has_out db g.
    unfold pmf_arlg_if_feat_mode_change. cbn [negb].
    destruct has_ap; cbn [negb snd].
    + assert (H1 : glob_queues_only g
                     (snd (if has_in
                           then rlset_apply if_name true
                                  pmf_arlg_attpt_rls_if_created db g
                           else (db, g)))).
      { destruct has_in; [|apply glob_queues_only_refl].
        apply rlset_apply_queues_only. apply rls_if_created_queues_only. }
      destruct (if has_in
                then rlset_apply if_name true pmf_arlg_attpt_rls_if_created db g
                else (db, g)) as [db1 g1].
      cbn [snd] in H1.
      assert (H2 : glob_queues_only g1
                     (snd (if has_out
                           then rlset_apply if_name false
                                  pmf_arlg_attpt_rls_if_created db1 g1
                           else (db1, g1)))).
      { destruct has_out; [|apply glob_queues_only_refl].
        apply rlset_apply_queues_only. apply rls_if_created_queues_only. }
      destruct (if has_out
                then rlset_apply if_name false pmf_arlg_attpt_rls_if_created
                       db1 g1
                else (db1, g1)) as [db2 g2].
      cbn [snd] in H2. cbn [snd].
      destruct (forced_commit (has_in || has_out) g g2) as (A & B & C & D);
        [eapply glob_queues_only_trans; eauto|].
      repeat split; auto; apply D; assumption.
    + repeat split; auto; try discriminate.
      exists []. now rewrite app_nil_r.
Qed.

Lemma calloc_keeps (g g1 : glob) (r : option addr) :
  calloc g = (r, g1) ->
  hw_queue g1 = hw_queue g /\ deferrals g1 = deferrals g
  /\ commit_pending g1 = commit_pending g.
Proof.
  unfold calloc. destruct (allocs g) as [|[|] rest]; intros H;
    inversion H; subst; simpl; auto.
Qed.

Section GroupAttach.

Variable ras : pmf_ras.
Variable hw : pmf_hw.

Lemma rl_add_attr_rule (gprs : gpc_rlset) (earg : pmf_group_ext)
  (rule : pmf_rule) (g : glob) :
  earg_attr_rule (snd (fst (pmf_arlg_rl_add ras hw gprs earg rule UINT32_MAX g)))
  = match earg_attr_rule earg with Some r => Some r | None => Some rule end.
Proof.
  unfold pmf_arlg_rl_add. rewrite Z.eqb_refl.
  destruct (earg_attr_rule earg) eqn:E; [exact E|].
  destruct (pmf_arlg_rule_create_cntg ras hw (earg_gprg earg) rule g).
  match goal with
  | |- context [pmf_arlg_rl_attr_check ?a ?b ?c ?d ?e] =>
      destruct (pmf_arlg_rl_attr_check a b c d e)
  end.
  reflexivity.
Qed.

Lemma rl_add_rule_attr_rule (gprs : gpc_rlset) (earg : pmf_group_ext)
  (rule : pmf_rule) (rl_idx : Z) (g : glob) :
  rl_idx <> UINT32_MAX ->
  earg_attr_rule (snd (fst (pmf_arlg_rl_add ras hw gprs earg rule rl_idx g)))
  = earg_attr_rule earg.
Proof.
  intros Hidx. unfold pmf_arlg_rl_add.
  apply Z.eqb_neq in Hidx. rewrite Hidx.
  destruct (match gpc_group_get_cntg (earg_gprg earg) with
            | Some cntg =>
                if pmf_arlg_rule_needs_cntr ras cntg rule
                then pmf_arlg_rule_get_cntr ras (earg_gprg earg) cntg rule
                       rl_idx g
                else (None, earg_gprg earg, g)
            | None => (None, earg_gprg earg, g)
            end) as [[cntr gprg1] g1].
  unfold gpc_rule_create.
  destruct (calloc g1) as [[a|] g2].
  - destruct (gpc_cntr_hw_ntfy_create hw _ cntr g2) as [gprg4 g4].
    destruct (gpc_rule_change_rule gprg4 rl_idx rule g4) as [gprg5 g5].
    reflexivity.
  - destruct (gpc_cntr_release_opt gprg1 cntr g2) as [gprg3 g3].
    reflexivity.
Qed.

Lemma rl_add_num_rules (gprs : gpc_rlset) (earg : pmf_group_ext)
  (rule : pmf_rule) (rl_idx : Z) (g : glob) :
  let e' := snd (fst (pmf_arlg_rl_add ras hw gprs earg rule rl_idx g)) in
  gprg_name (earg_gprg e') = gprg_name (earg_gprg earg)
  /\ gprg_feature (earg_gprg e') = gprg_feature (earg_gprg earg)
  /\ earg_num_rules e'
     = (if rl_idx =? UINT32_MAX then earg_num_rules earg
        else u32 (earg_num_rules earg + 1))
  /\ earg_attr_rule e'
     = (if rl_idx =? UINT32_MAX
        then match earg_attr_rule earg with
             | Some r => Some r
             | None => Some rule
             end
        else earg_attr_rule earg).
Proof.
  intros e'. subst e'.
  destruct (rl_add_keeps_pub ras hw gprs earg rule rl_idx g) as (_ & Hn & Hf).
  split; [exact Hn|split; [exact Hf|]].
  destruct (Z.eqb_spec rl_idx UINT32_MAX) as [->|Hne].
  - split; [|apply rl_add_attr_rule].
    apply (rl_add_attr_keeps ras hw gprs).
  - destruct (rl_add_rule_counts ras hw gprs earg rule rl_idx g Hne)
      as (_ & Hc & _).
    split; [exact Hc|].
    apply rl_add_rule_attr_rule. exact Hne.
Qed.

Lemma group_walk_builds (gprs : gpc_rlset)
  (cfg : list npf_cfg_rule_walk_state) :
  forall (earg : pmf_group_ext) (g : glob) (c : Z),
  earg_num_rules earg = u32 c ->
  let e' := fst (npf_cfg_rule_group_walk ras hw gprs cfg earg g) in
  gprg_name (earg_gprg e') = gprg_name (earg_gprg earg)
  /\ gprg_feature (earg_gprg e') = gprg_feature (earg_gprg earg)
  /\ earg_num_rules e' = u32 (c + cfg_num_rules cfg)
  /\ earg_attr_rule e'
     = match earg_attr_rule earg with
       | Some r => Some r
       | None => cfg_attr_rule cfg
       end.
Proof.
  unfold cfg_num_rules, cfg_attr_rule.
  induction cfg as [|grp rest IH]; intros earg g c Hc; simpl.
  - rewrite Z.add_0_r. repeat split; auto. now destruct (earg_attr_rule earg).
  - unfold pmf_arlg_group_build.
    destruct (rl_add_num_rules gprs earg (ws_parsed grp) (ws_index grp) g)
      as (Hn & Hf & Hnum & Hattr).
    destruct (pmf_arlg_rl_add ras hw gprs earg (ws_parsed grp) (ws_index grp) g)
      as [[ok e1] g1]. simpl in Hn, Hf, Hnum, Hattr.
    destruct (ws_index grp =? UINT32_MAX) eqn:Hidx; simpl.
    + destruct (IH e1 g1 c) as (Hn' & Hf' & Hnum' & Hattr');
        [now rewrite Hnum|].
      rewrite Hn', Hf', Hnum', Hattr', Hn, Hf, Hattr.
      repeat split. now destruct (earg_attr_rule earg).
    + destruct (IH e1 g1 (c + 1)) as (Hn' & Hf' & Hnum' & Hattr').
      { rewrite Hnum, Hc. apply u32_add_l. }
      rewrite Hn', Hf', Hnum', Hattr', Hn, Hf, Hattr.
      repeat split. f_equal. lia.
Qed.

(** X18.  The group-add event on an interface attach point and an ACL
    ruleset.  When the extension cannot be installed, the listener cannot
    be registered or there is no memory for the extension, the ruleset,
    the two flags and the queue are as before; when nothing fails and
    memory is never short, one group is appended; and whenever a group is
    appended it has the name of the rule group, is an ACL group, counts
    the configured rules at indices other than [UINT32_MAX] modulo 2^32
    and holds the first configured attribute rule, and both flags of the
    file are set. *)
Theorem grp_attach_builds_group (rg_name : string)
  (rls_type : npf_ruleset_type) (set_extend_ok : bool) (reg_rc : Z)
  (cfg : list npf_cfg_rule_walk_state) (gprs : gpc_rlset) (g : glob) :
  rls_type <> NPF_RS_OTHER ->
  let r := pmf_arlg_attpt_grp_ev_handler ras hw NPF_ATTPT_EV_GRP_ADD
             NPF_ATTACH_TYPE_INTERFACE NPF_RULE_CLASS_ACL rg_name rls_type
             set_extend_ok reg_rc cfg gprs g in
  (set_extend_ok = false \/ reg_rc <> 0 \/ fst (calloc g) = None ->
   fst r = gprs
   /\ deferrals (snd r) = deferrals g
   /\ commit_pending (snd r) = commit_pending g
   /\ hw_queue (snd r) = hw_queue g)
  /\ (set_extend_ok = true -> reg_rc = 0 -> allocs g = [] ->
      exists earg, gprs_groups (fst r) = gprs_groups gprs ++ [earg])
  /\ (forall earg : pmf_group_ext,
      gprs_groups (fst r) = gprs_groups gprs ++ [earg] ->
      gprg_name (earg_gprg earg) = rg_name
      /\ is_acl_group earg = true
      /\ earg_num_rules earg = u32 (cfg_num_rules cfg)
      /\ earg_attr_rule earg = cfg_attr_rule cfg
      /\ deferrals (snd r) = true
      /\ commit_pending (snd r) = true).
Proof.
  intros Hrls r.
  assert (Hr : r = match calloc g with
                   | (None, g1) => (gprs, g1)
                   | (Some _, g1) =>
                       match gpc_group_create GPC_FEAT_ACL rg_name g1 with
                       | (None, g2) => (gprs, g2)
                       | (Some gprg, g2) =>
                           let earg :=
                             mk_pmf_group_ext (gpc_group_set_deferred gprg) []
                               None 0 0 in
                           if negb set_extend_ok then (gprs, g2)
                           else if negb (reg_rc =? 0) then (gprs, g2)
                           else
                             let '(earg1, g3) :=
                               npf_cfg_rule_group_walk ras hw gprs cfg earg g2 in
                             (gprs_with_groups (gprs_groups gprs ++ [earg1]) gprs,
                              glob_with_commit_pending true
                                (glob_with_deferrals true g3))
                       end
                   end).
  { subst r. unfold pmf_arlg_attpt_grp_ev_handler.
    destruct rls_type; [reflexivity|reflexivity|now elim Hrls]. }
  clearbody r. subst r.
  assert (Hno : forall (l : list pmf_group_ext) (e : pmf_group_ext),
                  l <> l ++ [e]).
  { intros l e H. apply (f_equal (@List.length _)) in H.
    rewrite length_app in H. simpl in H. lia. }
  split; [|split].
  - intros Hfail.
    destruct (calloc g) as [[a|] g1] eqn:Hc.
    + destruct (calloc_keeps g g1 (Some a) Hc) as (Hq & Hd & Hp).
      unfold gpc_group_create.
      destruct (calloc g1) as [[b|] g2] eqn:Hc2;
        destruct (calloc_keeps g1 g2 _ Hc2) as (Hq2 & Hd2 & Hp2);
        [|simpl; rewrite Hq2, Hd2, Hp2; auto].
      destruct Hfail as [->|[Hreg|Hnone]].
      * simpl. rewrite Hq2, Hd2, Hp2. auto.
      * apply Z.eqb_neq in Hreg. rewrite Hreg. simpl.
        destruct (negb set_extend_ok); simpl; rewrite Hq2, Hd2, Hp2; auto.
      * discriminate.
    + destruct (calloc_keeps g g1 None Hc) as (Hq & Hd & Hp). simpl. auto.
  - intros -> -> Hall.
    unfold gpc_group_create, calloc. rewrite Hall. simpl.
    match goal with
    | |- context [npf_cfg_rule_group_walk ?a ?b ?c ?d ?e ?f] =>
        destruct (npf_cfg_rule_group_walk a b c d e f) as [earg1 g3]
    end.
    simpl. eauto.
  - intros earg He.
    destruct (calloc g) as [[a|] g1]; [|simpl in He; now elim (Hno _ _ He)].
    unfold gpc_group_create in He |- *.
    destruct (calloc g1) as [[b|] g2]; [|simpl in He; now elim (Hno _ _ He)].
    destruct (negb set_extend_ok); [simpl in He; now elim (Hno _ _ He)|].
    destruct (negb (reg_rc =? 0)); [simpl in He; now elim (Hno _ _ He)|].
    cbv zeta in He |- *.
    set (earg0 := mk_pmf_group_ext
                    (gpc_group_set_deferred
                       (mk_gpc_group rg_name GPC_FEAT_ACL 0 false false false
                          None None [])) [] None 0 0) in *.
    destruct (group_walk_builds gprs cfg earg0 g2 0 eq_refl)
      as (Hn & Hf & Hnum & Hattr).
    destruct (npf_cfg_rule_group_walk ras hw gprs cfg earg0 g2) as [earg1 g3].
    simpl in He. apply app_inv_head in He. injection He as <-.
    simpl in Hn, Hf, Hnum, Hattr. unfold is_acl_group. rewrite Hf.
    simpl. auto 10.
Qed.

End GroupAttach.

Lemma rev_nil_iff {A : Type} (l : list A) : rev l = [] <-> l = [].
Proof.
  split; intros H; [|now subst].
  apply (f_equal (@rev A)) in H. now rewrite rev_involutive in H.
Qed.

Lemma gpc_rule_last_in (p : gpc_group) (i : Z) :
  gpc_rule_last p = Some i -> In i (map gprl_index (gprg_rules p)).
Proof.
  unfold gpc_rule_last. destruct (rev (gprg_rules p)) as [|r l] eqn:E;
    [discriminate|].
  intros [= <-]. apply in_map. apply in_rev. rewrite E. now left.
Qed.

Lemma release_fields (p : gpc_group) (c : string) (g : glob) :
  gprg_published (snd (fst (gpc_cntr_release p c g))) = gprg_published p
  /\ (gprg_cntg p = None -> gprg_cntg (snd (fst (gpc_cntr_release p c g))) = None).
Proof.
  unfold gpc_cntr_release, gprg_with_cntrs.
  destruct (gcntr_lookup (gprg_cntrs p) c); [|auto].
  destruct (0 <? _); simpl; destruct (gprg_cntg p) eqn:E; simpl;
    (split; [reflexivity|intros H; congruence]).
Qed.

Lemma release_opt_fields (p : gpc_group) (c : option string) (g : glob) :
  gprg_published (fst (gpc_cntr_release_opt p c g)) = gprg_published p
  /\ (gprg_cntg p = None -> gprg_cntg (fst (gpc_cntr_release_opt p c g)) = None).
Proof.
  unfold gpc_cntr_release_opt. destruct c as [c|]; [|auto].
  pose proof (release_fields p c g) as H.
  destruct (gpc_cntr_release p c g) as [[b p1] g1]. exact H.
Qed.

Lemma release_while_last_rules (fuel : nat) :
  forall (p : gpc_group) (g : glob),
  gprg_rules (fst (gpc_cntr_release_while_last fuel p g)) = gprg_rules p
  /\ gprg_published (fst (gpc_cntr_release_while_last fuel p g))
     = gprg_published p.
Proof.
  induction fuel as [|fuel IH]; intros p g; simpl; [auto|].
  destruct (gpc_cntr_last p) as [c|]; [|auto].
  pose proof (release_rules p c g) as Hr.
  pose proof (release_fields p c g) as (Hp & _).
  destruct (gpc_cntr_release p c g) as [[b p1] g1]. cbn [fst snd] in Hr, Hp.
  destruct (IH p1 g1) as (H1 & H2). now rewrite H1, H2, Hr, Hp.
Qed.

Lemma grp_del_rules_empties (fuel : nat) :
  forall (earg : pmf_group_ext) (g : glob),
  (List.length (gprg_rules (earg_gprg earg)) <= fuel)%nat ->
  let e' := fst (grp_del_rules fuel earg g) in
  gprg_rules (earg_gprg e') = []
  /\ gprg_published (earg_gprg e') = gprg_published (earg_gprg earg)
  /\ (gprg_cntg (earg_gprg earg) = None -> gprg_cntg (earg_gprg e') = None).
Proof.
  induction fuel as [|fuel IH]; intros earg g Hlen; simpl.
  - destruct (gprg_rules (earg_gprg earg)); [auto|simpl in Hlen; lia].
  - destruct (gpc_rule_last (earg_gprg earg)) as [cursor|] eqn:Hlast.
    + pose proof (gpc_rule_last_in _ _ Hlast) as Hin.
      pose proof (rule_remove_length _ _ Hin) as Hrm.
      set (gprg1 := gpc_rule_delete (earg_gprg earg) cursor).
      pose proof (release_opt_rules gprg1
                    (gpc_rule_get_cntr (earg_gprg earg) cursor) g) as Hr.
      pose proof (release_opt_fields gprg1
                    (gpc_rule_get_cntr (earg_gprg earg) cursor) g) as (Hp & Hc).
      destruct (gpc_cntr_release_opt gprg1
                  (gpc_rule_get_cntr (earg_gprg earg) cursor) g) as [gprg2 g2].
      cbn [fst] in Hr, Hp, Hc.
      match goal with
      | |- context [grp_del_rules fuel ?e ?g0] =>
          destruct (IH e g0) as (H1 & H2 & H3)
      end.
      { simpl. rewrite Hr. unfold gprg1. simpl. lia. }
      simpl in H2, H3. rewrite H1, H2, Hp. repeat split.
      intros Hnone. apply H3. apply Hc. exact Hnone.
    + unfold gpc_rule_last in Hlast.
      destruct (rev (gprg_rules (earg_gprg earg))) eqn:E; [|discriminate].
      apply (proj1 (rev_nil_iff _)) in E. auto.
Qed.

(** X19.  The detach branch of [pmf_arlg_attpt_grp_ev_handler] leaves
    nothing in the group before it is freed: the loop over
    [gpc_rule_last] deletes every rule, the Counter-Group is gone, the
    rule count is 0, there is no attribute rule, the group is not visible
    to hardware, and the hardware layer was sent the teardown
    notifications in order. *)
Theorem grp_detach_empties_group (earg : pmf_group_ext) (g : glob) :
  let e' := fst (grp_ev_detach earg g) in
  gprg_rules (earg_gprg e') = []
  /\ gprg_cntg (earg_gprg e') = None
  /\ earg_num_rules e' = 0
  /\ earg_attr_rule e' = None
  /\ gprg_published (earg_gprg e') = false
  /\ hw_queue (snd (grp_ev_detach earg g))
     = hw_queue g ++ teardown_ntfys (earg_gprg earg).
Proof.
  intros e'.
  assert (H : gprg_rules (earg_gprg e') = []
              /\ gprg_cntg (earg_gprg e') = None
              /\ earg_num_rules e' = 0
              /\ earg_attr_rule e' = None
              /\ gprg_published (earg_gprg e') = false).
  { subst e'. unfold grp_ev_detach.
    cbv beta iota zeta delta [gpc_group_hw_ntfy_detach
                               gpc_group_hw_ntfy_rules_delete].
    set (gprg2 := gprg_with_rules _ (gprg_with_attached false (earg_gprg earg))).
    set (g2 := hw_emit (NtfyRulesDelete _) _).
    unfold gpc_group_get_cntg.
    assert (Hdel : forall (p : gpc_group) (g0 : glob),
              gprg_rules (fst (gpc_group_hw_ntfy_delete p g0)) = gprg_rules p
              /\ gprg_cntg (fst (gpc_group_hw_ntfy_delete p g0)) = gprg_cntg p
              /\ gprg_published (fst (gpc_group_hw_ntfy_delete p g0)) = false).
    { intros p g0. unfold gpc_group_hw_ntfy_delete.
      destruct (gprg_published p) eqn:E; simpl; auto. }
    destruct (gprg_cntg gprg2) as [c|] eqn:Hcg.
    - destruct (gpc_cntg_hw_ntfy_cntrs_delete gprg2 g2) as [gprg3 g3].
      destruct (grp_del_rules_empties (List.length (gprg_rules gprg3))
                  (earg_with_gprg gprg3 earg) g3 (le_n _)) as (Hr & Hp & _).
      destruct (grp_del_rules (List.length (gprg_rules gprg3))
                  (earg_with_gprg gprg3 earg) g3) as [earg4 g4].
      cbn [fst earg_gprg earg_with_gprg] in Hr, Hp.
      destruct (gpc_cntg_type c).
      + destruct (Hdel (gpc_group_set_cntg (gpc_cntg_release (earg_gprg earg4))
                          None) g4) as (H1 & H2 & H3).
        destruct (gpc_group_hw_ntfy_delete _ g4) as [gprg7 g7].
        cbn [fst] in H1, H2, H3. cbn. rewrite H1, H2, H3. cbn.
        unfold gpc_cntg_release. auto.
      + destruct (release_while_last_rules
                    (gpc_cntr_release_budget (earg_gprg earg4))
                    (earg_gprg earg4) g4) as (Hw & _).
        destruct (gpc_cntr_release_while_last _ (earg_gprg earg4) g4)
          as [p5 g5]. cbn [fst] in Hw.
        destruct (Hdel (gpc_group_set_cntg (gpc_cntg_release p5) None) g5)
          as (H1 & H2 & H3).
        destruct (gpc_group_hw_ntfy_delete _ g5) as [gprg7 g7].
        cbn [fst] in H1, H2, H3. cbn. rewrite H1, H2, H3. cbn.
        unfold gpc_cntg_release. rewrite Hw. auto.
    - destruct (grp_del_rules_empties (List.length (gprg_rules gprg2))
                  (earg_with_gprg gprg2 earg) g2 (le_n _)) as (Hr & Hp & Hc).
      destruct (grp_del_rules (List.length (gprg_rules gprg2))
                  (earg_with_gprg gprg2 earg) g2) as [earg4 g4].
      cbn [fst earg_gprg earg_with_gprg] in Hr, Hp, Hc.
      destruct (Hdel (earg_gprg earg4) g4) as (H1 & H2 & H3).
      destruct (gpc_group_hw_ntfy_delete (earg_gprg earg4) g4) as [gprg7 g7].
      cbn [fst] in H1, H2, H3. cbn. rewrite H1, H2, H3. auto. }
  destruct H as (H1 & H2 & H3 & H4 & H5).
  repeat split; try assumption. apply grp_ev_detach_ntfys.
Qed.

(* ------------------------------------------------------------------ *)
(** ** The JSON of the show command and the filters *)

Lemma json_run_app (l1 l2 : list jsonw_call) :
  forall st : json_state,
  json_run (l1 ++ l2) st
  = match json_run l1 st with
    | Some st' => json_run l2 st'
    | None => None
    end.
Proof.
  induction l1 as [|c l1 IH]; intros st; simpl; [reflexivity|].
  destruct (json_step c st); [apply IH|reflexivity].
Qed.

Section ShowCounters.

Variable hw : pmf_hw.

Lemma json_show_hw_cntr (a : addr) (eark : pmf_cntr) (s : list json_ctx) :
  json_run (pmf_arlg_show_hw_cntr hw a eark) (JsonObj :: s, false)
  = Some (JsonObj :: s, false).
Proof.
  unfold pmf_arlg_show_hw_cntr.
  destruct (negb _); [reflexivity|].
  destruct (pmf_hw_counter_read hw a) as [[p b]|]; [|reflexivity].
  destruct (flag_test (eark_flags eark) PMF_EARKF_CNT_PACKET),
    (flag_test (eark_flags eark) PMF_EARKF_CNT_BYTE); reflexivity.
Qed.

Lemma json_show_cntr (ak : addr * pmf_cntr) (s : list json_ctx) :
  json_run (pmf_arlg_show_cntr hw ak) (JsonArr :: s, false)
  = Some (JsonArr :: s, false).
Proof.
  destruct ak as [a eark]. unfold pmf_arlg_show_cntr.
  destruct (negb _); [reflexivity|].
  cbn [app json_run json_step].
  rewrite json_run_app, json_show_hw_cntr. reflexivity.
Qed.

Lemma json_show_cntrs (cntrs : list (addr * pmf_cntr)) (s : list json_ctx) :
  json_run (flat_map (pmf_arlg_show_cntr hw) cntrs) (JsonArr :: s, false)
  = Some (JsonArr :: s, false).
Proof.
  induction cntrs as [|ak rest IH]; simpl; [reflexivity|].
  now rewrite json_run_app, json_show_cntr.
Qed.

Lemma json_show_groups (rgname : option string) (groups : list pmf_group_ext)
  (s : list json_ctx) :
  json_run (show_groups hw rgname groups) (JsonArr :: s, false)
  = Some (JsonArr :: s, false).
Proof.
  induction groups as [|e rest IH]; simpl; [reflexivity|].
  rewrite json_run_app.
  destruct (group_selected rgname e); [|exact IH].
  cbn [app json_run json_step].
  rewrite json_run_app, json_show_cntrs. cbn [json_run json_step]. exact IH.
Qed.

Lemma json_show_rlsets (ifname : option string) (dir : Z)
  (rgname : option string) (db : gpc_db) (s : list json_ctx) :
  json_run (show_rlsets hw ifname dir rgname db) (JsonArr :: s, false)
  = Some (JsonArr :: s, false).
Proof.
  induction db as [|gprs rest IH]; simpl; [reflexivity|].
  rewrite json_run_app.
  destruct (rlset_selected ifname dir gprs); [|exact IH].
  cbn [app json_run json_step pmf_arlg_show_cntr_ruleset].
  rewrite json_run_app, json_show_groups. cbn [json_run json_step]. exact IH.
Qed.

(** X20.  [pmf_arlg_cmd_show_counters] returns [-ENOMEM] and writes
    nothing when there is no writer; otherwise it returns 0 and the calls
    on the writer form a JSON document, whatever the database, the filters
    and the answers of the hardware. *)
Theorem show_counters_json_well_formed (ifname : option string) (dir : Z)
  (rgname : option string) (db : gpc_db) :
  pmf_arlg_cmd_show_counters hw false ifname dir rgname db = (- ENOMEM, [])
  /\ fst (pmf_arlg_cmd_show_counters hw true ifname dir rgname db) = 0
  /\ json_well_formed
       (snd (pmf_arlg_cmd_show_counters hw true ifname dir rgname db)) = true.
Proof.
  split; [reflexivity|]. split; [reflexivity|].
  unfold pmf_arlg_cmd_show_counters, json_well_formed.
  cbn [negb snd app json_run json_step].
  rewrite json_run_app, json_show_rlsets. reflexivity.
Qed.

Lemma group_selected_acl (rgname : option string) (e : pmf_group_ext) :
  group_selected rgname e = true -> group_selected None e = true.
Proof.
  unfold group_selected. destruct (negb _); [discriminate|reflexivity].
Qed.

Lemma show_groups_select (rgname : option string) (groups : list pmf_group_ext) :
  show_groups hw rgname groups
  = show_groups hw None (filter (group_selected rgname) groups).
Proof.
  induction groups as [|e rest IH]; simpl; [reflexivity|].
  destruct (group_selected rgname e) eqn:E; simpl; [|exact IH].
  rewrite (group_selected_acl _ _ E). now rewrite IH.
Qed.

Lemma clear_groups_select (rgname : option string) (groups : list pmf_group_ext) :
  forall (rc : Z) (g : glob),
  clear_groups hw rgname groups rc g
  = clear_groups hw None (filter (group_selected rgname) groups) rc g.
Proof.
  induction groups as [|e rest IH]; intros rc g; simpl; [reflexivity|].
  destruct (group_selected rgname e) eqn:E; simpl; [|apply IH].
  rewrite (group_selected_acl _ _ E).
  destruct (clear_cntrs hw (earg_cntrs e) rc g). apply IH.
Qed.

Lemma rlset_selected_bound (ifname : option string) (dir : Z) (gprs : gpc_rlset)
  (groups : list pmf_group_ext) :
  rlset_selected ifname dir gprs = true ->
  rlset_selected None 0 (gprs_with_groups groups gprs) = true.
Proof.
  unfold rlset_selected, gpc_rlset_get_ifp. simpl.
  destruct (gprs_ifp gprs); [reflexivity|discriminate].
Qed.

(** X21.  The filters of the show and clear commands only select: the
    output of the one, and the return code and the hardware calls of the
    other, are those of the command without filters on the selected part
    of the database. *)
Theorem counter_filters_only_select (ifname : option string) (dir : Z)
  (rgname : option string) (db : gpc_db) (g : glob) :
  pmf_arlg_cmd_show_counters hw true ifname dir rgname db
  = pmf_arlg_cmd_show_counters hw true None 0 None
      (db_select ifname dir rgname db)
  /\ pmf_arlg_cmd_clear_counters hw ifname dir rgname db g
     = pmf_arlg_cmd_clear_counters hw None 0 None
         (db_select ifname dir rgname db) g.
Proof.
  unfold pmf_arlg_cmd_show_counters, pmf_arlg_cmd_clear_counters, db_select.
  cbn [negb filter_dir filter_rgname Z.eqb].
  set (d := filter_dir ifname dir). set (r := filter_rgname d rgname).
  change (match ifname with Some _ => dir | None => 0 end) with d.
  split.
  - do 2 f_equal. f_equal.
    induction db as [|s rest IH]; simpl; [reflexivity|].
    destruct (rlset_selected ifname d s) eqn:E; simpl; [|exact IH].
    rewrite (rlset_selected_bound _ _ _ _ E).
    rewrite IH, <- show_groups_select. reflexivity.
  - generalize 0 at 1 3 as rc. revert g.
    induction db as [|s rest IH]; intros g rc; simpl; [reflexivity|].
    destruct (rlset_selected ifname d s) eqn:E; simpl; [|apply IH].
    rewrite (rlset_selected_bound _ _ _ _ E).
    rewrite <- clear_groups_select.
    destruct (clear_groups hw r (gprs_groups s) rc g). apply IH.
Qed.

End ShowCounters.

(* ------------------------------------------------------------------ *)
(** ** The properties at concrete inputs *)

Lemma cntr_release_refcounted_witness :
  let earg' :=
    fst (pmf_arlg_hw_ntfy_cntr_del_each [10; 11] earg_two_refs (glob_init [])) in
  let g' :=
    snd (pmf_arlg_hw_ntfy_cntr_del_each [10; 11] earg_two_refs (glob_init [])) in
  cntr_deref (earg_cntrs earg') 5%nat = None
  /\ ~ In 5%nat (map fst (earg_cntrs earg'))
  /\ pmf_arlg_find_cntr earg' (eark_name eark_accept) <> Some 5%nat
  /\ hw_queue g'
     = hw_queue (glob_init [])
         ++ (if flag_test (eark_flags eark_accept) PMF_EARKF_LL_CREATED
             then [HwCounterDelete 5%nat] else []).
Proof.
  destruct (cntr_release_refcounted [10; 11] earg_two_refs (glob_init [])
              5%nat eark_accept) as (_ & _ & H).
  - reflexivity.
  - simpl. repeat constructor. simpl. tauto.
  - reflexivity.
  - reflexivity.
  - repeat constructor; simpl; intuition discriminate.
  - intros r [<-|[<-|[]]]; reflexivity.
  - simpl. lia.
  - simpl. lia.
  - apply H. reflexivity.
Defined.

Lemma teardown_notification_order_witness :
  hw_queue (snd (pmf_arlg_attpt_grp_ev_handler ras_bits hw_all_ok
                   NPF_ATTPT_EV_GRP_DEL NPF_ATTACH_TYPE_INTERFACE
                   NPF_RULE_CLASS_ACL "g1" NPF_RS_ACL_IN true 0 []
                   rlset_with_cntg (glob_init [])))
  = hw_queue (glob_init []) ++ teardown_ntfys (earg_gprg earg_pub_v4_cntg)
  /\ hw_queue (snd (pmf_arlg_rl_attr_check hw_all_ok rlset_eth0_up
                      earg_pub_v4_cntg None (glob_init [])))
     = hw_queue (glob_init []) ++ teardown_ntfys (earg_gprg earg_pub_v4_cntg)
  /\ hw_queue (snd (pmf_arlg_rl_attr_check hw_all_ok rlset_eth0_up
                      earg_pub_v4 (Some attr_nofam) (glob_init [])))
     = hw_queue (glob_init []) ++ teardown_ntfys (earg_gprg earg_pub_v4)
  /\ hw_queue (snd (pmf_arlg_rl_attr_check hw_all_ok rlset_eth0_up
                      earg_pub_v4 (Some attr_v6) (glob_init [])))
     = hw_queue (glob_init []) ++ teardown_ntfys (earg_gprg earg_pub_v4)
         ++ publish_ntfys (earg_gprg earg_pub_v4).
Proof.
  destruct (teardown_notification_order hw_all_ok) as (A & B & C & D & _).
  split; [|split; [|split]].
  - apply (A NPF_RS_ACL_IN "g1"%string true 0 [] rlset_with_cntg
             earg_pub_v4_cntg ras_bits (glob_init []));
      [discriminate|reflexivity].
  - apply (B rlset_eth0_up earg_pub_v4_cntg (glob_init [])); reflexivity.
  - apply (C rlset_eth0_up earg_pub_v4 attr_nofam (glob_init []));
      reflexivity.
  - apply (D rlset_eth0_up earg_pub_v4 attr_v6 (mk_ipfam true) (glob_init []));
      try reflexivity. simpl. discriminate.
Defined.

Lemma clear_counters_aggregates_errors_witness :
  fst (pmf_arlg_cmd_clear_counters hw_clear_fails_1 (Some "eth0"%string) (-1)
         (Some "g1"%string) [rlset_bound] (glob_init []))
  = - EIO
  /\ hw_queue (snd (pmf_arlg_cmd_clear_counters hw_clear_fails_1
                      (Some "eth0"%string) (-1) (Some "g1"%string)
                      [rlset_bound] (glob_init [])))
     = hw_queue (glob_init [])
         ++ map HwCounterClear
              (matched_counters (Some "eth0"%string) (-1) (Some "g1"%string)
                 [rlset_bound])
  /\ fst (pmf_arlg_cmd_clear_counters hw_all_ok (Some "eth0"%string) (-1)
            (Some "g1"%string) [rlset_bound] (glob_init []))
     = 0.
Proof.
  split; [|split].
  - apply (clear_counters_aggregates_errors hw_clear_fails_1
             (Some "eth0"%string) (-1) (Some "g1"%string) [rlset_bound]
             (glob_init [])).
    reflexivity.
  - apply (clear_counters_aggregates_errors hw_clear_fails_1
             (Some "eth0"%string) (-1) (Some "g1"%string) [rlset_bound]
             (glob_init [])).
  - apply (clear_counters_aggregates_errors hw_all_ok
             (Some "eth0"%string) (-1) (Some "g1"%string) [rlset_bound]
             (glob_init [])).
    reflexivity.
Defined.

Lemma unbound_ruleset_skipped_witness :
  pmf_arlg_cmd_show_counters hw_all_ok true (Some "eth0"%string) (-1)
    (Some "g1"%string) ([rlset_bound] ++ rlset_unbound :: [])
  = pmf_arlg_cmd_show_counters hw_all_ok true (Some "eth0"%string) (-1)
      (Some "g1"%string) ([rlset_bound] ++ [])
  /\ pmf_arlg_cmd_clear_counters hw_all_ok (Some "eth0"%string) (-1)
       (Some "g1"%string) ([rlset_bound] ++ rlset_unbound :: []) (glob_init [])
     = pmf_arlg_cmd_clear_counters hw_all_ok (Some "eth0"%string) (-1)
         (Some "g1"%string) ([rlset_bound] ++ []) (glob_init []).
Proof.
  apply (unbound_ruleset_skipped hw_all_ok true (Some "eth0"%string) (-1)
           (Some "g1"%string) [rlset_bound] [] rlset_unbound (glob_init [])).
  reflexivity.
Defined.

Lemma commit_idle_noop_witness :
  pmf_arlg_commit hw_all_ok [rlset_bound] glob_idle
  = ([rlset_bound],
     mk_glob false false [] (hw_flushed glob_idle) (allocs glob_idle)
       (heap_next glob_idle))
  /\ hw_flushed (snd (pmf_arlg_commit hw_all_ok [rlset_bound] glob_idle))
     = hw_flushed glob_idle
  /\ hw_queue (snd (pmf_arlg_commit hw_all_ok [rlset_bound] glob_idle)) = [].
Proof.
  apply (commit_idle_noop hw_all_ok [rlset_bound] glob_idle); reflexivity.
Defined.

Lemma rule_count_adds_minus_deletes_done_witness :
  earg_num_rules
    (fst (rule_ops_run ras_bits hw_all_ok rlset_eth0 ops_two_adds
            (earg_created "g1", glob_init [])))
  = count_adds ops_two_adds
    - count_deletes_done ras_bits hw_all_ok rlset_eth0 ops_two_adds
        (earg_created "g1", glob_init []).
Proof.
  apply (rule_count_adds_minus_deletes_done ras_bits hw_all_ok rlset_eth0
           "g1"%string (glob_init []) ops_two_adds).
  vm_compute. reflexivity.
Defined.

Lemma published_follows_family_and_interface_witness :
  (gprs_if_created rlset_published = true
   /\ gpc_group_has_family (earg_gprg earg_published) = true)
  /\ (gprg_published
        (earg_gprg (fst (pmf_arlg_rl_attr_check hw_all_ok rlset_eth0
                           (earg_created "g1") (Some attr_v4) (glob_init []))))
      = false
      /\ gprg_published
           (earg_gprg (fst (pmf_arlg_rl_attr_check hw_all_ok rlset_eth0_up
                              (earg_created "g1") (Some attr_v4)
                              (glob_init []))))
         = true)
  /\ (gprg_published
        (earg_gprg (fst (commit_deferral_group hw_all_ok rlset_eth0
                           earg_blocked_v4 (glob_init []))))
      = false
      /\ gprg_deferred
           (earg_gprg (fst (commit_deferral_group hw_all_ok rlset_eth0
                              earg_blocked_v4 (glob_init []))))
         = false
      /\ gprg_published
           (earg_gprg (fst (commit_deferral_group hw_all_ok rlset_eth0_up
                              earg_blocked_v4 (glob_init []))))
         = true)
  /\ (gprg_published
        (earg_gprg (fst (pmf_arlg_rl_attr_check hw_all_ok rlset_eth0_up
                           earg_pub_v4 None (glob_init [])))) = false
      /\ gpc_group_has_family
           (earg_gprg (fst (pmf_arlg_rl_attr_check hw_all_ok rlset_eth0_up
                              earg_pub_v4 None (glob_init [])))) = false)
  /\ (gprg_published
        (earg_gprg (fst (pmf_arlg_rl_attr_check hw_all_ok rlset_eth0_up
                           earg_pub_v4 (Some attr_nofam) (glob_init []))))
      = false
      /\ gpc_group_has_family
           (earg_gprg (fst (pmf_arlg_rl_attr_check hw_all_ok rlset_eth0_up
                              earg_pub_v4 (Some attr_nofam) (glob_init []))))
         = false)
  /\ (gprg_family
        (earg_gprg (fst (pmf_arlg_rl_attr_check hw_all_ok rlset_eth0_up
                           earg_pub_v4 (Some attr_v6) (glob_init []))))
      = Some true
      /\ gprg_published
           (earg_gprg (fst (pmf_arlg_rl_attr_check hw_all_ok rlset_eth0_up
                              earg_pub_v4 (Some attr_v6) (glob_init []))))
         = true).
Proof.
  destruct (published_follows_family_and_interface ras_bits hw_all_ok)
    as (A & B & C & D & E & F).
  split; [|split; [|split; [|split; [|split]]]].
  - apply (A [] evs_published rlset_published earg_published).
    + vm_compute. left. reflexivity.
    + vm_compute. left. reflexivity.
    + vm_compute. reflexivity.
  - split.
    + apply (B rlset_eth0 (earg_created "g1") attr_v4 (mk_ipfam false)
               (glob_init [])); [reflexivity|left; reflexivity].
    + apply (B rlset_eth0_up (earg_created "g1") attr_v4 (mk_ipfam false)
               (glob_init [])); [reflexivity|left; reflexivity].
  - split; [|split].
    + apply (C rlset_eth0 earg_blocked_v4 (glob_init [])); reflexivity.
    + apply (C rlset_eth0 earg_blocked_v4 (glob_init [])); reflexivity.
    + apply (C rlset_eth0_up earg_blocked_v4 (glob_init [])); reflexivity.
  - apply (D rlset_eth0_up earg_pub_v4 (glob_init [])). reflexivity.
  - apply (E rlset_eth0_up earg_pub_v4 attr_nofam (glob_init []));
      reflexivity.
  - destruct (F rlset_eth0_up earg_pub_v4 attr_v6 (mk_ipfam true)
                (glob_init [])) as (_ & Hf & Hp);
      try reflexivity; [simpl; discriminate|].
    split; [exact Hf|exact Hp].
Defined.

Lemma get_or_alloc_cntr_retains_witness :
  pmf_arlg_find_cntr
    (snd (fst (pmf_arlg_get_or_alloc_cntr earg_named "accept" glob_idle)))
    "accept" = Some 5%nat
  /\ cntr_refs
       (snd (fst (pmf_arlg_get_or_alloc_cntr earg_named "accept" glob_idle)))
       "accept" = 2.
Proof.
  assert (Hwf : cntrs_wf earg_named glob_idle).
  { unfold cntrs_wf. simpl. repeat split; repeat constructor; simpl; auto. }
  assert (Hlen : (String.length "accept" < 8)%nat) by (simpl; lia).
  pose proof (get_or_alloc_cntr_retains earg_named "accept" glob_idle Hlen Hwf)
    as H.
  change (fst (fst (pmf_arlg_get_or_alloc_cntr earg_named "accept" glob_idle)))
    with (Some 5%nat) in H.
  destruct H as (A & B & _). split; [exact A|exact B].
Defined.

Lemma numbered_cntr_names_collide_witness :
  pmf_arlg_alloc_numbered_cntr
    (snd (fst (pmf_arlg_alloc_numbered_cntr earg_numbered 12345678
                 (glob_init []))))
    12345679 (glob_init [])
  = (None,
     snd (fst (pmf_arlg_alloc_numbered_cntr earg_numbered 12345678
                 (glob_init []))),
     glob_init []).
Proof.
  assert (H : pmf_arlg_alloc_numbered_cntr earg_numbered 12345678 (glob_init [])
              = (Some 0%nat,
                 snd (fst (pmf_arlg_alloc_numbered_cntr earg_numbered 12345678
                             (glob_init []))),
                 snd (pmf_arlg_alloc_numbered_cntr earg_numbered 12345678
                        (glob_init []))))
    by (vm_compute; reflexivity).
  destruct (numbered_cntr_names_collide _ _ _ _ _ _ H) as (_ & C & _).
  apply C. vm_compute. reflexivity.
Defined.

Lemma cntr_list_stays_well_formed_witness :
  cntrs_wf
    (fst (pmf_arlg_hw_ntfy_cntr_add ras_bits hw_all_ok earg_named 1 glob_idle))
    (snd (pmf_arlg_hw_ntfy_cntr_add ras_bits hw_all_ok earg_named 1 glob_idle))
  /\ cntrs_wf (fst (pmf_arlg_hw_ntfy_cntr_del earg_named 1 glob_idle))
       (snd (pmf_arlg_hw_ntfy_cntr_del earg_named 1 glob_idle)).
Proof.
  apply (cntr_list_stays_well_formed ras_bits hw_all_ok earg_named 1 glob_idle).
  unfold cntrs_wf. simpl. repeat split; repeat constructor; simpl; auto.
Defined.

Lemma cntr_flags_stay_consistent_witness :
  cntrs_flags_ok
    (fst (pmf_arlg_hw_ntfy_cntr_add ras_bits hw_all_ok earg_named 1 glob_idle))
  /\ pmf_arlg_show_cntr hw_all_ok (5%nat, eark_accept_full)
     = [jsonw_start_object;
        jsonw_string_field "name" "accept";
        jsonw_bool_field "cnt-pkts" true;
        jsonw_bool_field "cnt-bytes" false;
        jsonw_name "hw"; jsonw_start_object;
        jsonw_uint_field "pkts" 0; jsonw_end_object;
        jsonw_end_object].
Proof.
  assert (Hok : cntrs_flags_ok earg_named).
  { unfold cntrs_flags_ok. simpl. repeat constructor. }
  destruct (cntr_flags_stay_consistent ras_bits hw_all_ok earg_named 1
              glob_idle Hok) as (A & _ & _).
  split; [exact A|reflexivity].
Defined.

Lemma numbered_cntr_add_del_round_trip_witness :
  fst (pmf_arlg_hw_ntfy_cntr_del
         (fst (pmf_arlg_hw_ntfy_cntr_add ras_bits hw_all_ok earg_numbered 1
                 (glob_init [])))
         1
         (snd (pmf_arlg_hw_ntfy_cntr_add ras_bits hw_all_ok earg_numbered 1
                 (glob_init []))))
  = earg_numbered
  /\ hw_queue
       (snd (pmf_arlg_hw_ntfy_cntr_del
               (fst (pmf_arlg_hw_ntfy_cntr_add ras_bits hw_all_ok earg_numbered
                       1 (glob_init [])))
               1
               (snd (pmf_arlg_hw_ntfy_cntr_add ras_bits hw_all_ok earg_numbered
                       1 (glob_init [])))))
     = [HwCounterCreate 0%nat; HwCounterDelete 0%nat].
Proof.
  destruct (numbered_cntr_add_del_round_trip ras_bits hw_all_ok earg_numbered 1
              rule_pass_counted (glob_init [])) as (_ & _ & A & B);
    try reflexivity.
  - simpl. discriminate.
  - split; [exact A|exact B].
Defined.

Lemma named_cntr_is_shared_witness :
  gpc_rule_get_owner
    (earg_gprg
       (fst (pmf_arlg_hw_ntfy_cntr_add ras_bits hw_all_ok earg_named 1
               glob_idle))) 1 = Some 5%nat
  /\ earg_cntrs
       (fst (pmf_arlg_hw_ntfy_cntr_add ras_bits hw_all_ok earg_named 1
               glob_idle))
     = [(5%nat, mk_pmf_cntr "accept" 0 7 2)]
  /\ hw_queue
       (snd (pmf_arlg_hw_ntfy_cntr_add ras_bits hw_all_ok earg_named 1
               glob_idle)) = [].
Proof.
  apply (named_cntr_is_shared ras_bits hw_all_ok earg_named 1 rule_pass_counted
           glob_idle 5%nat eark_accept_full); reflexivity.
Defined.

Lemma publication_notification_order_witness :
  hw_queue
    (snd (pmf_arlg_rl_attr_check hw_all_ok rlset_eth0_up (earg_created "g1")
            (Some attr_v4) (glob_init [])))
  = [NtfyGroupCreate "g1"; NtfyRulesCreate "g1"; NtfyGroupAttach "g1"]
  /\ gprg_published
       (earg_gprg
          (fst (pmf_arlg_rl_attr_check hw_all_ok rlset_eth0_up
                  (earg_created "g1") (Some attr_v4) (glob_init []))))
     = true.
Proof.
  destruct (publication_notification_order hw_all_ok rlset_eth0_up
              (earg_created "g1") attr_v4 (mk_ipfam false) (glob_init []))
    as (A & _ & _ & B & _).
  - reflexivity.
  - left. reflexivity.
  - split; [exact A|exact B].
Defined.

Lemma rl_add_outcome_witness :
  earg_num_rules
    (snd (fst (pmf_arlg_rl_add ras_bits hw_all_ok rlset_eth0 (earg_created "g1")
                 rule_pass 1 (glob_init [false]))))
  = 1
  /\ gprg_rules
       (earg_gprg
          (snd (fst (pmf_arlg_rl_add ras_bits hw_all_ok rlset_eth0
                       (earg_created "g1") rule_pass 1 (glob_init [false])))))
     = []
  /\ gpc_rule_get_rule
       (earg_gprg
          (snd (fst (pmf_arlg_rl_add ras_bits hw_all_ok rlset_eth0
                       (earg_created "g1") rule_pass 1 (glob_init [])))))
       1 = Some rule_pass.
Proof.
  assert (Hidx : 1 <> UINT32_MAX) by discriminate.
  destruct (rl_add_outcome ras_bits hw_all_ok rlset_eth0 (earg_created "g1")
              rule_pass 1 (glob_init [false]) Hidx) as (A & _ & _ & _ & B & _).
  destruct (rl_add_outcome ras_bits hw_all_ok rlset_eth0 (earg_created "g1")
              rule_pass 1 (glob_init []) Hidx) as (_ & _ & _ & _ & _ & C).
  split; [exact A|split].
  - apply B. reflexivity.
  - apply C; [reflexivity|]. simpl. tauto.
Defined.

Lemma rl_chg_outcome_witness :
  fst (fst (pmf_arlg_rl_chg ras_bits hw_all_ok rlset_eth0_up earg_pub_v4
              rule_pass_counted 1 (glob_init []))) = true
  /\ gpc_rule_get_rule
       (earg_gprg
          (snd (fst (pmf_arlg_rl_chg ras_bits hw_all_ok rlset_eth0_up earg_pub_v4
                       rule_pass_counted 1 (glob_init []))))) 1
     = Some rule_pass_counted
  /\ pmf_arlg_rl_chg ras_bits hw_all_ok rlset_eth0_up earg_pub_v4
       rule_pass_counted 7 (glob_init [])
     = (false, earg_pub_v4, glob_init []).
Proof.
  destruct (rl_chg_outcome ras_bits hw_all_ok rlset_eth0_up earg_pub_v4
              rule_pass_counted 1 (glob_init [])) as (A & _ & _ & _ & B).
  destruct (rl_chg_outcome ras_bits hw_all_ok rlset_eth0_up earg_pub_v4
              rule_pass_counted 7 (glob_init [])) as (C & D & _).
  split; [exact A|split].
  - apply (B eq_refl).
  - destruct (D eq_refl) as (D1 & D2).
    destruct (pmf_arlg_rl_chg ras_bits hw_all_ok rlset_eth0_up earg_pub_v4
                rule_pass_counted 7 (glob_init [])) as [[ok e] g'].
    simpl in *. now subst.
Defined.

Lemma rl_add_del_round_trip_witness :
  snd (fst (pmf_arlg_rl_del hw_all_ok rlset_eth0
              (snd (fst (pmf_arlg_rl_add ras_bits hw_all_ok rlset_eth0
                           (earg_created "g1") rule_pass 1 (glob_init []))))
              1
              (snd (pmf_arlg_rl_add ras_bits hw_all_ok rlset_eth0
                      (earg_created "g1") rule_pass 1 (glob_init [])))))
  = earg_created "g1".
Proof.
  destruct (rl_add_del_round_trip ras_bits hw_all_ok rlset_eth0
              (earg_created "g1") rule_pass 1 (glob_init []))
    as (_ & _ & _ & _ & _ & _ & A).
  - discriminate.
  - reflexivity.
  - simpl. tauto.
  - simpl. lia.
  - simpl. discriminate.
  - apply A; reflexivity.
Defined.

Lemma rl_del_attr_of_flagged_group_witness :
  hw_queue (snd (pmf_arlg_rl_del hw_all_ok rlset_eth0_up earg_pub_v4 UINT32_MAX
                   (glob_init [])))
  = [NtfyGroupDetach "g1"; NtfyRulesDelete "g1"; NtfyGroupDelete "g1"]
  /\ gprg_deferred
       (earg_gprg
          (snd (fst (pmf_arlg_rl_del hw_all_ok rlset_eth0_up earg_pub_v4
                       UINT32_MAX (glob_init []))))) = true.
Proof.
  destruct (rl_del_attr_of_flagged_group hw_all_ok rlset_eth0_up earg_pub_v4
              attr_v4 (glob_init [])) as (_ & A & _ & _ & B & _);
    try reflexivity.
  split; [exact A|exact B].
Defined.

Lemma rl_del_outcome_witness :
  pmf_arlg_rl_del hw_all_ok rlset_eth0_up earg_pub_v4 7 (glob_init [])
  = (false, earg_pub_v4, glob_init [])
  /\ gprg_rules
       (earg_gprg
          (snd (fst (pmf_arlg_rl_del hw_all_ok rlset_eth0_up earg_pub_v4 1
                       (glob_init []))))) = [].
Proof.
  destruct (rl_del_outcome hw_all_ok rlset_eth0_up earg_pub_v4 7 (glob_init []))
    as (A & B & _).
  destruct (rl_del_outcome hw_all_ok rlset_eth0_up earg_pub_v4 1 (glob_init []))
    as (_ & _ & C & _).
  split.
  - destruct (B eq_refl) as (B1 & B2).
    destruct (pmf_arlg_rl_del hw_all_ok rlset_eth0_up earg_pub_v4 7
                (glob_init [])) as [[ok e] g'].
    simpl in *. now subst.
  - destruct C as (_ & C & _); [reflexivity|discriminate|exact C].
Defined.

Lemma change_cntg_returns_early_witness :
  pmf_arlg_rule_change_cntg ras_bits hw_all_ok rlset_eth0_up earg_pub_v4_cntg
    attr_v6_numbered (glob_init [])
  = (earg_pub_v4_cntg, glob_init []).
Proof.
  destruct (change_cntg_returns_early ras_bits hw_all_ok rlset_eth0_up
              earg_pub_v4_cntg
              (mk_gpc_cntg GPC_CNTT_NUMBERED [mk_gpc_cntr "1" 1 true true])
              attr_v6_numbered (glob_init []) eq_refl) as (A & _).
  apply A; reflexivity.
Defined.

Lemma rls_updn_binds_then_notifies_witness :
  gprs_ifp (fst (pmf_arlg_attpt_rls_updn true (Some 7) rlset_unbound
                   (glob_init []))) = Some 7
  /\ hw_queue (snd (pmf_arlg_attpt_rls_updn true (Some 7) rlset_unbound
                      (glob_init []))) = [NtfyGroupAttach "g1"]
  /\ gprs_ifp (fst (pmf_arlg_attpt_rls_updn false None rlset_bound
                      (glob_init []))) = None
  /\ hw_queue (snd (pmf_arlg_attpt_rls_updn false None rlset_bound
                      (glob_init []))) = [NtfyGroupDetach "g1"].
Proof.
  destruct (rls_updn_binds_then_notifies true (Some 7) rlset_unbound
              (glob_init [])) as (_ & A & _).
  destruct (rls_updn_binds_then_notifies false None rlset_bound (glob_init []))
    as (_ & _ & B & _).
  destruct A as (A1 & A2 & _); [reflexivity|discriminate|].
  destruct B as (B1 & B2 & _); [reflexivity|].
  repeat split; assumption.
Defined.

Lemma interface_events_force_commit_witness :
  hw_queue
    (snd (pmf_arlg_attpt_ap_ev_handler NPF_ATTPT_EV_DOWN "eth0" true false None
            [rlset_bound] (glob_init []))) = []
  /\ hw_flushed
       (snd (pmf_arlg_attpt_ap_ev_handler NPF_ATTPT_EV_DOWN "eth0" true false
               None [rlset_bound] glob_idle)) = [].
Proof.
  destruct interface_events_force_commit as (A & _).
  destruct (A NPF_ATTPT_EV_DOWN "eth0"%string true false None [rlset_bound]
              (glob_init [])) as (_ & _ & H1 & _).
  destruct (A NPF_ATTPT_EV_DOWN "eth0"%string true false None [rlset_bound]
              glob_idle) as (_ & _ & _ & H2).
  split; [apply H1; reflexivity|apply H2; reflexivity].
Defined.

Lemma grp_attach_builds_group_witness :
  exists earg : pmf_group_ext,
    gprs_groups
      (fst (pmf_arlg_attpt_grp_ev_handler ras_bits hw_all_ok
              NPF_ATTPT_EV_GRP_ADD NPF_ATTACH_TYPE_INTERFACE NPF_RULE_CLASS_ACL
              "g1" NPF_RS_ACL_IN true 0
              [mk_walk_state UINT32_MAX attr_v4; mk_walk_state 1 rule_pass]
              rlset_eth0 (glob_init [])))
    = [earg]
    /\ earg_num_rules earg = 1
    /\ earg_attr_rule earg = Some attr_v4.
Proof.
  assert (Hrls : NPF_RS_ACL_IN <> NPF_RS_OTHER) by discriminate.
  destruct (grp_attach_builds_group ras_bits hw_all_ok "g1" NPF_RS_ACL_IN true 0
              [mk_walk_state UINT32_MAX attr_v4; mk_walk_state 1 rule_pass]
              rlset_eth0 (glob_init []) Hrls) as (_ & A & B).
  destruct (A eq_refl eq_refl eq_refl) as (earg & He).
  exists earg. destruct (B earg He) as (_ & _ & B1 & B2 & _).
  split; [exact He|split; [exact B1|exact B2]].
Defined.
